(** * x86Tester: the per-instruction test generator

    A shallow embedding of the test generator of x86Tester: the register
    analysis ([getRegsModified], [getRegsRead]), the bit-matrix builder
    ([generateTestMatrix]), the staging of outputs and inputs
    ([clearOutput], [advanceInputs]), the capture of outputs
    ([checkOutputs]) and the search loop ([testInstruction]), followed by
    the properties of these functions.

    Conventions.  Machine words (flag masks, immediates, bytes, the loop
    counter) are [Z]; widths, bit positions, byte offsets and indices are
    [nat].  The decoder (Zydis), the execution context, the pseudo random
    number generator and the input generators are outside the sources: the
    decoder's register metadata is a type class, the register file of the
    execution context is modelled from the specification, and the decoder,
    the random numbers, the input generators and the execution itself are
    the fields of a class of collaborators. *)

From stdpp Require Import base decidable option list numbers functions sorting.
From Stdlib Require Import ZArith Lia.

(** ** Decoder data *)

Inductive ZydisMachineMode : Set :=
  | ZYDIS_MACHINE_MODE_LONG_64
  | ZYDIS_MACHINE_MODE_LONG_COMPAT_32
  | ZYDIS_MACHINE_MODE_LONG_COMPAT_16
  | ZYDIS_MACHINE_MODE_LEGACY_32
  | ZYDIS_MACHINE_MODE_LEGACY_16
  | ZYDIS_MACHINE_MODE_REAL_16.

Inductive ZydisRegisterClass : Set :=
  | ZYDIS_REGCLASS_INVALID
  | ZYDIS_REGCLASS_GPR8
  | ZYDIS_REGCLASS_GPR16
  | ZYDIS_REGCLASS_GPR32
  | ZYDIS_REGCLASS_GPR64
  | ZYDIS_REGCLASS_XMM
  | ZYDIS_REGCLASS_ZMM
  | ZYDIS_REGCLASS_FLAGS
  | ZYDIS_REGCLASS_IP.

(** The registers of the decoder that the generator can meet in the
    instruction forms it enumerates, in the order of the decoder's
    enumeration. *)
Inductive ZydisRegister : Set :=
  (* no register *)
  | ZYDIS_REGISTER_NONE
  (* general purpose, 8 bit *)
  | ZYDIS_REGISTER_AL | ZYDIS_REGISTER_CL | ZYDIS_REGISTER_DL
  | ZYDIS_REGISTER_BL | ZYDIS_REGISTER_AH | ZYDIS_REGISTER_CH
  | ZYDIS_REGISTER_DH | ZYDIS_REGISTER_BH | ZYDIS_REGISTER_SPL
  | ZYDIS_REGISTER_BPL | ZYDIS_REGISTER_SIL | ZYDIS_REGISTER_DIL
  | ZYDIS_REGISTER_R8B | ZYDIS_REGISTER_R9B | ZYDIS_REGISTER_R10B
  | ZYDIS_REGISTER_R11B | ZYDIS_REGISTER_R12B | ZYDIS_REGISTER_R13B
  | ZYDIS_REGISTER_R14B | ZYDIS_REGISTER_R15B
  (* general purpose, 16 bit *)
  | ZYDIS_REGISTER_AX | ZYDIS_REGISTER_CX | ZYDIS_REGISTER_DX
  | ZYDIS_REGISTER_BX | ZYDIS_REGISTER_SP | ZYDIS_REGISTER_BP
  | ZYDIS_REGISTER_SI | ZYDIS_REGISTER_DI | ZYDIS_REGISTER_R8W
  | ZYDIS_REGISTER_R9W | ZYDIS_REGISTER_R10W | ZYDIS_REGISTER_R11W
  | ZYDIS_REGISTER_R12W | ZYDIS_REGISTER_R13W | ZYDIS_REGISTER_R14W
  | ZYDIS_REGISTER_R15W
  (* general purpose, 32 bit *)
  | ZYDIS_REGISTER_EAX | ZYDIS_REGISTER_ECX | ZYDIS_REGISTER_EDX
  | ZYDIS_REGISTER_EBX | ZYDIS_REGISTER_ESP | ZYDIS_REGISTER_EBP
  | ZYDIS_REGISTER_ESI | ZYDIS_REGISTER_EDI | ZYDIS_REGISTER_R8D
  | ZYDIS_REGISTER_R9D | ZYDIS_REGISTER_R10D | ZYDIS_REGISTER_R11D
  | ZYDIS_REGISTER_R12D | ZYDIS_REGISTER_R13D | ZYDIS_REGISTER_R14D
  | ZYDIS_REGISTER_R15D
  (* general purpose, 64 bit *)
  | ZYDIS_REGISTER_RAX | ZYDIS_REGISTER_RCX | ZYDIS_REGISTER_RDX
  | ZYDIS_REGISTER_RBX | ZYDIS_REGISTER_RSP | ZYDIS_REGISTER_RBP
  | ZYDIS_REGISTER_RSI | ZYDIS_REGISTER_RDI | ZYDIS_REGISTER_R8
  | ZYDIS_REGISTER_R9 | ZYDIS_REGISTER_R10 | ZYDIS_REGISTER_R11
  | ZYDIS_REGISTER_R12 | ZYDIS_REGISTER_R13 | ZYDIS_REGISTER_R14
  | ZYDIS_REGISTER_R15
  (* vector, 128 bit *)
  | ZYDIS_REGISTER_XMM0 | ZYDIS_REGISTER_XMM1 | ZYDIS_REGISTER_XMM2
  | ZYDIS_REGISTER_XMM3 | ZYDIS_REGISTER_XMM4 | ZYDIS_REGISTER_XMM5
  | ZYDIS_REGISTER_XMM6 | ZYDIS_REGISTER_XMM7 | ZYDIS_REGISTER_XMM8
  | ZYDIS_REGISTER_XMM9 | ZYDIS_REGISTER_XMM10 | ZYDIS_REGISTER_XMM11
  | ZYDIS_REGISTER_XMM12 | ZYDIS_REGISTER_XMM13 | ZYDIS_REGISTER_XMM14
  | ZYDIS_REGISTER_XMM15
  (* vector, 512 bit *)
  | ZYDIS_REGISTER_ZMM0 | ZYDIS_REGISTER_ZMM1 | ZYDIS_REGISTER_ZMM2
  | ZYDIS_REGISTER_ZMM3 | ZYDIS_REGISTER_ZMM4 | ZYDIS_REGISTER_ZMM5
  | ZYDIS_REGISTER_ZMM6 | ZYDIS_REGISTER_ZMM7 | ZYDIS_REGISTER_ZMM8
  | ZYDIS_REGISTER_ZMM9 | ZYDIS_REGISTER_ZMM10 | ZYDIS_REGISTER_ZMM11
  | ZYDIS_REGISTER_ZMM12 | ZYDIS_REGISTER_ZMM13 | ZYDIS_REGISTER_ZMM14
  | ZYDIS_REGISTER_ZMM15
  (* flags *)
  | ZYDIS_REGISTER_FLAGS | ZYDIS_REGISTER_EFLAGS | ZYDIS_REGISTER_RFLAGS
  (* instruction pointer *)
  | ZYDIS_REGISTER_IP | ZYDIS_REGISTER_EIP | ZYDIS_REGISTER_RIP.

(** The enumerator values give the order of the enumeration, which is the
    order [sfl::small_flat_set] and [sfl::small_flat_map] keep their keys in. *)
Definition ZydisRegister_id (r : ZydisRegister) : positive :=
  match r with
  | ZYDIS_REGISTER_NONE => 1
  | ZYDIS_REGISTER_AL => 2
  | ZYDIS_REGISTER_CL => 3
  | ZYDIS_REGISTER_DL => 4
  | ZYDIS_REGISTER_BL => 5
  | ZYDIS_REGISTER_AH => 6
  | ZYDIS_REGISTER_CH => 7
  | ZYDIS_REGISTER_DH => 8
  | ZYDIS_REGISTER_BH => 9
  | ZYDIS_REGISTER_SPL => 10
  | ZYDIS_REGISTER_BPL => 11
  | ZYDIS_REGISTER_SIL => 12
  | ZYDIS_REGISTER_DIL => 13
  | ZYDIS_REGISTER_R8B => 14
  | ZYDIS_REGISTER_R9B => 15
  | ZYDIS_REGISTER_R10B => 16
  | ZYDIS_REGISTER_R11B => 17
  | ZYDIS_REGISTER_R12B => 18
  | ZYDIS_REGISTER_R13B => 19
  | ZYDIS_REGISTER_R14B => 20
  | ZYDIS_REGISTER_R15B => 21
  | ZYDIS_REGISTER_AX => 22
  | ZYDIS_REGISTER_CX => 23
  | ZYDIS_REGISTER_DX => 24
  | ZYDIS_REGISTER_BX => 25
  | ZYDIS_REGISTER_SP => 26
  | ZYDIS_REGISTER_BP => 27
  | ZYDIS_REGISTER_SI => 28
  | ZYDIS_REGISTER_DI => 29
  | ZYDIS_REGISTER_R8W => 30
  | ZYDIS_REGISTER_R9W => 31
  | ZYDIS_REGISTER_R10W => 32
  | ZYDIS_REGISTER_R11W => 33
  | ZYDIS_REGISTER_R12W => 34
  | ZYDIS_REGISTER_R13W => 35
  | ZYDIS_REGISTER_R14W => 36
  | ZYDIS_REGISTER_R15W => 37
  | ZYDIS_REGISTER_EAX => 38
  | ZYDIS_REGISTER_ECX => 39
  | ZYDIS_REGISTER_EDX => 40
  | ZYDIS_REGISTER_EBX => 41
  | ZYDIS_REGISTER_ESP => 42
  | ZYDIS_REGISTER_EBP => 43
  | ZYDIS_REGISTER_ESI => 44
  | ZYDIS_REGISTER_EDI => 45
  | ZYDIS_REGISTER_R8D => 46
  | ZYDIS_REGISTER_R9D => 47
  | ZYDIS_REGISTER_R10D => 48
  | ZYDIS_REGISTER_R11D => 49
  | ZYDIS_REGISTER_R12D => 50
  | ZYDIS_REGISTER_R13D => 51
  | ZYDIS_REGISTER_R14D => 52
  | ZYDIS_REGISTER_R15D => 53
  | ZYDIS_REGISTER_RAX => 54
  | ZYDIS_REGISTER_RCX => 55
  | ZYDIS_REGISTER_RDX => 56
  | ZYDIS_REGISTER_RBX => 57
  | ZYDIS_REGISTER_RSP => 58
  | ZYDIS_REGISTER_RBP => 59
  | ZYDIS_REGISTER_RSI => 60
  | ZYDIS_REGISTER_RDI => 61
  | ZYDIS_REGISTER_R8 => 62
  | ZYDIS_REGISTER_R9 => 63
  | ZYDIS_REGISTER_R10 => 64
  | ZYDIS_REGISTER_R11 => 65
  | ZYDIS_REGISTER_R12 => 66
  | ZYDIS_REGISTER_R13 => 67
  | ZYDIS_REGISTER_R14 => 68
  | ZYDIS_REGISTER_R15 => 69
  | ZYDIS_REGISTER_XMM0 => 70
  | ZYDIS_REGISTER_XMM1 => 71
  | ZYDIS_REGISTER_XMM2 => 72
  | ZYDIS_REGISTER_XMM3 => 73
  | ZYDIS_REGISTER_XMM4 => 74
  | ZYDIS_REGISTER_XMM5 => 75
  | ZYDIS_REGISTER_XMM6 => 76
  | ZYDIS_REGISTER_XMM7 => 77
  | ZYDIS_REGISTER_XMM8 => 78
  | ZYDIS_REGISTER_XMM9 => 79
  | ZYDIS_REGISTER_XMM10 => 80
  | ZYDIS_REGISTER_XMM11 => 81
  | ZYDIS_REGISTER_XMM12 => 82
  | ZYDIS_REGISTER_XMM13 => 83
  | ZYDIS_REGISTER_XMM14 => 84
  | ZYDIS_REGISTER_XMM15 => 85
  | ZYDIS_REGISTER_ZMM0 => 86
  | ZYDIS_REGISTER_ZMM1 => 87
  | ZYDIS_REGISTER_ZMM2 => 88
  | ZYDIS_REGISTER_ZMM3 => 89
  | ZYDIS_REGISTER_ZMM4 => 90
  | ZYDIS_REGISTER_ZMM5 => 91
  | ZYDIS_REGISTER_ZMM6 => 92
  | ZYDIS_REGISTER_ZMM7 => 93
  | ZYDIS_REGISTER_ZMM8 => 94
  | ZYDIS_REGISTER_ZMM9 => 95
  | ZYDIS_REGISTER_ZMM10 => 96
  | ZYDIS_REGISTER_ZMM11 => 97
  | ZYDIS_REGISTER_ZMM12 => 98
  | ZYDIS_REGISTER_ZMM13 => 99
  | ZYDIS_REGISTER_ZMM14 => 100
  | ZYDIS_REGISTER_ZMM15 => 101
  | ZYDIS_REGISTER_FLAGS => 102
  | ZYDIS_REGISTER_EFLAGS => 103
  | ZYDIS_REGISTER_RFLAGS => 104
  | ZYDIS_REGISTER_IP => 105
  | ZYDIS_REGISTER_EIP => 106
  | ZYDIS_REGISTER_RIP => 107
  end%positive.

Definition ZydisRegister_of_id (p : positive) : option ZydisRegister :=
  match p with
  | 1 => Some ZYDIS_REGISTER_NONE
  | 2 => Some ZYDIS_REGISTER_AL
  | 3 => Some ZYDIS_REGISTER_CL
  | 4 => Some ZYDIS_REGISTER_DL
  | 5 => Some ZYDIS_REGISTER_BL
  | 6 => Some ZYDIS_REGISTER_AH
  | 7 => Some ZYDIS_REGISTER_CH
  | 8 => Some ZYDIS_REGISTER_DH
  | 9 => Some ZYDIS_REGISTER_BH
  | 10 => Some ZYDIS_REGISTER_SPL
  | 11 => Some ZYDIS_REGISTER_BPL
  | 12 => Some ZYDIS_REGISTER_SIL
  | 13 => Some ZYDIS_REGISTER_DIL
  | 14 => Some ZYDIS_REGISTER_R8B
  | 15 => Some ZYDIS_REGISTER_R9B
  | 16 => Some ZYDIS_REGISTER_R10B
  | 17 => Some ZYDIS_REGISTER_R11B
  | 18 => Some ZYDIS_REGISTER_R12B
  | 19 => Some ZYDIS_REGISTER_R13B
  | 20 => Some ZYDIS_REGISTER_R14B
  | 21 => Some ZYDIS_REGISTER_R15B
  | 22 => Some ZYDIS_REGISTER_AX
  | 23 => Some ZYDIS_REGISTER_CX
  | 24 => Some ZYDIS_REGISTER_DX
  | 25 => Some ZYDIS_REGISTER_BX
  | 26 => Some ZYDIS_REGISTER_SP
  | 27 => Some ZYDIS_REGISTER_BP
  | 28 => Some ZYDIS_REGISTER_SI
  | 29 => Some ZYDIS_REGISTER_DI
  | 30 => Some ZYDIS_REGISTER_R8W
  | 31 => Some ZYDIS_REGISTER_R9W
  | 32 => Some ZYDIS_REGISTER_R10W
  | 33 => Some ZYDIS_REGISTER_R11W
  | 34 => Some ZYDIS_REGISTER_R12W
  | 35 => Some ZYDIS_REGISTER_R13W
  | 36 => Some ZYDIS_REGISTER_R14W
  | 37 => Some ZYDIS_REGISTER_R15W
  | 38 => Some ZYDIS_REGISTER_EAX
  | 39 => Some ZYDIS_REGISTER_ECX
  | 40 => Some ZYDIS_REGISTER_EDX
  | 41 => Some ZYDIS_REGISTER_EBX
  | 42 => Some ZYDIS_REGISTER_ESP
  | 43 => Some ZYDIS_REGISTER_EBP
  | 44 => Some ZYDIS_REGISTER_ESI
  | 45 => Some ZYDIS_REGISTER_EDI
  | 46 => Some ZYDIS_REGISTER_R8D
  | 47 => Some ZYDIS_REGISTER_R9D
  | 48 => Some ZYDIS_REGISTER_R10D
  | 49 => Some ZYDIS_REGISTER_R11D
  | 50 => Some ZYDIS_REGISTER_R12D
  | 51 => Some ZYDIS_REGISTER_R13D
  | 52 => Some ZYDIS_REGISTER_R14D
  | 53 => Some ZYDIS_REGISTER_R15D
  | 54 => Some ZYDIS_REGISTER_RAX
  | 55 => Some ZYDIS_REGISTER_RCX
  | 56 => Some ZYDIS_REGISTER_RDX
  | 57 => Some ZYDIS_REGISTER_RBX
  | 58 => Some ZYDIS_REGISTER_RSP
  | 59 => Some ZYDIS_REGISTER_RBP
  | 60 => Some ZYDIS_REGISTER_RSI
  | 61 => Some ZYDIS_REGISTER_RDI
  | 62 => Some ZYDIS_REGISTER_R8
  | 63 => Some ZYDIS_REGISTER_R9
  | 64 => Some ZYDIS_REGISTER_R10
  | 65 => Some ZYDIS_REGISTER_R11
  | 66 => Some ZYDIS_REGISTER_R12
  | 67 => Some ZYDIS_REGISTER_R13
  | 68 => Some ZYDIS_REGISTER_R14
  | 69 => Some ZYDIS_REGISTER_R15
  | 70 => Some ZYDIS_REGISTER_XMM0
  | 71 => Some ZYDIS_REGISTER_XMM1
  | 72 => Some ZYDIS_REGISTER_XMM2
  | 73 => Some ZYDIS_REGISTER_XMM3
  | 74 => Some ZYDIS_REGISTER_XMM4
  | 75 => Some ZYDIS_REGISTER_XMM5
  | 76 => Some ZYDIS_REGISTER_XMM6
  | 77 => Some ZYDIS_REGISTER_XMM7
  | 78 => Some ZYDIS_REGISTER_XMM8
  | 79 => Some ZYDIS_REGISTER_XMM9
  | 80 => Some ZYDIS_REGISTER_XMM10
  | 81 => Some ZYDIS_REGISTER_XMM11
  | 82 => Some ZYDIS_REGISTER_XMM12
  | 83 => Some ZYDIS_REGISTER_XMM13
  | 84 => Some ZYDIS_REGISTER_XMM14
  | 85 => Some ZYDIS_REGISTER_XMM15
  | 86 => Some ZYDIS_REGISTER_ZMM0
  | 87 => Some ZYDIS_REGISTER_ZMM1
  | 88 => Some ZYDIS_REGISTER_ZMM2
  | 89 => Some ZYDIS_REGISTER_ZMM3
  | 90 => Some ZYDIS_REGISTER_ZMM4
  | 91 => Some ZYDIS_REGISTER_ZMM5
  | 92 => Some ZYDIS_REGISTER_ZMM6
  | 93 => Some ZYDIS_REGISTER_ZMM7
  | 94 => Some ZYDIS_REGISTER_ZMM8
  | 95 => Some ZYDIS_REGISTER_ZMM9
  | 96 => Some ZYDIS_REGISTER_ZMM10
  | 97 => Some ZYDIS_REGISTER_ZMM11
  | 98 => Some ZYDIS_REGISTER_ZMM12
  | 99 => Some ZYDIS_REGISTER_ZMM13
  | 100 => Some ZYDIS_REGISTER_ZMM14
  | 101 => Some ZYDIS_REGISTER_ZMM15
  | 102 => Some ZYDIS_REGISTER_FLAGS
  | 103 => Some ZYDIS_REGISTER_EFLAGS
  | 104 => Some ZYDIS_REGISTER_RFLAGS
  | 105 => Some ZYDIS_REGISTER_IP
  | 106 => Some ZYDIS_REGISTER_EIP
  | 107 => Some ZYDIS_REGISTER_RIP
  | _ => None
  end%positive.

#[global] Instance ZydisRegister_eq_dec : EqDecision ZydisRegister.
Proof.
  intros a b.
  destruct (decide (ZydisRegister_id a = ZydisRegister_id b)) as [Heq|Hne].
  - left.
    assert (∀ r, ZydisRegister_of_id (ZydisRegister_id r) = Some r) as Hid
      by (by intros []).
    apply (inj Some). by rewrite <- (Hid a), <- (Hid b), Heq.
  - right. intros ->. by apply Hne.
Defined.

#[global] Instance ZydisRegisterClass_eq_dec : EqDecision ZydisRegisterClass.
Proof. solve_decision. Defined.

#[global] Instance ZydisMachineMode_eq_dec : EqDecision ZydisMachineMode.
Proof. solve_decision. Defined.

(** The mnemonics the generator distinguishes; every other mnemonic of the
    decoder is [ZYDIS_MNEMONIC_other] with its enumerator value. *)
Inductive ZydisMnemonic : Set :=
  | ZYDIS_MNEMONIC_ADD | ZYDIS_MNEMONIC_AND | ZYDIS_MNEMONIC_BSWAP
  | ZYDIS_MNEMONIC_BTR | ZYDIS_MNEMONIC_CMP | ZYDIS_MNEMONIC_DIV
  | ZYDIS_MNEMONIC_FADD | ZYDIS_MNEMONIC_LEA | ZYDIS_MNEMONIC_MOV
  | ZYDIS_MNEMONIC_OR
  | ZYDIS_MNEMONIC_SETB | ZYDIS_MNEMONIC_SETBE | ZYDIS_MNEMONIC_SETL
  | ZYDIS_MNEMONIC_SETLE | ZYDIS_MNEMONIC_SETNB | ZYDIS_MNEMONIC_SETNBE
  | ZYDIS_MNEMONIC_SETNL | ZYDIS_MNEMONIC_SETNLE | ZYDIS_MNEMONIC_SETNO
  | ZYDIS_MNEMONIC_SETNP | ZYDIS_MNEMONIC_SETNS | ZYDIS_MNEMONIC_SETNZ
  | ZYDIS_MNEMONIC_SETO | ZYDIS_MNEMONIC_SETP | ZYDIS_MNEMONIC_SETS
  | ZYDIS_MNEMONIC_SETZ
  | ZYDIS_MNEMONIC_SUB | ZYDIS_MNEMONIC_TEST | ZYDIS_MNEMONIC_XOR
  | ZYDIS_MNEMONIC_other (id : Z).

#[global] Instance ZydisMnemonic_eq_dec : EqDecision ZydisMnemonic.
Proof. solve_decision. Defined.

Inductive ZydisOperandType : Set :=
  | ZYDIS_OPERAND_TYPE_UNUSED
  | ZYDIS_OPERAND_TYPE_REGISTER
  | ZYDIS_OPERAND_TYPE_MEMORY
  | ZYDIS_OPERAND_TYPE_POINTER
  | ZYDIS_OPERAND_TYPE_IMMEDIATE.

#[global] Instance ZydisOperandType_eq_dec : EqDecision ZydisOperandType.
Proof. solve_decision. Defined.

(** [ZYDIS_OPERAND_ACTION_MASK_WRITE] is [WRITE | CONDWRITE]. *)
Definition ZYDIS_OPERAND_ACTION_READ : Z := 1.
Definition ZYDIS_OPERAND_ACTION_WRITE : Z := 2.
Definition ZYDIS_OPERAND_ACTION_CONDREAD : Z := 4.
Definition ZYDIS_OPERAND_ACTION_CONDWRITE : Z := 8.
Definition ZYDIS_OPERAND_ACTION_MASK_WRITE : Z :=
  Z.lor ZYDIS_OPERAND_ACTION_WRITE ZYDIS_OPERAND_ACTION_CONDWRITE.

(** The bits of EFLAGS, at their architectural positions. *)
Definition ZYDIS_CPUFLAG_CF : Z := Z.shiftl 1 0.
Definition ZYDIS_CPUFLAG_PF : Z := Z.shiftl 1 2.
Definition ZYDIS_CPUFLAG_AF : Z := Z.shiftl 1 4.
Definition ZYDIS_CPUFLAG_ZF : Z := Z.shiftl 1 6.
Definition ZYDIS_CPUFLAG_SF : Z := Z.shiftl 1 7.
Definition ZYDIS_CPUFLAG_TF : Z := Z.shiftl 1 8.
Definition ZYDIS_CPUFLAG_IF : Z := Z.shiftl 1 9.
Definition ZYDIS_CPUFLAG_DF : Z := Z.shiftl 1 10.
Definition ZYDIS_CPUFLAG_OF : Z := Z.shiftl 1 11.

(** A decoded operand.  The decoder keeps [reg], [mem] and [imm] in one
    operand structure and the generator reads the part that the operand type
    (or the mnemonic) selects; every part is a field here.
    [op_imm] is [imm.value.u], the immediate as an unsigned 64-bit number
    ([imm.value.s] is zero exactly when it is). *)
Record ZydisDecodedOperand : Set := {
  op_type : ZydisOperandType;
  op_actions : Z;
  op_reg : ZydisRegister;
  op_mem_base : ZydisRegister;
  op_mem_index : ZydisRegister;
  op_mem_scale : nat;
  op_mem_disp : Z;
  op_imm : Z
}.

(** The operand array is zero-initialised past [operand_count]. *)
Definition unused_operand : ZydisDecodedOperand := {|
  op_type := ZYDIS_OPERAND_TYPE_UNUSED;
  op_actions := 0;
  op_reg := ZYDIS_REGISTER_NONE;
  op_mem_base := ZYDIS_REGISTER_NONE;
  op_mem_index := ZYDIS_REGISTER_NONE;
  op_mem_scale := 0;
  op_mem_disp := 0;
  op_imm := 0
|}.

(** A decoded instruction: [operands] holds the [operand_count] operands
    (hidden ones included), the four masks are those of [cpu_flags]. *)
Record ZydisDisassembledInstruction : Set := {
  mnemonic : ZydisMnemonic;
  machine_mode : ZydisMachineMode;
  operands : list ZydisDecodedOperand;
  operand_width : nat;
  address_width : nat;
  flags_modified : Z;
  flags_set_0 : Z;
  flags_set_1 : Z;
  flags_tested : Z;
}.

Definition operand_count (instr : ZydisDisassembledInstruction) : nat :=
  length (operands instr).

(** [instr.operands[i]] *)
Definition operand_at (instr : ZydisDisassembledInstruction) (i : nat)
  : ZydisDecodedOperand :=
  default unused_operand (operands instr !! i).

(** The register metadata of the decoder: [ZydisRegisterGetClass],
    [ZydisRegisterGetWidth] (in bits) and [ZydisRegisterGetLargestEnclosing].
    The generator is verified for every such metadata; [zydis_registers]
    below is the decoder's table for the registers listed above. *)
Class ZydisRegisterInfo : Set := {
  ZydisRegisterGetClass : ZydisRegister → ZydisRegisterClass;
  ZydisRegisterGetWidth : ZydisMachineMode → ZydisRegister → nat;
  ZydisRegisterGetLargestEnclosing :
    ZydisMachineMode → ZydisRegister → ZydisRegister
}.

(** Modelled from the spec: the register table of the decoder (Zydis is not
    part of the sources), which gives every register a class, a width in bits
    and a largest enclosing register in a machine mode.  The values are those
    of the x86 architecture; the properties of the generator below do not
    depend on them, the sample instructions at the end are run with them. *)
Definition zydis_class (r : ZydisRegister) : ZydisRegisterClass :=
  match r with
  | ZYDIS_REGISTER_NONE =>
      ZYDIS_REGCLASS_INVALID
  | ZYDIS_REGISTER_AL | ZYDIS_REGISTER_CL | ZYDIS_REGISTER_DL |
    ZYDIS_REGISTER_BL | ZYDIS_REGISTER_AH | ZYDIS_REGISTER_CH |
    ZYDIS_REGISTER_DH | ZYDIS_REGISTER_BH | ZYDIS_REGISTER_SPL |
    ZYDIS_REGISTER_BPL | ZYDIS_REGISTER_SIL | ZYDIS_REGISTER_DIL |
    ZYDIS_REGISTER_R8B | ZYDIS_REGISTER_R9B | ZYDIS_REGISTER_R10B |
    ZYDIS_REGISTER_R11B | ZYDIS_REGISTER_R12B | ZYDIS_REGISTER_R13B |
    ZYDIS_REGISTER_R14B | ZYDIS_REGISTER_R15B =>
      ZYDIS_REGCLASS_GPR8
  | ZYDIS_REGISTER_AX | ZYDIS_REGISTER_CX | ZYDIS_REGISTER_DX |
    ZYDIS_REGISTER_BX | ZYDIS_REGISTER_SP | ZYDIS_REGISTER_BP |
    ZYDIS_REGISTER_SI | ZYDIS_REGISTER_DI | ZYDIS_REGISTER_R8W |
    ZYDIS_REGISTER_R9W | ZYDIS_REGISTER_R10W | ZYDIS_REGISTER_R11W |
    ZYDIS_REGISTER_R12W | ZYDIS_REGISTER_R13W | ZYDIS_REGISTER_R14W |
    ZYDIS_REGISTER_R15W =>
      ZYDIS_REGCLASS_GPR16
  | ZYDIS_REGISTER_EAX | ZYDIS_REGISTER_ECX | ZYDIS_REGISTER_EDX |
    ZYDIS_REGISTER_EBX | ZYDIS_REGISTER_ESP | ZYDIS_REGISTER_EBP |
    ZYDIS_REGISTER_ESI | ZYDIS_REGISTER_EDI | ZYDIS_REGISTER_R8D |
    ZYDIS_REGISTER_R9D | ZYDIS_REGISTER_R10D | ZYDIS_REGISTER_R11D |
    ZYDIS_REGISTER_R12D | ZYDIS_REGISTER_R13D | ZYDIS_REGISTER_R14D |
    ZYDIS_REGISTER_R15D =>
      ZYDIS_REGCLASS_GPR32
  | ZYDIS_REGISTER_RAX | ZYDIS_REGISTER_RCX | ZYDIS_REGISTER_RDX |
    ZYDIS_REGISTER_RBX | ZYDIS_REGISTER_RSP | ZYDIS_REGISTER_RBP |
    ZYDIS_REGISTER_RSI | ZYDIS_REGISTER_RDI | ZYDIS_REGISTER_R8 |
    ZYDIS_REGISTER_R9 | ZYDIS_REGISTER_R10 | ZYDIS_REGISTER_R11 |
    ZYDIS_REGISTER_R12 | ZYDIS_REGISTER_R13 | ZYDIS_REGISTER_R14 |
    ZYDIS_REGISTER_R15 =>
      ZYDIS_REGCLASS_GPR64
  | ZYDIS_REGISTER_XMM0 | ZYDIS_REGISTER_XMM1 | ZYDIS_REGISTER_XMM2 |
    ZYDIS_REGISTER_XMM3 | ZYDIS_REGISTER_XMM4 | ZYDIS_REGISTER_XMM5 |
    ZYDIS_REGISTER_XMM6 | ZYDIS_REGISTER_XMM7 | ZYDIS_REGISTER_XMM8 |
    ZYDIS_REGISTER_XMM9 | ZYDIS_REGISTER_XMM10 | ZYDIS_REGISTER_XMM11 |
    ZYDIS_REGISTER_XMM12 | ZYDIS_REGISTER_XMM13 | ZYDIS_REGISTER_XMM14 |
    ZYDIS_REGISTER_XMM15 =>
      ZYDIS_REGCLASS_XMM
  | ZYDIS_REGISTER_ZMM0 | ZYDIS_REGISTER_ZMM1 | ZYDIS_REGISTER_ZMM2 |
    ZYDIS_REGISTER_ZMM3 | ZYDIS_REGISTER_ZMM4 | ZYDIS_REGISTER_ZMM5 |
    ZYDIS_REGISTER_ZMM6 | ZYDIS_REGISTER_ZMM7 | ZYDIS_REGISTER_ZMM8 |
    ZYDIS_REGISTER_ZMM9 | ZYDIS_REGISTER_ZMM10 | ZYDIS_REGISTER_ZMM11 |
    ZYDIS_REGISTER_ZMM12 | ZYDIS_REGISTER_ZMM13 | ZYDIS_REGISTER_ZMM14 |
    ZYDIS_REGISTER_ZMM15 =>
      ZYDIS_REGCLASS_ZMM
  | ZYDIS_REGISTER_FLAGS | ZYDIS_REGISTER_EFLAGS | ZYDIS_REGISTER_RFLAGS =>
      ZYDIS_REGCLASS_FLAGS
  | ZYDIS_REGISTER_IP | ZYDIS_REGISTER_EIP | ZYDIS_REGISTER_RIP =>
      ZYDIS_REGCLASS_IP
  end.

(** Index of a register inside its class; the 8-bit class lists the low
    bytes of the first four registers, then their high bytes. *)
Definition zydis_reg_index (r : ZydisRegister) : nat :=
  match r with
  | ZYDIS_REGISTER_AL | ZYDIS_REGISTER_AH | ZYDIS_REGISTER_AX |
    ZYDIS_REGISTER_EAX | ZYDIS_REGISTER_RAX | ZYDIS_REGISTER_XMM0 |
    ZYDIS_REGISTER_ZMM0 => 0
  | ZYDIS_REGISTER_CL | ZYDIS_REGISTER_CH | ZYDIS_REGISTER_CX |
    ZYDIS_REGISTER_ECX | ZYDIS_REGISTER_RCX | ZYDIS_REGISTER_XMM1 |
    ZYDIS_REGISTER_ZMM1 => 1
  | ZYDIS_REGISTER_DL | ZYDIS_REGISTER_DH | ZYDIS_REGISTER_DX |
    ZYDIS_REGISTER_EDX | ZYDIS_REGISTER_RDX | ZYDIS_REGISTER_XMM2 |
    ZYDIS_REGISTER_ZMM2 => 2
  | ZYDIS_REGISTER_BL | ZYDIS_REGISTER_BH | ZYDIS_REGISTER_BX |
    ZYDIS_REGISTER_EBX | ZYDIS_REGISTER_RBX | ZYDIS_REGISTER_XMM3 |
    ZYDIS_REGISTER_ZMM3 => 3
  | ZYDIS_REGISTER_SPL | ZYDIS_REGISTER_SP | ZYDIS_REGISTER_ESP |
    ZYDIS_REGISTER_RSP | ZYDIS_REGISTER_XMM4 | ZYDIS_REGISTER_ZMM4 => 4
  | ZYDIS_REGISTER_BPL | ZYDIS_REGISTER_BP | ZYDIS_REGISTER_EBP |
    ZYDIS_REGISTER_RBP | ZYDIS_REGISTER_XMM5 | ZYDIS_REGISTER_ZMM5 => 5
  | ZYDIS_REGISTER_SIL | ZYDIS_REGISTER_SI | ZYDIS_REGISTER_ESI |
    ZYDIS_REGISTER_RSI | ZYDIS_REGISTER_XMM6 | ZYDIS_REGISTER_ZMM6 => 6
  | ZYDIS_REGISTER_DIL | ZYDIS_REGISTER_DI | ZYDIS_REGISTER_EDI |
    ZYDIS_REGISTER_RDI | ZYDIS_REGISTER_XMM7 | ZYDIS_REGISTER_ZMM7 => 7
  | ZYDIS_REGISTER_R8B | ZYDIS_REGISTER_R8W | ZYDIS_REGISTER_R8D |
    ZYDIS_REGISTER_R8 | ZYDIS_REGISTER_XMM8 | ZYDIS_REGISTER_ZMM8 => 8
  | ZYDIS_REGISTER_R9B | ZYDIS_REGISTER_R9W | ZYDIS_REGISTER_R9D |
    ZYDIS_REGISTER_R9 | ZYDIS_REGISTER_XMM9 | ZYDIS_REGISTER_ZMM9 => 9
  | ZYDIS_REGISTER_R10B | ZYDIS_REGISTER_R10W | ZYDIS_REGISTER_R10D |
    ZYDIS_REGISTER_R10 | ZYDIS_REGISTER_XMM10 | ZYDIS_REGISTER_ZMM10 => 10
  | ZYDIS_REGISTER_R11B | ZYDIS_REGISTER_R11W | ZYDIS_REGISTER_R11D |
    ZYDIS_REGISTER_R11 | ZYDIS_REGISTER_XMM11 | ZYDIS_REGISTER_ZMM11 => 11
  | ZYDIS_REGISTER_R12B | ZYDIS_REGISTER_R12W | ZYDIS_REGISTER_R12D |
    ZYDIS_REGISTER_R12 | ZYDIS_REGISTER_XMM12 | ZYDIS_REGISTER_ZMM12 => 12
  | ZYDIS_REGISTER_R13B | ZYDIS_REGISTER_R13W | ZYDIS_REGISTER_R13D |
    ZYDIS_REGISTER_R13 | ZYDIS_REGISTER_XMM13 | ZYDIS_REGISTER_ZMM13 => 13
  | ZYDIS_REGISTER_R14B | ZYDIS_REGISTER_R14W | ZYDIS_REGISTER_R14D |
    ZYDIS_REGISTER_R14 | ZYDIS_REGISTER_XMM14 | ZYDIS_REGISTER_ZMM14 => 14
  | ZYDIS_REGISTER_R15B | ZYDIS_REGISTER_R15W | ZYDIS_REGISTER_R15D |
    ZYDIS_REGISTER_R15 | ZYDIS_REGISTER_XMM15 | ZYDIS_REGISTER_ZMM15 => 15
  | _ => 0
  end.

Definition zydis_gpr16 (index : nat) : ZydisRegister :=
  match index with
  | 0 => ZYDIS_REGISTER_AX
  | 1 => ZYDIS_REGISTER_CX
  | 2 => ZYDIS_REGISTER_DX
  | 3 => ZYDIS_REGISTER_BX
  | 4 => ZYDIS_REGISTER_SP
  | 5 => ZYDIS_REGISTER_BP
  | 6 => ZYDIS_REGISTER_SI
  | 7 => ZYDIS_REGISTER_DI
  | 8 => ZYDIS_REGISTER_R8W
  | 9 => ZYDIS_REGISTER_R9W
  | 10 => ZYDIS_REGISTER_R10W
  | 11 => ZYDIS_REGISTER_R11W
  | 12 => ZYDIS_REGISTER_R12W
  | 13 => ZYDIS_REGISTER_R13W
  | 14 => ZYDIS_REGISTER_R14W
  | 15 => ZYDIS_REGISTER_R15W
  | _ => ZYDIS_REGISTER_NONE
  end.

Definition zydis_gpr32 (index : nat) : ZydisRegister :=
  match index with
  | 0 => ZYDIS_REGISTER_EAX
  | 1 => ZYDIS_REGISTER_ECX
  | 2 => ZYDIS_REGISTER_EDX
  | 3 => ZYDIS_REGISTER_EBX
  | 4 => ZYDIS_REGISTER_ESP
  | 5 => ZYDIS_REGISTER_EBP
  | 6 => ZYDIS_REGISTER_ESI
  | 7 => ZYDIS_REGISTER_EDI
  | 8 => ZYDIS_REGISTER_R8D
  | 9 => ZYDIS_REGISTER_R9D
  | 10 => ZYDIS_REGISTER_R10D
  | 11 => ZYDIS_REGISTER_R11D
  | 12 => ZYDIS_REGISTER_R12D
  | 13 => ZYDIS_REGISTER_R13D
  | 14 => ZYDIS_REGISTER_R14D
  | 15 => ZYDIS_REGISTER_R15D
  | _ => ZYDIS_REGISTER_NONE
  end.

Definition zydis_gpr64 (index : nat) : ZydisRegister :=
  match index with
  | 0 => ZYDIS_REGISTER_RAX
  | 1 => ZYDIS_REGISTER_RCX
  | 2 => ZYDIS_REGISTER_RDX
  | 3 => ZYDIS_REGISTER_RBX
  | 4 => ZYDIS_REGISTER_RSP
  | 5 => ZYDIS_REGISTER_RBP
  | 6 => ZYDIS_REGISTER_RSI
  | 7 => ZYDIS_REGISTER_RDI
  | 8 => ZYDIS_REGISTER_R8
  | 9 => ZYDIS_REGISTER_R9
  | 10 => ZYDIS_REGISTER_R10
  | 11 => ZYDIS_REGISTER_R11
  | 12 => ZYDIS_REGISTER_R12
  | 13 => ZYDIS_REGISTER_R13
  | 14 => ZYDIS_REGISTER_R14
  | 15 => ZYDIS_REGISTER_R15
  | _ => ZYDIS_REGISTER_NONE
  end.

Definition zydis_zmm (index : nat) : ZydisRegister :=
  match index with
  | 0 => ZYDIS_REGISTER_ZMM0
  | 1 => ZYDIS_REGISTER_ZMM1
  | 2 => ZYDIS_REGISTER_ZMM2
  | 3 => ZYDIS_REGISTER_ZMM3
  | 4 => ZYDIS_REGISTER_ZMM4
  | 5 => ZYDIS_REGISTER_ZMM5
  | 6 => ZYDIS_REGISTER_ZMM6
  | 7 => ZYDIS_REGISTER_ZMM7
  | 8 => ZYDIS_REGISTER_ZMM8
  | 9 => ZYDIS_REGISTER_ZMM9
  | 10 => ZYDIS_REGISTER_ZMM10
  | 11 => ZYDIS_REGISTER_ZMM11
  | 12 => ZYDIS_REGISTER_ZMM12
  | 13 => ZYDIS_REGISTER_ZMM13
  | 14 => ZYDIS_REGISTER_ZMM14
  | 15 => ZYDIS_REGISTER_ZMM15
  | _ => ZYDIS_REGISTER_NONE
  end.

(** Modelled from the spec: the width of a register in bits; the 64-bit
    registers have no width outside 64-bit mode. *)
Definition zydis_width (mode : ZydisMachineMode) (r : ZydisRegister) : nat :=
  let only64 := if decide (mode = ZYDIS_MACHINE_MODE_LONG_64) then 64 else 0 in
  match zydis_class r with
  | ZYDIS_REGCLASS_INVALID => 0
  | ZYDIS_REGCLASS_GPR8 => 8
  | ZYDIS_REGCLASS_GPR16 => 16
  | ZYDIS_REGCLASS_GPR32 => 32
  | ZYDIS_REGCLASS_GPR64 => only64
  | ZYDIS_REGCLASS_XMM => 128
  | ZYDIS_REGCLASS_ZMM => 512
  | ZYDIS_REGCLASS_FLAGS | ZYDIS_REGCLASS_IP =>
      match r with
      | ZYDIS_REGISTER_FLAGS | ZYDIS_REGISTER_IP => 16
      | ZYDIS_REGISTER_EFLAGS | ZYDIS_REGISTER_EIP => 32
      | _ => only64
      end
  end.

(** Modelled from the spec: the largest enclosing register (the root) of a
    register in a machine mode. *)
Definition zydis_largest_enclosing (mode : ZydisMachineMode) (r : ZydisRegister)
  : ZydisRegister :=
  let by_mode (r16 r32 r64 : ZydisRegister) :=
    match mode with
    | ZYDIS_MACHINE_MODE_LONG_64 => r64
    | ZYDIS_MACHINE_MODE_LONG_COMPAT_32 | ZYDIS_MACHINE_MODE_LEGACY_32 => r32
    | _ => r16
    end in
  let gpr :=
    by_mode (zydis_gpr16 (zydis_reg_index r)) (zydis_gpr32 (zydis_reg_index r))
            (zydis_gpr64 (zydis_reg_index r)) in
  match zydis_class r with
  | ZYDIS_REGCLASS_INVALID => ZYDIS_REGISTER_NONE
  | ZYDIS_REGCLASS_GPR8 | ZYDIS_REGCLASS_GPR16 | ZYDIS_REGCLASS_GPR32 => gpr
  | ZYDIS_REGCLASS_GPR64 =>
      if decide (mode = ZYDIS_MACHINE_MODE_LONG_64) then gpr
      else ZYDIS_REGISTER_NONE
  | ZYDIS_REGCLASS_XMM | ZYDIS_REGCLASS_ZMM => zydis_zmm (zydis_reg_index r)
  | ZYDIS_REGCLASS_FLAGS =>
      by_mode ZYDIS_REGISTER_FLAGS ZYDIS_REGISTER_EFLAGS ZYDIS_REGISTER_RFLAGS
  | ZYDIS_REGCLASS_IP =>
      by_mode ZYDIS_REGISTER_IP ZYDIS_REGISTER_EIP ZYDIS_REGISTER_RIP
  end.

#[global] Instance zydis_registers : ZydisRegisterInfo := {|
  ZydisRegisterGetClass := zydis_class;
  ZydisRegisterGetWidth := zydis_width;
  ZydisRegisterGetLargestEnclosing := zydis_largest_enclosing
|}.

(** ** Containers *)

(** [sfl::small_flat_set<ZydisRegister, N>]: a vector of distinct registers
    kept in increasing order of their enumerator. *)
Definition reg_lt (a b : ZydisRegister) : Prop :=
  (ZydisRegister_id a < ZydisRegister_id b)%positive.

#[global] Instance reg_lt_dec : RelDecision reg_lt.
Proof. intros a b. unfold reg_lt. apply _. Defined.

Fixpoint flat_set_insert (x : ZydisRegister) (s : list ZydisRegister)
  : list ZydisRegister :=
  match s with
  | [] => [x]
  | y :: s' =>
      if decide (reg_lt x y) then x :: s
      else if decide (x = y) then s
      else y :: flat_set_insert x s'
  end.

(** [sfl::small_flat_map<ZydisRegister, V, N>]: a vector of pairs with
    distinct keys, in increasing order of the keys.  [flat_map_find] is
    [find], [flat_map_assign k v] is [m[k] = v]. *)
Fixpoint flat_map_find {V : Type} (k : ZydisRegister)
    (m : list (ZydisRegister * V)) : option V :=
  match m with
  | [] => None
  | (k', v) :: m' => if decide (k = k') then Some v else flat_map_find k m'
  end.

Fixpoint flat_map_assign {V : Type} (k : ZydisRegister) (v : V)
    (m : list (ZydisRegister * V)) : list (ZydisRegister * V) :=
  match m with
  | [] => [(k, v)]
  | (k', v') :: m' =>
      if decide (reg_lt k k') then (k, v) :: m
      else if decide (k = k') then (k, v) :: m'
      else (k', v') :: flat_map_assign k v m'
  end.

(** ** Register analysis *)

Definition isRegFiltered (reg : ZydisRegister) : bool :=
  match reg with
  | ZYDIS_REGISTER_NONE
  | ZYDIS_REGISTER_EIP
  | ZYDIS_REGISTER_RIP
  | ZYDIS_REGISTER_FLAGS
  | ZYDIS_REGISTER_EFLAGS
  | ZYDIS_REGISTER_RFLAGS => true
  | _ => false
  end.

Section RegisterAnalysis.
Context `{ZydisRegisterInfo}.

(** The comparison [sortRegs] sorts with: [a] may stand before [b] when it
    is at least as wide in 64-bit mode. *)
Definition wider_first (a b : ZydisRegister) : Prop :=
  ZydisRegisterGetWidth ZYDIS_MACHINE_MODE_LONG_64 b
  ≤ ZydisRegisterGetWidth ZYDIS_MACHINE_MODE_LONG_64 a.

#[global] Instance wider_first_dec : RelDecision wider_first.
Proof. intros a b. unfold wider_first. apply _. Defined.

(** The result is an [sfl::static_vector<ZydisRegister, 5>], which cannot
    hold more than five registers: [None] stands for the overrun.
    [std::sort] leaves the order of registers of equal width open; the
    merge sort fixes one. *)
Definition sortRegs (regs : list ZydisRegister) : option (list ZydisRegister) :=
  if decide (length regs ≤ 5) then Some (merge_sort wider_first regs)
  else None.

(** The set [regs] that the loop of [getRegsModified] builds. *)
Definition regsModifiedSet (instr : ZydisDisassembledInstruction)
  : list ZydisRegister :=
  foldl (λ regs op,
           if decide (op_type op = ZYDIS_OPERAND_TYPE_REGISTER
                      ∧ Z.land (op_actions op) ZYDIS_OPERAND_ACTION_MASK_WRITE ≠ 0%Z)
           then if negb (isRegFiltered (op_reg op))
                then flat_set_insert (op_reg op) regs
                else regs
           else regs)
        [] (operands instr).

Definition getRegsModified (instr : ZydisDisassembledInstruction)
  : option (list ZydisRegister) :=
  sortRegs (regsModifiedSet instr).

Definition getRootReg (mode : ZydisMachineMode) (reg : ZydisRegister)
  : ZydisRegister :=
  match ZydisRegisterGetClass reg with
  | ZYDIS_REGCLASS_GPR8
  | ZYDIS_REGCLASS_GPR16
  | ZYDIS_REGCLASS_GPR32
  | ZYDIS_REGCLASS_GPR64
  | ZYDIS_REGCLASS_FLAGS => ZydisRegisterGetLargestEnclosing mode reg
  | _ => reg
  end.

Definition remapReg (oldReg : ZydisRegister) : ZydisRegister :=
  if decide (oldReg = ZYDIS_REGISTER_AH) then ZYDIS_REGISTER_AX
  else if decide (oldReg = ZYDIS_REGISTER_BH) then ZYDIS_REGISTER_BX
  else if decide (oldReg = ZYDIS_REGISTER_CH) then ZYDIS_REGISTER_CX
  else if decide (oldReg = ZYDIS_REGISTER_DH) then ZYDIS_REGISTER_DX
  else oldReg.

(** First loop of [getRegsRead]: the register operands and the base and
    index registers of memory operands. *)
Definition readOperand (regs : list ZydisRegister) (op : ZydisDecodedOperand)
  : list ZydisRegister :=
  if decide (op_type op = ZYDIS_OPERAND_TYPE_REGISTER)
  then flat_set_insert (op_reg op) regs
  else if decide (op_type op = ZYDIS_OPERAND_TYPE_MEMORY)
  then
    let regs :=
      if bool_decide (op_mem_base op ≠ ZYDIS_REGISTER_NONE)
         && negb (isRegFiltered (op_mem_base op))
      then flat_set_insert (op_mem_base op) regs else regs in
    if bool_decide (op_mem_index op ≠ ZYDIS_REGISTER_NONE)
       && negb (isRegFiltered (op_mem_index op))
    then flat_set_insert (op_mem_index op) regs else regs
  else regs.

(** Second loop: register operands narrower than 32 bits. *)
Definition readNarrowOperand (regs : list ZydisRegister)
    (op : ZydisDecodedOperand) : list ZydisRegister :=
  if decide (op_type op = ZYDIS_OPERAND_TYPE_REGISTER)
  then
    let regCls := ZydisRegisterGetClass (op_reg op) in
    if decide (regCls = ZYDIS_REGCLASS_GPR16 ∨ regCls = ZYDIS_REGCLASS_GPR8)
    then flat_set_insert (op_reg op) regs
    else regs
  else regs.

(** Third loop: one register for every root, the widest met. *)
Definition mergeOverlapping (mode : ZydisMachineMode)
    (regMap : list (ZydisRegister * ZydisRegister)) (reg : ZydisRegister)
  : list (ZydisRegister * ZydisRegister) :=
  let bigReg := getRootReg mode reg in
  let newReg := remapReg reg in
  match flat_map_find bigReg regMap with
  | Some old =>
      if decide (ZydisRegisterGetWidth mode old < ZydisRegisterGetWidth mode newReg)
      then flat_map_assign bigReg newReg regMap
      else regMap
  | None => flat_map_assign bigReg newReg regMap
  end.

Definition regsReadOperands (instr : ZydisDisassembledInstruction)
  : list ZydisRegister :=
  foldl readNarrowOperand (foldl readOperand [] (operands instr))
        (operands instr).

Definition regsReadMap (instr : ZydisDisassembledInstruction)
  : list (ZydisRegister * ZydisRegister) :=
  foldl (mergeOverlapping (machine_mode instr)) [] (regsReadOperands instr).

(** The set [regs] after it is rebuilt from the map. *)
Definition regsReadSet (instr : ZydisDisassembledInstruction)
  : list ZydisRegister :=
  foldl (λ regs kv, flat_set_insert kv.2 regs) [] (regsReadMap instr).

Definition getRegsRead (instr : ZydisDisassembledInstruction)
  : option (list ZydisRegister) :=
  sortRegs (regsReadSet instr).

End RegisterAnalysis.

(** ** The bit matrix *)

(** [ExceptionType]; the enumerator [None] is [ExceptionType_None] here. *)
Inductive ExceptionType : Set :=
  | ExceptionType_None
  | ExceptionType_DivideError
  | ExceptionType_IntegerOverflow.

#[global] Instance ExceptionType_eq_dec : EqDecision ExceptionType.
Proof. solve_decision. Defined.

Record TestBitInfo : Set := {
  exceptionType : ExceptionType;
  reg : ZydisRegister;
  bitPos : nat;
  expectedBitValue : Z
}.

#[global] Instance TestBitInfo_eq_dec : EqDecision TestBitInfo.
Proof. solve_decision. Defined.

Definition getExceptions (instr : ZydisDisassembledInstruction)
  : list ExceptionType :=
  match mnemonic instr with
  | ZYDIS_MNEMONIC_DIV =>
      [ExceptionType_DivideError; ExceptionType_IntegerOverflow]
  | _ => []
  end.

Definition getFlagsModified (instr : ZydisDisassembledInstruction) : Z :=
  Z.lor 0 (flags_modified instr).

Definition getFlagsSet0 (instr : ZydisDisassembledInstruction) : Z :=
  Z.lor 0 (flags_set_0 instr).

Definition getFlagsSet1 (instr : ZydisDisassembledInstruction) : Z :=
  Z.lor 0 (flags_set_1 instr).

Definition getFlagsRead (instr : ZydisDisassembledInstruction) : Z :=
  Z.lor 0 (flags_tested instr).

(** The values the semantic checks of [generateTestMatrix] leave in its
    local variables before the loop over the modified registers. *)
Record MatrixAnalysis : Set := {
  regDestAndSrcSame : bool;
  rightInputZero : bool;
  resultAlwaysZero : bool;
  firstBitAlwaysZero : bool;
  inputIsImmediate : bool;
  numBitsZero : nat
}.

Definition isSetcc (m : ZydisMnemonic) : bool :=
  match m with
  | ZYDIS_MNEMONIC_SETB | ZYDIS_MNEMONIC_SETBE | ZYDIS_MNEMONIC_SETL
  | ZYDIS_MNEMONIC_SETLE | ZYDIS_MNEMONIC_SETNB | ZYDIS_MNEMONIC_SETNBE
  | ZYDIS_MNEMONIC_SETNL | ZYDIS_MNEMONIC_SETNLE | ZYDIS_MNEMONIC_SETNO
  | ZYDIS_MNEMONIC_SETNP | ZYDIS_MNEMONIC_SETNS | ZYDIS_MNEMONIC_SETNZ
  | ZYDIS_MNEMONIC_SETO | ZYDIS_MNEMONIC_SETP | ZYDIS_MNEMONIC_SETS
  | ZYDIS_MNEMONIC_SETZ => true
  | _ => false
  end.

Definition analyse (instr : ZydisDisassembledInstruction) : MatrixAnalysis :=
  let op0 := operand_at instr 0 in
  let op1 := operand_at instr 1 in
  let regDestAndSrcSame :=
    bool_decide (op_type op0 = ZYDIS_OPERAND_TYPE_REGISTER)
    && bool_decide (op_type op1 = ZYDIS_OPERAND_TYPE_REGISTER)
    && bool_decide (op_reg op0 = op_reg op1) in
  let inputIsImmediate :=
    bool_decide (op_type op1 = ZYDIS_OPERAND_TYPE_IMMEDIATE) in
  let rightInputZero := inputIsImmediate && bool_decide (op_imm op1 = 0%Z) in
  let resultAlwaysZero :=
    match mnemonic instr with
    | ZYDIS_MNEMONIC_SUB | ZYDIS_MNEMONIC_CMP | ZYDIS_MNEMONIC_XOR =>
        regDestAndSrcSame
    | ZYDIS_MNEMONIC_AND | ZYDIS_MNEMONIC_TEST => rightInputZero
    | ZYDIS_MNEMONIC_MOV => rightInputZero
    | _ => false
    end in
  let firstBitAlwaysZero :=
    match mnemonic instr with
    | ZYDIS_MNEMONIC_ADD | ZYDIS_MNEMONIC_FADD => regDestAndSrcSame
    | ZYDIS_MNEMONIC_LEA =>
        bool_decide (op_mem_base op1 ≠ ZYDIS_REGISTER_NONE)
        && bool_decide (op_mem_index op1 = op_mem_base op1)
        && bool_decide (op_mem_disp op1 = 0%Z)
    | _ => false
    end in
  let numBitsZero :=
    match mnemonic instr with
    | ZYDIS_MNEMONIC_LEA =>
        if bool_decide (op_mem_base op1 = ZYDIS_REGISTER_NONE)
           && bool_decide (op_mem_index op1 ≠ ZYDIS_REGISTER_NONE)
           && bool_decide (1 < op_mem_scale op1)
           && bool_decide (op_mem_disp op1 = 0%Z)
        then Nat.log2 (op_mem_scale op1)
        else 0
    | _ => 0
    end in
  {| regDestAndSrcSame := regDestAndSrcSame;
     rightInputZero := rightInputZero;
     resultAlwaysZero := resultAlwaysZero;
     firstBitAlwaysZero := firstBitAlwaysZero;
     inputIsImmediate := inputIsImmediate;
     numBitsZero := numBitsZero |}.

Definition regTarget (r : ZydisRegister) (bitPos : nat) (v : Z) : TestBitInfo :=
  {| exceptionType := ExceptionType_None; reg := r; bitPos := bitPos;
     expectedBitValue := v |}.

Definition flagTarget (i : nat) (v : Z) : TestBitInfo :=
  regTarget ZYDIS_REGISTER_FLAGS i v.

Section BitMatrix.
Context `{ZydisRegisterInfo}.

(** The body of the loop over the bit positions of one modified register.
    [(imm & (1ULL << bitPos)) != 0] is [Z.testbit imm bitPos]. *)
Definition regBitTargets (instr : ZydisDisassembledInstruction)
    (a : MatrixAnalysis) (resultAlwaysZero : bool) (maxBits : nat)
    (regModified : ZydisRegister) (bitPos : nat) : list TestBitInfo :=
  let imm := op_imm (operand_at instr 1) in
  let testZero := true in
  let testOne :=
    bool_decide (numBitsZero a ≤ bitPos) && negb resultAlwaysZero
    && bool_decide (bitPos < maxBits) in
  let '(testZero, testOne) :=
    if bool_decide (mnemonic instr = ZYDIS_MNEMONIC_MOV) && inputIsImmediate a
    then (negb (Z.testbit imm (Z.of_nat bitPos)), Z.testbit imm (Z.of_nat bitPos))
    else if bool_decide (mnemonic instr = ZYDIS_MNEMONIC_OR) && inputIsImmediate a
    then (negb (Z.testbit imm (Z.of_nat bitPos)), testOne)
    else if bool_decide (mnemonic instr = ZYDIS_MNEMONIC_AND) && inputIsImmediate a
    then (testZero, Z.testbit imm (Z.of_nat bitPos))
    else if bool_decide (mnemonic instr = ZYDIS_MNEMONIC_BTR) && inputIsImmediate a
    then (testZero,
          bool_decide ((imm mod Z.of_nat (operand_width instr))%Z ≠ Z.of_nat bitPos))
    else (testZero, testOne) in
  (if testZero then [regTarget regModified bitPos 0] else [])
  ++ (let testOne :=
        if bool_decide (bitPos = 0) && firstBitAlwaysZero a then false
        else testOne in
      if testOne then [regTarget regModified bitPos 1] else []).

(** One round of the loop over the modified registers: the BSWAP case
    assigns [resultAlwaysZero], which later rounds and the flag loop see. *)
Definition regTargets (instr : ZydisDisassembledInstruction)
    (a : MatrixAnalysis) (st : list TestBitInfo * bool)
    (regModified : ZydisRegister) : list TestBitInfo * bool :=
  let '(matrix, resultAlwaysZero) := st in
  let regSize := ZydisRegisterGetWidth (machine_mode instr) regModified in
  let maxBits :=
    if isSetcc (mnemonic instr) then 1
    else if bool_decide (mnemonic instr = ZYDIS_MNEMONIC_LEA)
    then address_width instr
    else regSize in
  let resultAlwaysZero :=
    if bool_decide (mnemonic instr = ZYDIS_MNEMONIC_BSWAP)
    then bool_decide (regSize ≤ 16)
    else resultAlwaysZero in
  (matrix
   ++ (seq 0 regSize
         ≫= regBitTargets instr a resultAlwaysZero maxBits regModified),
   resultAlwaysZero).

(** The body of the loop over the 32 flag bits. *)
Definition flagBitTargets (instr : ZydisDisassembledInstruction)
    (a : MatrixAnalysis) (resultAlwaysZero : bool) (i : nat)
  : list TestBitInfo :=
  let flag := Z.shiftl 1 (Z.of_nat i) in
  (if negb (inputIsImmediate a)
   then
     if bool_decide (Z.land (getFlagsModified instr) flag ≠ 0%Z)
     then
       let testFlagZero := true in
       let testFlagOne := true in
       let testFlagZero :=
         if bool_decide (flag = ZYDIS_CPUFLAG_ZF) then negb resultAlwaysZero
         else testFlagZero in
       let testFlagOne :=
         if bool_decide (flag = ZYDIS_CPUFLAG_CF)
         then negb resultAlwaysZero && negb (rightInputZero a)
         else testFlagOne in
       let testFlagOne :=
         if bool_decide (flag = ZYDIS_CPUFLAG_OF)
         then negb (regDestAndSrcSame a) && negb (rightInputZero a)
         else testFlagOne in
       let testFlagZero :=
         if bool_decide (flag = ZYDIS_CPUFLAG_PF) then negb resultAlwaysZero
         else testFlagZero in
       let testFlagOne :=
         if bool_decide (flag = ZYDIS_CPUFLAG_AF)
         then negb resultAlwaysZero && negb (rightInputZero a)
         else testFlagOne in
       let testFlagOne :=
         if bool_decide (flag = ZYDIS_CPUFLAG_SF) then negb resultAlwaysZero
         else testFlagOne in
       (if testFlagZero then [flagTarget i 0] else [])
       ++ (if testFlagOne then [flagTarget i 1] else [])
     else []
   else [])
  ++ (if bool_decide (Z.land (getFlagsSet0 instr) flag ≠ 0%Z)
      then [flagTarget i 0] else [])
  ++ (if bool_decide (Z.land (getFlagsSet1 instr) flag ≠ 0%Z)
      then [flagTarget i 1] else []).

Definition exceptionTarget (exception : ExceptionType) : TestBitInfo :=
  {| exceptionType := exception; reg := ZYDIS_REGISTER_NONE; bitPos := 0;
     expectedBitValue := 0 |}.

(** What the C++ leaves undefined: [1ULL << bitPos] for a bit position
    past 63 (MOV, OR and AND with an immediate) and the remainder by an
    operand width of zero (BTR with an immediate). *)
Definition matrixDefined (instr : ZydisDisassembledInstruction)
    (regsModified : list ZydisRegister) : bool :=
  let a := analyse instr in
  let width := ZydisRegisterGetWidth (machine_mode instr) in
  (if inputIsImmediate a
      && (bool_decide (mnemonic instr = ZYDIS_MNEMONIC_MOV)
          || bool_decide (mnemonic instr = ZYDIS_MNEMONIC_OR)
          || bool_decide (mnemonic instr = ZYDIS_MNEMONIC_AND))
   then forallb (λ r, bool_decide (width r ≤ 64)) regsModified
   else true)
  && (if inputIsImmediate a
         && bool_decide (mnemonic instr = ZYDIS_MNEMONIC_BTR)
         && existsb (λ r, bool_decide (0 < width r)) regsModified
      then bool_decide (operand_width instr ≠ 0)
      else true).

(** The matrix for the modified registers [regsModified]. *)
Definition testMatrixOf (instr : ZydisDisassembledInstruction)
    (regsModified : list ZydisRegister) : list TestBitInfo :=
  let a := analyse instr in
  let '(matrix, resultAlwaysZero) :=
    foldl (regTargets instr a) ([], resultAlwaysZero a) regsModified in
  matrix
  ++ (seq 0 32 ≫= flagBitTargets instr a resultAlwaysZero)
  ++ (exceptionTarget <$> getExceptions instr).

Definition generateTestMatrix (instr : ZydisDisassembledInstruction)
  : option (list TestBitInfo) :=
  _ ← getRegsRead instr;
  regsModified ← getRegsModified instr;
  if matrixDefined instr regsModified
  then Some (testMatrixOf instr regsModified)
  else None.

End BitMatrix.

(** ** The execution context *)

(** Modelled from the spec: the status enumeration of the execution context
    (x86Tester/execution.hpp is not part of the sources).  The spec names
    these four statuses and leaves the list open; [ExecutionStatus_other]
    stands for any further status. *)
Inductive ExecutionStatus : Set :=
  | Success
  | ExceptionIntDivideError
  | ExceptionIntOverflow
  | IllegalInstruction
  | ExecutionStatus_other.

#[global] Instance ExecutionStatus_eq_dec : EqDecision ExecutionStatus.
Proof. solve_decision. Defined.

(** Modelled from the spec: the execution context, a register file that
    [set_reg_bytes] and [get_reg_bytes] write and read, the 32-bit EFLAGS
    that [set_reg_value] and [get_reg_value] write and read, the code address
    and the status of the last execution. *)
Record ScopedContext : Type := {
  codeAddress : Z;
  regFile : ZydisRegister → list Z;
  eflags : Z;
  executionStatus : ExecutionStatus
}.

Definition isFlagsReg (reg : ZydisRegister) : bool :=
  match reg with
  | ZYDIS_REGISTER_FLAGS | ZYDIS_REGISTER_EFLAGS | ZYDIS_REGISTER_RFLAGS => true
  | _ => false
  end.

(** Little-endian bytes of a number and back. *)
Definition le_bytes (n : nat) (v : Z) : list Z :=
  (λ i, Z.land (Z.shiftr v (8 * Z.of_nat i)) 255) <$> seq 0 n.

Definition le_value (bytes : list Z) : Z :=
  foldr (λ b acc, Z.lor (Z.land b 255) (Z.shiftl acc 8)) 0%Z bytes.

(** Modelled from the spec: [get_code_address]. *)
Definition getCodeAddress (ctx : ScopedContext) : Z := codeAddress ctx.

(** Modelled from the spec: [get_execution_status]. *)
Definition getExecutionStatus (ctx : ScopedContext) : ExecutionStatus :=
  executionStatus ctx.

(** Modelled from the spec: [set_reg_bytes(reg, bytes)].  The flags register
    under any of its names is EFLAGS. *)
Definition setRegBytes (ctx : ScopedContext) (reg : ZydisRegister)
    (bytes : list Z) : ScopedContext :=
  if isFlagsReg reg
  then {| codeAddress := codeAddress ctx; regFile := regFile ctx;
          eflags := le_value (take 4 bytes);
          executionStatus := executionStatus ctx |}
  else {| codeAddress := codeAddress ctx;
          regFile := <[reg := bytes]> (regFile ctx);
          eflags := eflags ctx;
          executionStatus := executionStatus ctx |}.

(** Modelled from the spec: [get_reg_bytes(reg)]. *)
Definition getRegBytes (ctx : ScopedContext) (reg : ZydisRegister) : list Z :=
  if isFlagsReg reg then le_bytes 8 (eflags ctx) else regFile ctx reg.

(** Modelled from the spec: [set_reg_value<T>(reg, value)], which the
    generator uses for EFLAGS only. *)
Definition setRegValue (ctx : ScopedContext) (reg : ZydisRegister) (value : Z)
  : ScopedContext :=
  if isFlagsReg reg
  then {| codeAddress := codeAddress ctx; regFile := regFile ctx;
          eflags := value `mod` 2 ^ 32;
          executionStatus := executionStatus ctx |}
  else setRegBytes ctx reg (le_bytes 4 value).

(** Modelled from the spec: [get_reg_value<uint32_t>(reg)]. *)
Definition getRegValue (ctx : ScopedContext) (reg : ZydisRegister) : Z :=
  if isFlagsReg reg then eflags ctx `mod` 2 ^ 32
  else le_value (take 4 (regFile ctx reg)).

(** ** Test entries *)

Definition RegTestData : Type := list Z.

(** The field [exceptionType] of the C++ structure is [entry_exceptionType]. *)
Record TestCaseEntry : Type := {
  inputRegs : list (ZydisRegister * RegTestData);
  inputFlags : option Z;
  outputRegs : list (ZydisRegister * RegTestData);
  outputFlags : option Z;
  entry_exceptionType : option ExceptionType
}.

(** [TestCaseEntry testEntry{}] *)
Definition emptyEntry : TestCaseEntry := {|
  inputRegs := []; inputFlags := None; outputRegs := []; outputFlags := None;
  entry_exceptionType := None
|}.

Definition set_inputReg (bigReg : ZydisRegister) (data : RegTestData)
    (e : TestCaseEntry) : TestCaseEntry :=
  {| inputRegs := flat_map_assign bigReg data (inputRegs e);
     inputFlags := inputFlags e; outputRegs := outputRegs e;
     outputFlags := outputFlags e;
     entry_exceptionType := entry_exceptionType e |}.

Definition set_inputFlags (flags : Z) (e : TestCaseEntry) : TestCaseEntry :=
  {| inputRegs := inputRegs e; inputFlags := Some flags;
     outputRegs := outputRegs e; outputFlags := outputFlags e;
     entry_exceptionType := entry_exceptionType e |}.

Definition set_outputReg (bigReg : ZydisRegister) (data : RegTestData)
    (e : TestCaseEntry) : TestCaseEntry :=
  {| inputRegs := inputRegs e; inputFlags := inputFlags e;
     outputRegs := flat_map_assign bigReg data (outputRegs e);
     outputFlags := outputFlags e;
     entry_exceptionType := entry_exceptionType e |}.

Definition set_outputFlags (flags : Z) (e : TestCaseEntry) : TestCaseEntry :=
  {| inputRegs := inputRegs e; inputFlags := inputFlags e;
     outputRegs := outputRegs e; outputFlags := Some flags;
     entry_exceptionType := entry_exceptionType e |}.

Definition set_exceptionType (exception : ExceptionType) (e : TestCaseEntry)
  : TestCaseEntry :=
  {| inputRegs := inputRegs e; inputFlags := inputFlags e;
     outputRegs := outputRegs e; outputFlags := outputFlags e;
     entry_exceptionType := Some exception |}.

Record InstrTestGroup : Type := {
  address : Z;
  instrData : list Z;
  entries : list TestCaseEntry;
  illegalInstruction : bool
}.

(** ** Staging and capture *)

Definition kAbortTestCaseThreshold : Z := 100000.

Definition getRegOffset (reg : ZydisRegister) : nat :=
  match reg with
  | ZYDIS_REGISTER_AH
  | ZYDIS_REGISTER_BH
  | ZYDIS_REGISTER_CH
  | ZYDIS_REGISTER_DH => 1
  | _ => 0
  end.

(** A loop whose body may be undefined: the rounds are made in order, from
    the state the round before left, and the loop is undefined as soon as a
    round is. *)
Fixpoint foldlM {A B} (f : A → B → option A) (a : A) (l : list B) : option A :=
  match l with
  | [] => Some a
  | b :: l => a ← f a b; foldlM f a l
  end.

(** [buf[i] = v] for a buffer of fixed size; [None] past its end, where the
    C++ writes out of bounds. *)
Definition store (buf : list Z) (i : nat) (v : Z) : option (list Z) :=
  if decide (i < length buf) then Some (<[i := v]> buf) else None.

(** [std::span<const std::uint8_t>{ buf, n }] and [RegTestData{ buf, buf + n }]
    as the bytes they stand for; [None] when [buf] has fewer than [n] bytes,
    where the C++ reads out of bounds. *)
Definition span (buf : list Z) (n : nat) : option (list Z) :=
  if decide (n ≤ length buf) then Some (take n buf) else None.

(** [std::memcpy(dst + offset, src, n)] into the buffer [dst]; [None] when
    [src] has fewer than [n] bytes or the copy ends past the buffer, where
    the C++ reads or writes out of bounds. *)
Definition memcpy (dst : list Z) (offset : nat) (src : list Z) (n : nat)
  : option (list Z) :=
  if decide (n ≤ length src ∧ offset + n ≤ length dst)
  then Some (list_inserts offset (take n src) dst)
  else None.

(** The six status flags [clearOutput] sets. *)
Definition statusFlags : Z :=
  Z.lor ZYDIS_CPUFLAG_CF (Z.lor ZYDIS_CPUFLAG_PF (Z.lor ZYDIS_CPUFLAG_AF
    (Z.lor ZYDIS_CPUFLAG_ZF (Z.lor ZYDIS_CPUFLAG_SF ZYDIS_CPUFLAG_OF)))).

Definition ccBytes : list Z := replicate 32 204%Z.

Definition isInputFromImmediate (instr : ZydisDisassembledInstruction) : bool :=
  existsb (λ op, bool_decide (op_type op = ZYDIS_OPERAND_TYPE_IMMEDIATE))
          (operands instr).

Section Staging.
Context `{ZydisRegisterInfo}.

(** The bit of the target as [checkOutputs] reads it. *)
Definition observedBit (mode : ZydisMachineMode) (ctx : ScopedContext)
    (testBitInfo : TestBitInfo) : Z :=
  let bigReg := getRootReg mode (reg testBitInfo) in
  let regData := getRegBytes ctx bigReg in
  let regOffset := getRegOffset (reg testBitInfo) in
  Z.land
    (Z.shiftr (default 0%Z (regData !! (regOffset + bitPos testBitInfo / 8)))
              (Z.of_nat (bitPos testBitInfo `mod` 8)))
    1.

(** [None] when the fill or the span runs past [regBuf[256]]. *)
Definition clearOutput (mode : ZydisMachineMode) (ctx : ScopedContext)
    (testBitInfo : TestBitInfo) : option ScopedContext :=
  let regBuf := replicate 256 0%Z in
  ctx ←
    (if negb (isRegFiltered (reg testBitInfo))
     then
       let regSize := ZydisRegisterGetWidth mode (reg testBitInfo) / 8 in
       let regOffset := getRegOffset (reg testBitInfo) in
       regBuf ←
         foldlM (λ regBuf i,
                   if decide (expectedBitValue testBitInfo = 0%Z)
                   then store regBuf (i + regOffset) 255%Z
                   else store regBuf (i + regOffset) 0%Z)
                regBuf (seq 0 regSize);
       let bigReg := getRootReg mode (reg testBitInfo) in
       let bigRegSize := ZydisRegisterGetWidth mode bigReg / 8 in
       bytes ← span regBuf bigRegSize;
       Some (setRegBytes ctx bigReg bytes)
     else Some ctx);
  let flags :=
    if decide (expectedBitValue testBitInfo = 0%Z) then Z.lor 0 statusFlags
    else 0%Z in
  Some (setRegValue ctx ZYDIS_REGISTER_EFLAGS flags).

(** The loop of [checkOutputs] over the modified registers. *)
Definition captureRegs (instr : ZydisDisassembledInstruction)
    (ctx : ScopedContext) (regsModified : list ZydisRegister)
    (testEntry : TestCaseEntry) : TestCaseEntry :=
  foldl (λ testEntry regModified,
           let bigReg := getRootReg (machine_mode instr) regModified in
           let bigSize := ZydisRegisterGetWidth (machine_mode instr) bigReg in
           let regData := getRegBytes ctx bigReg in
           set_outputReg bigReg (take (bigSize / 8) regData) testEntry)
        testEntry regsModified.

(** Capture of the outputs; [None] when [getRegsModified] overruns. *)
Definition checkOutputs (mode : ZydisMachineMode) (ctx : ScopedContext)
    (instr : ZydisDisassembledInstruction) (testBitInfo : TestBitInfo)
    (testEntry : TestCaseEntry) : option (bool * TestCaseEntry) :=
  let bitValue := observedBit mode ctx testBitInfo in
  if decide (bitValue ≠ expectedBitValue testBitInfo)
  then Some (false, testEntry)
  else
    regsModified ← getRegsModified instr;
    let testEntry := captureRegs instr ctx regsModified testEntry in
    let testEntry :=
      if decide (getFlagsModified instr ≠ 0%Z)
      then set_outputFlags
             (Z.land (getRegValue ctx ZYDIS_REGISTER_EFLAGS)
                     (Z.lnot ZYDIS_CPUFLAG_IF))
             testEntry
      else testEntry in
    Some (true, testEntry).

End Staging.

(** ** The search loop *)

(** The collaborators of the search loop, which the sources do not contain.
    - [std::mt19937_64]: seeding and drawing a 64-bit number.
    - [Generator::InputGenerator]: construction for a width in bits,
      [current()] and [advance()], which tells whether the generator rolled
      over.  A generator is built on the search loop's generator of random
      numbers, which it may draw from.
    - The decoder and the numeric value of a mnemonic.
    - The construction of the context ([None]: it could not be prepared) and
      the execution of the instruction in it ([None]: [execute()] returned
      false). *)
Class Collaborators : Type := {
  Prng : Type;
  prng_seed : Z → Prng;
  prng_next : Prng → Z * Prng;
  InputGenerator : Type;
  InputGenerator_new : nat → Prng → InputGenerator * Prng;
  current : InputGenerator → list Z;
  advance : InputGenerator → Prng → bool * InputGenerator * Prng;
  ZydisDisassembleIntel :
    ZydisMachineMode → list Z → ZydisDisassembledInstruction;
  mnemonic_value : ZydisMnemonic → Z;
  ScopedContext_new : ZydisMachineMode → list Z → option ScopedContext;
  execute : ScopedContext → option ScopedContext
}.

Section SearchLoop.
Context `{ZydisRegisterInfo} {env : Collaborators}.

(** *** advanceInputs *)

(** "Cleanse the registers."; [None] when the span runs past the 32 bytes
    of [ccBytes]. *)
Definition cleanseRegs (instr : ZydisDisassembledInstruction)
    (regsRead : list ZydisRegister) (ctx : ScopedContext)
  : option ScopedContext :=
  let regsReadBig :=
    foldl (λ regsReadBig reg,
             flat_set_insert (getRootReg (machine_mode instr) reg) regsReadBig)
          [] regsRead in
  foldlM (λ ctx reg,
            if isRegFiltered reg then Some ctx
            else
              let bigRegSize :=
                ZydisRegisterGetWidth (machine_mode instr) reg / 8 in
              bytes ← span ccBytes bigRegSize;
              Some (setRegBytes ctx reg bytes))
         ctx regsReadBig.

(** "Randomize read registers.": one round of the loop; the state is the
    context, the entry and [regIndex].  [None] when a copy or a span runs
    past [regBuf[256]] or past the bytes it reads, or [regIndex] is no
    index of [inputGens]. *)
Definition stageInput (instr : ZydisDisassembledInstruction)
    (inputGens : list InputGenerator)
    (st : ScopedContext * TestCaseEntry * nat) (reg : ZydisRegister)
  : option (ScopedContext * TestCaseEntry * nat) :=
  let '(ctx, testEntry, regIndex) := st in
  if isRegFiltered reg then Some st
  else
    let regBuf := replicate 256 0%Z in
    let usedRegBitSize := ZydisRegisterGetWidth (machine_mode instr) reg in
    let usedRegByteSize := usedRegBitSize / 8 in
    let bigReg := getRootReg (machine_mode instr) reg in
    let bigRegBitSize := ZydisRegisterGetWidth (machine_mode instr) bigReg in
    let bigRegByteSize := bigRegBitSize / 8 in
    let currentBytes := getRegBytes ctx bigReg in
    regBuf ← memcpy regBuf 0 currentBytes (length currentBytes);
    let regOffset := getRegOffset reg in
    inputGen ← inputGens !! regIndex;
    let inputData := current inputGen in
    regBuf ← memcpy regBuf regOffset inputData usedRegByteSize;
    bytes ← span regBuf bigRegByteSize;
    let ctx := setRegBytes ctx bigReg bytes in
    let testEntry := set_inputReg bigReg bytes testEntry in
    Some (ctx, testEntry, S regIndex).

(** The loop that advances the generators, for [count] more rounds from
    index [inputIdx].  Besides the generators it returns what the calls of
    [advance()] it made returned, in order. *)
Fixpoint advanceGenerators (iteration : Z) (count inputIdx : nat)
    (inputGens : list InputGenerator) (prng : Prng)
  : list InputGenerator * Prng * list bool :=
  match count with
  | 0 => (inputGens, prng, [])
  | S count =>
      match inputGens !! inputIdx with
      | None => (inputGens, prng, [])
      | Some inputGen =>
          let '(rolled, inputGen, prng) := advance inputGen prng in
          let inputGens := <[inputIdx := inputGen]> inputGens in
          if rolled && bool_decide (((iteration + 1) `mod` 3)%Z = 0%Z)
          then (inputGens, prng, [rolled])
          else
            let '(inputGens, prng, rollovers) :=
              advanceGenerators iteration count (S inputIdx) inputGens prng in
            (inputGens, prng, rolled :: rollovers)
      end
  end.

(** "Randomize read flags.": one round of the loop over the 32 bits. *)
Definition randomizeFlag (flagsRead : Z) (st : Z * Prng) (i : nat) : Z * Prng :=
  let '(flags, prng) := st in
  if decide (Z.land flagsRead (Z.shiftl 1 (Z.of_nat i)) ≠ 0%Z)
  then
    let '(value, prng) := prng_next prng in
    (Z.lor flags (Z.shiftl (value `mod` 2) (Z.of_nat i)), prng)
  else st.

Definition randomizeFlags (flagsRead : Z) (prng : Prng) : Z * Prng :=
  foldl (randomizeFlag flagsRead) (0%Z, prng) (seq 0 32).

(** [None] when [getRegsRead] overruns, or the cleansing or the staging
    of a register is undefined. *)
Definition advanceInputs (ctx : ScopedContext) (prng : Prng)
    (inputGens : list InputGenerator) (instr : ZydisDisassembledInstruction)
    (testEntry : TestCaseEntry) (iteration : Z)
  : option (ScopedContext * Prng * list InputGenerator * TestCaseEntry) :=
  regsRead ← getRegsRead instr;
  let flagsRead := getFlagsRead instr in
  ctx ← cleanseRegs instr regsRead ctx;
  '(ctx, testEntry, regIndex) ←
    foldlM (stageInput instr inputGens) (ctx, testEntry, 0) regsRead;
  let '(inputGens, prng, _) :=
    advanceGenerators iteration regIndex 0 inputGens prng in
  let '(flags, prng, testEntry) :=
    if decide (flagsRead ≠ 0%Z)
    then
      let '(flags, prng) := randomizeFlags flagsRead prng in
      (flags, prng, set_inputFlags flags testEntry)
    else (0%Z, prng, testEntry) in
  let flags := Z.land flags (Z.lnot ZYDIS_CPUFLAG_TF) in
  Some (setRegValue ctx ZYDIS_REGISTER_EFLAGS flags, prng, inputGens, testEntry).

(** One round of the loop of [setupInputGenerators]. *)
Definition addInputGenerator (instr : ZydisDisassembledInstruction)
    (st : list InputGenerator * Prng) (reg : ZydisRegister)
  : list InputGenerator * Prng :=
  let '(generators, prng) := st in
  if isRegFiltered reg then (generators, prng)
  else
    let regSize := ZydisRegisterGetWidth (machine_mode instr) reg in
    let '(generator, prng) := InputGenerator_new regSize prng in
    (generators ++ [generator], prng).

Definition setupInputGenerators (prng : Prng)
    (instr : ZydisDisassembledInstruction)
  : option (list InputGenerator * Prng) :=
  regsRead ← getRegsRead instr;
  Some (foldl (addInputGenerator instr) ([], prng) regsRead).

(** *** testInstruction *)

(** The variables of the retry loop. *)
Record SearchState : Type := {
  st_ctx : ScopedContext;
  st_prng : Prng;
  st_inputGenerators : list InputGenerator;
  st_testEntry : TestCaseEntry;
  st_hasExpected : bool;
  st_illegalInstr : bool;
  st_iteration : Z
}.

Inductive SearchResult : Type :=
  | SearchOutOfFuel
  | SearchUndefined
  | SearchExecuteFailed
  | SearchExit (st : SearchState).

(** The classification of the execution status, from the call of
    [getExecutionStatus] to the end of the [if]: the new [testEntry],
    [hasExpected] and [illegalInstr]. *)
Definition classify (mode : ZydisMachineMode)
    (instr : ZydisDisassembledInstruction) (testBitInfo : TestBitInfo)
    (ctx : ScopedContext) (testEntry : TestCaseEntry)
    (hasExpected illegalInstr : bool)
  : option (TestCaseEntry * bool * bool) :=
  let status := getExecutionStatus ctx in
  if decide (status ≠ Success)
  then
    let exception :=
      match status with
      | ExceptionIntDivideError => ExceptionType_DivideError
      | ExceptionIntOverflow => ExceptionType_IntegerOverflow
      | _ => ExceptionType_None
      end in
    let illegalInstr :=
      match status with
      | IllegalInstruction => true
      | _ => illegalInstr
      end in
    if decide (exception ≠ exceptionType testBitInfo)
    then Some (testEntry, false, illegalInstr)
    else Some (set_exceptionType exception testEntry, true, illegalInstr)
  else
    if decide (exceptionType testBitInfo = ExceptionType_None)
    then
      '(hit, testEntry) ← checkOutputs mode ctx instr testBitInfo testEntry;
      Some (testEntry, hit, illegalInstr)
    else Some (testEntry, hasExpected, illegalInstr).

(** The retry loop [while (!hasExpected && !illegalInstr)]. *)
Fixpoint searchLoop (fuel : nat) (mode : ZydisMachineMode)
    (instr : ZydisDisassembledInstruction) (maxAttempts : Z)
    (testBitInfo : TestBitInfo) (st : SearchState) : SearchResult :=
  if negb (st_hasExpected st) && negb (st_illegalInstr st)
  then
    match fuel with
    | 0 => SearchOutOfFuel
    | S fuel =>
        match ctx ← clearOutput mode (st_ctx st) testBitInfo;
              advanceInputs ctx (st_prng st) (st_inputGenerators st) instr
                            (st_testEntry st) (st_iteration st) with
        | None => SearchUndefined
        | Some (ctx, prng, inputGenerators, testEntry) =>
            match execute ctx with
            | None => SearchExecuteFailed
            | Some ctx =>
                match classify mode instr testBitInfo ctx testEntry
                               (st_hasExpected st) (st_illegalInstr st) with
                | None => SearchUndefined
                | Some (testEntry, hasExpected, illegalInstr) =>
                    let iteration := (st_iteration st + 1)%Z in
                    let st :=
                      {| st_ctx := ctx; st_prng := prng;
                         st_inputGenerators := inputGenerators;
                         st_testEntry := testEntry;
                         st_hasExpected := hasExpected;
                         st_illegalInstr := illegalInstr;
                         st_iteration := iteration |} in
                    if decide (maxAttempts < iteration)%Z
                    then SearchExit st
                    else searchLoop fuel mode instr maxAttempts testBitInfo st
                end
            end
        end
    end
  else SearchExit st.

Definition maxAttemptsOf (instr : ZydisDisassembledInstruction) : Z :=
  if isInputFromImmediate instr then (kAbortTestCaseThreshold `div` 3)%Z
  else kAbortTestCaseThreshold.

(** The retry loop of one target, from a fresh entry and fresh generators.
    The fuel is the largest number of rounds the loop can make. *)
Definition searchTarget (mode : ZydisMachineMode)
    (instr : ZydisDisassembledInstruction) (ctx : ScopedContext)
    (prng : Prng) (testBitInfo : TestBitInfo) : SearchResult :=
  match setupInputGenerators prng instr with
  | None => SearchUndefined
  | Some (inputGenerators, prng) =>
      searchLoop (Z.to_nat (maxAttemptsOf instr + 1)) mode instr
                 (maxAttemptsOf instr) testBitInfo
                 {| st_ctx := ctx; st_prng := prng;
                    st_inputGenerators := inputGenerators;
                    st_testEntry := emptyEntry;
                    st_hasExpected := false;
                    st_illegalInstr := false;
                    st_iteration := 0 |}
  end.

(** The loop over the test matrix; [None] is undefined behaviour. *)
Fixpoint searchTargets (mode : ZydisMachineMode)
    (instr : ZydisDisassembledInstruction) (testMatrix : list TestBitInfo)
    (ctx : ScopedContext) (prng : Prng) (testCase : InstrTestGroup)
  : option InstrTestGroup :=
  match testMatrix with
  | [] => Some testCase
  | testBitInfo :: testMatrix =>
      match searchTarget mode instr ctx prng testBitInfo with
      | SearchOutOfFuel | SearchUndefined => None
      | SearchExecuteFailed => Some testCase
      | SearchExit st =>
          if st_illegalInstr st
          then Some {| address := address testCase;
                       instrData := instrData testCase;
                       entries := entries testCase;
                       illegalInstruction := true |}
          else
            let testCase :=
              if st_hasExpected st
              then {| address := address testCase;
                      instrData := instrData testCase;
                      entries := entries testCase ++ [st_testEntry st];
                      illegalInstruction := illegalInstruction testCase |}
              else testCase in
            searchTargets mode instr testMatrix (st_ctx st) (st_prng st)
                          testCase
      end
  end.

Definition testInstruction (mode : ZydisMachineMode)
    (testCase : InstrTestGroup) : option InstrTestGroup :=
  let instr := ZydisDisassembleIntel mode (instrData testCase) in
  _ ← getRegsRead instr;
  testMatrix ← generateTestMatrix instr;
  match ScopedContext_new mode (instrData testCase) with
  | None => Some testCase
  | Some ctx =>
      let testCase :=
        {| address := getCodeAddress ctx; instrData := instrData testCase;
           entries := entries testCase;
           illegalInstruction := illegalInstruction testCase |} in
      let seed := mnemonic_value (mnemonic instr) in
      let prng := prng_seed seed in
      searchTargets mode instr testMatrix ctx prng testCase
  end.

End SearchLoop.

(** ** Notions the properties are stated with *)

(** The register operands [getRegsModified] collects. *)
Definition writtenOperand (op : ZydisDecodedOperand) : Prop :=
  op_type op = ZYDIS_OPERAND_TYPE_REGISTER
  ∧ Z.land (op_actions op) ZYDIS_OPERAND_ACTION_MASK_WRITE ≠ 0%Z
  ∧ isRegFiltered (op_reg op) = false.

(** The registers the first loop of [getRegsRead] collects: the register of
    a register operand, and the base and the index of a memory operand unless
    [isRegFiltered] (which covers NONE). *)
Definition readCandidate (instr : ZydisDisassembledInstruction)
    (c : ZydisRegister) : Prop :=
  ∃ op, op ∈ operands instr
        ∧ ((op_type op = ZYDIS_OPERAND_TYPE_REGISTER ∧ c = op_reg op)
           ∨ (op_type op = ZYDIS_OPERAND_TYPE_MEMORY
              ∧ (c = op_mem_base op ∨ c = op_mem_index op)
              ∧ isRegFiltered c = false)).

Section Notions.
Context `{ZydisRegisterInfo}.

(** The invariant of the third loop of [getRegsRead], after the registers
    [processed]: the keys are in order, every value is the promoted form of
    a processed register with that root, and every processed register finds
    under its root a value at least as wide as its promoted form. *)
Definition regMapInv (mode : ZydisMachineMode)
    (regMap : list (ZydisRegister * ZydisRegister))
    (processed : list ZydisRegister) : Prop :=
  StronglySorted reg_lt regMap.*1
  ∧ (∀ k v, (k, v) ∈ regMap →
            ∃ c, c ∈ processed ∧ v = remapReg c ∧ getRootReg mode c = k)
  ∧ (∀ c, c ∈ processed →
          ∃ v, flat_map_find (getRootReg mode c) regMap = Some v
               ∧ ZydisRegisterGetWidth mode (remapReg c)
                 ≤ ZydisRegisterGetWidth mode v).

(** The value of [resultAlwaysZero] and of [maxBits] in the round of the
    register loop of [generateTestMatrix] for [regModified], and the value
    of [resultAlwaysZero] the flag loop sees. *)
Definition resultAlwaysZeroFor (instr : ZydisDisassembledInstruction)
    (regModified : ZydisRegister) : bool :=
  if bool_decide (mnemonic instr = ZYDIS_MNEMONIC_BSWAP)
  then bool_decide (ZydisRegisterGetWidth (machine_mode instr) regModified ≤ 16)
  else resultAlwaysZero (analyse instr).

Definition maxBitsFor (instr : ZydisDisassembledInstruction)
    (regModified : ZydisRegister) : nat :=
  if isSetcc (mnemonic instr) then 1
  else if bool_decide (mnemonic instr = ZYDIS_MNEMONIC_LEA)
  then address_width instr
  else ZydisRegisterGetWidth (machine_mode instr) regModified.

Definition flagsResultAlwaysZero (instr : ZydisDisassembledInstruction)
    (regsModified : list ZydisRegister) : bool :=
  (foldl (regTargets instr (analyse instr))
         ([], resultAlwaysZero (analyse instr)) regsModified).2.

(** The semantic pre-analysis as the specification words it (section
    4.2), on the decoded operands and not on the analysis of the code.
    [same_reg_src_dest]: "operands 0 and 1 are the same register". *)
Definition spec_same_reg_src_dest (instr : ZydisDisassembledInstruction)
  : bool :=
  bool_decide (op_type (operand_at instr 0) = ZYDIS_OPERAND_TYPE_REGISTER
               ∧ op_type (operand_at instr 1) = ZYDIS_OPERAND_TYPE_REGISTER
               ∧ op_reg (operand_at instr 0) = op_reg (operand_at instr 1)).

(** [right_imm_zero]: "operand 1 is an immediate equal to 0". *)
Definition spec_right_imm_zero (instr : ZydisDisassembledInstruction) : bool :=
  bool_decide (op_type (operand_at instr 1) = ZYDIS_OPERAND_TYPE_IMMEDIATE
               ∧ op_imm (operand_at instr 1) = 0%Z).

(** [input_is_immediate]: "any operand is immediate". *)
Definition spec_input_is_immediate (instr : ZydisDisassembledInstruction)
  : bool :=
  bool_decide (Exists (λ op, op_type op = ZYDIS_OPERAND_TYPE_IMMEDIATE)
                      (operands instr)).

(** [result_always_zero]: "true for SUB/CMP/XOR when same_reg_src_dest;
    true for AND/TEST when right_imm_zero; true for MOV when
    right_imm_zero; true for BSWAP on a ≤16-bit destination".  The
    destination is the register of operand 0. *)
Definition spec_result_always_zero (instr : ZydisDisassembledInstruction)
  : bool :=
  match mnemonic instr with
  | ZYDIS_MNEMONIC_SUB | ZYDIS_MNEMONIC_CMP | ZYDIS_MNEMONIC_XOR =>
      spec_same_reg_src_dest instr
  | ZYDIS_MNEMONIC_AND | ZYDIS_MNEMONIC_TEST => spec_right_imm_zero instr
  | ZYDIS_MNEMONIC_MOV => spec_right_imm_zero instr
  | ZYDIS_MNEMONIC_BSWAP =>
      bool_decide (ZydisRegisterGetWidth (machine_mode instr)
                     (op_reg (operand_at instr 0)) ≤ 16)
  | _ => false
  end.

(** The targets of flag bit [i] as the specification words them: both
    polarities when the instruction modifies the flag, less the expect-0
    target of ZF and PF when [result_always_zero], the expect-1 target of
    CF and AF when [result_always_zero] or [right_imm_zero], of OF when
    [same_reg_src_dest] or [right_imm_zero] and of SF when
    [result_always_zero]; then the always-0 and the always-1 target. *)
Definition claimedFlagTargets (instr : ZydisDisassembledInstruction)
    (i : nat) : list TestBitInfo :=
  let CF := 0 in let PF := 2 in let AF := 4 in
  let ZF := 6 in let SF := 7 in let OF := 11 in
  let result_always_zero := spec_result_always_zero instr in
  let right_imm_zero := spec_right_imm_zero instr in
  let same_reg_src_dest := spec_same_reg_src_dest instr in
  let suppress0 :=
    bool_decide (i = ZF ∨ i = PF) && result_always_zero in
  let suppress1 :=
    (bool_decide (i = CF ∨ i = AF) && (result_always_zero || right_imm_zero))
    || (bool_decide (i = OF) && (same_reg_src_dest || right_imm_zero))
    || (bool_decide (i = SF) && result_always_zero) in
  (if Z.testbit (flags_modified instr) (Z.of_nat i)
   then (if suppress0 then [] else [flagTarget i 0])
        ++ (if suppress1 then [] else [flagTarget i 1])
   else [])
  ++ (if Z.testbit (flags_set_0 instr) (Z.of_nat i) then [flagTarget i 0] else [])
  ++ (if Z.testbit (flags_set_1 instr) (Z.of_nat i) then [flagTarget i 1] else []).

(** A target for bit [i] of the flags register. *)
Definition isFlagTargetAt (i : nat) (t : TestBitInfo) : Prop :=
  reg t = ZYDIS_REGISTER_FLAGS ∧ bitPos t = i.

#[global] Instance isFlagTargetAt_dec i t : Decision (isFlagTargetAt i t).
Proof. unfold isFlagTargetAt. apply _. Defined.

(** The sub-register [reg] lies inside the buffer of its root: the root is
    not the flags register, the width is a whole number of bytes, the bytes
    of [reg] at its offset fit in the root and the root fits in the 256-byte
    buffer of [clearOutput]. *)
Definition subRegisterFits (mode : ZydisMachineMode) (reg : ZydisRegister)
  : Prop :=
  isFlagsReg (getRootReg mode reg) = false
  ∧ ZydisRegisterGetWidth mode reg `mod` 8 = 0
  ∧ getRegOffset reg + ZydisRegisterGetWidth mode reg / 8
    ≤ ZydisRegisterGetWidth mode (getRootReg mode reg) / 8
  ∧ ZydisRegisterGetWidth mode (getRootReg mode reg) / 8 ≤ 256.

(** The bit positions of CF, PF, AF, ZF, SF and OF in EFLAGS. *)
Definition statusFlagBits : list nat := [0; 2; 4; 6; 7; 11].

End Notions.

Section GeneratorNotions.
Context {env : Collaborators}.

(** The generators advanced one at a time, in order: every generator of
    the list once, each with the random numbers the one before left.  The
    result is the advanced generators, the random numbers left and what
    the calls of [advance()] returned. *)
Fixpoint advanceInOrder (inputGens : list InputGenerator) (prng : Prng)
  : list InputGenerator * Prng * list bool :=
  match inputGens with
  | [] => ([], prng, [])
  | inputGen :: inputGens =>
      let '(rolled, inputGen, prng) := advance inputGen prng in
      let '(inputGens, prng, rollovers) := advanceInOrder inputGens prng in
      (inputGen :: inputGens, prng, rolled :: rollovers)
  end.

End GeneratorNotions.

(** An entry in which nothing of the outcome is recorded yet. *)
Definition pristine (e : TestCaseEntry) : Prop :=
  outputRegs e = [] ∧ outputFlags e = None ∧ entry_exceptionType e = None.

(** An entry of a successful execution: no exception is recorded, the output
    flags are recorded exactly when the instruction modifies a flag, and they
    are recorded with IF (bit 9) clear. *)
Definition successEntry (instr : ZydisDisassembledInstruction)
    (e : TestCaseEntry) : Prop :=
  entry_exceptionType e = None
  ∧ (is_Some (outputFlags e) ↔ getFlagsModified instr ≠ 0%Z)
  ∧ ∀ flags, outputFlags e = Some flags → Z.testbit flags 9 = false.

(** An entry that witnesses an exception: no output is recorded. *)
Definition exceptionEntry (e : TestCaseEntry) : Prop :=
  is_Some (entry_exceptionType e) ∧ outputRegs e = [] ∧ outputFlags e = None.

(** ** Sample instructions and a toy processor

    Decoded forms of a few instructions in 64-bit mode, and collaborators
    simple enough to run the search loop on them. *)

Definition reg_operand (r : ZydisRegister) (actions : Z) : ZydisDecodedOperand :=
  {| op_type := ZYDIS_OPERAND_TYPE_REGISTER; op_actions := actions;
     op_reg := r; op_mem_base := ZYDIS_REGISTER_NONE;
     op_mem_index := ZYDIS_REGISTER_NONE; op_mem_scale := 0;
     op_mem_disp := 0; op_imm := 0 |}.

Definition imm_operand (value : Z) : ZydisDecodedOperand :=
  {| op_type := ZYDIS_OPERAND_TYPE_IMMEDIATE;
     op_actions := ZYDIS_OPERAND_ACTION_READ;
     op_reg := ZYDIS_REGISTER_NONE; op_mem_base := ZYDIS_REGISTER_NONE;
     op_mem_index := ZYDIS_REGISTER_NONE; op_mem_scale := 0;
     op_mem_disp := 0; op_imm := value |}.

Definition READ : Z := ZYDIS_OPERAND_ACTION_READ.
Definition WRITE : Z := ZYDIS_OPERAND_ACTION_WRITE.
Definition READWRITE : Z :=
  Z.lor ZYDIS_OPERAND_ACTION_READ ZYDIS_OPERAND_ACTION_WRITE.

(** [ADD RAX, RBX] (48 01 D8), which modifies the six status flags; the
    flags register is its hidden third operand. *)
Definition add_rax_rbx : ZydisDisassembledInstruction :=
  {| mnemonic := ZYDIS_MNEMONIC_ADD;
     machine_mode := ZYDIS_MACHINE_MODE_LONG_64;
     operands := [reg_operand ZYDIS_REGISTER_RAX READWRITE;
                  reg_operand ZYDIS_REGISTER_RBX READ;
                  reg_operand ZYDIS_REGISTER_RFLAGS WRITE];
     operand_width := 64; address_width := 64;
     flags_modified := statusFlags; flags_set_0 := 0; flags_set_1 := 0;
     flags_tested := 0 |}.

(** [MOV AL, BL] (88 D8). *)
Definition mov_al_bl : ZydisDisassembledInstruction :=
  {| mnemonic := ZYDIS_MNEMONIC_MOV;
     machine_mode := ZYDIS_MACHINE_MODE_LONG_64;
     operands := [reg_operand ZYDIS_REGISTER_AL WRITE;
                  reg_operand ZYDIS_REGISTER_BL READ];
     operand_width := 8; address_width := 64;
     flags_modified := 0; flags_set_0 := 0; flags_set_1 := 0;
     flags_tested := 0 |}.

(** [CLD] (FC), which sets DF to 0. *)
Definition cld : ZydisDisassembledInstruction :=
  {| mnemonic := ZYDIS_MNEMONIC_other 0;
     machine_mode := ZYDIS_MACHINE_MODE_LONG_64;
     operands := [reg_operand ZYDIS_REGISTER_RFLAGS WRITE];
     operand_width := 32; address_width := 64;
     flags_modified := 0; flags_set_0 := ZYDIS_CPUFLAG_DF; flags_set_1 := 0;
     flags_tested := 0 |}.

(** [BTR EAX, 5] (0F BA F0 05), which modifies CF. *)
Definition btr_eax_5 : ZydisDisassembledInstruction :=
  {| mnemonic := ZYDIS_MNEMONIC_BTR;
     machine_mode := ZYDIS_MACHINE_MODE_LONG_64;
     operands := [reg_operand ZYDIS_REGISTER_EAX READWRITE;
                  imm_operand 5;
                  reg_operand ZYDIS_REGISTER_RFLAGS WRITE];
     operand_width := 32; address_width := 64;
     flags_modified := ZYDIS_CPUFLAG_CF; flags_set_0 := 0; flags_set_1 := 0;
     flags_tested := 0 |}.

(** [DIV CL] (F6 F1).  DIV leaves the six status flags undefined: they are
    in none of the four masks the generator reads. *)
Definition div_cl : ZydisDisassembledInstruction :=
  {| mnemonic := ZYDIS_MNEMONIC_DIV;
     machine_mode := ZYDIS_MACHINE_MODE_LONG_64;
     operands := [reg_operand ZYDIS_REGISTER_CL READ;
                  reg_operand ZYDIS_REGISTER_AX READWRITE;
                  reg_operand ZYDIS_REGISTER_RFLAGS WRITE];
     operand_width := 8; address_width := 64;
     flags_modified := 0; flags_set_0 := 0; flags_set_1 := 0;
     flags_tested := 0 |}.

(** [XOR EAX, EAX] (31 C0), which sets SF, ZF and PF by the result and
    clears CF and OF. *)
Definition xor_eax_eax : ZydisDisassembledInstruction :=
  {| mnemonic := ZYDIS_MNEMONIC_XOR;
     machine_mode := ZYDIS_MACHINE_MODE_LONG_64;
     operands := [reg_operand ZYDIS_REGISTER_EAX READWRITE;
                  reg_operand ZYDIS_REGISTER_EAX READ;
                  reg_operand ZYDIS_REGISTER_RFLAGS WRITE];
     operand_width := 32; address_width := 64;
     flags_modified :=
       Z.lor ZYDIS_CPUFLAG_SF (Z.lor ZYDIS_CPUFLAG_ZF ZYDIS_CPUFLAG_PF);
     flags_set_0 := Z.lor ZYDIS_CPUFLAG_CF ZYDIS_CPUFLAG_OF; flags_set_1 := 0;
     flags_tested := 0 |}.

(** [BSWAP AX] (66 0F C8), which modifies no flag. *)
Definition bswap_ax : ZydisDisassembledInstruction :=
  {| mnemonic := ZYDIS_MNEMONIC_BSWAP;
     machine_mode := ZYDIS_MACHINE_MODE_LONG_64;
     operands := [reg_operand ZYDIS_REGISTER_AX READWRITE];
     operand_width := 16; address_width := 64;
     flags_modified := 0; flags_set_0 := 0; flags_set_1 := 0;
     flags_tested := 0 |}.

(** [ADC AL, BL] (10 D8), which tests CF and modifies the status flags. *)
Definition adc_al_bl : ZydisDisassembledInstruction :=
  {| mnemonic := ZYDIS_MNEMONIC_other 1;
     machine_mode := ZYDIS_MACHINE_MODE_LONG_64;
     operands := [reg_operand ZYDIS_REGISTER_AL READWRITE;
                  reg_operand ZYDIS_REGISTER_BL READ;
                  reg_operand ZYDIS_REGISTER_RFLAGS READWRITE];
     operand_width := 8; address_width := 64;
     flags_modified := statusFlags; flags_set_0 := 0; flags_set_1 := 0;
     flags_tested := ZYDIS_CPUFLAG_CF |}.

Definition sample_decode (bytes : list Z) : ZydisDisassembledInstruction :=
  if decide (bytes = [72; 1; 216]%Z) then add_rax_rbx
  else if decide (bytes = [136; 216]%Z) then mov_al_bl
  else if decide (bytes = [252]%Z) then cld
  else if decide (bytes = [15; 186; 240; 5]%Z) then btr_eax_5
  else if decide (bytes = [16; 216]%Z) then adc_al_bl
  else div_cl.

(** A context with empty registers. *)
Definition ctx0 : ScopedContext :=
  {| codeAddress := 4096; regFile := λ _, []; eflags := 0;
     executionStatus := Success |}.

(** A toy processor.  It counts its executions in R15 and, by the count modulo
    four, sets all bits of the other registers and of EFLAGS, clears them
    all, raises a divide error or raises an overflow. *)
Definition toy_execute (ctx : ScopedContext) : option ScopedContext :=
  let n := le_value (regFile ctx ZYDIS_REGISTER_R15) in
  let counted (regs : ZydisRegister → list Z) : ZydisRegister → list Z :=
    <[ZYDIS_REGISTER_R15 := le_bytes 8 (n + 1)]> regs in
  Some (if decide (n `mod` 4 = 0)%Z
        then {| codeAddress := codeAddress ctx;
                regFile := counted (λ _, replicate 8 255%Z);
                eflags := 2 ^ 32 - 1; executionStatus := Success |}
        else if decide (n `mod` 4 = 1)%Z
        then {| codeAddress := codeAddress ctx;
                regFile := counted (λ _, replicate 8 0%Z);
                eflags := 0; executionStatus := Success |}
        else if decide (n `mod` 4 = 2)%Z
        then {| codeAddress := codeAddress ctx;
                regFile := counted (regFile ctx);
                eflags := eflags ctx;
                executionStatus := ExceptionIntDivideError |}
        else {| codeAddress := codeAddress ctx;
                regFile := counted (regFile ctx);
                eflags := eflags ctx;
                executionStatus := ExceptionIntOverflow |}).

(** A processor on which every execution succeeds and changes nothing. *)
Definition quiet_execute (ctx : ScopedContext) : option ScopedContext :=
  Some {| codeAddress := codeAddress ctx; regFile := regFile ctx;
          eflags := eflags ctx; executionStatus := Success |}.

(** A processor on which every execution ends with a status the generator
    does not name. *)
Definition failing_execute (ctx : ScopedContext) : option ScopedContext :=
  Some {| codeAddress := codeAddress ctx; regFile := regFile ctx;
          eflags := eflags ctx; executionStatus := ExecutionStatus_other |}.

(** Toy collaborators: random numbers that count up, and input generators
    that are a rollover answer with a constant pattern. *)
Definition toyCollaborators (execute : ScopedContext → option ScopedContext)
  : Collaborators :=
  {| Prng := Z;
     prng_seed := λ seed, seed;
     prng_next := λ prng, (prng, prng + 1)%Z;
     InputGenerator := bool * list Z;
     InputGenerator_new := λ width prng, ((false, replicate (width / 8) 1%Z), prng);
     current := λ g, g.2;
     advance := λ g prng, (g.1, g, prng);
     ZydisDisassembleIntel := λ _ bytes, sample_decode bytes;
     mnemonic_value := λ _, 0%Z;
     ScopedContext_new := λ _ _, Some ctx0;
     execute := execute |}.

Definition toyEnv : Collaborators := toyCollaborators toy_execute.
Definition quietEnv : Collaborators := toyCollaborators quiet_execute.
Definition failingEnv : Collaborators := toyCollaborators failing_execute.

(** Collaborators whose input generators count: a generator is a counter,
    its pattern is the low byte of the counter, [advance()] adds one and
    tells a rollover when the counter reaches a multiple of three; it draws
    one random number. *)
Definition countingEnv : Collaborators :=
  {| Prng := Z;
     prng_seed := λ seed, seed;
     prng_next := λ prng, (prng, prng + 1)%Z;
     InputGenerator := Z;
     InputGenerator_new := λ width prng, (prng, prng + 1)%Z;
     current := λ g, [g `mod` 256]%Z;
     advance := λ g prng,
       (bool_decide (((g + 1) `mod` 3)%Z = 0%Z), (g + 1)%Z, (prng + 1)%Z);
     ZydisDisassembleIntel := λ _ bytes, sample_decode bytes;
     mnemonic_value := λ _, 0%Z;
     ScopedContext_new := λ _ _, Some ctx0;
     execute := quiet_execute |}.

(** [InstrTestGroup testCase{}] with its bytes. *)
Definition newTestCase (bytes : list Z) : InstrTestGroup :=
  {| address := 0; instrData := bytes; entries := [];
     illegalInstruction := false |}.

(** * The rest of the generator

    [getRegsUsed], the order of the entries ([TestCaseEntry::operator<] and
    [operator==]) and the removal of duplicate entries in
    [generateInstructionTestData]. *)

(** ** The registers an instruction names *)

Section RegistersUsed.
Context `{ZydisRegisterInfo}.

(** One round of the loop of [getRegsUsed]. *)
Definition usedOperand (regs : list ZydisRegister) (op : ZydisDecodedOperand)
  : list ZydisRegister :=
  if decide (op_type op = ZYDIS_OPERAND_TYPE_REGISTER)
  then
    if negb (isRegFiltered (op_reg op))
    then flat_set_insert (op_reg op) regs
    else regs
  else if decide (op_type op = ZYDIS_OPERAND_TYPE_MEMORY)
  then
    let regs :=
      if bool_decide (op_mem_base op ≠ ZYDIS_REGISTER_NONE)
         && negb (isRegFiltered (op_mem_base op))
      then flat_set_insert (op_mem_base op) regs else regs in
    if bool_decide (op_mem_index op ≠ ZYDIS_REGISTER_NONE)
       && negb (isRegFiltered (op_mem_index op))
    then flat_set_insert (op_mem_index op) regs else regs
  else regs.

(** The set [regs] that the loop of [getRegsUsed] builds. *)
Definition regsUsedSet (instr : ZydisDisassembledInstruction)
  : list ZydisRegister :=
  foldl usedOperand [] (operands instr).

Definition getRegsUsed (instr : ZydisDisassembledInstruction)
  : option (list ZydisRegister) :=
  sortRegs (regsUsedSet instr).

End RegistersUsed.

(** ** The order of the entries *)

(** [std::lexicographical_compare] with the comparison [lt], which
    [operator<] of [sfl::small_vector] and of [sfl::small_flat_map] is. *)
Fixpoint lexicographical_compare {A} (lt : A → A → bool) (a b : list A) : bool :=
  match a, b with
  | _, [] => false
  | [], _ :: _ => true
  | x :: a, y :: b =>
      if lt x y then true
      else if lt y x then false
      else lexicographical_compare lt a b
  end.

(** [operator<] of [std::pair], and of a [std::tuple] as a pair of its
    first element and the tuple of the others. *)
Definition pair_lt {A B} (ltA : A → A → bool) (ltB : B → B → bool)
    (a b : A * B) : bool :=
  ltA a.1 b.1 || (negb (ltA b.1 a.1) && ltB a.2 b.2).

(** [operator<] of [std::optional]: an empty optional is below every
    value. *)
Definition optional_lt {A} (lt : A → A → bool) (a b : option A) : bool :=
  match b with
  | None => false
  | Some y => match a with None => true | Some x => lt x y end
  end.

(** The registers compare by their enumerators. *)
Definition ZydisRegister_lt (a b : ZydisRegister) : bool :=
  bool_decide (reg_lt a b).

(** The enumerators of [ExceptionType]. *)
Definition ExceptionType_value (e : ExceptionType) : Z :=
  match e with
  | ExceptionType_None => 0
  | ExceptionType_DivideError => 1
  | ExceptionType_IntegerOverflow => 2
  end.

Definition ExceptionType_lt (a b : ExceptionType) : bool :=
  (ExceptionType_value a <? ExceptionType_value b)%Z.

(** [operator<] of [RegTestData], bytes in order. *)
Definition RegTestData_lt : RegTestData → RegTestData → bool :=
  lexicographical_compare Z.ltb.

(** [operator<] of the maps [inputRegs] and [outputRegs]: their pairs in
    the order of the keys. *)
Definition regData_lt
  : list (ZydisRegister * RegTestData) → list (ZydisRegister * RegTestData)
    → bool :=
  lexicographical_compare (pair_lt ZydisRegister_lt RegTestData_lt).

(** [std::tie(inputRegs, inputFlags, outputRegs, outputFlags,
    exceptionType)] *)
Definition TestCaseEntry_tie (e : TestCaseEntry)
  : list (ZydisRegister * RegTestData)
    * (option Z
       * (list (ZydisRegister * RegTestData)
          * (option Z * option ExceptionType))) :=
  (inputRegs e, (inputFlags e, (outputRegs e,
     (outputFlags e, entry_exceptionType e)))).

(** [TestCaseEntry::operator<] *)
Definition TestCaseEntry_lt (a b : TestCaseEntry) : bool :=
  pair_lt regData_lt
    (pair_lt (optional_lt Z.ltb)
       (pair_lt regData_lt
          (pair_lt (optional_lt Z.ltb) (optional_lt ExceptionType_lt))))
    (TestCaseEntry_tie a) (TestCaseEntry_tie b).

#[global] Instance TestCaseEntry_eq_dec : EqDecision TestCaseEntry.
Proof. solve_decision. Defined.

(** [TestCaseEntry::operator==] *)
Definition TestCaseEntry_eq (a b : TestCaseEntry) : bool :=
  bool_decide (inputRegs a = inputRegs b)
  && bool_decide (inputFlags a = inputFlags b)
  && bool_decide (outputRegs a = outputRegs b)
  && bool_decide (outputFlags a = outputFlags b)
  && bool_decide (entry_exceptionType a = entry_exceptionType b).

(** A comparison that is a strict total order: what [std::sort] asks of
    its comparison, and more. *)
Record StrictTotalOrder {A} (lt : A → A → bool) : Prop := {
  ltb_irrefl : ∀ a, lt a a = false;
  ltb_trans : ∀ a b c, lt a b = true → lt b c = true → lt a c = true;
  ltb_total : ∀ a b, lt a b = false → lt b a = false → a = b
}.

(** [a] may stand before [b] in a sequence sorted by [operator<]. *)
Definition TestCaseEntry_le (a b : TestCaseEntry) : Prop :=
  TestCaseEntry_lt b a = false.

#[global] Instance TestCaseEntry_le_dec : RelDecision TestCaseEntry_le.
Proof. intros a b. unfold TestCaseEntry_le. apply _. Defined.

(** ** The removal of duplicate entries *)

(** One round of [std::unique]: the element is kept unless it equals the
    last element kept. *)
Definition unique_step (res : list TestCaseEntry) (x : TestCaseEntry)
  : list TestCaseEntry :=
  match last res with
  | Some y => if TestCaseEntry_eq y x then res else res ++ [x]
  | None => [x]
  end.

(** [std::unique] followed by [erase]: the elements kept. *)
Definition unique (l : list TestCaseEntry) : list TestCaseEntry :=
  foldl unique_step [] l.

(** Entries in strictly ascending order of [operator<]. *)
Definition ascending (l : list TestCaseEntry) : Prop :=
  StronglySorted (λ a b, TestCaseEntry_lt a b = true) l.

Section TestData.
Context `{ZydisRegisterInfo} {env : Collaborators}.

(** [std::sort] orders the entries by [operator<], a strict total order
    ([TestCaseEntry_lt_order] below), for which the sorted sequence is the
    only one; the merge sort computes it. *)
Definition generateInstructionTestData (mode : ZydisMachineMode)
    (instrBytes : list Z) : option InstrTestGroup :=
  let testCase := newTestCase instrBytes in
  testCase ← testInstruction mode testCase;
  let sorted := merge_sort TestCaseEntry_le (entries testCase) in
  Some {| address := address testCase;
          instrData := instrData testCase;
          entries := unique sorted;
          illegalInstruction := illegalInstruction testCase |}.

End TestData.

(** ** Notions the further properties are stated with *)

Section EntryNotions.
Context `{ZydisRegisterInfo}.

(** The decoder places every register the generator handles inside the
    buffer of its root, and the root of FLAGS is a flags register. *)
Definition rootsFit (mode : ZydisMachineMode) : Prop :=
  (∀ r, isRegFiltered r = false → subRegisterFits mode r)
  ∧ isFlagsReg (getRootReg mode ZYDIS_REGISTER_FLAGS) = true.

(** The bit of a target as an entry records it, read the way
    [checkOutputs] reads it from the context: from the recorded output
    flags for a flag target, from the recorded bytes of the root for a
    register target. *)
Definition recordedBit (mode : ZydisMachineMode) (e : TestCaseEntry)
    (t : TestBitInfo) : option Z :=
  if isFlagsReg (reg t)
  then
    flags ← outputFlags e;
    Some (Z.b2z (Z.testbit flags (Z.of_nat (bitPos t))))
  else
    regData ← flat_map_find (getRootReg mode (reg t)) (outputRegs e);
    let byte := default 0%Z (regData !! (getRegOffset (reg t) + bitPos t / 8)) in
    Some (Z.land (Z.shiftr byte (Z.of_nat (bitPos t `mod` 8))) 1).

(** The entry records the inputs of the context [ctxIn]: the bytes of the
    root of every register that is staged, and the flags, which are
    recorded exactly when the instruction tests a flag and are written to
    EFLAGS without TF. *)
Definition recordsInputs (instr : ZydisDisassembledInstruction)
    (ctxIn : ScopedContext) (e : TestCaseEntry) : Prop :=
  (∀ regsRead r,
     getRegsRead instr = Some regsRead → r ∈ regsRead →
     isRegFiltered r = false →
     flat_map_find (getRootReg (machine_mode instr) r) (inputRegs e)
     = Some (getRegBytes ctxIn (getRootReg (machine_mode instr) r)))
  ∧ (is_Some (inputFlags e) ↔ getFlagsRead instr ≠ 0%Z)
  ∧ getRegValue ctxIn ZYDIS_REGISTER_EFLAGS
    = Z.land (default 0%Z (inputFlags e)) (Z.lnot ZYDIS_CPUFLAG_TF).

(** The entry records the outputs of the context [ctxOut]: for every
    modified register the bytes of its root, and no other register; the
    flags without IF when the instruction modifies a flag, and no flags
    when it modifies none. *)
Definition recordsOutputs (instr : ZydisDisassembledInstruction)
    (ctxOut : ScopedContext) (e : TestCaseEntry) : Prop :=
  (∀ regsModified k,
     getRegsModified instr = Some regsModified →
     flat_map_find k (outputRegs e)
     = if decide (Exists (λ r, getRootReg (machine_mode instr) r = k)
                         regsModified)
       then Some (take (ZydisRegisterGetWidth (machine_mode instr) k / 8)
                       (getRegBytes ctxOut k))
       else None)
  ∧ outputFlags e
    = if decide (getFlagsModified instr ≠ 0%Z)
      then Some (Z.land (getRegValue ctxOut ZYDIS_REGISTER_EFLAGS)
                        (Z.lnot ZYDIS_CPUFLAG_IF))
      else None.

(** The entry is the record of the trial that ran the instruction on
    [ctxIn] and left [ctxOut], for the target [t]: either the execution
    succeeded, the target expects no exception, its bit reads as expected
    and the outputs are recorded; or the execution did not succeed and the
    entry records the exception type of the target and no output. *)
Definition trialRecord (mode : ZydisMachineMode)
    (instr : ZydisDisassembledInstruction) (t : TestBitInfo)
    (ctxIn ctxOut : ScopedContext) (e : TestCaseEntry) : Prop :=
  recordsInputs instr ctxIn e
  ∧ ((getExecutionStatus ctxOut = Success
      ∧ exceptionType t = ExceptionType_None
      ∧ entry_exceptionType e = None
      ∧ observedBit mode ctxOut t = expectedBitValue t
      ∧ recordsOutputs instr ctxOut e)
     ∨ (getExecutionStatus ctxOut ≠ Success
        ∧ entry_exceptionType e = Some (exceptionType t)
        ∧ outputRegs e = [] ∧ outputFlags e = None)).

End EntryNotions.

(** ** When the buffers of a trial are large enough *)

Section BufferNotions.
Context `{ZydisRegisterInfo} {env : Collaborators}.

(** The input generators hold the bytes of their registers: a generator
    made for a width holds at least that many bits, and [advance()] keeps
    the number of bytes a generator holds. *)
Definition generatorsHoldWidth : Prop :=
  (∀ width prng,
     width / 8 ≤ length (current (InputGenerator_new width prng).1))
  ∧ (∀ inputGen prng,
       length (current (advance inputGen prng).1.2)
       = length (current inputGen)).

(** The read register [r] fits the buffers of [advanceInputs]: its root,
    when the cleansing handles it, is no wider than the 32 bytes of
    [ccBytes]; and when the staging handles [r], it handles the root as
    well and the bytes of [r] at its offset lie inside the 256 bytes of
    [regBuf]. *)
Definition readRegisterFits (instr : ZydisDisassembledInstruction)
    (r : ZydisRegister) : Prop :=
  let mode := machine_mode instr in
  let root := getRootReg mode r in
  (isRegFiltered root = false → ZydisRegisterGetWidth mode root / 8 ≤ 32)
  ∧ (isRegFiltered r = false →
     isRegFiltered root = false
     ∧ getRegOffset r + ZydisRegisterGetWidth mode r / 8 ≤ 256).

(** The register [r] fits the buffer of [clearOutput]: its bytes at its
    offset, and its root, lie inside the 256 bytes of [regBuf]. *)
Definition writtenRegisterFits (mode : ZydisMachineMode) (r : ZydisRegister)
  : Prop :=
  getRegOffset r + ZydisRegisterGetWidth mode r / 8 ≤ 256
  ∧ ZydisRegisterGetWidth mode (getRootReg mode r) / 8 ≤ 256.

(** The generators [inputGens] are as many as the registers of [regsRead]
    that the staging handles, and each holds the bytes of its register. *)
Definition generatorsCover (instr : ZydisDisassembledInstruction)
    (regsRead : list ZydisRegister) (inputGens : list InputGenerator)
  : Prop :=
  Forall2 (λ r n, ZydisRegisterGetWidth (machine_mode instr) r / 8 ≤ n)
          (filter (λ r, isRegFiltered r = false) regsRead)
          ((λ inputGen, length (current inputGen)) <$> inputGens).

End BufferNotions.

(** ** One more sample instruction *)

(** [MOV EAX, 5] (B8 05 00 00 00), which modifies no flag. *)
Definition mov_eax_5 : ZydisDisassembledInstruction :=
  {| mnemonic := ZYDIS_MNEMONIC_MOV;
     machine_mode := ZYDIS_MACHINE_MODE_LONG_64;
     operands := [reg_operand ZYDIS_REGISTER_EAX WRITE; imm_operand 5];
     operand_width := 32; address_width := 64;
     flags_modified := 0; flags_set_0 := 0; flags_set_1 := 0;
     flags_tested := 0 |}.

(** [VPXORD ZMM0, ZMM1, ZMM2] (62 F1 75 48 EF C2), which reads two
    registers of 64 bytes. *)
Definition vpxord_zmm0_zmm1_zmm2 : ZydisDisassembledInstruction :=
  {| mnemonic := ZYDIS_MNEMONIC_other 2;
     machine_mode := ZYDIS_MACHINE_MODE_LONG_64;
     operands := [reg_operand ZYDIS_REGISTER_ZMM0 WRITE;
                  reg_operand ZYDIS_REGISTER_ZMM1 READ;
                  reg_operand ZYDIS_REGISTER_ZMM2 READ];
     operand_width := 512; address_width := 64;
     flags_modified := 0; flags_set_0 := 0; flags_set_1 := 0;
     flags_tested := 0 |}.

(** A context whose RAX holds eight bytes 0xFF. *)
Definition ctx_rax_ones : ScopedContext :=
  setRegBytes ctx0 ZYDIS_REGISTER_RAX (replicate 8 255%Z).

(** * Properties *)

(** ** Containers *)

Lemma reg_lt_irrefl (a : ZydisRegister) : ¬ reg_lt a a.
Proof. unfold reg_lt. lia. Qed.

Lemma reg_lt_trans (a b c : ZydisRegister) : reg_lt a b → reg_lt b c → reg_lt a c.
Proof. unfold reg_lt. lia. Qed.

Lemma reg_lt_total (a b : ZydisRegister) : ¬ reg_lt a b → a ≠ b → reg_lt b a.
Proof.
  unfold reg_lt. intros Hlt Hne.
  destruct (decide (ZydisRegister_id a = ZydisRegister_id b)) as [Heq|Hid]; [|lia].
  destruct Hne. apply (inj Some).
  assert (∀ r, ZydisRegister_of_id (ZydisRegister_id r) = Some r) as Hid
    by (by intros []).
  by rewrite <- (Hid a), <- (Hid b), Heq.
Qed.

Lemma elem_of_flat_set_insert (x r : ZydisRegister) (s : list ZydisRegister) :
  r ∈ flat_set_insert x s ↔ r = x ∨ r ∈ s.
Proof.
  induction s as [|y s IH]; simpl.
  - rewrite list_elem_of_singleton, elem_of_nil. tauto.
  - repeat case_decide; subst; rewrite ?elem_of_cons, ?IH; tauto.
Qed.

Lemma flat_set_insert_sorted (x : ZydisRegister) (s : list ZydisRegister) :
  StronglySorted reg_lt s → StronglySorted reg_lt (flat_set_insert x s).
Proof.
  induction 1 as [|y s Hs IH Hall]; simpl.
  - repeat constructor.
  - repeat case_decide; subst.
    + constructor; [by constructor|].
      constructor; [done|]. eapply Forall_impl; [exact Hall|].
      intros z Hz. by eapply reg_lt_trans.
    + by constructor.
    + constructor; [done|]. apply Forall_forall. intros z Hz.
      apply elem_of_flat_set_insert in Hz as [->|Hz].
      * by apply reg_lt_total.
      * by eapply Forall_forall in Hall.
Qed.

Lemma flat_set_NoDup (s : list ZydisRegister) :
  StronglySorted reg_lt s → NoDup s.
Proof.
  induction 1 as [|y s Hs IH Hall]; constructor; [|done].
  intros Hin. eapply Forall_forall in Hall; [|done].
  by eapply reg_lt_irrefl.
Qed.

Lemma flat_map_find_assign {V} (k : ZydisRegister) (v : V) m :
  flat_map_find k (flat_map_assign k v m) = Some v.
Proof.
  induction m as [|[k' v'] m IH]; simpl; repeat (case_decide || simpl); try done.
Qed.

Lemma flat_map_find_assign_ne {V} (j k : ZydisRegister) (v : V) m :
  j ≠ k → flat_map_find j (flat_map_assign k v m) = flat_map_find j m.
Proof.
  intros Hne. induction m as [|[k' v'] m IH]; simpl;
    repeat (case_decide || simpl); subst; try done.
Qed.

Lemma flat_map_find_elem_of {V} (k : ZydisRegister) (v : V) m :
  flat_map_find k m = Some v → (k, v) ∈ m.
Proof.
  induction m as [|[k' v'] m IH]; simpl; [done|].
  case_decide; subst.
  - intros [= ->]. left.
  - intros Hf. right. auto.
Qed.

Lemma elem_of_flat_map_assign {V} (k j : ZydisRegister) (v w : V) m :
  (j, w) ∈ flat_map_assign k v m → (j = k ∧ w = v) ∨ (j, w) ∈ m.
Proof.
  induction m as [|[k' v'] m IH]; simpl.
  - rewrite list_elem_of_singleton. intros [= -> ->]. by left.
  - repeat case_decide; subst; rewrite !elem_of_cons.
    + intros [[= -> ->]|[[= -> ->]|Hin]]; auto.
    + intros [[= -> ->]|Hin]; auto.
    + intros [[= -> ->]|Hin]; auto. destruct (IH Hin); auto.
Qed.

Lemma flat_map_assign_sorted {V} (k : ZydisRegister) (v : V) m :
  StronglySorted reg_lt m.*1 → StronglySorted reg_lt (flat_map_assign k v m).*1.
Proof.
  induction m as [|[k' v'] m IH]; simpl.
  - repeat constructor.
  - intros Hs. apply StronglySorted_inv in Hs as [Hs Hall].
    repeat case_decide; subst; simpl.
    + constructor; [by constructor|].
      constructor; [done|]. eapply Forall_impl; [exact Hall|].
      intros z Hz. by eapply reg_lt_trans.
    + by constructor.
    + constructor; [auto|]. apply Forall_forall. intros z Hz.
      apply list_elem_of_fmap in Hz as [[j w] [-> Hz]]. simpl.
      apply elem_of_flat_map_assign in Hz as [[-> ->]|Hz].
      * by apply reg_lt_total.
      * eapply Forall_forall in Hall; [done|].
        apply list_elem_of_fmap. by exists (j, w).
Qed.

Lemma flat_map_elem_of_find {V} (k : ZydisRegister) (v : V) m :
  StronglySorted reg_lt m.*1 → (k, v) ∈ m → flat_map_find k m = Some v.
Proof.
  induction m as [|[k' v'] m IH]; simpl; [by rewrite elem_of_nil|].
  intros Hs. apply StronglySorted_inv in Hs as [Hs Hall].
  rewrite elem_of_cons. intros [[= -> ->]|Hin].
  - by rewrite decide_True.
  - rewrite decide_False; [auto|]. intros ->.
    eapply Forall_forall in Hall.
    + by eapply reg_lt_irrefl.
    + apply list_elem_of_fmap. by exists (k', v).
Qed.

(** ** Loops and buffers *)

Lemma foldlM_app {A B} (f : A → B → option A) (a : A) (l1 l2 : list B) :
  foldlM f a (l1 ++ l2) = a' ← foldlM f a l1; foldlM f a' l2.
Proof.
  revert a. induction l1 as [|b l1 IH]; intros a; [done|].
  cbn [app foldlM]. destruct (f a b) as [a1|]; [|done]. apply IH.
Qed.

Lemma foldlM_snoc {A B} (f : A → B → option A) (a : A) (l : list B) (b : B) :
  foldlM f a (l ++ [b]) = a' ← foldlM f a l; f a' b.
Proof.
  rewrite foldlM_app. destruct (foldlM f a l) as [a'|]; [|done].
  cbn [mbind option_bind foldlM]. by destruct (f a' b).
Qed.

Lemma store_Some (buf : list Z) (i : nat) (v : Z) (buf' : list Z) :
  store buf i v = Some buf' ↔ i < length buf ∧ buf' = <[i := v]> buf.
Proof. unfold store. case_decide; naive_solver. Qed.

Lemma span_Some (buf : list Z) (n : nat) (bytes : list Z) :
  span buf n = Some bytes ↔ n ≤ length buf ∧ bytes = take n buf.
Proof. unfold span. case_decide; naive_solver. Qed.

Lemma memcpy_Some (dst : list Z) (offset : nat) (src : list Z) (n : nat)
    (buf : list Z) :
  memcpy dst offset src n = Some buf
  ↔ n ≤ length src ∧ offset + n ≤ length dst
    ∧ buf = list_inserts offset (take n src) dst.
Proof. unfold memcpy. case_decide; naive_solver. Qed.

Lemma foldlM_ext {A B} (f g : A → B → option A) (a : A) (l : list B) :
  (∀ a b, f a b = g a b) → foldlM f a l = foldlM g a l.
Proof.
  intros Hfg. revert a. induction l as [|b l IH]; intros a; [done|].
  cbn [foldlM]. rewrite Hfg. destruct (g a b); [|done]. apply IH.
Qed.

(** ** Register analysis *)

Section RegisterAnalysisFacts.
Context `{ZydisRegisterInfo}.

#[local] Instance wider_first_total : Total wider_first.
Proof. intros a b. unfold wider_first. lia. Qed.

#[local] Instance wider_first_trans : Transitive wider_first.
Proof. intros a b c. unfold wider_first. lia. Qed.

(** Within its capacity [sortRegs] permutes the set into an order of
    descending width, and it overruns exactly past five registers. *)
Lemma sortRegs_Some (regs sorted : list ZydisRegister) :
  sortRegs regs = Some sorted →
  sorted ≡ₚ regs ∧ StronglySorted wider_first sorted.
Proof.
  unfold sortRegs. case_decide; [|done]. intros [= <-]. split.
  - apply merge_sort_Permutation.
  - apply (StronglySorted_merge_sort _).
Qed.

Lemma sortRegs_None (regs : list ZydisRegister) :
  sortRegs regs = None ↔ 5 < length regs.
Proof. unfold sortRegs. case_decide; split; (done || lia). Qed.

Lemma regsModifiedSet_spec (instr : ZydisDisassembledInstruction) :
  StronglySorted reg_lt (regsModifiedSet instr)
  ∧ ∀ r, r ∈ regsModifiedSet instr ↔
         ∃ op, op ∈ operands instr ∧ writtenOperand op ∧ op_reg op = r.
Proof.
  unfold regsModifiedSet. generalize (operands instr). intros ops.
  induction ops as [|op ops [IHs IHm]] using rev_ind; simpl.
  - split; [constructor|]. intros r. rewrite elem_of_nil.
    split; [done|]. intros (op & Hop & _). by apply elem_of_nil in Hop.
  - rewrite foldl_app. simpl.
    assert (∀ r, (∃ op', op' ∈ ops ++ [op] ∧ writtenOperand op' ∧ op_reg op' = r)
                 ↔ (∃ op', op' ∈ ops ∧ writtenOperand op' ∧ op_reg op' = r)
                   ∨ (writtenOperand op ∧ op_reg op = r)) as Hsplit.
    { intros r. split.
      - intros (op' & Hin & Hw). apply elem_of_app in Hin as [Hin|Hin].
        + left. by exists op'.
        + apply list_elem_of_singleton in Hin as ->. by right.
      - intros [(op' & Hin & Hw)|Hw].
        + exists op'. split; [|done]. apply elem_of_app. by left.
        + exists op. split; [|done]. apply elem_of_app. right. left. }
    unfold writtenOperand in *.
    case_decide as Hc; [destruct (isRegFiltered (op_reg op)) eqn:Hf; simpl|].
    + split; [done|]. intros r. rewrite Hsplit, IHm.
      split; [by left|]. intros [?|(Hw & _)]; [done|]. destruct Hw as (_ & _ & ?). congruence.
    + split; [by apply flat_set_insert_sorted|]. intros r.
      rewrite elem_of_flat_set_insert, Hsplit, IHm. destruct Hc. intuition.
    + split; [done|]. intros r. rewrite Hsplit, IHm.
      split; [by left|]. intros [?|(Hw & _)]; [done|]. destruct Hc. tauto.
Qed.

(** C4, as the code has it: [getRegsModified] returns the written register
    operands themselves (not their roots), each once, without NONE, the
    instruction pointer and the flags registers, the widest first. *)
Theorem getRegsModified_spec (instr : ZydisDisassembledInstruction)
    (regs : list ZydisRegister) :
  getRegsModified instr = Some regs →
  (∀ r, r ∈ regs ↔
        ∃ op, op ∈ operands instr ∧ op_type op = ZYDIS_OPERAND_TYPE_REGISTER
              ∧ Z.land (op_actions op) ZYDIS_OPERAND_ACTION_MASK_WRITE ≠ 0%Z
              ∧ isRegFiltered (op_reg op) = false ∧ op_reg op = r)
  ∧ NoDup regs
  ∧ StronglySorted wider_first regs.
Proof.
  unfold getRegsModified.
  intros Hsort. apply sortRegs_Some in Hsort as [Hperm Hsorted].
  destruct (regsModifiedSet_spec instr) as [Hs Hm].
  split; [|split; [|done]].
  - intros r. rewrite Hperm, Hm. unfold writtenOperand.
    split; intros (op & ? & ?); exists op; tauto.
  - rewrite Hperm. by apply flat_set_NoDup.
Qed.

Lemma getRegsModified_defined (instr : ZydisDisassembledInstruction) :
  is_Some (getRegsModified instr) ↔ length (regsModifiedSet instr) ≤ 5.
Proof.
  unfold getRegsModified.
  rewrite <- not_eq_None_Some, sortRegs_None. lia.
Qed.

(** A loop that inserts registers into a flat set. *)
Lemma foldl_flat_set {A} (step : list ZydisRegister → A → list ZydisRegister)
    (P : A → ZydisRegister → Prop) :
  (∀ acc x, StronglySorted reg_lt acc →
            StronglySorted reg_lt (step acc x)
            ∧ ∀ r, r ∈ step acc x ↔ r ∈ acc ∨ P x r) →
  ∀ xs acc, StronglySorted reg_lt acc →
    StronglySorted reg_lt (foldl step acc xs)
    ∧ ∀ r, r ∈ foldl step acc xs ↔ r ∈ acc ∨ ∃ x, x ∈ xs ∧ P x r.
Proof.
  intros Hstep xs. induction xs as [|x xs IH]; intros acc Hacc; simpl.
  - split; [done|]. intros r. split; [by left|].
    intros [?|(x & Hx & _)]; [done|]. by apply elem_of_nil in Hx.
  - destruct (Hstep acc x Hacc) as [Hs Hm].
    destruct (IH _ Hs) as [Hs' Hm']. split; [done|].
    intros r. rewrite Hm', Hm. split.
    + intros [[?|?]|(y & Hy & ?)]; [by left| |].
      * right. exists x. split; [left|done].
      * right. exists y. split; [by right|done].
    + intros [?|(y & Hy & ?)]; [by left; left|].
      apply elem_of_cons in Hy as [->|Hy]; [by left; right|].
      right. by exists y.
Qed.

Lemma readOperand_spec (acc : list ZydisRegister) (op : ZydisDecodedOperand) :
  StronglySorted reg_lt acc →
  StronglySorted reg_lt (readOperand acc op)
  ∧ ∀ r, r ∈ readOperand acc op ↔
         r ∈ acc
         ∨ ((op_type op = ZYDIS_OPERAND_TYPE_REGISTER ∧ r = op_reg op)
            ∨ (op_type op = ZYDIS_OPERAND_TYPE_MEMORY
               ∧ (r = op_mem_base op ∨ r = op_mem_index op)
               ∧ isRegFiltered r = false)).
Proof.
  intros Hacc. unfold readOperand.
  case_decide as Hreg; [|case_decide as Hmem].
  - split; [by apply flat_set_insert_sorted|]. intros r.
    rewrite elem_of_flat_set_insert. rewrite Hreg. intuition congruence.
  - assert (isRegFiltered ZYDIS_REGISTER_NONE = true) as Hnone by done.
    assert (∀ (c : ZydisRegister) s r,
               r ∈ (if bool_decide (c ≠ ZYDIS_REGISTER_NONE)
                       && negb (isRegFiltered c)
                    then flat_set_insert c s else s)
               ↔ r ∈ s ∨ (r = c ∧ isRegFiltered r = false)) as Hins.
    { intros c s r.
      destruct (bool_decide_reflect (c ≠ ZYDIS_REGISTER_NONE)) as [Hc|Hc];
        destruct (isRegFiltered c) eqn:Hf; simpl;
        rewrite ?elem_of_flat_set_insert.
      - split; [by left|]. intros [?|[-> ?]]; [done|congruence].
      - split; [intros [->|?]; auto|]. intros [?|[-> ?]]; auto.
      - split; [by left|]. intros [?|[-> ?]]; [done|congruence].
      - split; [by left|]. intros [?|[-> ?]]; [done|].
        apply dec_stable in Hc. congruence. }
    split.
    + repeat (case_match; auto using flat_set_insert_sorted).
    + intros r. rewrite Hins, Hins. intuition congruence.
  - split; [done|]. intros r. intuition congruence.
Qed.

Lemma readNarrowOperand_spec (acc : list ZydisRegister)
    (op : ZydisDecodedOperand) :
  StronglySorted reg_lt acc →
  StronglySorted reg_lt (readNarrowOperand acc op)
  ∧ ∀ r, r ∈ readNarrowOperand acc op ↔
         r ∈ acc
         ∨ (op_type op = ZYDIS_OPERAND_TYPE_REGISTER ∧ r = op_reg op
            ∧ (ZydisRegisterGetClass (op_reg op) = ZYDIS_REGCLASS_GPR16
               ∨ ZydisRegisterGetClass (op_reg op) = ZYDIS_REGCLASS_GPR8)).
Proof.
  intros Hacc. unfold readNarrowOperand. repeat case_decide.
  - split; [by apply flat_set_insert_sorted|]. intros r.
    rewrite elem_of_flat_set_insert. intuition.
  - split; [done|]. intros r. intuition.
  - split; [done|]. intros r. intuition.
Qed.

Lemma regsReadOperands_spec (instr : ZydisDisassembledInstruction) :
  StronglySorted reg_lt (regsReadOperands instr)
  ∧ ∀ c, c ∈ regsReadOperands instr ↔ readCandidate instr c.
Proof.
  unfold regsReadOperands.
  destruct (foldl_flat_set readOperand _ readOperand_spec (operands instr) [])
    as [Hs1 Hm1]; [constructor|].
  destruct (foldl_flat_set readNarrowOperand _ readNarrowOperand_spec
              (operands instr) _ Hs1) as [Hs2 Hm2].
  split; [done|]. intros c. rewrite Hm2, Hm1, elem_of_nil. unfold readCandidate.
  split.
  - intros [[[]|?]|(op & Hop & Hreg & -> & _)]; [done|].
    exists op. split; [done|]. by left.
  - intros ?. left. by right.
Qed.

Lemma mergeOverlapping_inv (mode : ZydisMachineMode) regMap processed reg :
  regMapInv mode regMap processed →
  regMapInv mode (mergeOverlapping mode regMap reg) (processed ++ [reg]).
Proof.
  intros (Hs & Hval & Hfind). unfold mergeOverlapping.
  assert (∀ v, regMapInv mode regMap processed →
            (∀ old, flat_map_find (getRootReg mode reg) regMap = Some old →
                    ZydisRegisterGetWidth mode old
                    < ZydisRegisterGetWidth mode (remapReg reg)) →
            v = remapReg reg →
            regMapInv mode (flat_map_assign (getRootReg mode reg) v regMap)
                      (processed ++ [reg])) as Hassign.
  { intros v _ Hold ->. split; [by apply flat_map_assign_sorted|]. split.
    - intros k v Hin. apply elem_of_flat_map_assign in Hin as [[-> ->]|Hin].
      + exists reg. split; [|done]. apply elem_of_app. right. left.
      + destruct (Hval _ _ Hin) as (c & Hc & ?). exists c.
        split; [|done]. apply elem_of_app. by left.
    - intros c Hc. apply elem_of_app in Hc as [Hc|Hc].
      + destruct (Hfind c Hc) as (v & Hv & Hw).
        destruct (decide (getRootReg mode c = getRootReg mode reg)) as [Heq|Hne].
        * rewrite Heq, flat_map_find_assign. eexists. split; [done|].
          rewrite Heq in Hv. specialize (Hold _ Hv). lia.
        * rewrite flat_map_find_assign_ne by done. eauto.
      + apply list_elem_of_singleton in Hc as ->.
        rewrite flat_map_find_assign. eauto. }
  destruct (flat_map_find (getRootReg mode reg) regMap) as [old|] eqn:Hold.
  - case_decide as Hw.
    + apply Hassign; [done| |done]. by intros ? [= <-].
    + split; [done|]. split.
      * intros k v Hin. destruct (Hval _ _ Hin) as (c & Hc & ?). exists c.
        split; [|done]. apply elem_of_app. by left.
      * intros c Hc. apply elem_of_app in Hc as [Hc|Hc]; [auto|].
        apply list_elem_of_singleton in Hc as ->. exists old. split; [done|lia].
  - apply Hassign; [done| |done]. by intros ? [=].
Qed.

Lemma regsReadMap_inv (instr : ZydisDisassembledInstruction) :
  regMapInv (machine_mode instr) (regsReadMap instr) (regsReadOperands instr).
Proof.
  unfold regsReadMap. generalize (regsReadOperands instr). intros regs.
  induction regs as [|reg regs IH] using rev_ind; simpl.
  - split; [constructor|]. split.
    + intros k v Hin. by apply elem_of_nil in Hin.
    + intros c Hin. by apply elem_of_nil in Hin.
  - rewrite foldl_app. simpl. by apply mergeOverlapping_inv.
Qed.

Lemma regsReadSet_spec (instr : ZydisDisassembledInstruction) :
  StronglySorted reg_lt (regsReadSet instr)
  ∧ ∀ r, r ∈ regsReadSet instr ↔ ∃ k, (k, r) ∈ regsReadMap instr.
Proof.
  unfold regsReadSet.
  destruct (foldl_flat_set
              (λ regs (kv : ZydisRegister * ZydisRegister),
                 flat_set_insert kv.2 regs)
              (λ kv r, r = kv.2)) with (xs := regsReadMap instr) (acc := @nil ZydisRegister)
    as [Hs Hm]; [|constructor|].
  { intros acc kv Hacc. split; [by apply flat_set_insert_sorted|].
    intros r. rewrite elem_of_flat_set_insert. tauto. }
  split; [done|]. intros r. rewrite Hm, elem_of_nil. split.
  - intros [[]|([k v] & Hin & ->)]. by exists k.
  - intros (k & Hin). right. by exists (k, r).
Qed.

(** C3, as the code has it.  Every register of the result is the promoted
    form of a register the instruction names; every such register has its
    root represented, by a register at least as wide as its promoted form;
    no two registers of the result share a root; the widest come first.
    The register operands are taken unfiltered, so the instruction pointer
    and the flags registers are among the registers named. *)
Theorem getRegsRead_spec (instr : ZydisDisassembledInstruction)
    (regs : list ZydisRegister) :
  let mode := machine_mode instr in
  (∀ c, getRootReg mode (remapReg c) = getRootReg mode c) →
  getRegsRead instr = Some regs →
  (∀ r, r ∈ regs → ∃ c, readCandidate instr c ∧ r = remapReg c)
  ∧ (∀ c, readCandidate instr c →
          ∃ r, r ∈ regs ∧ getRootReg mode r = getRootReg mode c
               ∧ ZydisRegisterGetWidth mode (remapReg c)
                 ≤ ZydisRegisterGetWidth mode r)
  ∧ (∀ r1 r2, r1 ∈ regs → r2 ∈ regs →
              getRootReg mode r1 = getRootReg mode r2 → r1 = r2)
  ∧ NoDup regs
  ∧ StronglySorted wider_first regs.
Proof.
  intros mode Hroot Hsort. unfold getRegsRead in Hsort.
  apply sortRegs_Some in Hsort as [Hperm Hsorted].
  destruct (regsReadSet_spec instr) as [Hs Hm].
  destruct (regsReadMap_inv instr) as (Hkeys & Hval & Hfind).
  destruct (regsReadOperands_spec instr) as [_ Hcand].
  fold mode in Hval, Hfind.
  assert (∀ k r, (k, r) ∈ regsReadMap instr → getRootReg mode r = k) as Hkey.
  { intros k r Hin. destruct (Hval _ _ Hin) as (c & _ & -> & <-). apply Hroot. }
  repeat split; [| | |by rewrite Hperm; apply flat_set_NoDup|done].
  - intros r Hr. rewrite Hperm in Hr. apply Hm in Hr as (k & Hin).
    destruct (Hval _ _ Hin) as (c & Hc & -> & _). exists c.
    split; [by apply Hcand|done].
  - intros c Hc. apply Hcand in Hc. destruct (Hfind c Hc) as (v & Hv & Hw).
    apply flat_map_find_elem_of in Hv. exists v. split; [|split; [|done]].
    + rewrite Hperm. apply Hm. eauto.
    + by apply Hkey.
  - intros r1 r2 Hr1 Hr2 Heq. rewrite Hperm in Hr1, Hr2.
    apply Hm in Hr1 as (k1 & Hin1). apply Hm in Hr2 as (k2 & Hin2).
    pose proof (Hkey _ _ Hin1) as Hk1. pose proof (Hkey _ _ Hin2) as Hk2.
    apply flat_map_elem_of_find in Hin1; [|done].
    apply flat_map_elem_of_find in Hin2; [|done]. congruence.
Qed.

Lemma getRegsRead_defined (instr : ZydisDisassembledInstruction) :
  is_Some (getRegsRead instr) ↔ length (regsReadSet instr) ≤ 5.
Proof.
  unfold getRegsRead. rewrite <- not_eq_None_Some, sortRegs_None. lia.
Qed.

End RegisterAnalysisFacts.

(** ** The bit matrix *)

Section BitMatrixFacts.
Context `{ZydisRegisterInfo}.

(** The register loop in closed form: the BSWAP case assigns
    [resultAlwaysZero] in every round before it is read, so each round
    depends on its register only. *)
Lemma regTargets_foldl (instr : ZydisDisassembledInstruction)
    (regsModified : list ZydisRegister) (matrix : list TestBitInfo) (z : bool) :
  (foldl (regTargets instr (analyse instr)) (matrix, z) regsModified).1
  = matrix
    ++ (regsModified ≫= λ r,
          seq 0 (ZydisRegisterGetWidth (machine_mode instr) r)
            ≫= regBitTargets instr (analyse instr)
                 (if bool_decide (mnemonic instr = ZYDIS_MNEMONIC_BSWAP)
                  then bool_decide (ZydisRegisterGetWidth (machine_mode instr) r ≤ 16)
                  else z)
                 (maxBitsFor instr r) r).
Proof.
  revert matrix z. induction regsModified as [|r regs IH]; intros matrix z; simpl.
  - by rewrite app_nil_r.
  - rewrite IH. rewrite <- app_assoc. unfold maxBitsFor.
    by destruct (bool_decide (mnemonic instr = ZYDIS_MNEMONIC_BSWAP)).
Qed.

(** The value of [resultAlwaysZero] in the flag loop: the value of the last
    round of the register loop, or the analysed value when no register is
    modified; outside BSWAP it is the analysed value in either case. *)
Lemma flagsResultAlwaysZero_eq (instr : ZydisDisassembledInstruction)
    (regsModified : list ZydisRegister) :
  flagsResultAlwaysZero instr regsModified
  = match last regsModified with
    | Some r => resultAlwaysZeroFor instr r
    | None => resultAlwaysZero (analyse instr)
    end.
Proof.
  unfold flagsResultAlwaysZero.
  induction regsModified as [|r regs IH] using rev_ind; [done|].
  rewrite foldl_snoc, last_snoc. unfold regTargets at 1.
  destruct (foldl _ _ regs) as [matrix z]. simpl in *. unfold resultAlwaysZeroFor.
  destruct (bool_decide (mnemonic instr = ZYDIS_MNEMONIC_BSWAP)) eqn:Hb; [done|].
  rewrite IH. destruct (last regs); [|done].
  unfold resultAlwaysZeroFor. by rewrite Hb.
Qed.

Lemma testMatrixOf_eq (instr : ZydisDisassembledInstruction)
    (regsModified : list ZydisRegister) :
  testMatrixOf instr regsModified
  = (regsModified ≫= λ r,
       seq 0 (ZydisRegisterGetWidth (machine_mode instr) r)
         ≫= regBitTargets instr (analyse instr) (resultAlwaysZeroFor instr r)
              (maxBitsFor instr r) r)
    ++ (seq 0 32 ≫= flagBitTargets instr (analyse instr)
                      (flagsResultAlwaysZero instr regsModified))
    ++ (exceptionTarget <$> getExceptions instr).
Proof.
  unfold testMatrixOf, flagsResultAlwaysZero.
  pose proof (regTargets_foldl instr regsModified [] (resultAlwaysZero (analyse instr)))
    as Hfold.
  destruct (foldl _ _ regsModified) as [matrix z]. simpl in *. by rewrite Hfold.
Qed.

(** Register targets: what a target of the register part looks like. *)
Lemma elem_of_regBitTargets instr a z maxBits r b t :
  t ∈ regBitTargets instr a z maxBits r b →
  t = regTarget r b 0 ∨ t = regTarget r b 1.
Proof.
  unfold regBitTargets. repeat case_match; simplify_eq;
    rewrite ?elem_of_app, ?elem_of_cons, ?elem_of_nil; tauto.
Qed.

Lemma generateTestMatrix_Some instr matrix :
  generateTestMatrix instr = Some matrix →
  ∃ regsModified,
    getRegsModified instr = Some regsModified
    ∧ matrixDefined instr regsModified = true
    ∧ matrix = testMatrixOf instr regsModified.
Proof.
  unfold generateTestMatrix. intros Hm.
  destruct (getRegsRead instr); [|done]. simpl in Hm.
  destruct (getRegsModified instr) as [regsModified|]; [|done]. simpl in Hm.
  destruct (matrixDefined instr regsModified) eqn:Hd; [|done].
  exists regsModified. by simplify_eq.
Qed.

Lemma regsModified_not_filtered instr regsModified r :
  getRegsModified instr = Some regsModified → r ∈ regsModified →
  isRegFiltered r = false.
Proof.
  unfold getRegsModified. intros Hm Hr.
  apply sortRegs_Some in Hm as [Hperm _]. rewrite Hperm in Hr.
  apply (proj2 (regsModifiedSet_spec instr)) in Hr as (op & _ & Hw & <-).
  by destruct Hw as (_ & _ & Hf).
Qed.

Lemma elem_of_if_singleton {A} (c : bool) (x t : A) :
  t ∈ (if c then [x] else []) → t = x.
Proof.
  destruct c; [by intros ->%list_elem_of_singleton|].
  intros Ht. by apply elem_of_nil in Ht.
Qed.

Lemma elem_of_flagBitTargets instr a z j t :
  t ∈ flagBitTargets instr a z j → t = flagTarget j 0 ∨ t = flagTarget j 1.
Proof.
  unfold flagBitTargets. intros Ht.
  apply elem_of_app in Ht as [Ht|Ht].
  - destruct (negb (inputIsImmediate a)); [|by apply elem_of_nil in Ht].
    destruct (bool_decide _); [|by apply elem_of_nil in Ht].
    apply elem_of_app in Ht as [Ht|Ht];
      apply elem_of_if_singleton in Ht; auto.
  - apply elem_of_app in Ht as [Ht|Ht];
      apply elem_of_if_singleton in Ht; auto.
Qed.

(** Every target of the matrix is a register target (a bit of a modified
    register, inside its width), a flag target or an exception target. *)
Lemma elem_of_testMatrix instr matrix t :
  generateTestMatrix instr = Some matrix → t ∈ matrix →
  (exceptionType t = ExceptionType_None
   ∧ isRegFiltered (reg t) = false
   ∧ bitPos t < ZydisRegisterGetWidth (machine_mode instr) (reg t)
   ∧ (expectedBitValue t = 0%Z ∨ expectedBitValue t = 1%Z))
  ∨ (exceptionType t = ExceptionType_None
     ∧ reg t = ZYDIS_REGISTER_FLAGS ∧ bitPos t < 32
     ∧ (expectedBitValue t = 0%Z ∨ expectedBitValue t = 1%Z))
  ∨ (exceptionType t ≠ ExceptionType_None ∧ reg t = ZYDIS_REGISTER_NONE).
Proof.
  intros Hm Ht. apply generateTestMatrix_Some in Hm as (regs & Hregs & _ & ->).
  rewrite testMatrixOf_eq in Ht.
  apply elem_of_app in Ht as [Ht|Ht]; [|apply elem_of_app in Ht as [Ht|Ht]].
  - left. apply list_elem_of_bind in Ht as (r & Ht & Hr).
    apply list_elem_of_bind in Ht as (b & Ht & Hb).
    apply elem_of_seq in Hb. pose proof (regsModified_not_filtered _ _ _ Hregs Hr).
    apply elem_of_regBitTargets in Ht as [-> | ->]; simpl; repeat split; auto; lia.
  - right. left. apply list_elem_of_bind in Ht as (i & Ht & Hi).
    apply elem_of_seq in Hi.
    apply elem_of_flagBitTargets in Ht as [-> | ->]; simpl;
      repeat split; auto; lia.
  - right. right. apply list_elem_of_fmap in Ht as (e & -> & He).
    unfold getExceptions in He. destruct (mnemonic instr);
      rewrite ?elem_of_cons, ?elem_of_nil in He; try done.
    by destruct He as [->|[->|[]]].
Qed.

(** Only DIV has targets that expect an exception. *)
Lemma exception_target_DIV instr matrix t :
  generateTestMatrix instr = Some matrix → t ∈ matrix →
  exceptionType t ≠ ExceptionType_None →
  mnemonic instr = ZYDIS_MNEMONIC_DIV.
Proof.
  intros Hm Ht Hexc. apply generateTestMatrix_Some in Hm as (regs & _ & _ & ->).
  rewrite testMatrixOf_eq in Ht.
  apply elem_of_app in Ht as [Ht|Ht]; [|apply elem_of_app in Ht as [Ht|Ht]].
  - apply list_elem_of_bind in Ht as (r & Ht & _).
    apply list_elem_of_bind in Ht as (b & Ht & _).
    apply elem_of_regBitTargets in Ht as [-> | ->]; by destruct Hexc.
  - apply list_elem_of_bind in Ht as (i & Ht & _).
    apply elem_of_flagBitTargets in Ht as [-> | ->]; by destruct Hexc.
  - apply list_elem_of_fmap in Ht as (e & _ & He).
    unfold getExceptions in He.
    destruct (mnemonic instr); (done || by apply elem_of_nil in He).
Qed.

Lemma filter_bind {A B} (P : B → Prop) `{∀ x, Decision (P x)}
    (f : A → list B) (l : list A) :
  filter P (l ≫= f) = l ≫= λ x, filter P (f x).
Proof.
  induction l as [|x l IH]; [done|].
  change (filter P (f x ++ (l ≫= f)) = filter P (f x) ++ (l ≫= λ x, filter P (f x))).
  by rewrite filter_app, IH.
Qed.

Lemma filter_all {A} (P : A → Prop) `{∀ x, Decision (P x)} (l : list A) :
  Forall P l → filter P l = l.
Proof.
  induction 1 as [|x l Hx Hl IH]; [done|]. by rewrite filter_cons_True, IH.
Qed.

Lemma filter_none {A} (P : A → Prop) `{∀ x, Decision (P x)} (l : list A) :
  Forall (λ x, ¬ P x) l → filter P l = [].
Proof.
  induction 1 as [|x l Hx Hl IH]; [done|]. by rewrite filter_cons_False.
Qed.

Lemma bind_nil {A B} (l : list A) : l ≫= (λ _, @nil B) = [].
Proof. induction l as [|x l IH]; [done|]. exact IH. Qed.

Lemma bind_seq_single {B} (g : list B) (start len i : nat) :
  start ≤ i < start + len →
  seq start len ≫= (λ j, if decide (j = i) then g else []) = g.
Proof.
  revert start. induction len as [|len IH]; intros start Hi; [lia|].
  simpl seq. rewrite bind_cons. case_decide as Heq.
  - subst. rewrite <- (app_nil_r g) at 2. f_equal.
    rewrite (Forall_bind_ext _ (λ _, [])); [apply bind_nil|].
    apply Forall_forall. intros j Hj. apply elem_of_seq in Hj.
    rewrite decide_False; [done|lia].
  - simpl. apply IH. lia.
Qed.

Lemma land_bit_testbit (m : Z) (i : nat) :
  bool_decide (Z.land m (Z.shiftl 1 (Z.of_nat i)) ≠ 0%Z)
  = Z.testbit m (Z.of_nat i).
Proof.
  rewrite Z.shiftl_1_l.
  destruct (Z.testbit m (Z.of_nat i)) eqn:Hbit.
  - apply bool_decide_eq_true. intros Hz.
    assert (Z.testbit (Z.land m (2 ^ Z.of_nat i)) (Z.of_nat i) = true) as Ht.
    { rewrite Z.land_spec, Hbit, Z.pow2_bits_true by lia. done. }
    rewrite Hz, Z.bits_0 in Ht. done.
  - apply bool_decide_eq_false. intros Hz. apply Hz. apply Z.bits_inj'.
    intros k Hk. rewrite Z.land_spec, Z.bits_0.
    destruct (decide (k = Z.of_nat i)) as [->|Hne].
    + by rewrite Hbit.
    + rewrite Z.pow2_bits_false by lia. by rewrite andb_false_r.
Qed.

(** The analysis of the code computes what the specification words. *)
Lemma analyse_spec (instr : ZydisDisassembledInstruction) :
  regDestAndSrcSame (analyse instr) = spec_same_reg_src_dest instr
  ∧ rightInputZero (analyse instr) = spec_right_imm_zero instr
  ∧ (mnemonic instr ≠ ZYDIS_MNEMONIC_BSWAP →
     resultAlwaysZero (analyse instr) = spec_result_always_zero instr).
Proof.
  assert (regDestAndSrcSame (analyse instr) = spec_same_reg_src_dest instr)
    as Hsame.
  { unfold analyse, spec_same_reg_src_dest. cbn [regDestAndSrcSame].
    repeat case_bool_decide; naive_solver. }
  assert (rightInputZero (analyse instr) = spec_right_imm_zero instr) as Hriz.
  { unfold analyse, spec_right_imm_zero. cbn [rightInputZero].
    repeat case_bool_decide; naive_solver. }
  split; [done|]. split; [done|]. intros Hbswap.
  unfold spec_result_always_zero. rewrite <- Hsame, <- Hriz.
  unfold analyse. cbn [resultAlwaysZero regDestAndSrcSame rightInputZero].
  by destruct (mnemonic instr).
Qed.

(** The value of [resultAlwaysZero] the flag loop sees is the one the
    specification words, BSWAP writing its operand and nothing else. *)
Lemma flagsResultAlwaysZero_spec (instr : ZydisDisassembledInstruction)
    (regsModified : list ZydisRegister) :
  (mnemonic instr = ZYDIS_MNEMONIC_BSWAP →
   regsModified = [op_reg (operand_at instr 0)]) →
  flagsResultAlwaysZero instr regsModified = spec_result_always_zero instr.
Proof.
  intros Hbswap. rewrite flagsResultAlwaysZero_eq.
  destruct (decide (mnemonic instr = ZYDIS_MNEMONIC_BSWAP)) as [Hb|Hb].
  - rewrite (Hbswap Hb). cbn [last]. unfold resultAlwaysZeroFor.
    rewrite bool_decide_eq_true_2 by done.
    unfold spec_result_always_zero. by rewrite Hb.
  - destruct (analyse_spec instr) as (_ & _ & Hraz).
    destruct (last regsModified); [|by apply Hraz].
    unfold resultAlwaysZeroFor. rewrite bool_decide_eq_false_2 by done.
    by apply Hraz.
Qed.

(** With no immediate operand the flag loop emits what the specification
    words. *)
Lemma flagBitTargets_claimed (instr : ZydisDisassembledInstruction)
    (i : nat) :
  i < 32 → inputIsImmediate (analyse instr) = false →
  flagBitTargets instr (analyse instr) (spec_result_always_zero instr) i
  = claimedFlagTargets instr i.
Proof.
  intros Hi Himm. unfold flagBitTargets, claimedFlagTargets.
  unfold getFlagsModified, getFlagsSet0, getFlagsSet1.
  rewrite !Z.lor_0_l, !land_bit_testbit. rewrite Himm.
  destruct (analyse_spec instr) as (-> & -> & _).
  generalize (spec_result_always_zero instr) (spec_right_imm_zero instr)
             (spec_same_reg_src_dest instr)
             (Z.testbit (flags_modified instr) (Z.of_nat i))
             (Z.testbit (flags_set_0 instr) (Z.of_nat i))
             (Z.testbit (flags_set_1 instr) (Z.of_nat i)).
  intros z riz same m s0 s1.
  do 32 (destruct i as [|i];
         [ by destruct m, s0, s1, z, riz, same | ]).
  lia.
Qed.

Lemma flagBitTargets_Forall instr a z j :
  Forall (isFlagTargetAt j) (flagBitTargets instr a z j).
Proof.
  apply Forall_forall. intros t Ht.
  by apply elem_of_flagBitTargets in Ht as [-> | ->].
Qed.

Lemma inputIsImmediate_false (instr : ZydisDisassembledInstruction) :
  spec_input_is_immediate instr = false →
  inputIsImmediate (analyse instr) = false.
Proof.
  unfold spec_input_is_immediate, analyse, operand_at. simpl. intros Hex.
  apply bool_decide_eq_false in Hex.
  apply bool_decide_eq_false. intros Himm. apply Hex.
  destruct (operands instr !! 1) as [op|] eqn:Hop; simpl in Himm; [|done].
  apply Exists_exists. exists op. split; [|done].
  apply list_elem_of_lookup. eauto.
Qed.

(** The flag targets of the matrix for bit [i] are those of the flag loop
    for [i]. *)
Lemma testMatrixOf_filter_flag instr regsModified i :
  (∀ r, r ∈ regsModified → isRegFiltered r = false) → i < 32 →
  filter (isFlagTargetAt i) (testMatrixOf instr regsModified)
  = flagBitTargets instr (analyse instr)
      (flagsResultAlwaysZero instr regsModified) i.
Proof.
  intros Hregs Hi. rewrite testMatrixOf_eq, !filter_app.
  rewrite (filter_none _ (regsModified ≫= _)), (filter_none _ (_ <$> _)).
  - rewrite app_nil_l, app_nil_r, filter_bind.
    rewrite (Forall_bind_ext _
               (λ j, if decide (j = i)
                     then flagBitTargets instr (analyse instr)
                            (flagsResultAlwaysZero instr regsModified) i
                     else [])).
    + apply bind_seq_single. lia.
    + apply Forall_forall. intros j _. case_decide as Hj.
      * subst. apply filter_all, flagBitTargets_Forall.
      * apply filter_none. eapply Forall_impl; [apply flagBitTargets_Forall|].
        intros t [_ Hpos] [_ Hpos']. congruence.
  - apply Forall_forall. intros t Ht [Hreg _].
    apply list_elem_of_fmap in Ht as (e & -> & _). done.
  - apply Forall_forall. intros t Ht [Hreg _].
    apply list_elem_of_bind in Ht as (r & Ht & Hr).
    apply list_elem_of_bind in Ht as (b & Ht & _).
    specialize (Hregs r Hr).
    apply elem_of_regBitTargets in Ht as [-> | ->]; simpl in Hreg; by subst.
Qed.

(** C7.  With no immediate operand the flag targets of the matrix for bit
    [i] are, in this order, those the specification words, with its
    pre-analysis read off the decoded operands: the expect-0 and the
    expect-1 target when the instruction modifies the flag, less the
    expect-0 target for ZF and PF when the result is always zero (SUB, CMP
    or XOR of a register with itself; BSWAP of a register of at most 16
    bits) and the expect-1 target for CF and AF (result always zero or
    right immediate zero), OF (operands 0 and 1 the same register, or
    right immediate zero) and SF (result always zero); then the always-0
    and the always-1 target.  Whatever the operands are, the matrix has the
    (FLAGS, i, 0) target when the always-0 mask has bit [i] and the
    (FLAGS, i, 1) target when the always-1 mask has it.  BSWAP is taken to
    write its operand and nothing else. *)
Theorem generateTestMatrix_flag_targets
    (instr : ZydisDisassembledInstruction) (matrix : list TestBitInfo)
    (regsModified : list ZydisRegister) (i : nat) :
  generateTestMatrix instr = Some matrix →
  getRegsModified instr = Some regsModified →
  (mnemonic instr = ZYDIS_MNEMONIC_BSWAP →
   regsModified = [op_reg (operand_at instr 0)]) →
  i < 32 →
  (spec_input_is_immediate instr = false →
   filter (isFlagTargetAt i) matrix = claimedFlagTargets instr i)
  ∧ (Z.testbit (flags_set_0 instr) (Z.of_nat i) = true →
     flagTarget i 0 ∈ matrix)
  ∧ (Z.testbit (flags_set_1 instr) (Z.of_nat i) = true →
     flagTarget i 1 ∈ matrix).
Proof.
  intros Hm Hregs Hbswap Hi.
  apply generateTestMatrix_Some in Hm as (regs & Hregs' & _ & ->).
  assert (regs = regsModified) as -> by congruence.
  assert (∀ v, flagTarget i v
               ∈ flagBitTargets instr (analyse instr)
                   (flagsResultAlwaysZero instr regsModified) i →
               flagTarget i v ∈ testMatrixOf instr regsModified) as Hin.
  { intros v Hv. rewrite testMatrixOf_eq. apply elem_of_app. right.
    apply elem_of_app. left. apply list_elem_of_bind. exists i.
    split; [done|]. apply elem_of_seq. lia. }
  split; [|split].
  - intros Himm. rewrite testMatrixOf_filter_flag; [|eauto using regsModified_not_filtered|done].
    rewrite flagsResultAlwaysZero_spec by done.
    apply flagBitTargets_claimed; [done|]. by apply inputIsImmediate_false.
  - intros Hbit. apply Hin. unfold flagBitTargets, getFlagsSet0.
    rewrite Z.lor_0_l, (land_bit_testbit (flags_set_0 instr)), Hbit.
    apply elem_of_app. right. apply elem_of_app. left. left.
  - intros Hbit. apply Hin. unfold flagBitTargets, getFlagsSet1.
    rewrite Z.lor_0_l, (land_bit_testbit (flags_set_1 instr)), Hbit.
    apply elem_of_app. right. apply elem_of_app. right. left.
Qed.

(** C8.  BTR with an immediate second operand: for every bit position [b]
    of a modified register the matrix has the expect-0 target, and it has
    the expect-1 target exactly when the immediate modulo the operand width
    differs from [b]. *)
Theorem generateTestMatrix_btr_imm
    (instr : ZydisDisassembledInstruction) (matrix : list TestBitInfo)
    (regsModified : list ZydisRegister) (r : ZydisRegister) (b : nat) :
  generateTestMatrix instr = Some matrix →
  getRegsModified instr = Some regsModified →
  mnemonic instr = ZYDIS_MNEMONIC_BTR →
  op_type (operand_at instr 1) = ZYDIS_OPERAND_TYPE_IMMEDIATE →
  r ∈ regsModified →
  b < ZydisRegisterGetWidth (machine_mode instr) r →
  regTarget r b 0 ∈ matrix
  ∧ (regTarget r b 1 ∈ matrix
     ↔ (op_imm (operand_at instr 1) `mod` Z.of_nat (operand_width instr))%Z
       ≠ Z.of_nat b).
Proof.
  intros Hm Hregs Hbtr Himm Hr Hb.
  apply generateTestMatrix_Some in Hm as (regs & Hregs' & _ & ->).
  assert (regs = regsModified) as -> by congruence.
  pose proof (regsModified_not_filtered _ _ _ Hregs Hr) as Hf.
  assert (∀ v z maxBits,
            regTarget r b v ∈ regBitTargets instr (analyse instr) z maxBits r b
            ↔ v = 0%Z
              ∨ (v = 1%Z
                 ∧ (op_imm (operand_at instr 1)
                      `mod` Z.of_nat (operand_width instr))%Z ≠ Z.of_nat b))
    as Hbits.
  { intros v z maxBits. unfold regBitTargets.
    assert (inputIsImmediate (analyse instr) = true) as ->
      by (by apply bool_decide_eq_true).
    assert (firstBitAlwaysZero (analyse instr) = false) as ->
      by (unfold analyse; simpl; by rewrite Hbtr).
    rewrite Hbtr. simpl. rewrite andb_false_r.
    destruct (bool_decide_reflect
                ((op_imm (operand_at instr 1)
                    `mod` Z.of_nat (operand_width instr))%Z ≠ Z.of_nat b))
      as [Hne|Heq]; simpl;
      rewrite ?elem_of_cons, ?elem_of_nil; unfold regTarget.
    - split; [intros [[=]|[[=]|[]]]; auto|].
      intros [->|[-> _]]; auto.
    - split; [intros [[=]|[]]; auto|].
      intros [->|[-> ?]]; [auto|done]. }
  assert (∀ v, regTarget r b v ∈ testMatrixOf instr regsModified
               ↔ regTarget r b v
                 ∈ regBitTargets instr (analyse instr)
                     (resultAlwaysZeroFor instr r) (maxBitsFor instr r) r b)
    as Hmatrix.
  { intros v. rewrite testMatrixOf_eq, !elem_of_app. split.
    - intros [Ht|[Ht|Ht]].
      + apply list_elem_of_bind in Ht as (r' & Ht & _).
        apply list_elem_of_bind in Ht as (b' & Ht & _).
        pose proof Ht as Ht'.
        apply elem_of_regBitTargets in Ht' as [[=]|[=]]; by subst.
      + apply list_elem_of_bind in Ht as (j & Ht & _).
        pose proof (flagBitTargets_Forall instr (analyse instr)
                      (flagsResultAlwaysZero instr regsModified) j) as Hall.
        eapply Forall_forall in Hall as [Hreg _]; [|done].
        simpl in Hreg. by subst.
      + apply list_elem_of_fmap in Ht as (e & [=] & _). by subst.
    - intros Ht. left. apply list_elem_of_bind. exists r. split; [|done].
      apply list_elem_of_bind. exists b. split; [done|].
      apply elem_of_seq. lia. }
  rewrite !Hmatrix, !Hbits. split; [by left|].
  split; [by intros [[=]|[_ ?]]|by right].
Qed.

End BitMatrixFacts.

(** ** Staging of outputs and inputs *)

Section StagingFacts.
Context `{ZydisRegisterInfo}.

Lemma getRegValue_setRegValue_EFLAGS (ctx : ScopedContext) (flags : Z) :
  getRegValue (setRegValue ctx ZYDIS_REGISTER_EFLAGS flags) ZYDIS_REGISTER_EFLAGS
  = (flags `mod` 2 ^ 32)%Z.
Proof. unfold getRegValue, setRegValue. simpl. by rewrite Z.mod_mod. Qed.

Lemma getRegBytes_setRegBytes (ctx : ScopedContext) (r : ZydisRegister)
    (bytes : list Z) :
  isFlagsReg r = false → getRegBytes (setRegBytes ctx r bytes) r = bytes.
Proof.
  intros Hr. unfold getRegBytes, setRegBytes. rewrite Hr. simpl.
  apply fn_lookup_insert.
Qed.

Lemma getRegBytes_setRegValue_EFLAGS (ctx : ScopedContext) (r : ZydisRegister)
    (flags : Z) :
  isFlagsReg r = false →
  getRegBytes (setRegValue ctx ZYDIS_REGISTER_EFLAGS flags) r = getRegBytes ctx r.
Proof. intros Hr. unfold getRegBytes, setRegValue. simpl. by rewrite Hr. Qed.

Lemma fill_length (v : Z) (regOffset regSize : nat) (regBuf : list Z) :
  length (foldl (λ regBuf i, <[i + regOffset := v]> regBuf) regBuf
                (seq 0 regSize))
  = length regBuf.
Proof.
  induction regSize as [|n IH]; [done|].
  by rewrite seq_S, foldl_app; simpl; rewrite length_insert.
Qed.

(** The loop of [clearOutput] that fills the buffer. *)
Lemma fill_lookup (v : Z) (regOffset regSize : nat) (regBuf : list Z) (j : nat) :
  regOffset + regSize ≤ length regBuf →
  foldl (λ regBuf i, <[i + regOffset := v]> regBuf) regBuf (seq 0 regSize) !! j
  = if decide (regOffset ≤ j < regOffset + regSize) then Some v
    else regBuf !! j.
Proof.
  intros Hlen. induction regSize as [|n IH].
  - simpl. rewrite decide_False by lia. done.
  - rewrite seq_S, foldl_app. simpl.
    destruct (decide (j = n + regOffset)) as [->|Hne].
    + rewrite list_lookup_insert_eq.
      * rewrite decide_True by lia. done.
      * rewrite fill_length. lia.
    + rewrite list_lookup_insert_ne by done. rewrite IH by lia.
      repeat case_decide; (done || lia).
Qed.

Lemma byte_bit (v : Z) (k : nat) :
  k < 8 → (v = 0 ∨ v = 255)%Z →
  Z.land (Z.shiftr v (Z.of_nat k)) 1 = (if decide (v = 0%Z) then 0 else 1)%Z.
Proof.
  intros Hk [-> | ->].
  - by rewrite Z.shiftr_0_l.
  - do 8 (destruct k as [|k]; [done|]). lia.
Qed.

(** The loop of [clearOutput] that fills the buffer is defined when the
    bytes it writes lie inside the buffer. *)
Lemma fill_Some (v : Z) (regOffset regSize : nat) (regBuf : list Z) :
  foldlM (λ regBuf i, store regBuf (i + regOffset) v) regBuf (seq 0 regSize)
  = if decide (regSize = 0 ∨ regOffset + regSize ≤ length regBuf)
    then Some (foldl (λ regBuf i, <[i + regOffset := v]> regBuf) regBuf
                     (seq 0 regSize))
    else None.
Proof.
  induction regSize as [|n IH].
  - by rewrite decide_True by auto.
  - rewrite seq_S, foldlM_snoc, foldl_snoc, IH. cbn [Nat.add].
    destruct (decide (n = 0 ∨ regOffset + n ≤ length regBuf)) as [Hn|Hn].
    + cbn [mbind option_bind]. unfold store. rewrite fill_length.
      repeat case_decide; (done || lia).
    + rewrite decide_False by lia. done.
Qed.

(** [clearOutput] in closed form. *)
Lemma clearOutput_eq (mode : ZydisMachineMode) (ctx : ScopedContext)
    (t : TestBitInfo) :
  let regSize := ZydisRegisterGetWidth mode (reg t) / 8 in
  let regOffset := getRegOffset (reg t) in
  let bigReg := getRootReg mode (reg t) in
  let bigRegSize := ZydisRegisterGetWidth mode bigReg / 8 in
  let fill := if decide (expectedBitValue t = 0%Z) then 255%Z else 0%Z in
  let flags := if decide (expectedBitValue t = 0%Z) then statusFlags else 0%Z in
  clearOutput mode ctx t
  = if isRegFiltered (reg t)
    then Some (setRegValue ctx ZYDIS_REGISTER_EFLAGS flags)
    else if decide (regOffset + regSize ≤ 256 ∧ bigRegSize ≤ 256)
    then Some (setRegValue
                 (setRegBytes ctx bigReg
                    (take bigRegSize
                       (foldl (λ regBuf i, <[i + regOffset := fill]> regBuf)
                              (replicate 256 0%Z) (seq 0 regSize))))
                 ZYDIS_REGISTER_EFLAGS flags)
    else None.
Proof.
  intros regSize regOffset bigReg bigRegSize fill flags. unfold clearOutput.
  fold regSize regOffset bigReg bigRegSize.
  assert ((if decide (expectedBitValue t = 0%Z) then Z.lor 0 statusFlags
           else 0%Z) = flags) as -> by (subst flags; by case_decide).
  destruct (isRegFiltered (reg t)); [done|]. cbn [negb].
  rewrite (foldlM_ext _ (λ regBuf i, store regBuf (i + regOffset) fill)).
  - rewrite fill_Some, length_replicate.
    assert (regOffset ≤ 1) as Hoff
      by (subst regOffset; unfold getRegOffset; destruct (reg t); lia).
    destruct (decide (regOffset + regSize ≤ 256 ∧ bigRegSize ≤ 256))
      as [[Hfit Hbig]|Hno].
    + rewrite decide_True by auto. cbn [mbind option_bind]. unfold span.
      rewrite fill_length, length_replicate, decide_True by done. done.
    + case_decide as Hfill; [|done]. cbn [mbind option_bind]. unfold span.
      rewrite fill_length, length_replicate.
      case_decide as Hbig; [|done]. exfalso. apply Hno. split; [|done].
      destruct Hfill as [Hz|?]; [|done]. lia.
  - intros regBuf i. subst fill. by case_decide.
Qed.

(** After [clearOutput] the bit of a register target reads as the opposite
    of the expected value. *)
Lemma clearOutput_register (mode : ZydisMachineMode) (ctx ctx' : ScopedContext)
    (t : TestBitInfo) :
  isRegFiltered (reg t) = false →
  subRegisterFits mode (reg t) →
  bitPos t < ZydisRegisterGetWidth mode (reg t) →
  (expectedBitValue t = 0 ∨ expectedBitValue t = 1)%Z →
  clearOutput mode ctx t = Some ctx' →
  observedBit mode ctx' t = (1 - expectedBitValue t)%Z.
Proof.
  intros Hf (Hroot & Hbytes & Hfit & Hbuf) Hpos Hexp.
  rewrite clearOutput_eq, Hf. cbv zeta.
  set (regSize := ZydisRegisterGetWidth mode (reg t) / 8) in *.
  set (bigRegSize := ZydisRegisterGetWidth mode (getRootReg mode (reg t)) / 8) in *.
  rewrite decide_True by lia. intros Heq. apply (inj Some) in Heq as <-.
  unfold observedBit.
  rewrite getRegBytes_setRegValue_EFLAGS, getRegBytes_setRegBytes by done.
  assert (bitPos t / 8 < regSize) as Hbyte.
  { subst regSize. apply Nat.Div0.div_lt_upper_bound.
    pose proof (Nat.Div0.div_mod (ZydisRegisterGetWidth mode (reg t)) 8). lia. }
  assert (bitPos t `mod` 8 < 8) as Hbit by (apply Nat.mod_upper_bound; lia).
  rewrite lookup_take_lt by lia.
  rewrite fill_lookup by (rewrite length_replicate; lia).
  rewrite decide_True by lia. simpl.
  destruct (decide (expectedBitValue t = 0%Z)) as [Hz|Hnz].
  - rewrite byte_bit by auto. rewrite Hz. done.
  - rewrite byte_bit by auto. destruct Hexp as [?| ->]; done.
Qed.

Lemma clearOutput_EFLAGS (mode : ZydisMachineMode) (ctx ctx' : ScopedContext)
    (t : TestBitInfo) :
  clearOutput mode ctx t = Some ctx' →
  getRegValue ctx' ZYDIS_REGISTER_EFLAGS
  = if decide (expectedBitValue t = 0%Z) then statusFlags else 0%Z.
Proof.
  rewrite clearOutput_eq. cbv zeta.
  destruct (isRegFiltered (reg t)); [|case_decide; [|done]];
    intros [= <-]; rewrite getRegValue_setRegValue_EFLAGS; by case_decide.
Qed.

(** What [clearOutput] does reach.  Straight after [clearOutput], for a
    target of the matrix: EFLAGS is CF|PF|AF|ZF|SF|OF when 0 is expected and
    0 when 1 is expected; the bit of a register target, read at the byte
    offset of the sub-register inside the root, is the opposite of the
    expected value; the EFLAGS bit of a flag target is the opposite of the
    expected value when 1 is expected or the bit is one of the six status
    flags. *)
Lemma clearOutput_opposite (instr : ZydisDisassembledInstruction)
    (mode : ZydisMachineMode) (matrix : list TestBitInfo) (t : TestBitInfo)
    (ctx ctx' : ScopedContext) :
  generateTestMatrix instr = Some matrix →
  machine_mode instr = mode →
  t ∈ matrix →
  clearOutput mode ctx t = Some ctx' →
  getRegValue ctx' ZYDIS_REGISTER_EFLAGS
  = (if decide (expectedBitValue t = 0%Z) then statusFlags else 0%Z)
  ∧ (exceptionType t = ExceptionType_None →
     reg t ≠ ZYDIS_REGISTER_FLAGS →
     subRegisterFits mode (reg t) →
     observedBit mode ctx' t = (1 - expectedBitValue t)%Z)
  ∧ (reg t = ZYDIS_REGISTER_FLAGS →
     expectedBitValue t = 1%Z ∨ bitPos t ∈ statusFlagBits →
     Z.b2z (Z.testbit (getRegValue ctx' ZYDIS_REGISTER_EFLAGS)
                      (Z.of_nat (bitPos t)))
     = (1 - expectedBitValue t)%Z).
Proof.
  intros Hm <- Ht Hclear. split; [by eapply clearOutput_EFLAGS|].
  pose proof (elem_of_testMatrix _ _ _ Hm Ht) as Hkind. split.
  - intros Hexc Hreg Hfits.
    destruct Hkind as [(_ & Hf & Hpos & Hexp)|[(_ & ? & _)|(? & _)]]; [|done..].
    by eapply clearOutput_register.
  - intros Hreg Hcase. rewrite (clearOutput_EFLAGS _ _ _ _ Hclear).
    destruct Hkind as [(_ & Hf & _)|[(_ & _ & _ & Hexp)|(_ & Hnone)]];
      [by rewrite Hreg in Hf| |congruence].
    destruct Hexp as [Hz|Ho].
    + rewrite Hz. rewrite Hz in Hcase. destruct Hcase as [|Hbit]; [done|].
      unfold statusFlagBits in Hbit.
      rewrite !elem_of_cons, elem_of_nil in Hbit.
      by destruct Hbit as [->|[->|[->|[->|[->|[->|[]]]]]]].
    + rewrite Ho. simpl. by rewrite Z.bits_0.
Qed.

End StagingFacts.

(** ** The search loop *)

Section SearchLoopFacts.
Context `{ZydisRegisterInfo} {env : Collaborators}.

(** *** The advance of the input generators *)

Lemma advanceGenerators_rollovers (iteration : Z) (count inputIdx : nat)
    (inputGens inputGens' : list InputGenerator) (prng prng' : Prng)
    (rollovers : list bool) :
  inputIdx + count ≤ length inputGens →
  advanceGenerators iteration count inputIdx inputGens prng
  = (inputGens', prng', rollovers) →
  length inputGens' = length inputGens
  ∧ (((iteration + 1) `mod` 3)%Z ≠ 0%Z → length rollovers = count)
  ∧ (((iteration + 1) `mod` 3)%Z = 0%Z →
     rollovers = replicate count false
     ∨ ∃ k, k < count ∧ rollovers = replicate k false ++ [true])
  ∧ drop (inputIdx + length rollovers) inputGens'
    = drop (inputIdx + length rollovers) inputGens.
Proof.
  revert inputIdx inputGens inputGens' prng prng' rollovers.
  induction count as [|count IH];
    intros inputIdx inputGens inputGens' prng prng' rollovers Hlen Hrun.
  - simpl in Hrun. simplify_eq. repeat split; auto.
  - simpl in Hrun.
    destruct (inputGens !! inputIdx) as [inputGen|] eqn:Hgen.
    2:{ apply lookup_ge_None in Hgen. lia. }
    destruct (advance inputGen prng) as [[rolled inputGen1] prng1].
    destruct (bool_decide_reflect (((iteration + 1) `mod` 3)%Z = 0%Z)) as [Hmod|Hmod].
    + destruct rolled; simpl in Hrun.
      * simplify_eq. rewrite length_insert. repeat split; [done| |].
        -- intros _. right. exists 0. split; [lia|done].
        -- simpl. rewrite drop_insert_lt by lia. done.
      * destruct (advanceGenerators _ _ _ _ _) as [[gens2 prng2] rs2] eqn:Hrec.
        simplify_eq.
        apply IH in Hrec as (Hl & _ & Hthird & Hdrop);
          [|rewrite length_insert; lia].
        rewrite length_insert in Hl. repeat split; [done|done| |].
        -- intros _. destruct (Hthird Hmod) as [->|(k & Hk & ->)].
           ++ by left.
           ++ right. exists (S k). split; [lia|done].
        -- simpl. replace (inputIdx + S (length rs2)) with (S inputIdx + length rs2) by lia.
           rewrite Hdrop. rewrite drop_insert_lt by lia. done.
    + rewrite andb_false_r in Hrun.
      destruct (advanceGenerators _ _ _ _ _) as [[gens2 prng2] rs2] eqn:Hrec.
      simplify_eq.
      apply IH in Hrec as (Hl & Hall & _ & Hdrop);
        [|rewrite length_insert; lia].
      rewrite length_insert in Hl. repeat split; [done| |done|].
      * intros _. simpl. by rewrite Hall.
      * simpl. replace (inputIdx + S (length rs2)) with (S inputIdx + length rs2) by lia.
        rewrite Hdrop. rewrite drop_insert_lt by lia. done.
Qed.

(** The generators are advanced through [advance()], one at a time and
    in order: the calls made are those of [advanceInOrder] on the
    generators from [inputIdx] on, as many as there are answers. *)
Lemma advanceGenerators_inOrder (iteration : Z) (count inputIdx : nat)
    (inputGens inputGens' : list InputGenerator) (prng prng' : Prng)
    (rollovers : list bool) :
  inputIdx + count ≤ length inputGens →
  advanceGenerators iteration count inputIdx inputGens prng
  = (inputGens', prng', rollovers) →
  advanceInOrder (take (length rollovers) (drop inputIdx inputGens)) prng
  = (take (length rollovers) (drop inputIdx inputGens'), prng', rollovers)
  ∧ take inputIdx inputGens' = take inputIdx inputGens.
Proof.
  revert inputIdx inputGens inputGens' prng prng' rollovers.
  induction count as [|count IH];
    intros inputIdx inputGens inputGens' prng prng' rollovers Hlen Hrun.
  - simpl in Hrun. by simplify_eq.
  - simpl in Hrun.
    destruct (inputGens !! inputIdx) as [inputGen|] eqn:Hgen.
    2:{ apply lookup_ge_None in Hgen. lia. }
    rewrite (drop_S _ _ _ Hgen).
    destruct (advance inputGen prng) as [[rolled inputGen1] prng1] eqn:Hadv.
    assert (∀ l, take (S inputIdx) l = take (S inputIdx) (<[inputIdx := inputGen1]> inputGens) →
                 length l = length inputGens →
                 drop inputIdx l = inputGen1 :: drop (S inputIdx) l
                 ∧ take inputIdx l = take inputIdx inputGens) as Hfront.
    { intros l Htake Hl.
      assert (l !! inputIdx = Some inputGen1) as Hl1.
      { rewrite <- (lookup_take_lt l (S inputIdx)) by lia. rewrite Htake.
        rewrite lookup_take_lt by lia. apply list_lookup_insert_eq. lia. }
      split; [by apply drop_S|].
      apply (f_equal (take inputIdx)) in Htake.
      rewrite !take_take, Nat.min_l in Htake by lia.
      rewrite Htake. apply take_insert_ge. lia. }
    destruct (rolled && bool_decide (((iteration + 1) `mod` 3)%Z = 0%Z)).
    + simplify_eq. cbn [length take advanceInOrder]. rewrite Hadv.
      destruct (Hfront (<[inputIdx := inputGen1]> inputGens) eq_refl)
        as [-> Htake]; [by rewrite length_insert|].
      done.
    + destruct (advanceGenerators _ _ _ _ _) as [[gens2 prng2] rs2] eqn:Hrec.
      simplify_eq.
      assert (S inputIdx + count ≤ length (<[inputIdx := inputGen1]> inputGens))
        as Hlen' by (rewrite length_insert; lia).
      pose proof (advanceGenerators_rollovers _ _ _ _ _ _ _ _ Hlen' Hrec)
        as (Hl & _).
      rewrite length_insert in Hl.
      apply IH in Hrec as [Hin Htake]; [|done].
      rewrite drop_insert_lt in Hin by lia.
      destruct (Hfront inputGens' Htake Hl) as [-> Htake'].
      cbn [length take advanceInOrder]. rewrite Hadv, Hin. done.
Qed.

(** One round of the staging that is defined: a register that
    [isRegFiltered] is skipped; for another the generator at [regIndex]
    exists and has bytes enough, and the root is written to the context and
    to the entry alike. *)
Lemma stageInput_Some instr inputGens ctx e n reg st' :
  stageInput instr inputGens (ctx, e, n) reg = Some st' →
  if isRegFiltered reg then st' = (ctx, e, n)
  else
    let mode := machine_mode instr in
    let bigReg := getRootReg mode reg in
    ∃ inputGen bytes,
      inputGens !! n = Some inputGen
      ∧ length (getRegBytes ctx bigReg) ≤ 256
      ∧ ZydisRegisterGetWidth mode reg / 8 ≤ length (current inputGen)
      ∧ getRegOffset reg + ZydisRegisterGetWidth mode reg / 8 ≤ 256
      ∧ ZydisRegisterGetWidth mode bigReg / 8 ≤ 256
      ∧ bytes
        = take (ZydisRegisterGetWidth mode bigReg / 8)
            (list_inserts (getRegOffset reg)
               (take (ZydisRegisterGetWidth mode reg / 8) (current inputGen))
               (list_inserts 0 (getRegBytes ctx bigReg) (replicate 256 0%Z)))
      ∧ st' = (setRegBytes ctx bigReg bytes, set_inputReg bigReg bytes e, S n).
Proof.
  unfold stageInput. destruct (isRegFiltered reg); [by intros [= <-]|].
  cbv zeta.
  destruct (memcpy (replicate 256 0%Z) 0 _ _) as [buf1|] eqn:Hcopy1; [|done].
  apply memcpy_Some in Hcopy1 as (_ & Hlen1 & ->).
  rewrite length_replicate in Hlen1. rewrite firstn_all.
  cbn [mbind option_bind].
  destruct (inputGens !! n) as [inputGen|]; [|done].
  cbn [mbind option_bind].
  destruct (memcpy _ (getRegOffset reg) _ _) as [buf2|] eqn:Hcopy2; [|done].
  apply memcpy_Some in Hcopy2 as (Hsrc & Hlen2 & ->).
  rewrite length_inserts, length_replicate in Hlen2.
  cbn [mbind option_bind].
  destruct (span _ _) as [bytes|] eqn:Hspan; [|done].
  apply span_Some in Hspan as [Hbig ->].
  rewrite !length_inserts, length_replicate in Hbig.
  cbn [mbind option_bind]. intros Heq. apply (inj Some) in Heq as <-.
  eexists _, _. repeat split; [exact Hlen1|exact Hsrc|exact Hlen2|exact Hbig].
Qed.

(** The generators and the staged registers are counted alike: one for
    every register of [getRegsRead] that [isRegFiltered] lets through. *)
Lemma stageInput_regIndex instr inputGens regs ctx e n ctx' e' n' :
  foldlM (stageInput instr inputGens) (ctx, e, n) regs = Some (ctx', e', n') →
  n' = n + length (filter (λ r, isRegFiltered r = false) regs).
Proof.
  revert ctx e n. induction regs as [|r regs IH]; intros ctx e n Hrun.
  - cbn [foldlM] in Hrun. apply (inj Some) in Hrun.
    assert (n' = n) as -> by congruence. simpl. lia.
  - cbn [foldlM] in Hrun.
    destruct (stageInput instr inputGens (ctx, e, n) r)
      as [[[c1 e1] n1]|] eqn:Hstep; [|done].
    cbn [mbind option_bind] in Hrun. apply IH in Hrun.
    apply stageInput_Some in Hstep. destruct (isRegFiltered r) eqn:Hf.
    + assert (n1 = n) as -> by congruence.
      rewrite filter_cons_False by congruence. done.
    + destruct Hstep as (g & bytes & _ & _ & _ & _ & _ & _ & Hst).
      assert (n1 = S n) as -> by congruence.
      rewrite filter_cons_True by done. simpl. lia.
Qed.

Lemma setupInputGenerators_length prng instr regsRead gens prng' :
  getRegsRead instr = Some regsRead →
  setupInputGenerators prng instr = Some (gens, prng') →
  length gens = length (filter (λ r, isRegFiltered r = false) regsRead).
Proof.
  unfold setupInputGenerators. intros -> Hsetup.
  cbv beta iota delta [mbind option_bind] in Hsetup.
  assert (∀ regs acc p,
            length (foldl (addInputGenerator instr) (acc, p) regs).1
            = length acc + length (filter (λ r, isRegFiltered r = false) regs))
    as Hlen.
  { induction regs as [|r regs IH]; intros acc p; [simpl; lia|].
    cbn [foldl]. unfold addInputGenerator at 2.
    destruct (isRegFiltered r) eqn:Hf.
    - rewrite IH, filter_cons_False by congruence. done.
    - destruct (InputGenerator_new _ p) as [g p'].
      rewrite IH, filter_cons_True by done. rewrite length_app. simpl. lia. }
  specialize (Hlen regsRead [] prng). injection Hsetup as Hsetup.
  rewrite Hsetup in Hlen. exact Hlen.
Qed.

(** C5, as the code has it.  The loop advances a first part of the
    generators through [advance()], one at a time and in order, each with
    the random numbers the one before left, and leaves the others as they
    are; [rollovers] is what the calls returned.  On an iteration with
    (iteration + 1) mod 3 = 0 the part ends with the first generator that
    reports a rollover (and is all [regIndex] generators when none does);
    on every other iteration it is all [regIndex] generators, whatever the
    rollovers. *)
Theorem advanceGenerators_spec (iteration : Z) (regIndex : nat)
    (inputGens inputGens' : list InputGenerator) (prng prng' : Prng)
    (rollovers : list bool) :
  regIndex ≤ length inputGens →
  advanceGenerators iteration regIndex 0 inputGens prng
  = (inputGens', prng', rollovers) →
  advanceInOrder (take (length rollovers) inputGens) prng
  = (take (length rollovers) inputGens', prng', rollovers)
  ∧ drop (length rollovers) inputGens' = drop (length rollovers) inputGens
  ∧ (((iteration + 1) `mod` 3)%Z ≠ 0%Z → length rollovers = regIndex)
  ∧ (((iteration + 1) `mod` 3)%Z = 0%Z →
     rollovers = replicate regIndex false
     ∨ ∃ k, k < regIndex ∧ rollovers = replicate k false ++ [true]).
Proof.
  intros Hlen Hrun.
  assert (0 + regIndex ≤ length inputGens) as Hlen' by (simpl; lia).
  pose proof (advanceGenerators_inOrder _ _ _ _ _ _ _ _ Hlen' Hrun)
    as [Hin _].
  rewrite !drop_0 in Hin.
  apply advanceGenerators_rollovers in Hrun as (_ & Hall & Hthird & Hdrop);
    [|lia].
  done.
Qed.

(** *** The flags written before a trial *)

Lemma randomizeFlags_range (flagsRead : Z) (prng : Prng) :
  (0 ≤ (randomizeFlags flagsRead prng).1 < 2 ^ 32)%Z.
Proof.
  unfold randomizeFlags.
  assert (∀ l (st : Z * Prng),
            Forall (λ i, i < 32) l → (0 ≤ st.1 < 2 ^ 32)%Z →
            (0 ≤ (foldl (randomizeFlag flagsRead) st l).1 < 2 ^ 32)%Z) as Hfold.
  { induction l as [|i l IH]; intros [flags p] Hl Hst; [exact Hst|].
    apply Forall_cons in Hl as [Hi Hl]. simpl. apply IH; [exact Hl|].
    unfold randomizeFlag. case_decide; [|exact Hst].
    destruct (prng_next p) as [value p']. simpl in *.
    assert (0 ≤ value `mod` 2 < 2)%Z as Hbit by (apply Z.mod_pos_bound; lia).
    assert (0 ≤ Z.shiftl (value `mod` 2) (Z.of_nat i))%Z as Hnn
      by (apply Z.shiftl_nonneg; lia).
    split; [apply Z.lor_nonneg; lia|].
    apply (Z.bounded_iff_bits_nonneg 32); [lia|apply Z.lor_nonneg; lia|].
    intros k Hk. rewrite Z.lor_spec.
    rewrite (proj1 (Z.bounded_iff_bits_nonneg 32 flags ltac:(lia) ltac:(lia)))
      by lia.
    rewrite Z.shiftl_spec by lia. simpl.
    apply (Z.bounded_iff_bits_nonneg 1); lia. }
  apply Hfold; [|simpl; lia].
  apply Forall_forall. intros i Hi. apply elem_of_seq in Hi. lia.
Qed.

Lemma clear_flag_range (flags mask : Z) :
  (0 ≤ flags < 2 ^ 32)%Z → (0 ≤ Z.land flags mask < 2 ^ 32)%Z.
Proof.
  intros Hr.
  assert (0 ≤ Z.land flags mask)%Z as Hnn by (apply Z.land_nonneg; lia).
  split; [exact Hnn|].
  apply (Z.bounded_iff_bits_nonneg 32); [lia|exact Hnn|].
  intros k Hk. rewrite Z.land_spec.
  rewrite (proj1 (Z.bounded_iff_bits_nonneg 32 flags ltac:(lia) ltac:(lia)))
    by lia.
  done.
Qed.

(** *** Entries *)

Lemma stageInput_outputs instr inputGens regs c e n c' e' n' :
  foldlM (stageInput instr inputGens) (c, e, n) regs = Some (c', e', n') →
  outputRegs e' = outputRegs e ∧ outputFlags e' = outputFlags e
  ∧ entry_exceptionType e' = entry_exceptionType e
  ∧ inputFlags e' = inputFlags e.
Proof.
  revert c e n. induction regs as [|r regs IH]; intros c e n Hstage.
  - cbn [foldlM] in Hstage. apply (inj Some) in Hstage.
    by assert (e' = e) as -> by congruence.
  - cbn [foldlM] in Hstage.
    destruct (stageInput instr inputGens (c, e, n) r)
      as [[[c1 e1] n1]|] eqn:Hstep; [|done].
    cbn [mbind option_bind] in Hstage. apply IH in Hstage.
    apply stageInput_Some in Hstep. destruct (isRegFiltered r).
    + by assert (e1 = e) as <- by congruence.
    + destruct Hstep as (g & bytes & _ & _ & _ & _ & _ & _ & Hst).
      assert (e1 = set_inputReg (getRootReg (machine_mode instr) r) bytes e)
        as -> by congruence.
      exact Hstage.
Qed.

(** [advanceInputs] when it is defined, by its steps. *)
Lemma advanceInputs_Some ctx prng inputGens instr e iteration
    ctx' prng' inputGens' e' :
  advanceInputs ctx prng inputGens instr e iteration
  = Some (ctx', prng', inputGens', e') →
  ∃ regsRead ctx0 ctx1 e1 regIndex prng1 rollovers,
    getRegsRead instr = Some regsRead
    ∧ cleanseRegs instr regsRead ctx = Some ctx0
    ∧ foldlM (stageInput instr inputGens) (ctx0, e, 0) regsRead
      = Some (ctx1, e1, regIndex)
    ∧ advanceGenerators iteration regIndex 0 inputGens prng
      = (inputGens', prng1, rollovers)
    ∧ ((getFlagsRead instr ≠ 0%Z
        ∧ prng' = (randomizeFlags (getFlagsRead instr) prng1).2
        ∧ e' = set_inputFlags (randomizeFlags (getFlagsRead instr) prng1).1 e1
        ∧ ctx' = setRegValue ctx1 ZYDIS_REGISTER_EFLAGS
                   (Z.land (randomizeFlags (getFlagsRead instr) prng1).1
                           (Z.lnot ZYDIS_CPUFLAG_TF)))
       ∨ (getFlagsRead instr = 0%Z ∧ prng' = prng1 ∧ e' = e1
          ∧ ctx' = setRegValue ctx1 ZYDIS_REGISTER_EFLAGS
                     (Z.land 0 (Z.lnot ZYDIS_CPUFLAG_TF)))).
Proof.
  unfold advanceInputs. intros Hadv.
  destruct (getRegsRead instr) as [regsRead|] eqn:Hregs; [|done].
  cbn [mbind option_bind] in Hadv.
  destruct (cleanseRegs instr regsRead ctx) as [ctx0|] eqn:Hclean; [|done].
  cbn [mbind option_bind] in Hadv.
  destruct (foldlM (stageInput instr inputGens) _ regsRead)
    as [[[ctx1 e1] regIndex]|] eqn:Hstage; [|done].
  cbn [mbind option_bind] in Hadv.
  destruct (advanceGenerators iteration regIndex 0 inputGens prng)
    as [[gens1 prng1] rollovers] eqn:Hgens.
  exists regsRead, ctx0, ctx1, e1, regIndex, prng1, rollovers.
  case_decide as Hread.
  - destruct (randomizeFlags (getFlagsRead instr) prng1) as [flags prng2].
    simplify_eq. do 4 (split; [done|]). left. by repeat split.
  - simplify_eq. do 4 (split; [done|]). right.
    by repeat split.
Qed.

(** C10.  The EFLAGS value [advanceInputs] writes to the context, the last
    write before the instruction is executed, has TF clear.  When the
    instruction tests a flag, the entry records the randomized flags as they
    are before the mask, and the value written is the recorded value with
    TF cleared; when it tests none, nothing is recorded and 0 is written. *)
Theorem advanceInputs_EFLAGS (ctx ctx' : ScopedContext) (prng prng' : Prng)
    (inputGens inputGens' : list InputGenerator)
    (instr : ZydisDisassembledInstruction) (testEntry testEntry' : TestCaseEntry)
    (iteration : Z) :
  advanceInputs ctx prng inputGens instr testEntry iteration
  = Some (ctx', prng', inputGens', testEntry') →
  Z.testbit (getRegValue ctx' ZYDIS_REGISTER_EFLAGS) 8 = false
  ∧ (getFlagsRead instr ≠ 0%Z →
     ∃ prng0,
       let flags := (randomizeFlags (getFlagsRead instr) prng0).1 in
       inputFlags testEntry' = Some flags
       ∧ getRegValue ctx' ZYDIS_REGISTER_EFLAGS
         = Z.land flags (Z.lnot ZYDIS_CPUFLAG_TF))
  ∧ (getFlagsRead instr = 0%Z →
     inputFlags testEntry' = inputFlags testEntry
     ∧ getRegValue ctx' ZYDIS_REGISTER_EFLAGS = 0%Z).
Proof.
  intros Hadv.
  apply advanceInputs_Some in Hadv
    as (regsRead & ctx0 & ctx1 & entry1 & regIndex & prng1 & rollovers
        & _ & _ & Hstage & _ & Hflags).
  apply stageInput_outputs in Hstage as (_ & _ & _ & Hkeep).
  assert (Z.testbit (Z.lnot ZYDIS_CPUFLAG_TF) 8 = false) as Htf by done.
  destruct Hflags as [(Hread & -> & -> & ->)|(Hread & -> & -> & ->)].
  - rewrite getRegValue_setRegValue_EFLAGS.
    pose proof (randomizeFlags_range (getFlagsRead instr) prng1) as Hrange.
    rewrite Z.mod_small by (by apply clear_flag_range).
    split; [by rewrite Z.land_spec, Htf, andb_false_r|]. split; [|done].
    intros _. by exists prng1.
  - rewrite getRegValue_setRegValue_EFLAGS. split; [done|]. split; [done|].
    intros _. done.
Qed.

Lemma advanceInputs_outputs ctx prng inputGens instr e iteration
    ctx' prng' inputGens' e' :
  advanceInputs ctx prng inputGens instr e iteration
  = Some (ctx', prng', inputGens', e') →
  outputRegs e' = outputRegs e ∧ outputFlags e' = outputFlags e
  ∧ entry_exceptionType e' = entry_exceptionType e.
Proof.
  intros Hadv.
  apply advanceInputs_Some in Hadv
    as (regsRead & ctx0 & ctx1 & entry1 & regIndex & prng1 & rollovers
        & _ & _ & Hstage & _ & Hflags).
  apply stageInput_outputs in Hstage as (? & ? & ? & _).
  by destruct Hflags as [(_ & _ & -> & _)|(_ & _ & -> & _)].
Qed.

Lemma captureRegs_outputs instr ctx regsModified e :
  outputFlags (captureRegs instr ctx regsModified e) = outputFlags e
  ∧ entry_exceptionType (captureRegs instr ctx regsModified e)
    = entry_exceptionType e.
Proof.
  unfold captureRegs.
  induction regsModified as [|r regs IH] using rev_ind; [done|].
  rewrite foldl_snoc. cbv zeta. unfold set_outputReg at 1 3. simpl.
  exact IH.
Qed.

(** [checkOutputs] on an entry without outputs: a miss leaves it as it is,
    a hit records the flags exactly when a flag is modified, without IF. *)
Lemma checkOutputs_entry mode ctx instr t e hit e' :
  pristine e →
  checkOutputs mode ctx instr t e = Some (hit, e') →
  if hit then successEntry instr e' else e' = e.
Proof.
  intros (Hregs & Hflags & Hexc). unfold checkOutputs.
  case_decide as Hbit; [by intros [= <- <-]|].
  destruct (getRegsModified instr) as [regsModified|]; [|done].
  cbv beta iota delta [mbind option_bind].
  pose proof (captureRegs_outputs instr ctx regsModified e) as [Hf He].
  revert Hf He. generalize (captureRegs instr ctx regsModified e).
  intros e1 Hf He. case_decide as Hmod; intros [= <- <-].
  - unfold successEntry, set_outputFlags.
    cbn [entry_exceptionType outputFlags].
    split; [congruence|]. split.
    + split; [done|]. intros _. by eexists.
    + intros flags [= <-]. rewrite Z.land_spec.
      by rewrite andb_false_r.
  - split; [congruence|]. split.
    + rewrite Hf, Hflags. split; [by intros [? [=]]|done].
    + intros flags. rewrite Hf, Hflags. done.
Qed.

(** What one classification does to an entry without outputs. *)
Lemma classify_entry mode instr t ctx e ill e' hit ill' :
  pristine e →
  classify mode instr t ctx e false ill = Some (e', hit, ill') →
  (if hit then successEntry instr e' ∨ exceptionEntry e' else pristine e')
  ∧ ((outputRegs e' ≠ outputRegs e ∨ outputFlags e' ≠ outputFlags e) →
     getExecutionStatus ctx = Success
     ∧ exceptionType t = ExceptionType_None).
Proof.
  intros Hp. pose proof Hp as (Hregs & Hflags & Hexc). unfold classify.
  case_decide as Hstatus.
  - case_decide as Hexp; intros [= <- <- <-].
    + split; [done|]. intros [?|?]; done.
    + split; [|intros [?|?]; done]. right. split; [by eexists|done].
  - case_decide as Htarget.
    + destruct (checkOutputs mode ctx instr t e) as [[hit1 e1]|] eqn:Hcheck; [|done].
      cbv beta iota delta [mbind option_bind]. intros [= <- <- <-].
      pose proof (checkOutputs_entry _ _ _ _ _ _ _ Hp Hcheck) as Hentry.
      split; [|done]. destruct hit1; [by left|by subst].
    + intros [= <- <- <-]. split; [done|]. intros [?|?]; done.
Qed.

(** *** The retry loop *)

(** The loop leaves with a hit only on an entry of a successful execution
    or on an exception witness. *)
Lemma searchLoop_entry fuel mode instr maxAttempts t st st' :
  st_hasExpected st = false →
  pristine (st_testEntry st) →
  searchLoop fuel mode instr maxAttempts t st = SearchExit st' →
  if st_hasExpected st'
  then successEntry instr (st_testEntry st') ∨ exceptionEntry (st_testEntry st')
  else pristine (st_testEntry st').
Proof.
  revert st. induction fuel as [|fuel IH]; intros st Hhit Hp Hrun.
  - simpl in Hrun. rewrite Hhit in Hrun.
    destruct (st_illegalInstr st); simpl in Hrun; [|done].
    simplify_eq. by rewrite Hhit.
  - cbn [searchLoop] in Hrun. rewrite Hhit in Hrun.
    destruct (st_illegalInstr st) eqn:Hill; cbn [negb andb] in Hrun.
    { simplify_eq. by rewrite Hhit. }
    destruct (clearOutput mode (st_ctx st) t) as [ctxc|]; [|done].
    cbn [mbind option_bind] in Hrun.
    destruct (advanceInputs _ _ _ _ _ _) as [[[[ctx1 prng1] gens1] e1]|] eqn:Hadv;
      [|done].
    apply advanceInputs_outputs in Hadv as (Hr & Hf & He).
    assert (pristine e1) as Hp1.
    { destruct Hp as (? & ? & ?). repeat split; congruence. }
    destruct (execute ctx1) as [ctx2|]; [|done].
    destruct (classify mode instr t ctx2 e1 false false)
      as [[[e2 hit2] ill2]|] eqn:Hclass; [|done].
    apply classify_entry in Hclass as [Hentry _]; [|done].
    case_decide.
    + simplify_eq. done.
    + destruct hit2.
      * destruct fuel; cbn [searchLoop st_hasExpected negb andb] in Hrun;
          simplify_eq; done.
      * apply IH in Hrun; done.
Qed.

(** The loop ends: with fuel for the rounds up to the budget it does not
    run out of fuel, and it leaves after at most [maxAttempts + 1] rounds
    in all (or after one round, when it starts past the budget). *)
Lemma searchLoop_terminates fuel mode instr maxAttempts t st :
  (1 ≤ Z.of_nat fuel)%Z →
  (maxAttempts + 1 - st_iteration st ≤ Z.of_nat fuel)%Z →
  searchLoop fuel mode instr maxAttempts t st ≠ SearchOutOfFuel
  ∧ ∀ st', searchLoop fuel mode instr maxAttempts t st = SearchExit st' →
           (st_iteration st' ≤ Z.max (st_iteration st + 1) (maxAttempts + 1))%Z.
Proof.
  revert st. induction fuel as [|fuel IH]; intros st Hone Hfuel; [lia|].
  cbn [searchLoop].
  destruct (negb (st_hasExpected st) && negb (st_illegalInstr st)).
  2:{ split; [done|]. intros st' [= <-]. lia. }
  destruct (clearOutput mode (st_ctx st) t) as [ctxc|];
    [|split; [done|intros ? [=]]].
  cbn [mbind option_bind].
  destruct (advanceInputs _ _ _ _ _ _) as [[[[ctx1 prng1] gens1] e1]|];
    [|split; [done|intros ? [=]]].
  destruct (execute ctx1) as [ctx2|]; [|split; [done|intros ? [=]]].
  destruct (classify _ _ _ _ _ _ _) as [[[e2 hit2] ill2]|];
    [|split; [done|intros ? [=]]].
  case_decide as Hmax.
  - split; [done|]. intros st' [= <-]. cbn [st_iteration]. lia.
  - destruct fuel as [|fuel']; [lia|].
    match goal with
    | |- context [searchLoop _ _ _ _ _ ?s] =>
        destruct (IH s) as [Hne Hle]; [lia|cbn [st_iteration]; lia|]
    end.
    split; [done|]. intros st' Hrun. apply Hle in Hrun.
    cbn [st_iteration] in Hrun. lia.
Qed.

(** *** The entries of a group *)

Lemma searchTarget_entry mode instr ctx prng t st :
  searchTarget mode instr ctx prng t = SearchExit st →
  st_hasExpected st = true →
  successEntry instr (st_testEntry st) ∨ exceptionEntry (st_testEntry st).
Proof.
  unfold searchTarget. intros Hrun Hhit.
  destruct (setupInputGenerators prng instr) as [[gens prng1]|]; [|done].
  apply searchLoop_entry in Hrun; [|done..].
  by rewrite Hhit in Hrun.
Qed.

Lemma searchTargets_entries mode instr testMatrix ctx prng testCase group :
  searchTargets mode instr testMatrix ctx prng testCase = Some group →
  ∃ new, entries group = entries testCase ++ new
         ∧ Forall (λ e, successEntry instr e ∨ exceptionEntry e) new.
Proof.
  revert ctx prng testCase.
  induction testMatrix as [|t testMatrix IH]; intros ctx prng testCase Hrun.
  - cbn [searchTargets] in Hrun. simplify_eq. exists [].
    by rewrite app_nil_r.
  - cbn [searchTargets] in Hrun.
    destruct (searchTarget mode instr ctx prng t) as [| | |st] eqn:Htarget;
      try done.
    + simplify_eq. exists []. by rewrite app_nil_r.
    + destruct (st_illegalInstr st).
      { simplify_eq. exists []. by rewrite app_nil_r. }
      destruct (st_hasExpected st) eqn:Hhit.
      * apply IH in Hrun as (new & Hnew & Hall). cbn [entries] in Hnew.
        exists (st_testEntry st :: new). split.
        -- by rewrite Hnew, <- app_assoc.
        -- constructor; [|done]. by eapply searchTarget_entry.
      * by apply IH in Hrun.
Qed.

Lemma testInstruction_entries mode testCase group :
  testInstruction mode testCase = Some group →
  ∃ new, entries group = entries testCase ++ new
         ∧ Forall (λ e, successEntry
                          (ZydisDisassembleIntel mode (instrData testCase)) e
                        ∨ exceptionEntry e) new.
Proof.
  unfold testInstruction. intros Hrun.
  destruct (getRegsRead _); [|done].
  cbv beta iota delta [mbind option_bind] in Hrun.
  destruct (generateTestMatrix _) as [testMatrix|]; [|done].
  destruct (ScopedContext_new mode (instrData testCase)) as [ctx|].
  - by apply searchTargets_entries in Hrun.
  - simplify_eq. exists []. by rewrite app_nil_r.
Qed.

(** A classification that is no hit leaves the entry as it is. *)
Lemma classify_miss mode instr t ctx e ill e' ill' :
  classify mode instr t ctx e false ill = Some (e', false, ill') → e' = e.
Proof.
  unfold classify. case_decide as Hstatus.
  - case_decide; by intros [= <- _].
  - case_decide as Htarget; [|by intros [= <- _]].
    destruct (checkOutputs mode ctx instr t e) as [[hit1 e1]|] eqn:Hcheck; [|done].
    cbv beta iota delta [mbind option_bind]. intros [= <- -> _].
    unfold checkOutputs in Hcheck. case_decide; [by simplify_eq|].
    destruct (getRegsModified instr); [|done].
    cbv beta iota delta [mbind option_bind] in Hcheck. by simplify_eq.
Qed.

(** A classification that is a hit: a success on which [checkOutputs] is
    a hit, for a target that expects no exception, or a status other than
    success that maps to the exception type of the target, which is
    recorded. *)
Lemma classify_hit mode instr t ctx e ill e' ill' :
  classify mode instr t ctx e false ill = Some (e', true, ill') →
  (getExecutionStatus ctx = Success
   ∧ exceptionType t = ExceptionType_None
   ∧ checkOutputs mode ctx instr t e = Some (true, e'))
  ∨ (getExecutionStatus ctx ≠ Success
     ∧ e' = set_exceptionType (exceptionType t) e).
Proof.
  unfold classify. case_decide as Hstatus.
  - case_decide as Hexc; [by intros [=]|]. intros [= <- _]. right.
    split; [done|]. by rewrite Hexc.
  - case_decide as Htarget; [|by intros [=]]. left.
    destruct (checkOutputs mode ctx instr t e) as [[hit1 e1]|]; [|done].
    cbv beta iota delta [mbind option_bind] in *. by simplify_eq.
Qed.

(** A retry loop that leaves with a hit leaves straight after the trial
    that was the hit, and the entry of that trial had been touched by
    [advanceInputs] only. *)
Lemma searchLoop_hit_trial (I : TestCaseEntry → Prop)
    fuel mode instr maxAttempts t st st' :
  (∀ ctx prng gens e it ctx' prng' gens' e',
     I e →
     advanceInputs ctx prng gens instr e it = Some (ctx', prng', gens', e') →
     I e') →
  I (st_testEntry st) →
  st_hasExpected st = false →
  searchLoop fuel mode instr maxAttempts t st = SearchExit st' →
  st_hasExpected st' = true →
  ∃ ctx0 ctxClear prng0 gens0 e0 it ctxIn prng1 gens1 eIn,
    I eIn
    ∧ clearOutput mode ctx0 t = Some ctxClear
    ∧ advanceInputs ctxClear prng0 gens0 instr e0 it
      = Some (ctxIn, prng1, gens1, eIn)
    ∧ execute ctxIn = Some (st_ctx st')
    ∧ classify mode instr t (st_ctx st') eIn false false
      = Some (st_testEntry st', true, st_illegalInstr st').
Proof.
  intros Hpres. revert st.
  induction fuel as [|fuel IH]; intros st Hinv Hhit Hrun Hhit'.
  - cbn [searchLoop] in Hrun. rewrite Hhit in Hrun.
    destruct (st_illegalInstr st); cbn [negb andb] in Hrun; [|done].
    simplify_eq. congruence.
  - cbn [searchLoop] in Hrun. rewrite Hhit in Hrun.
    destruct (st_illegalInstr st) eqn:Hill; cbn [negb andb] in Hrun.
    { simplify_eq. congruence. }
    destruct (clearOutput mode (st_ctx st) t) as [ctxc|] eqn:Hclear; [|done].
    cbn [mbind option_bind] in Hrun.
    destruct (advanceInputs _ _ _ _ _ _) as [[[[ctx1 prng1] gens1] e1]|] eqn:Hadv;
      [|done].
    pose proof (Hpres _ _ _ _ _ _ _ _ _ Hinv Hadv) as Hinv1.
    destruct (execute ctx1) as [ctx2|] eqn:Hexec; [|done].
    destruct (classify mode instr t ctx2 e1 false false)
      as [[[e2 hit2] ill2]|] eqn:Hclass; [|done].
    assert (hit2 = true →
            ∃ ctx0 ctxClear prng0 gens0 e0 it ctxIn prng1 gens1 eIn,
              I eIn
              ∧ clearOutput mode ctx0 t = Some ctxClear
              ∧ advanceInputs ctxClear prng0 gens0 instr e0 it
                = Some (ctxIn, prng1, gens1, eIn)
              ∧ execute ctxIn = Some ctx2
              ∧ classify mode instr t ctx2 eIn false false
                = Some (e2, true, ill2)) as Hthis.
    { intros ->. by eexists _, _, _, _, _, _, _, _, _, _. }
    case_decide.
    + simplify_eq. cbn [st_hasExpected st_ctx st_testEntry st_illegalInstr] in *.
      auto.
    + destruct hit2.
      * destruct fuel; cbn [searchLoop st_hasExpected negb andb] in Hrun;
          simplify_eq; cbn [st_ctx st_testEntry st_illegalInstr]; auto.
      * apply classify_miss in Hclass as ->. by apply IH in Hrun.
Qed.

(** The entries a search adds are those of the targets that were hit, in
    the order of the matrix. *)
Lemma searchTargets_hits (P : TestBitInfo → TestCaseEntry → Prop)
    mode instr testMatrix ctx prng testCase group :
  (∀ t ctx prng st,
     searchTarget mode instr ctx prng t = SearchExit st →
     st_hasExpected st = true → st_illegalInstr st = false →
     P t (st_testEntry st)) →
  searchTargets mode instr testMatrix ctx prng testCase = Some group →
  ∃ hits new,
    sublist hits testMatrix
    ∧ entries group = entries testCase ++ new
    ∧ Forall2 P hits new.
Proof.
  intros HP. revert ctx prng testCase.
  induction testMatrix as [|t testMatrix IH]; intros ctx prng testCase Hrun.
  - cbn [searchTargets] in Hrun. simplify_eq. exists [], [].
    by rewrite app_nil_r.
  - cbn [searchTargets] in Hrun.
    destruct (searchTarget mode instr ctx prng t) as [| | |st] eqn:Htarget;
      try done.
    + simplify_eq. exists [], []. rewrite app_nil_r.
      split; [apply sublist_nil_l|done].
    + destruct (st_illegalInstr st) eqn:Hill.
      { simplify_eq. exists [], []. rewrite app_nil_r.
        split; [apply sublist_nil_l|done]. }
      destruct (st_hasExpected st) eqn:Hhit.
      * apply IH in Hrun as (hits & new & Hsub & Hnew & Hall).
        cbn [entries] in Hnew.
        exists (t :: hits), (st_testEntry st :: new). split; [|split].
        -- by apply sublist_skip.
        -- by rewrite Hnew, <- app_assoc.
        -- constructor; [|done]. by eapply HP.
      * apply IH in Hrun as (hits & new & Hsub & Hnew & Hall).
        exists hits, new. split; [|done]. by apply sublist_cons.
Qed.

(** The entry of a target that was hit, when every execution ends with one
    of the four statuses the generator names: the entry of a successful
    execution, or the witness of the exception the target expects. *)
Lemma searchTarget_hit_flags mode instr ctx prng t st :
  (∀ ctx ctx', execute ctx = Some ctx' →
               getExecutionStatus ctx' ≠ ExecutionStatus_other) →
  searchTarget mode instr ctx prng t = SearchExit st →
  st_hasExpected st = true → st_illegalInstr st = false →
  successEntry instr (st_testEntry st)
  ∨ (exceptionType t ≠ ExceptionType_None
     ∧ outputFlags (st_testEntry st) = None).
Proof.
  intros Hstatus Hrun Hhit Hill. unfold searchTarget in Hrun.
  destruct (setupInputGenerators prng instr) as [[gens prng1]|]; [|done].
  apply (searchLoop_hit_trial pristine) in Hrun
    as (ctx0 & ctxc & prng0 & gens0 & e0 & it & ctxIn & prng2 & gens2 & eIn
        & Hp & _ & _ & Hexec & Hclass); [|clear Hrun..|done].
  - rewrite Hill in Hclass. pose proof Hclass as Hclass'.
    apply classify_hit in Hclass as [(_ & _ & Hcheck)|[Hs ->]].
    + left. by apply (checkOutputs_entry _ _ _ _ _ _ _ Hp) in Hcheck.
    + right. destruct Hp as (_ & Hflags & _). split; [|done].
      intros Hnone. apply Hstatus in Hexec.
      unfold classify in Hclass'. rewrite decide_True in Hclass' by done.
      rewrite Hnone in Hclass'.
      destruct (getExecutionStatus (st_ctx st)); try done;
        by rewrite decide_True in Hclass'.
  - intros c p g e n c' p' g' e' Hp Hadv.
    apply advanceInputs_outputs in Hadv as (Hr & Hf & He).
    destruct Hp as (? & ? & ?). repeat split; congruence.
  - done.
  - done.
Qed.

(** The output flags of the entries when every execution ends with a
    status the generator names.  For every entry [testInstruction] pushes
    into the group the output flags are then present exactly when the
    instruction modifies a flag, and when they are present their IF bit
    (bit 9) is 0.  A DIV, the one instruction with exception targets, is
    taken to have no flag in its modified mask (the decoder reports its
    flags as undefined). *)
Theorem testInstruction_outputFlags (mode : ZydisMachineMode)
    (testCase group : InstrTestGroup) :
  let instr := ZydisDisassembleIntel mode (instrData testCase) in
  (mnemonic instr = ZYDIS_MNEMONIC_DIV → getFlagsModified instr = 0%Z) →
  (∀ ctx ctx', execute ctx = Some ctx' →
               getExecutionStatus ctx' ≠ ExecutionStatus_other) →
  testInstruction mode testCase = Some group →
  ∃ new, entries group = entries testCase ++ new
         ∧ ∀ e, e ∈ new →
                (is_Some (outputFlags e) ↔ getFlagsModified instr ≠ 0%Z)
                ∧ ∀ flags, outputFlags e = Some flags →
                           Z.testbit flags 9 = false.
Proof.
  intros instr Hdiv Hstatus Hrun. unfold testInstruction in Hrun.
  fold instr in Hrun.
  destruct (getRegsRead instr); [|done].
  cbn [mbind option_bind] in Hrun.
  destruct (generateTestMatrix instr) as [matrix|] eqn:Hm; [|done].
  cbn [mbind option_bind] in Hrun.
  destruct (ScopedContext_new mode (instrData testCase)) as [ctx|].
  2:{ simplify_eq. exists []. rewrite app_nil_r. split; [done|].
      intros e He. by apply elem_of_nil in He. }
  apply (searchTargets_hits
           (λ t e, successEntry instr e
                   ∨ (exceptionType t ≠ ExceptionType_None
                      ∧ outputFlags e = None))) in Hrun
    as (hits & new & Hsub & Hnew & Hall).
  2:{ intros t c p st Htarget Hhit Hill.
      by apply (searchTarget_hit_flags _ _ _ _ _ _ Hstatus Htarget). }
  exists new. split; [done|]. intros e He.
  apply list_elem_of_lookup in He as [k He].
  destruct (Forall2_lookup_r _ _ _ _ _ Hall He) as (t & Ht & Hkind).
  destruct Hkind as [(_ & Hiff & Hif)|[Hexc Hflags]]; [done|].
  assert (t ∈ matrix) as Hin.
  { eapply sublist_submseteq, elem_of_submseteq in Hsub; [done|].
    by eapply list_elem_of_lookup_2. }
  pose proof (Hdiv (exception_target_DIV _ _ _ Hm Hin Hexc)) as Hzero.
  rewrite Hflags, Hzero. split; [|done].
  split; [by intros [? [=]]|done].
Qed.

(** C9.  An entry of the group that records an exception has no output
    registers and no output flags; and a classification of a status
    touches the output registers or the output flags of an entry only when
    the status is Success and the target expects no exception. *)
Theorem testInstruction_exception_entries (mode : ZydisMachineMode)
    (testCase group : InstrTestGroup) :
  testInstruction mode testCase = Some group →
  (∃ new, entries group = entries testCase ++ new
          ∧ ∀ e, e ∈ new → is_Some (entry_exceptionType e) →
                 outputRegs e = [] ∧ outputFlags e = None)
  ∧ ∀ instr t ctx e e' illegalInstr illegalInstr' hasExpected',
      pristine e →
      classify mode instr t ctx e false illegalInstr
      = Some (e', hasExpected', illegalInstr') →
      outputRegs e' ≠ outputRegs e ∨ outputFlags e' ≠ outputFlags e →
      getExecutionStatus ctx = Success
      ∧ exceptionType t = ExceptionType_None.
Proof.
  intros Hrun. split.
  - apply testInstruction_entries in Hrun as (new & Hnew & Hall).
    exists new. split; [done|]. intros e He Hexc.
    eapply Forall_forall in Hall; [|done].
    destruct Hall as [(Hnone & _)|(_ & Hregs & Hflags)]; [|done].
    rewrite Hnone in Hexc. by destruct Hexc.
  - intros instr t ctx e e' ill ill' hit Hp Hclass.
    by apply classify_entry in Hclass as [_ Hout].
Qed.

(** A target whose loop ends without a hit adds no entry: the search goes
    on with the next target. *)
Lemma searchTargets_miss mode instr t testMatrix ctx prng testCase st :
  searchTarget mode instr ctx prng t = SearchExit st →
  st_hasExpected st = false → st_illegalInstr st = false →
  searchTargets mode instr (t :: testMatrix) ctx prng testCase
  = searchTargets mode instr testMatrix (st_ctx st) (st_prng st) testCase.
Proof. intros Hrun Hhit Hill. cbn [searchTargets]. by rewrite Hrun, Hill, Hhit. Qed.

(** The retry loop of a target always ends, after at most
    [maxAttemptsOf instr + 1] rounds. *)
Lemma searchTarget_terminates mode instr ctx prng t :
  searchTarget mode instr ctx prng t ≠ SearchOutOfFuel
  ∧ ∀ st, searchTarget mode instr ctx prng t = SearchExit st →
          (st_iteration st ≤ maxAttemptsOf instr + 1)%Z.
Proof.
  unfold searchTarget.
  destruct (setupInputGenerators prng instr) as [[gens prng1]|];
    [|split; [done|intros ? [=]]].
  assert (0 < maxAttemptsOf instr)%Z as Hpos.
  { unfold maxAttemptsOf, kAbortTestCaseThreshold.
    destruct (isInputFromImmediate instr); [|lia].
    change (100000 `div` 3)%Z with 33333%Z. lia. }
  match goal with
  | |- context [searchLoop ?f _ _ _ _ ?s] =>
      destruct (searchLoop_terminates f mode instr (maxAttemptsOf instr) t s)
        as [Hne Hle]; [lia|cbn [st_iteration]; lia|]
  end.
  split; [done|]. intros st Hrun. apply Hle in Hrun.
  cbn [st_iteration] in Hrun. lia.
Qed.

End SearchLoopFacts.

(** ** The properties on the sample instructions *)

(** In 64-bit mode the decoder's table places every sub-register inside
    its root. *)
Lemma zydis_subRegisterFits (r : ZydisRegister) :
  isRegFiltered r = false → subRegisterFits ZYDIS_MACHINE_MODE_LONG_64 r.
Proof.
  destruct r; intros Hf; try discriminate Hf;
    (split; [reflexivity|]; split; [reflexivity|]; split; vm_compute; lia).
Qed.

(** In the decoder's table a high byte and its 16-bit register share their
    root. *)
Lemma zydis_remapReg_root (mode : ZydisMachineMode) (c : ZydisRegister) :
  getRootReg mode (remapReg c) = getRootReg mode c.
Proof. by destruct mode, c. Qed.

(** On the toy processor every execution ends with Success, a divide error
    or an overflow. *)
Lemma toy_execute_status (ctx ctx' : ScopedContext) :
  toy_execute ctx = Some ctx' →
  getExecutionStatus ctx' ≠ ExecutionStatus_other.
Proof.
  unfold toy_execute. intros Hexec. apply (inj Some) in Hexec as <-.
  by repeat case_decide.
Qed.

(** C1.  The reset does not reach every target.  [CLD] has the target
    (FLAGS, DF, 0).  [clearOutput] sets EFLAGS to CF|PF|AF|ZF|SF|OF, whose DF
    bit is 0, and [advanceInputs], which runs between the reset and the
    execution, writes 0 to EFLAGS for an instruction that tests no flag:
    after the reset, and still before the execution, the bit of the target
    is the expected value and not its opposite. *)
Theorem clearOutput_agrees_on_DF :
  ∃ matrix ctx1 ctx2 prng inputGens testEntry,
    generateTestMatrix cld = Some matrix ∧ flagTarget 10 0 ∈ matrix
    ∧ clearOutput ZYDIS_MACHINE_MODE_LONG_64 ctx0 (flagTarget 10 0) = Some ctx1
    ∧ Z.b2z (Z.testbit (getRegValue ctx1 ZYDIS_REGISTER_EFLAGS)
                       (Z.of_nat (bitPos (flagTarget 10 0))))
      ≠ (1 - expectedBitValue (flagTarget 10 0))%Z
    ∧ advanceInputs (env := toyEnv) ctx1 0%Z [] cld emptyEntry 0
      = Some (ctx2, prng, inputGens, testEntry)
    ∧ Z.b2z (Z.testbit (getRegValue ctx2 ZYDIS_REGISTER_EFLAGS)
                       (Z.of_nat (bitPos (flagTarget 10 0))))
      ≠ (1 - expectedBitValue (flagTarget 10 0))%Z.
Proof.
  eexists _, _, _, _, _, _. split; [reflexivity|]. split.
  { apply (list_elem_of_lookup_2 _ 0). reflexivity. }
  split; [reflexivity|]. split; [by vm_compute|].
  split; [reflexivity|]. by vm_compute.
Qed.

(** C2.  An entry without output flags for an instruction that modifies
    flags.  [ADD RAX, RBX] modifies the six status flags.  When an execution
    ends with a status other than Success, the divide error, the overflow
    and the illegal instruction, the [switch] leaves the exception type at
    None, which is what a register target and a flag target expect: the
    trial counts as a hit and its entry is pushed, with the exception type
    None, no output register and no output flags.  On a processor where
    every execution ends so, the group is not marked and has one such entry
    for every target of the matrix. *)
Theorem testInstruction_entry_without_outputFlags :
  ∃ group matrix,
    testInstruction (env := failingEnv) ZYDIS_MACHINE_MODE_LONG_64
                    (newTestCase [72; 1; 216]%Z) = Some group
    ∧ generateTestMatrix add_rax_rbx = Some matrix
    ∧ getFlagsModified add_rax_rbx ≠ 0%Z
    ∧ illegalInstruction group = false
    ∧ length (entries group) = length matrix
    ∧ 0 < length matrix
    ∧ Forall (λ e, outputFlags e = None ∧ outputRegs e = []
                   ∧ entry_exceptionType e = Some ExceptionType_None)
             (entries group).
Proof.
  eexists _, _. split; [by vm_compute|]. split; [reflexivity|].
  split; [by vm_compute|]. split; [reflexivity|]. split; [reflexivity|].
  split; [vm_compute; lia|]. repeat constructor.
Qed.

(** The output flags of the group of [DIV CL] on the toy processor, which
    raises divide errors and ends every execution with a status the
    generator names; the group has the witness of the divide error. *)
Lemma testInstruction_outputFlags_witness :
  match testInstruction (env := toyEnv) ZYDIS_MACHINE_MODE_LONG_64
                        (newTestCase [246; 241]%Z) with
  | Some group =>
      (∃ e, e ∈ entries group
            ∧ entry_exceptionType e = Some ExceptionType_DivideError)
      ∧ ∃ new, entries group = new
               ∧ ∀ e, e ∈ new →
                      (is_Some (outputFlags e)
                       ↔ getFlagsModified div_cl ≠ 0%Z)
                      ∧ ∀ flags, outputFlags e = Some flags →
                                 Z.testbit flags 9 = false
  | None => False
  end.
Proof.
  destruct (testInstruction (env := toyEnv) ZYDIS_MACHINE_MODE_LONG_64
                            (newTestCase [246; 241]%Z)) as [group|] eqn:Hrun.
  - split.
    + vm_compute in Hrun. apply (inj Some) in Hrun as <-.
      eexists. split; [apply (list_elem_of_lookup_2 _ 32); reflexivity|].
      reflexivity.
    + assert (mnemonic div_cl = ZYDIS_MNEMONIC_DIV →
              getFlagsModified div_cl = 0%Z) as Hdiv by reflexivity.
      exact (testInstruction_outputFlags (env := toyEnv)
               ZYDIS_MACHINE_MODE_LONG_64 (newTestCase [246; 241]%Z) group
               Hdiv toy_execute_status Hrun).
  - vm_compute in Hrun. discriminate Hrun.
Defined.

(** C3, witness: [ADD RAX, RBX]. *)
Lemma getRegsRead_spec_witness :
  ∃ regs,
    (∀ c, getRootReg ZYDIS_MACHINE_MODE_LONG_64 (remapReg c)
          = getRootReg ZYDIS_MACHINE_MODE_LONG_64 c)
    ∧ getRegsRead add_rax_rbx = Some regs
    ∧ NoDup regs ∧ StronglySorted wider_first regs.
Proof.
  eexists. split; [apply zydis_remapReg_root|]. split; [reflexivity|].
  apply (getRegsRead_spec add_rax_rbx _
           (zydis_remapReg_root ZYDIS_MACHINE_MODE_LONG_64) eq_refl).
Defined.

(** C3, counterexample: the flags register, a register operand of
    [ADD RAX, RBX], is in the result of [getRegsRead]. *)
Lemma getRegsRead_keeps_flags_register :
  ∃ regs,
    getRegsRead add_rax_rbx = Some regs
    ∧ ZYDIS_REGISTER_RFLAGS ∈ regs
    ∧ isRegFiltered ZYDIS_REGISTER_RFLAGS = true.
Proof.
  eexists. split; [reflexivity|]. split; [|reflexivity].
  apply (list_elem_of_lookup_2 _ 0). reflexivity.
Qed.

(** C4, witness: [ADD RAX, RBX]. *)
Lemma getRegsModified_spec_witness :
  getRegsModified add_rax_rbx = Some [ZYDIS_REGISTER_RAX]
  ∧ NoDup [ZYDIS_REGISTER_RAX]
  ∧ StronglySorted wider_first [ZYDIS_REGISTER_RAX].
Proof.
  split; [reflexivity|].
  apply (getRegsModified_spec add_rax_rbx [ZYDIS_REGISTER_RAX] eq_refl).
Defined.

(** C4, counterexample: for [MOV AL, BL] the result is AL, whose root is
    RAX. *)
Lemma getRegsModified_not_roots :
  getRegsModified mov_al_bl = Some [ZYDIS_REGISTER_AL]
  ∧ getRootReg ZYDIS_MACHINE_MODE_LONG_64 ZYDIS_REGISTER_AL = ZYDIS_REGISTER_RAX
  ∧ getRegsModified mov_al_bl ≠ Some [ZYDIS_REGISTER_RAX].
Proof. by repeat split. Qed.

(** C5, witness: three counting generators on iteration 2, a third
    iteration.  The first goes from 1 to 2, the second from 2 to 3 and rolls
    over, the third is left alone; each call draws one random number. *)
Lemma advanceGenerators_spec_witness :
  (3 ≤ length [1; 2; 5]%Z
   ∧ advanceGenerators (env := countingEnv) 2 3 0 [1; 2; 5]%Z 7%Z
     = ([2; 3; 5]%Z, 9%Z, [false; true]))
  ∧ advanceInOrder (env := countingEnv) [1; 2]%Z 7%Z
    = ([2; 3]%Z, 9%Z, [false; true])
  ∧ drop 2 [2; 3; 5]%Z = drop 2 [1; 2; 5]%Z.
Proof.
  assert (3 ≤ length [1; 2; 5]%Z) as Hlen by (simpl; lia).
  assert (advanceGenerators (env := countingEnv) 2 3 0 [1; 2; 5]%Z 7%Z
          = ([2; 3; 5]%Z, 9%Z, [false; true])) as Hrun by reflexivity.
  split; [by split|].
  destruct (advanceGenerators_spec (env := countingEnv) 2 3 [1; 2; 5]%Z
              [2; 3; 5]%Z 7%Z 9%Z [false; true] Hlen Hrun)
    as (Horder & Hrest & _).
  split; [exact Horder|exact Hrest].
Defined.

(** C5, counterexample: on iteration 0 the loop goes on after a rollover,
    and on iteration 2, a third iteration, the loop advances every generator
    when none rolls over. *)
Lemma advanceGenerators_goes_on :
  (advanceGenerators (env := toyEnv) 0 2 0 [(true, []); (true, [])] 0%Z).2
  = [true; true]
  ∧ (advanceGenerators (env := toyEnv) 2 2 0 [(false, []); (false, [])] 0%Z).2
    = [false; false].
Proof. by split. Qed.

(** C7, witness: [XOR EAX, EAX], whose result is always zero.  ZF is
    modified and has the expect-1 target only; CF is always 0 and has the
    (FLAGS, 0, 0) target.  [BSWAP AX], which writes its operand and modifies
    no flag, has no target for ZF. *)
Lemma generateTestMatrix_flag_targets_witness :
  let matrix := testMatrixOf xor_eax_eax [ZYDIS_REGISTER_EAX] in
  let matrix' := testMatrixOf bswap_ax [ZYDIS_REGISTER_AX] in
  ((generateTestMatrix xor_eax_eax = Some matrix
    ∧ getRegsModified xor_eax_eax = Some [ZYDIS_REGISTER_EAX]
    ∧ mnemonic xor_eax_eax ≠ ZYDIS_MNEMONIC_BSWAP
    ∧ 6 < 32 ∧ 0 < 32
    ∧ spec_input_is_immediate xor_eax_eax = false
    ∧ Z.testbit (flags_set_0 xor_eax_eax) 0 = true)
   ∧ filter (isFlagTargetAt 6) matrix = [flagTarget 6 1]
   ∧ filter (isFlagTargetAt 0) matrix = [flagTarget 0 0]
   ∧ flagTarget 0 0 ∈ matrix)
  ∧ ((generateTestMatrix bswap_ax = Some matrix'
      ∧ getRegsModified bswap_ax = Some [ZYDIS_REGISTER_AX]
      ∧ [ZYDIS_REGISTER_AX] = [op_reg (operand_at bswap_ax 0)]
      ∧ spec_input_is_immediate bswap_ax = false)
     ∧ filter (isFlagTargetAt 6) matrix' = []).
Proof.
  intros matrix matrix'. split.
  - assert (generateTestMatrix xor_eax_eax = Some matrix) as Hm by reflexivity.
    assert (getRegsModified xor_eax_eax = Some [ZYDIS_REGISTER_EAX]) as Hregs
      by reflexivity.
    assert (mnemonic xor_eax_eax ≠ ZYDIS_MNEMONIC_BSWAP) as Hbswap by done.
    assert (spec_input_is_immediate xor_eax_eax = false) as Himm by reflexivity.
    assert (Z.testbit (flags_set_0 xor_eax_eax) 0 = true) as Hset0
      by reflexivity.
    assert (6 < 32) as H6 by lia. assert (0 < 32) as H0 by lia.
    split; [by repeat split|].
    destruct (generateTestMatrix_flag_targets xor_eax_eax matrix
                [ZYDIS_REGISTER_EAX] 6 Hm Hregs (λ Hb, False_ind _ (Hbswap Hb)) H6)
      as (Hzf & _ & _).
    destruct (generateTestMatrix_flag_targets xor_eax_eax matrix
                [ZYDIS_REGISTER_EAX] 0 Hm Hregs (λ Hb, False_ind _ (Hbswap Hb)) H0)
      as (Hcf & Hin & _).
    split; [exact (Hzf Himm)|]. split; [exact (Hcf Himm)|exact (Hin Hset0)].
  - assert (generateTestMatrix bswap_ax = Some matrix') as Hm by reflexivity.
    assert (getRegsModified bswap_ax = Some [ZYDIS_REGISTER_AX]) as Hregs
      by reflexivity.
    assert ([ZYDIS_REGISTER_AX] = [op_reg (operand_at bswap_ax 0)]) as Hop
      by reflexivity.
    assert (spec_input_is_immediate bswap_ax = false) as Himm by reflexivity.
    assert (6 < 32) as H6 by lia.
    split; [by repeat split|].
    destruct (generateTestMatrix_flag_targets bswap_ax matrix'
                [ZYDIS_REGISTER_AX] 6 Hm Hregs (λ _, Hop) H6) as (Hzf & _ & _).
    exact (Hzf Himm).
Defined.

(** C8, witness: [BTR EAX, 5] has the expect-0 target for bit 5 of EAX and
    not the expect-1 target. *)
Lemma generateTestMatrix_btr_imm_witness :
  let matrix := testMatrixOf btr_eax_5 [ZYDIS_REGISTER_EAX] in
  (generateTestMatrix btr_eax_5 = Some matrix
   ∧ getRegsModified btr_eax_5 = Some [ZYDIS_REGISTER_EAX]
   ∧ mnemonic btr_eax_5 = ZYDIS_MNEMONIC_BTR
   ∧ op_type (operand_at btr_eax_5 1) = ZYDIS_OPERAND_TYPE_IMMEDIATE
   ∧ ZYDIS_REGISTER_EAX ∈ [ZYDIS_REGISTER_EAX]
   ∧ 5 < ZydisRegisterGetWidth (machine_mode btr_eax_5) ZYDIS_REGISTER_EAX)
  ∧ regTarget ZYDIS_REGISTER_EAX 5 0 ∈ matrix
  ∧ regTarget ZYDIS_REGISTER_EAX 5 1 ∉ matrix.
Proof.
  intros matrix.
  assert (ZYDIS_REGISTER_EAX ∈ [ZYDIS_REGISTER_EAX]) as Hin by left.
  assert (5 < ZydisRegisterGetWidth (machine_mode btr_eax_5) ZYDIS_REGISTER_EAX)
    as Hlt by (vm_compute; lia).
  assert (generateTestMatrix btr_eax_5 = Some matrix) as Hm by reflexivity.
  assert (getRegsModified btr_eax_5 = Some [ZYDIS_REGISTER_EAX]) as Hregs
    by reflexivity.
  assert (mnemonic btr_eax_5 = ZYDIS_MNEMONIC_BTR) as Hbtr by reflexivity.
  assert (op_type (operand_at btr_eax_5 1) = ZYDIS_OPERAND_TYPE_IMMEDIATE)
    as Himm by reflexivity.
  split; [by repeat split|].
  destruct (generateTestMatrix_btr_imm btr_eax_5 matrix [ZYDIS_REGISTER_EAX]
              ZYDIS_REGISTER_EAX 5 Hm Hregs Hbtr Himm Hin Hlt)
    as [Hzero Hone].
  split; [exact Hzero|]. intros Hmatrix. by apply Hone in Hmatrix.
Defined.

(** C9, witness: the group of [DIV CL] on the toy processor. *)
Lemma testInstruction_exception_entries_witness :
  match testInstruction (env := toyEnv) ZYDIS_MACHINE_MODE_LONG_64
                        (newTestCase [246; 241]%Z) with
  | Some group =>
      ∃ new, entries group = new
             ∧ ∀ e, e ∈ new → is_Some (entry_exceptionType e) →
                    outputRegs e = [] ∧ outputFlags e = None
  | None => False
  end.
Proof.
  destruct (testInstruction (env := toyEnv) ZYDIS_MACHINE_MODE_LONG_64
                            (newTestCase [246; 241]%Z)) as [group|] eqn:Hrun.
  - exact (proj1 (testInstruction_exception_entries (env := toyEnv)
                    ZYDIS_MACHINE_MODE_LONG_64 _ group Hrun)).
  - vm_compute in Hrun. discriminate Hrun.
Defined.

(** C10, witness: the flags written for [ADC AL, BL], which tests CF. *)
Lemma advanceInputs_EFLAGS_witness :
  match advanceInputs (env := toyEnv) ctx0 1%Z
                      [(false, [1%Z]); (false, [1%Z])] adc_al_bl emptyEntry 0 with
  | Some (ctx, _, _, testEntry) =>
      Z.testbit (getRegValue ctx ZYDIS_REGISTER_EFLAGS) 8 = false
  | None => False
  end.
Proof.
  destruct (advanceInputs (env := toyEnv) ctx0 1%Z
              [(false, [1%Z]); (false, [1%Z])] adc_al_bl emptyEntry 0)
    as [[[[ctx prng] gens] testEntry]|] eqn:Hadv.
  - exact (proj1 (advanceInputs_EFLAGS (env := toyEnv) _ _ _ _ _ _ _ _ _ _ Hadv)).
  - vm_compute in Hadv. discriminate Hadv.
Defined.

(** ** The registers an instruction names *)

Section RegistersUsedFacts.
Context `{ZydisRegisterInfo}.

Lemma usedOperand_spec (acc : list ZydisRegister) (op : ZydisDecodedOperand) :
  StronglySorted reg_lt acc →
  StronglySorted reg_lt (usedOperand acc op)
  ∧ ∀ r, r ∈ usedOperand acc op ↔
         r ∈ acc
         ∨ (isRegFiltered r = false
            ∧ ((op_type op = ZYDIS_OPERAND_TYPE_REGISTER ∧ r = op_reg op)
               ∨ (op_type op = ZYDIS_OPERAND_TYPE_MEMORY
                  ∧ (r = op_mem_base op ∨ r = op_mem_index op)))).
Proof.
  intros Hacc. unfold usedOperand.
  assert (isRegFiltered ZYDIS_REGISTER_NONE = true) as Hnone by done.
  assert (∀ (c : ZydisRegister) s r,
             r ∈ (if bool_decide (c ≠ ZYDIS_REGISTER_NONE)
                     && negb (isRegFiltered c)
                  then flat_set_insert c s else s)
             ↔ r ∈ s ∨ (r = c ∧ isRegFiltered r = false)) as Hins.
  { intros c s r.
    destruct (bool_decide_reflect (c ≠ ZYDIS_REGISTER_NONE)) as [Hc|Hc];
      destruct (isRegFiltered c) eqn:Hf; simpl;
      rewrite ?elem_of_flat_set_insert.
    - split; [by left|]. intros [?|[-> ?]]; [done|congruence].
    - split; [intros [->|?]; auto|]. intros [?|[-> ?]]; auto.
    - split; [by left|]. intros [?|[-> ?]]; [done|congruence].
    - split; [by left|]. intros [?|[-> ?]]; [done|].
      apply dec_stable in Hc. congruence. }
  case_decide as Hreg; [|case_decide as Hmem].
  - destruct (isRegFiltered (op_reg op)) eqn:Hf; simpl.
    + split; [done|]. intros r. split; [by left|].
      intros [?|(Hr & [[_ ->]|[? _]])]; [done|congruence|congruence].
    + split; [by apply flat_set_insert_sorted|]. intros r.
      rewrite elem_of_flat_set_insert. rewrite Hreg. split.
      * intros [->|?]; [right|by left]. split; [done|]. by left.
      * intros [?|(Hr & [[_ ->]|[? _]])]; [by right|by left|congruence].
  - split.
    + repeat (case_match; auto using flat_set_insert_sorted).
    + intros r. rewrite Hins, Hins. rewrite Hmem. split.
      * intros [[?|[-> ?]]|[-> ?]]; [by left|right..];
          (split; [done|]); right; auto.
      * intros [?|(Hr & [[? _]|[_ [->| ->]]])]; [by left; left|congruence|..].
        -- left. by right.
        -- by right.
  - split; [done|]. intros r. split; [by left|].
    intros [?|(_ & [[? _]|[? _]])]; [done|congruence|congruence].
Qed.

Lemma regsUsedSet_spec (instr : ZydisDisassembledInstruction) :
  StronglySorted reg_lt (regsUsedSet instr)
  ∧ ∀ r, r ∈ regsUsedSet instr ↔ readCandidate instr r ∧ isRegFiltered r = false.
Proof.
  unfold regsUsedSet.
  destruct (foldl_flat_set usedOperand _ usedOperand_spec (operands instr) [])
    as [Hs Hm]; [constructor|].
  split; [done|]. intros r. rewrite Hm, elem_of_nil. unfold readCandidate.
  split.
  - intros [[]|(op & Hop & Hf & Hcase)]. split; [|done]. exists op.
    split; [done|]. destruct Hcase as [?|[? ?]]; [by left|by right].
  - intros [(op & Hop & Hcase) Hf]. right. exists op. split; [done|].
    split; [done|]. destruct Hcase as [?|(? & ? & _)]; [by left|by right].
Qed.

(** X1.  [getRegsUsed] returns exactly the registers the instruction
    names, as a register operand or as the base or the index of a memory
    operand, without NONE, the instruction pointer and the flags
    registers; each once, the widest first.  It overruns exactly when
    there are more than five. *)
Theorem getRegsUsed_spec (instr : ZydisDisassembledInstruction) :
  match getRegsUsed instr with
  | Some regs =>
      (∀ r, r ∈ regs ↔ readCandidate instr r ∧ isRegFiltered r = false)
      ∧ NoDup regs
      ∧ StronglySorted wider_first regs
      ∧ length regs ≤ 5
  | None => 5 < length (regsUsedSet instr)
  end.
Proof.
  unfold getRegsUsed.
  destruct (sortRegs (regsUsedSet instr)) as [regs|] eqn:Hsort.
  - pose proof Hsort as Hlen. unfold sortRegs in Hlen.
    case_decide as Hfive; [|done].
    apply sortRegs_Some in Hsort as [Hperm Hsorted].
    destruct (regsUsedSet_spec instr) as [Hs Hm].
    split; [|split; [|split; [done|]]].
    + intros r. by rewrite Hperm, Hm.
    + rewrite Hperm. by apply flat_set_NoDup.
    + by rewrite Hperm.
  - by apply sortRegs_None.
Qed.

(** X2.  The registers an instruction writes are among those it names:
    when [getRegsUsed] stays within its five registers, so does
    [getRegsModified], and every register of its result is one of
    [getRegsUsed]'s. *)
Theorem getRegsModified_used (instr : ZydisDisassembledInstruction) :
  match getRegsUsed instr with
  | Some used =>
      ∃ modified, getRegsModified instr = Some modified ∧ modified ⊆ used
  | None => True
  end.
Proof.
  destruct (getRegsUsed instr) as [used|] eqn:Hused; [|done].
  unfold getRegsUsed in Hused.
  destruct (regsUsedSet_spec instr) as [Hs Hm].
  destruct (regsModifiedSet_spec instr) as [Hs' Hm'].
  assert (regsModifiedSet instr ⊆ regsUsedSet instr) as Hsub.
  { intros r Hr. apply Hm' in Hr as (op & Hop & (Hreg & _ & Hf) & <-).
    apply Hm. split; [|done]. exists op. split; [done|]. by left. }
  assert (length (regsModifiedSet instr) ≤ length (regsUsedSet instr)) as Hlen.
  { apply submseteq_length, NoDup_submseteq; [|done].
    by apply flat_set_NoDup. }
  pose proof Hused as Hfive. unfold sortRegs in Hfive.
  case_decide as Hle; [|done].
  destruct (getRegsModified instr) as [modified|] eqn:Hmod.
  - exists modified. split; [done|]. unfold getRegsModified in Hmod.
    apply sortRegs_Some in Hmod as [Hperm _].
    apply sortRegs_Some in Hused as [Hperm' _].
    intros r. rewrite Hperm, Hperm'. apply Hsub.
  - unfold getRegsModified in Hmod. apply sortRegs_None in Hmod. lia.
Qed.

End RegistersUsedFacts.

(** ** The order of the entries *)

Lemma Z_ltb_order : StrictTotalOrder Z.ltb.
Proof.
  split.
  - intros a. apply Z.ltb_irrefl.
  - intros a b c Hab Hbc. apply Z.ltb_lt in Hab, Hbc. apply Z.ltb_lt. lia.
  - intros a b Hab Hba. apply Z.ltb_ge in Hab, Hba. lia.
Qed.

Lemma ZydisRegister_lt_order : StrictTotalOrder ZydisRegister_lt.
Proof.
  unfold ZydisRegister_lt. split.
  - intros a. apply bool_decide_eq_false, reg_lt_irrefl.
  - intros a b c Hab Hbc. apply bool_decide_eq_true in Hab, Hbc.
    apply bool_decide_eq_true. by eapply reg_lt_trans.
  - intros a b Hab Hba. apply bool_decide_eq_false in Hab, Hba.
    destruct (decide (a = b)) as [|Hne]; [done|].
    destruct Hba. by apply reg_lt_total.
Qed.

Lemma ExceptionType_lt_order : StrictTotalOrder ExceptionType_lt.
Proof.
  unfold ExceptionType_lt. split.
  - intros a. apply Z.ltb_irrefl.
  - intros a b c Hab Hbc. apply Z.ltb_lt in Hab, Hbc. apply Z.ltb_lt. lia.
  - intros a b Hab Hba. apply Z.ltb_ge in Hab, Hba.
    destruct a, b; simpl in *; (done || lia).
Qed.

Lemma optional_lt_order {A} (lt : A → A → bool) :
  StrictTotalOrder lt → StrictTotalOrder (optional_lt lt).
Proof.
  intros [Hirr Htrans Htotal]. split.
  - intros [a|]; simpl; auto.
  - intros [a|] [b|] [c|]; simpl; eauto; done.
  - intros [a|] [b|]; simpl; try done. intros Hab Hba. f_equal. auto.
Qed.

Lemma pair_lt_order {A B} (ltA : A → A → bool) (ltB : B → B → bool) :
  StrictTotalOrder ltA → StrictTotalOrder ltB →
  StrictTotalOrder (pair_lt ltA ltB).
Proof.
  intros [HirrA HtransA HtotalA] [HirrB HtransB HtotalB].
  assert (∀ a b : A * B,
            pair_lt ltA ltB a b = true
            ↔ ltA a.1 b.1 = true ∨ (a.1 = b.1 ∧ ltB a.2 b.2 = true)) as Hlt.
  { intros [a1 a2] [b1 b2]. unfold pair_lt. simpl.
    destruct (ltA a1 b1) eqn:Hab; simpl; [split; [by left|done]|].
    destruct (ltA b1 a1) eqn:Hba; simpl.
    - split; [done|]. intros [?|[-> _]]; [done|]. by rewrite HirrA in Hba.
    - rewrite (HtotalA _ _ Hab Hba). split; [by right|by intros [?|[_ ?]]]. }
  split.
  - intros [a1 a2]. unfold pair_lt. simpl. by rewrite HirrA, HirrB.
  - intros a b c Hab Hbc. apply Hlt in Hab, Hbc. apply Hlt.
    destruct Hab as [Hab|[Hab1 Hab2]], Hbc as [Hbc|[Hbc1 Hbc2]].
    + left. eauto.
    + left. by rewrite <- Hbc1.
    + left. by rewrite Hab1.
    + right. split; [congruence|eauto].
  - intros [a1 a2] [b1 b2] Hab Hba.
    assert (ltA a1 b1 = false) as Hab1.
    { destruct (ltA a1 b1) eqn:Hl; [|done]. unfold pair_lt in Hab. simpl in Hab.
      by rewrite Hl in Hab. }
    assert (ltA b1 a1 = false) as Hba1.
    { destruct (ltA b1 a1) eqn:Hl; [|done]. unfold pair_lt in Hba. simpl in Hba.
      by rewrite Hl in Hba. }
    unfold pair_lt in Hab, Hba. simpl in Hab, Hba.
    rewrite Hab1, Hba1 in Hab, Hba. simpl in Hab, Hba.
    f_equal; auto.
Qed.

Lemma lexicographical_compare_order {A} (lt : A → A → bool) :
  StrictTotalOrder lt → StrictTotalOrder (lexicographical_compare lt).
Proof.
  intros [Hirr Htrans Htotal]. split.
  - intros a. induction a as [|x a IH]; simpl; [done|]. by rewrite Hirr.
  - intros a. induction a as [|x a IH]; intros [|y b] [|z c]; simpl; try done.
    destruct (lt x y) eqn:Hxy.
    + intros _. destruct (lt y z) eqn:Hyz.
      * intros _. by rewrite (Htrans _ _ _ Hxy Hyz).
      * destruct (lt z y) eqn:Hzy; [done|]. intros _.
        rewrite <- (Htotal _ _ Hyz Hzy). by rewrite Hxy.
    + destruct (lt y x) eqn:Hyx; [done|]. intros Hab.
      rewrite (Htotal _ _ Hxy Hyx).
      destruct (lt y z); [done|]. destruct (lt z y); [done|]. eauto.
  - intros a. induction a as [|x a IH]; intros [|y b]; simpl; try done.
    destruct (lt x y) eqn:Hxy; [done|]. destruct (lt y x) eqn:Hyx; [done|].
    intros Hab Hba. f_equal; auto.
Qed.

Lemma regData_lt_order : StrictTotalOrder regData_lt.
Proof.
  apply lexicographical_compare_order, pair_lt_order.
  - apply ZydisRegister_lt_order.
  - apply lexicographical_compare_order, Z_ltb_order.
Qed.

Lemma TestCaseEntry_tie_inj (a b : TestCaseEntry) :
  TestCaseEntry_tie a = TestCaseEntry_tie b → a = b.
Proof. destruct a, b. unfold TestCaseEntry_tie. simpl. by intros [= -> -> -> -> ->]. Qed.

Lemma TestCaseEntry_lt_order : StrictTotalOrder TestCaseEntry_lt.
Proof.
  assert (StrictTotalOrder
            (pair_lt regData_lt
               (pair_lt (optional_lt Z.ltb)
                  (pair_lt regData_lt
                     (pair_lt (optional_lt Z.ltb)
                        (optional_lt ExceptionType_lt))))))
    as [Hirr Htrans Htotal].
  { repeat first
      [ apply pair_lt_order | apply optional_lt_order | apply regData_lt_order
      | apply Z_ltb_order | apply ExceptionType_lt_order ]. }
  unfold TestCaseEntry_lt. split.
  - intros a. apply Hirr.
  - intros a b c. apply Htrans.
  - intros a b Hab Hba. apply TestCaseEntry_tie_inj. by apply Htotal.
Qed.

Lemma TestCaseEntry_eq_spec (a b : TestCaseEntry) :
  TestCaseEntry_eq a b = true ↔ a = b.
Proof.
  unfold TestCaseEntry_eq. rewrite !andb_true_iff, !bool_decide_eq_true.
  split.
  - intros ((((? & ?) & ?) & ?) & ?). apply TestCaseEntry_tie_inj.
    unfold TestCaseEntry_tie. congruence.
  - by intros ->.
Qed.

(** X3.  [operator<] of the entries is a strict total order: no entry is
    below itself, the comparison is transitive, and two entries neither of
    which is below the other are equal by [operator==], which holds of
    equal entries only.  So the comparison is one [std::sort] accepts, and
    after the sort equal entries are neighbours. *)
Theorem TestCaseEntry_lt_strict_total :
  (∀ a, TestCaseEntry_lt a a = false)
  ∧ (∀ a b c, TestCaseEntry_lt a b = true → TestCaseEntry_lt b c = true →
              TestCaseEntry_lt a c = true)
  ∧ (∀ a b, TestCaseEntry_eq a b = true
            ↔ TestCaseEntry_lt a b = false ∧ TestCaseEntry_lt b a = false)
  ∧ (∀ a b, TestCaseEntry_eq a b = true ↔ a = b).
Proof.
  destruct TestCaseEntry_lt_order as [Hirr Htrans Htotal].
  split; [done|]. split; [done|]. split; [|apply TestCaseEntry_eq_spec].
  intros a b. rewrite TestCaseEntry_eq_spec. split.
  - intros ->. by rewrite Hirr.
  - intros [? ?]. by apply Htotal.
Qed.

#[global] Instance TestCaseEntry_le_total : Total TestCaseEntry_le.
Proof.
  destruct TestCaseEntry_lt_order as [Hirr Htrans Htotal].
  intros a b. unfold TestCaseEntry_le.
  destruct (TestCaseEntry_lt b a) eqn:Hba; [|by left]. right.
  destruct (TestCaseEntry_lt a b) eqn:Hab; [|done].
  by rewrite <- (Hirr a), <- (Htrans _ _ _ Hab Hba).
Qed.

#[global] Instance TestCaseEntry_le_trans : Transitive TestCaseEntry_le.
Proof.
  destruct TestCaseEntry_lt_order as [Hirr Htrans Htotal].
  intros a b c. unfold TestCaseEntry_le. intros Hba Hcb.
  destruct (TestCaseEntry_lt c a) eqn:Hca; [|done].
  destruct (TestCaseEntry_lt a b) eqn:Hab.
  - by rewrite <- Hcb, <- (Htrans _ _ _ Hca Hab).
  - rewrite (Htotal _ _ Hab Hba) in Hca. congruence.
Qed.

#[global] Instance TestCaseEntry_le_antisymm : AntiSymm (=) TestCaseEntry_le.
Proof.
  destruct TestCaseEntry_lt_order as [Hirr Htrans Htotal].
  intros a b Hab Hba. by apply Htotal.
Qed.

(** ** The removal of duplicate entries *)

Lemma StronglySorted_last {A} (R : relation A) (l : list A) (y e : A) :
  StronglySorted R l → last l = Some y → e ∈ l → e = y ∨ R e y.
Proof.
  intros Hs Hlast He. apply last_Some in Hlast as [l' ->].
  apply elem_of_app in He as [He|He].
  - right. eapply StronglySorted_app_1_elem_of; [done..|]. left.
  - left. by apply list_elem_of_singleton in He.
Qed.

(** [std::unique] on a sorted sequence: the result ascends strictly, has
    the elements of the sequence and ends with its last element. *)
Lemma unique_sorted (l : list TestCaseEntry) :
  StronglySorted TestCaseEntry_le l →
  ascending (unique l)
  ∧ (∀ e, e ∈ unique l ↔ e ∈ l)
  ∧ last (unique l) = last l.
Proof.
  destruct TestCaseEntry_lt_order as [Hirr Htrans Htotal].
  unfold unique, ascending.
  induction l as [|x l IH] using rev_ind; intros Hs.
  { split; [constructor|]. done. }
  apply StronglySorted_app in Hs as (Hle & Hs & _).
  destruct (IH Hs) as (Hasc & Hmem & Hlast). clear IH.
  rewrite foldl_snoc, last_snoc.
  generalize dependent (foldl unique_step [] l). intros res Hasc Hmem Hlast.
  unfold unique_step.
  destruct (last res) as [y|] eqn:Hy.
  - assert (y ∈ l) as Hyl by (apply Hmem; by eapply last_Some_elem_of).
    assert (TestCaseEntry_lt x y = false) as Hxy.
    { apply (Hle y x); [done|left]. }
    destruct (TestCaseEntry_eq y x) eqn:Heq.
    + apply TestCaseEntry_eq_spec in Heq as <-.
      split; [done|]. split; [|done].
      intros e. rewrite elem_of_app, list_elem_of_singleton, Hmem.
      split; [by left|]. by intros [?| ->].
    + assert (TestCaseEntry_lt y x = true) as Hyx.
      { destruct (TestCaseEntry_lt y x) eqn:Hlt; [done|].
        rewrite (Htotal _ _ Hlt Hxy) in Heq.
        by rewrite (proj2 (TestCaseEntry_eq_spec x x) eq_refl) in Heq. }
      split; [|split].
      * apply StronglySorted_app. split; [|split; [done|repeat constructor]].
        intros e x' He Hx'. apply list_elem_of_singleton in Hx' as ->.
        apply Hmem in He.
        destruct (StronglySorted_last _ _ y e Hs (eq_trans (eq_sym Hlast) eq_refl) He)
          as [->|Hey]; [done|].
        destruct (TestCaseEntry_lt e x) eqn:Hex; [done|].
        assert (e = x) as -> by (apply Htotal; [done|]; apply (Hle e x); [done|left]).
        unfold TestCaseEntry_le in Hey. congruence.
      * intros e. rewrite !elem_of_app, Hmem. done.
      * by rewrite last_snoc.
  - apply last_None in Hy. rewrite Hy in Hmem.
    assert (l = []) as ->.
    { destruct l as [|e l]; [done|].
      exfalso. eapply elem_of_nil. apply Hmem. left. }
    split; [repeat constructor|]. done.
Qed.

Lemma ascending_NoDup (l : list TestCaseEntry) : ascending l → NoDup l.
Proof.
  destruct TestCaseEntry_lt_order as [Hirr _ _].
  induction 1 as [|x l Hs IH Hall]; constructor; [|done].
  intros Hin. eapply Forall_forall in Hall; [|done]. simpl in Hall.
  by rewrite Hirr in Hall.
Qed.

Section TestDataFacts.
Context `{ZydisRegisterInfo} {env : Collaborators}.

Lemma searchTargets_instrData mode instr testMatrix ctx prng testCase group :
  searchTargets mode instr testMatrix ctx prng testCase = Some group →
  instrData group = instrData testCase ∧ address group = address testCase.
Proof.
  revert ctx prng testCase.
  induction testMatrix as [|t testMatrix IH]; intros ctx prng testCase Hrun.
  - cbn [searchTargets] in Hrun. by simplify_eq.
  - cbn [searchTargets] in Hrun.
    destruct (searchTarget mode instr ctx prng t) as [| | |st]; try done.
    + by simplify_eq.
    + destruct (st_illegalInstr st); [by simplify_eq|].
      apply IH in Hrun. by destruct (st_hasExpected st).
Qed.

Lemma testInstruction_instrData mode testCase group :
  testInstruction mode testCase = Some group →
  instrData group = instrData testCase.
Proof.
  unfold testInstruction. intros Hrun.
  destruct (getRegsRead _); [|done].
  cbv beta iota delta [mbind option_bind] in Hrun.
  destruct (generateTestMatrix _) as [testMatrix|]; [|done].
  destruct (ScopedContext_new mode (instrData testCase)) as [ctx|].
  - by apply searchTargets_instrData in Hrun as [? _].
  - by simplify_eq.
Qed.

(** X4.  The group [generateInstructionTestData] returns is the group of
    [testInstruction] for the bytes, with its entries in strictly
    ascending order of [operator<], so without duplicates, and with the
    same entries: none is lost and none is made up. *)
Theorem generateInstructionTestData_entries (mode : ZydisMachineMode)
    (instrBytes : list Z) (group : InstrTestGroup) :
  generateInstructionTestData mode instrBytes = Some group →
  ∃ testCase,
    testInstruction mode (newTestCase instrBytes) = Some testCase
    ∧ address group = address testCase
    ∧ instrData group = instrBytes
    ∧ illegalInstruction group = illegalInstruction testCase
    ∧ ascending (entries group)
    ∧ NoDup (entries group)
    ∧ ∀ e, e ∈ entries group ↔ e ∈ entries testCase.
Proof.
  unfold generateInstructionTestData. intros Hrun.
  destruct (testInstruction mode (newTestCase instrBytes)) as [testCase|] eqn:Htest;
    [|done].
  cbv beta iota zeta delta [mbind option_bind] in Hrun. simplify_eq.
  exists testCase. split; [done|]. cbn [address instrData illegalInstruction entries].
  split; [done|]. split; [by apply testInstruction_instrData in Htest|].
  split; [done|].
  destruct (unique_sorted (merge_sort TestCaseEntry_le (entries testCase)))
    as (Hasc & Hmem & _); [apply (StronglySorted_merge_sort _)|].
  split; [done|]. split; [by apply ascending_NoDup|].
  intros e. by rewrite Hmem, merge_sort_Permutation.
Qed.

(** X5.  The entries of the group do not depend on how [std::sort]
    arranges the entries: whatever rearrangement of the entries of
    [testInstruction] in the order of [operator<] it returns, the removal
    of duplicates leaves the entries of the group. *)
Theorem generateInstructionTestData_sort_determined (mode : ZydisMachineMode)
    (instrBytes : list Z) (group testCase : InstrTestGroup)
    (sorted : list TestCaseEntry) :
  generateInstructionTestData mode instrBytes = Some group →
  testInstruction mode (newTestCase instrBytes) = Some testCase →
  sorted ≡ₚ entries testCase →
  Sorted TestCaseEntry_le sorted →
  unique sorted = entries group.
Proof.
  unfold generateInstructionTestData. intros Hrun Htest Hperm Hsorted.
  rewrite Htest in Hrun.
  cbv beta iota zeta delta [mbind option_bind] in Hrun. simplify_eq.
  cbn [entries]. f_equal.
  apply (Sorted_unique TestCaseEntry_le); [done| |].
  - apply Sorted_merge_sort. apply _.
  - by rewrite merge_sort_Permutation.
Qed.

End TestDataFacts.

(** ** More on the bit matrix *)

Section BitMatrixTargets.
Context `{ZydisRegisterInfo}.

(** A register target of the matrix comes from the round of its register
    and its bit position. *)
Lemma elem_of_testMatrixOf_reg instr regsModified r b v :
  isRegFiltered r = false →
  regTarget r b v ∈ testMatrixOf instr regsModified
  ↔ r ∈ regsModified
    ∧ b < ZydisRegisterGetWidth (machine_mode instr) r
    ∧ regTarget r b v
      ∈ regBitTargets instr (analyse instr) (resultAlwaysZeroFor instr r)
          (maxBitsFor instr r) r b.
Proof.
  intros Hf. rewrite testMatrixOf_eq, !elem_of_app. split.
  - intros [Ht|[Ht|Ht]].
    + apply list_elem_of_bind in Ht as (r' & Ht & Hr').
      apply list_elem_of_bind in Ht as (b' & Ht & Hb').
      apply elem_of_seq in Hb'.
      pose proof Ht as Ht'.
      apply elem_of_regBitTargets in Ht' as [[=]|[=]]; subst;
        (split; [done|split; [lia|done]]).
    + apply list_elem_of_bind in Ht as (j & Ht & _).
      pose proof (flagBitTargets_Forall instr (analyse instr)
                    (flagsResultAlwaysZero instr regsModified) j) as Hall.
      eapply Forall_forall in Hall as [Hreg _]; [|done].
      simpl in Hreg. by subst.
    + apply list_elem_of_fmap in Ht as (e & [=] & _). by subst.
  - intros (Hr & Hb & Ht). left. apply list_elem_of_bind. exists r.
    split; [|done]. apply list_elem_of_bind. exists b. split; [done|].
    apply elem_of_seq. lia.
Qed.

(** X6.  The matrix is the register targets, then the flag targets, then
    the exception targets.  A register target is a bit of a modified
    register, inside its width; a flag target is one of the 32 bits of
    FLAGS; both expect 0 or 1 and no exception.  The exception targets
    are those of [getExceptions], none of which is the exception type
    None. *)
Theorem generateTestMatrix_targets (instr : ZydisDisassembledInstruction)
    (matrix : list TestBitInfo) (regsModified : list ZydisRegister) :
  generateTestMatrix instr = Some matrix →
  getRegsModified instr = Some regsModified →
  ∃ regPart flagPart,
    matrix = regPart ++ flagPart ++ (exceptionTarget <$> getExceptions instr)
    ∧ Forall (λ t, exceptionType t = ExceptionType_None
                   ∧ reg t ∈ regsModified
                   ∧ isRegFiltered (reg t) = false
                   ∧ bitPos t < ZydisRegisterGetWidth (machine_mode instr) (reg t)
                   ∧ (expectedBitValue t = 0 ∨ expectedBitValue t = 1)%Z)
             regPart
    ∧ Forall (λ t, exceptionType t = ExceptionType_None
                   ∧ reg t = ZYDIS_REGISTER_FLAGS
                   ∧ bitPos t < 32
                   ∧ (expectedBitValue t = 0 ∨ expectedBitValue t = 1)%Z)
             flagPart
    ∧ Forall (λ e, e ≠ ExceptionType_None) (getExceptions instr).
Proof.
  intros Hm Hregs.
  apply generateTestMatrix_Some in Hm as (regs & Hregs' & _ & ->).
  assert (regs = regsModified) as -> by congruence.
  rewrite testMatrixOf_eq. eexists. eexists. split; [done|].
  split; [|split].
  - apply Forall_forall. intros t Ht.
    apply list_elem_of_bind in Ht as (r & Ht & Hr).
    apply list_elem_of_bind in Ht as (b & Ht & Hb).
    apply elem_of_seq in Hb.
    pose proof (regsModified_not_filtered _ _ _ Hregs Hr).
    apply elem_of_regBitTargets in Ht as [-> | ->]; simpl;
      repeat split; auto; lia.
  - apply Forall_forall. intros t Ht.
    apply list_elem_of_bind in Ht as (i & Ht & Hi).
    apply elem_of_seq in Hi.
    apply elem_of_flagBitTargets in Ht as [-> | ->]; simpl;
      repeat split; auto; lia.
  - unfold getExceptions. destruct (mnemonic instr); repeat constructor; done.
Qed.

(** The register targets by the values the analysis of the code leaves
    in its variables. *)
Lemma regTargets_analysed (instr : ZydisDisassembledInstruction)
    (matrix : list TestBitInfo) (regsModified : list ZydisRegister)
    (r : ZydisRegister) (b : nat) :
  generateTestMatrix instr = Some matrix →
  getRegsModified instr = Some regsModified →
  op_type (operand_at instr 1) ≠ ZYDIS_OPERAND_TYPE_IMMEDIATE →
  r ∈ regsModified →
  b < ZydisRegisterGetWidth (machine_mode instr) r →
  regTarget r b 0 ∈ matrix
  ∧ (regTarget r b 1 ∈ matrix
     ↔ numBitsZero (analyse instr) ≤ b
       ∧ resultAlwaysZeroFor instr r = false
       ∧ b < maxBitsFor instr r
       ∧ ¬ (b = 0 ∧ firstBitAlwaysZero (analyse instr) = true)).
Proof.
  intros Hm Hregs Himm Hr Hb.
  apply generateTestMatrix_Some in Hm as (regs & Hregs' & _ & ->).
  assert (regs = regsModified) as -> by congruence.
  pose proof (regsModified_not_filtered _ _ _ Hregs Hr) as Hf.
  rewrite !elem_of_testMatrixOf_reg by done.
  unfold regBitTargets.
  assert (inputIsImmediate (analyse instr) = false) as ->
    by (by apply bool_decide_eq_false).
  rewrite !andb_false_r. cbv zeta iota.
  assert (∀ c : bool,
            regTarget r b 1
            ∈ [regTarget r b 0] ++ (if c then [regTarget r b 1] else [])
            ↔ c = true) as Hone.
  { intros [|]; rewrite elem_of_app, !elem_of_cons, !elem_of_nil;
      unfold regTarget; split; try done; auto.
    intros [[[=]|[]]|[]]. }
  rewrite Hone. split.
  - split; [done|]. split; [done|]. apply elem_of_app. left. left.
  - destruct (bool_decide_reflect (b = 0)) as [Hb0|Hb0];
      destruct (firstBitAlwaysZero (analyse instr));
      destruct (bool_decide_reflect (numBitsZero (analyse instr) ≤ b));
      destruct (resultAlwaysZeroFor instr r);
      destruct (bool_decide_reflect (b < maxBitsFor instr r)); simpl;
      (split;
       [ intros Hc; try discriminate Hc; repeat split; try done; try lia;
         try (intros [? ?]; done || lia)
       | intros (H1 & H2 & H3 & H4); try done; try lia;
         exfalso; apply H4; split; done || lia ]).
Qed.

(** X7.  An instruction whose second operand is no immediate: every bit
    [b] of a modified register [r] has its expect-0 target, and whether it
    has its expect-1 target is read off the decoded operands.  SUB, CMP
    and XOR: unless operands 0 and 1 are the same register.  ADD and FADD:
    unless [b] is bit 0 and operands 0 and 1 are the same register.
    BSWAP: when [r] is wider than 16 bits.  LEA: when [b] is below the
    address width, not below log2 of the scale for an index without base
    and displacement with a scale above 1, and not bit 0 for a base equal
    to the index without displacement.  SETcc: bit 0 only.  Every other
    mnemonic: always. *)
Theorem generateTestMatrix_reg_targets (instr : ZydisDisassembledInstruction)
    (matrix : list TestBitInfo) (regsModified : list ZydisRegister)
    (r : ZydisRegister) (b : nat) :
  generateTestMatrix instr = Some matrix →
  getRegsModified instr = Some regsModified →
  op_type (operand_at instr 1) ≠ ZYDIS_OPERAND_TYPE_IMMEDIATE →
  r ∈ regsModified →
  b < ZydisRegisterGetWidth (machine_mode instr) r →
  let op0 := operand_at instr 0 in
  let op1 := operand_at instr 1 in
  let sameRegister :=
    op_type op0 = ZYDIS_OPERAND_TYPE_REGISTER
    ∧ op_type op1 = ZYDIS_OPERAND_TYPE_REGISTER
    ∧ op_reg op0 = op_reg op1 in
  regTarget r b 0 ∈ matrix
  ∧ (regTarget r b 1 ∈ matrix
     ↔ match mnemonic instr with
       | ZYDIS_MNEMONIC_SUB | ZYDIS_MNEMONIC_CMP | ZYDIS_MNEMONIC_XOR =>
           ¬ sameRegister
       | ZYDIS_MNEMONIC_ADD | ZYDIS_MNEMONIC_FADD =>
           ¬ (b = 0 ∧ sameRegister)
       | ZYDIS_MNEMONIC_BSWAP =>
           16 < ZydisRegisterGetWidth (machine_mode instr) r
       | ZYDIS_MNEMONIC_LEA =>
           b < address_width instr
           ∧ (op_mem_base op1 = ZYDIS_REGISTER_NONE
              ∧ op_mem_index op1 ≠ ZYDIS_REGISTER_NONE
              ∧ 1 < op_mem_scale op1 ∧ op_mem_disp op1 = 0%Z →
              Nat.log2 (op_mem_scale op1) ≤ b)
           ∧ ¬ (b = 0 ∧ op_mem_base op1 ≠ ZYDIS_REGISTER_NONE
                ∧ op_mem_index op1 = op_mem_base op1
                ∧ op_mem_disp op1 = 0%Z)
       | m => if isSetcc m then b = 0 else True
       end).
Proof.
  intros Hm Hregs Himm Hr Hb op0 op1 sameRegister.
  destruct (regTargets_analysed _ _ _ _ _ Hm Hregs Himm Hr Hb)
    as [Hzero Hone].
  split; [done|]. rewrite Hone. clear Hone Hzero.
  unfold resultAlwaysZeroFor, maxBitsFor, analyse.
  cbn [numBitsZero resultAlwaysZero firstBitAlwaysZero]. fold op0 op1.
  rewrite (bool_decide_eq_false_2 (op_type op1 = ZYDIS_OPERAND_TYPE_IMMEDIATE))
    by done.
  assert (∀ c : bool, (c = true ↔ sameRegister) →
            (c = false ↔ ¬ sameRegister)) as Hneg.
  { intros [|] Hc; split; try done.
    - intros Hn. exfalso. by apply Hn, Hc.
    - intros _ Hs. by apply Hc in Hs. }
  assert (bool_decide (op_type op0 = ZYDIS_OPERAND_TYPE_REGISTER)
          && bool_decide (op_type op1 = ZYDIS_OPERAND_TYPE_REGISTER)
          && bool_decide (op_reg op0 = op_reg op1) = true
          ↔ sameRegister) as Hsame.
  { subst sameRegister. rewrite !andb_true_iff, !bool_decide_eq_true. tauto. }
  pose proof (Hneg _ Hsame) as Hsame'.
  revert Hsame Hsame'.
  generalize (bool_decide (op_type op0 = ZYDIS_OPERAND_TYPE_REGISTER)
              && bool_decide (op_type op1 = ZYDIS_OPERAND_TYPE_REGISTER)
              && bool_decide (op_reg op0 = op_reg op1)).
  intros same Hsame Hsame'. clear Hneg.
  destruct (mnemonic instr) eqn:Hmn; cbn [isSetcc andb];
    try (rewrite (bool_decide_eq_false_2 (_ = ZYDIS_MNEMONIC_BSWAP)) by done);
    try (rewrite (bool_decide_eq_false_2 (_ = ZYDIS_MNEMONIC_LEA)) by done);
    try (split; [intros (_ & _ & ? & _); lia
                |intros ->; repeat split; (lia || done || (intros [_ ?]; done))]);
    try (split; [by intros _|intros _; repeat split;
                               (lia || done || (intros [_ ?]; done))]).
  - (* ADD *) rewrite Hsame. split; [tauto|]. intros Hn.
    repeat split; (lia || done).
  - (* BSWAP *) rewrite bool_decide_eq_true_2 by done.
    rewrite bool_decide_eq_false. split; [intros (_ & ? & _); lia|].
    intros Hw. repeat split; (lia || done || (intros [_ ?]; done)).
  - (* CMP *) rewrite Hsame'. split; [tauto|]. intros Hn.
    repeat split; (lia || done || (intros [_ ?]; done)).
  - (* FADD *) rewrite Hsame. split; [tauto|]. intros Hn.
    repeat split; (lia || done).
  - (* LEA *)
    rewrite (bool_decide_eq_true_2 (ZYDIS_MNEMONIC_LEA = ZYDIS_MNEMONIC_LEA))
      by done.
    rewrite !andb_true_iff, !bool_decide_eq_true.
    destruct (bool_decide (op_mem_base op1 = ZYDIS_REGISTER_NONE)
              && bool_decide (op_mem_index op1 ≠ ZYDIS_REGISTER_NONE)
              && bool_decide (1 < op_mem_scale op1)
              && bool_decide (op_mem_disp op1 = 0%Z)) eqn:Hscaled.
    + rewrite !andb_true_iff, !bool_decide_eq_true in Hscaled.
      split; [intros (? & _ & ? & ?); repeat split; (done || tauto)|].
      intros (? & Hlog & ?). repeat split; (done || tauto).
    + split; [intros (_ & _ & ? & ?); repeat split; [done| |tauto]|].
      * intros Hyes. exfalso.
        apply andb_false_iff in Hscaled as [Hscaled|Hscaled];
          [apply andb_false_iff in Hscaled as [Hscaled|Hscaled];
           [apply andb_false_iff in Hscaled as [Hscaled|Hscaled]|]|];
          apply bool_decide_eq_false in Hscaled; tauto.
      * intros (? & _ & ?). repeat split; (lia || done || tauto).
  - (* SUB *) rewrite Hsame'. split; [tauto|]. intros Hn.
    repeat split; (lia || done || (intros [_ ?]; done)).
  - (* XOR *) rewrite Hsame'. split; [tauto|]. intros Hn.
    repeat split; (lia || done || (intros [_ ?]; done)).
Qed.

(** X8.  MOV, OR and AND with an immediate second operand follow the
    bits of the immediate.  For bit [b] of a modified register: MOV has
    the expect-1 target exactly when the immediate has bit [b] and the
    expect-0 target exactly when it has not; OR has the expect-1 target,
    and the expect-0 target exactly when the immediate has not bit [b];
    AND has the expect-0 target, and the expect-1 target exactly when
    the immediate has bit [b]. *)
Theorem generateTestMatrix_imm_targets (instr : ZydisDisassembledInstruction)
    (matrix : list TestBitInfo) (regsModified : list ZydisRegister)
    (r : ZydisRegister) (b : nat) :
  generateTestMatrix instr = Some matrix →
  getRegsModified instr = Some regsModified →
  op_type (operand_at instr 1) = ZYDIS_OPERAND_TYPE_IMMEDIATE →
  r ∈ regsModified →
  b < ZydisRegisterGetWidth (machine_mode instr) r →
  let bit := Z.testbit (op_imm (operand_at instr 1)) (Z.of_nat b) in
  (mnemonic instr = ZYDIS_MNEMONIC_MOV →
   (regTarget r b 0 ∈ matrix ↔ bit = false)
   ∧ (regTarget r b 1 ∈ matrix ↔ bit = true))
  ∧ (mnemonic instr = ZYDIS_MNEMONIC_OR →
     (regTarget r b 0 ∈ matrix ↔ bit = false)
     ∧ regTarget r b 1 ∈ matrix)
  ∧ (mnemonic instr = ZYDIS_MNEMONIC_AND →
     regTarget r b 0 ∈ matrix
     ∧ (regTarget r b 1 ∈ matrix ↔ bit = true)).
Proof.
  intros Hm Hregs Himm Hr Hb bit.
  apply generateTestMatrix_Some in Hm as (regs & Hregs' & _ & ->).
  assert (regs = regsModified) as -> by congruence.
  pose proof (regsModified_not_filtered _ _ _ Hregs Hr) as Hf.
  rewrite !elem_of_testMatrixOf_reg by done.
  assert (inputIsImmediate (analyse instr) = true) as Hi
    by (by apply bool_decide_eq_true).
  assert (∀ c0 c1 : bool,
            (regTarget r b 0
             ∈ (if c0 then [regTarget r b 0] else [])
               ++ (if c1 then [regTarget r b 1] else []) ↔ c0 = true)
            ∧ (regTarget r b 1
               ∈ (if c0 then [regTarget r b 0] else [])
                 ++ (if c1 then [regTarget r b 1] else []) ↔ c1 = true))
    as Hin.
  { intros [|] [|]; simpl; rewrite ?elem_of_cons, ?elem_of_nil;
      unfold regTarget; intuition (discriminate || auto). }
  split; [|split]; intros Hmn.
  - assert (firstBitAlwaysZero (analyse instr) = false) as Hfb
      by (unfold analyse; simpl; by rewrite Hmn).
    unfold regBitTargets. rewrite Hi, Hfb, Hmn, !andb_false_r.
    generalize (analyse instr). intros a. simpl. fold bit.
    destruct (Hin (negb bit) bit) as [-> ->].
    clearbody bit. destruct bit; simpl; intuition (discriminate || auto).
  - assert (firstBitAlwaysZero (analyse instr) = false) as Hfb
      by (unfold analyse; simpl; by rewrite Hmn).
    assert (numBitsZero (analyse instr) = 0) as Hnb
      by (unfold analyse; simpl; by rewrite Hmn).
    assert (resultAlwaysZeroFor instr r = false) as Hz
      by (unfold resultAlwaysZeroFor, analyse; simpl; by rewrite Hmn).
    assert (maxBitsFor instr r = ZydisRegisterGetWidth (machine_mode instr) r)
      as Hmax by (unfold maxBitsFor; by rewrite Hmn).
    unfold regBitTargets. rewrite Hi, Hfb, Hnb, Hz, Hmax, Hmn, !andb_false_r.
    rewrite (bool_decide_eq_true_2 (0 ≤ b)) by lia.
    rewrite (bool_decide_eq_true_2 (b < _)) by lia.
    generalize (analyse instr). intros a. simpl. fold bit.
    destruct (Hin (negb bit) true) as [-> ->].
    clearbody bit. destruct bit; simpl; intuition (discriminate || auto).
  - assert (firstBitAlwaysZero (analyse instr) = false) as Hfb
      by (unfold analyse; simpl; by rewrite Hmn).
    unfold regBitTargets. rewrite Hi, Hfb, Hmn, !andb_false_r.
    generalize (analyse instr). intros a. simpl. fold bit.
    destruct (Hin true bit) as [-> ->].
    clearbody bit. destruct bit; simpl; intuition (discriminate || auto).
Qed.

(** X18.  With an immediate second operand the flags the instruction
    modifies get no target: the only flag targets of the matrix for bit
    [i] are the expect-0 target when the always-0 mask has the bit and
    the expect-1 target when the always-1 mask has it. *)
Theorem generateTestMatrix_imm_flag_targets
    (instr : ZydisDisassembledInstruction) (matrix : list TestBitInfo)
    (i : nat) :
  generateTestMatrix instr = Some matrix →
  op_type (operand_at instr 1) = ZYDIS_OPERAND_TYPE_IMMEDIATE →
  i < 32 →
  filter (isFlagTargetAt i) matrix
  = (if Z.testbit (flags_set_0 instr) (Z.of_nat i)
     then [flagTarget i 0] else [])
    ++ (if Z.testbit (flags_set_1 instr) (Z.of_nat i)
        then [flagTarget i 1] else []).
Proof.
  intros Hm Himm Hi.
  apply generateTestMatrix_Some in Hm as (regs & Hregs & _ & ->).
  rewrite testMatrixOf_filter_flag;
    [|eauto using regsModified_not_filtered|done].
  unfold flagBitTargets.
  assert (inputIsImmediate (analyse instr) = true) as ->
    by (by apply bool_decide_eq_true).
  cbn [negb]. unfold getFlagsSet0, getFlagsSet1.
  by rewrite !Z.lor_0_l, !land_bit_testbit.
Qed.

End BitMatrixTargets.

(** ** More on the staging of the inputs *)

Section StagingInputsFacts.
Context `{ZydisRegisterInfo} {env : Collaborators}.

(** The randomized flags have only bits the instruction tests. *)
Lemma randomizeFlags_bits (flagsRead : Z) (prng : Prng) (k : Z) :
  Z.testbit (randomizeFlags flagsRead prng).1 k = true →
  Z.testbit flagsRead k = true ∧ (0 ≤ k < 32)%Z.
Proof.
  unfold randomizeFlags.
  assert (∀ l (st : Z * Prng),
            Forall (λ i, i < 32) l →
            (Z.testbit st.1 k = true →
             Z.testbit flagsRead k = true ∧ (0 ≤ k < 32)%Z) →
            Z.testbit (foldl (randomizeFlag flagsRead) st l).1 k = true →
            Z.testbit flagsRead k = true ∧ (0 ≤ k < 32)%Z) as Hfold.
  { induction l as [|i l IH]; intros [flags p] Hl Hst; [exact Hst|].
    apply Forall_cons in Hl as [Hi Hl]. cbn [foldl]. apply IH; [exact Hl|].
    unfold randomizeFlag. case_decide as Hbit; [|exact Hst].
    destruct (prng_next p) as [value p']. cbn [fst] in *.
    rewrite Z.lor_spec. intros [Hf|Hs]%orb_true_iff; [auto|].
    destruct (decide (0 ≤ k)%Z) as [Hk|Hk];
      [|rewrite Z.testbit_neg_r in Hs by lia; done].
    rewrite Z.shiftl_spec in Hs by lia.
    assert (0 ≤ value `mod` 2 < 2)%Z as Hrange
      by (apply Z.mod_pos_bound; lia).
    assert (k = Z.of_nat i) as ->.
    { destruct (decide (k - Z.of_nat i < 0)%Z) as [Hneg|Hpos].
      - rewrite Z.testbit_neg_r in Hs by lia. done.
      - destruct (decide (k - Z.of_nat i = 0)%Z) as [|Hne]; [lia|].
        rewrite (proj1 (Z.bounded_iff_bits_nonneg 1 (value `mod` 2)
                          ltac:(lia) ltac:(lia))) in Hs by lia.
        done. }
    split; [|lia]. rewrite <- land_bit_testbit.
    by apply bool_decide_eq_true. }
  apply Hfold; [|cbn [fst]; by rewrite Z.bits_0].
  apply Forall_forall. intros i Hi. apply elem_of_seq in Hi. lia.
Qed.

(** X9.  The flags of a trial have only bits the instruction tests.  The
    EFLAGS value [advanceInputs] leaves in the context has a bit only
    where the tested mask of the instruction has it, among the low 32
    bits and never at TF; the flags it records in the entry have a bit
    only where the tested mask has it. *)
Theorem advanceInputs_flags_tested (ctx ctx' : ScopedContext)
    (prng prng' : Prng) (inputGens inputGens' : list InputGenerator)
    (instr : ZydisDisassembledInstruction)
    (testEntry testEntry' : TestCaseEntry) (iteration : Z) (k : Z) :
  advanceInputs ctx prng inputGens instr testEntry iteration
  = Some (ctx', prng', inputGens', testEntry') →
  (Z.testbit (getRegValue ctx' ZYDIS_REGISTER_EFLAGS) k = true →
   Z.testbit (getFlagsRead instr) k = true ∧ (0 ≤ k < 32)%Z ∧ k ≠ 8%Z)
  ∧ (getFlagsRead instr ≠ 0%Z →
     ∃ flags, inputFlags testEntry' = Some flags
              ∧ (Z.testbit flags k = true →
                 Z.testbit (getFlagsRead instr) k = true ∧ (0 ≤ k < 32)%Z)).
Proof.
  intros Hadv.
  apply advanceInputs_Some in Hadv
    as (regsRead & ctx0 & ctx1 & entry1 & regIndex & prng1 & rollovers
        & _ & _ & _ & _ & Hflags).
  destruct Hflags as [(Hread & -> & -> & ->)|(Hread & -> & -> & ->)].
  - rewrite getRegValue_setRegValue_EFLAGS.
    pose proof (randomizeFlags_range (getFlagsRead instr) prng1) as Hrange.
    pose proof (randomizeFlags_bits (getFlagsRead instr) prng1 k) as Hbits.
    rewrite Z.mod_small by (by apply clear_flag_range).
    split.
    + rewrite Z.land_spec. intros [Hf Hn]%andb_true_iff.
      destruct (Hbits Hf) as [Hr Hk]. split; [done|]. split; [done|].
      intros ->. done.
    + intros _. eexists. split; [done|]. exact Hbits.
  - rewrite getRegValue_setRegValue_EFLAGS. split; [|done].
    change (Z.land 0 (Z.lnot ZYDIS_CPUFLAG_TF) `mod` 2 ^ 32)%Z with 0%Z.
    by rewrite Z.bits_0.
Qed.

(** X10.  The generators are indexed within bounds.  With as many
    generators as [setupInputGenerators] makes for the instruction, every
    register the staging loop of [advanceInputs] comes to finds its
    generator at [regIndex], the count [regIndex] of staged registers ends
    at the number of generators, and [advanceInputs] returns as many
    generators as it was given; so the next round indexes within bounds
    as well. *)
Theorem advanceInputs_generators_in_range (prng prng0 : Prng)
    (instr : ZydisDisassembledInstruction) (regsRead : list ZydisRegister)
    (gens inputGens : list InputGenerator) :
  getRegsRead instr = Some regsRead →
  setupInputGenerators prng instr = Some (gens, prng0) →
  length inputGens = length gens →
  (∀ regs1 reg regs2 ctx e ctx1 e1 regIndex,
     regsRead = regs1 ++ reg :: regs2 → isRegFiltered reg = false →
     foldlM (stageInput instr inputGens) (ctx, e, 0) regs1
     = Some (ctx1, e1, regIndex) →
     is_Some (inputGens !! regIndex))
  ∧ (∀ ctx e ctx1 e1 regIndex,
       foldlM (stageInput instr inputGens) (ctx, e, 0) regsRead
       = Some (ctx1, e1, regIndex) →
       regIndex = length inputGens)
  ∧ (∀ ctx prng1 e iteration ctx' prng' inputGens' e',
       advanceInputs ctx prng1 inputGens instr e iteration
       = Some (ctx', prng', inputGens', e') →
       length inputGens' = length inputGens).
Proof.
  intros Hregs Hsetup Hlen.
  pose proof (setupInputGenerators_length _ _ _ _ _ Hregs Hsetup) as Hgens.
  split; [|split].
  - intros regs1 reg regs2 ctx e ctx1 e1 regIndex -> Hf Hstage.
    apply lookup_lt_is_Some. apply stageInput_regIndex in Hstage as ->.
    rewrite Hlen, Hgens.
    rewrite filter_app, filter_cons_True, length_app by done. simpl. lia.
  - intros ctx e ctx1 e1 regIndex Hstage.
    apply stageInput_regIndex in Hstage as ->. by rewrite Hlen, Hgens.
  - intros ctx prng1 e iteration ctx' prng' inputGens' e' Hadv.
    apply advanceInputs_Some in Hadv
      as (regs & ctx0 & ctx1 & entry1 & regIndex & prng2 & rollovers
          & Hregs' & _ & Hstage & Hrun & _).
    assert (regs = regsRead) as -> by congruence.
    apply stageInput_regIndex in Hstage. cbn [Nat.add] in Hstage.
    apply advanceGenerators_rollovers in Hrun as (Hl & _); [done|lia].
Qed.

Lemma isFlagsReg_filtered (r : ZydisRegister) :
  isFlagsReg r = true → isRegFiltered r = true.
Proof. by destruct r. Qed.

Lemma regsReadBig_spec (mode : ZydisMachineMode) (regsRead : list ZydisRegister)
    (k : ZydisRegister) :
  k ∈ foldl (λ regsReadBig reg, flat_set_insert (getRootReg mode reg) regsReadBig)
            [] regsRead
  ↔ ∃ r, r ∈ regsRead ∧ k = getRootReg mode r.
Proof.
  destruct (foldl_flat_set
              (λ regsReadBig reg, flat_set_insert (getRootReg mode reg) regsReadBig)
              (λ reg k, k = getRootReg mode reg))
    with (xs := regsRead) (acc := @nil ZydisRegister) as [_ Hm]; [|constructor|].
  { intros acc reg Hacc. split; [by apply flat_set_insert_sorted|].
    intros r. rewrite elem_of_flat_set_insert. tauto. }
  rewrite Hm, elem_of_nil. split; [by intros [[]|?]|by right].
Qed.

(** The loop that cleanses the registers [l], when it is defined: it
    leaves the flags and every register outside [l], and every register of
    [l] that [isRegFiltered] lets through is at most 32 bytes wide and
    holds as many bytes 0xCC as it is wide. *)
Lemma cleanse_fold (instr : ZydisDisassembledInstruction)
    (l : list ZydisRegister) (c c' : ScopedContext) :
  foldlM (λ ctx reg,
            if isRegFiltered reg then Some ctx
            else
              bytes ← span ccBytes
                        (ZydisRegisterGetWidth (machine_mode instr) reg / 8);
              Some (setRegBytes ctx reg bytes))
         c l = Some c' →
  eflags c' = eflags c
  ∧ (∀ k, k ∉ l → regFile c' k = regFile c k)
  ∧ (∀ k, k ∈ l → isRegFiltered k = false →
          ZydisRegisterGetWidth (machine_mode instr) k / 8 ≤ 32
          ∧ regFile c' k
            = replicate (ZydisRegisterGetWidth (machine_mode instr) k / 8)
                        204%Z).
Proof.
  revert c'. induction l as [|reg l IH] using rev_ind; intros c' Hrun.
  - cbn [foldlM] in Hrun. apply (inj Some) in Hrun as <-.
    split; [done|]. split; [done|]. intros k Hk. by apply elem_of_nil in Hk.
  - rewrite foldlM_snoc in Hrun.
    destruct (foldlM _ c l) as [c1|] eqn:Hrec; [|done].
    cbn [mbind option_bind] in Hrun.
    destruct (IH c1 eq_refl) as (Hfl & Hout & Hin).
    destruct (isRegFiltered reg) eqn:Hf.
    + apply (inj Some) in Hrun as <-. split; [done|]. split.
      * intros k Hk. apply Hout. intros ?. apply Hk, elem_of_app. by left.
      * intros k Hk Hfk. apply elem_of_app in Hk as [Hk|Hk]; [by apply Hin|].
        apply list_elem_of_singleton in Hk. congruence.
    + destruct (span ccBytes _) as [bytes|] eqn:Hspan; [|done].
      apply span_Some in Hspan as [Hlen ->].
      unfold ccBytes in Hlen. rewrite length_replicate in Hlen.
      cbn [mbind option_bind] in Hrun. apply (inj Some) in Hrun as <-.
      unfold setRegBytes.
      destruct (isFlagsReg reg) eqn:Hfr.
      { apply isFlagsReg_filtered in Hfr. congruence. }
      cbn [eflags regFile]. split; [done|]. split.
      * intros k Hk. rewrite fn_lookup_insert_ne.
        -- apply Hout. intros ?. apply Hk, elem_of_app. by left.
        -- intros ->. apply Hk, elem_of_app. right. left.
      * intros k Hk Hfk. destruct (decide (k = reg)) as [->|Hne].
        -- rewrite fn_lookup_insert. split; [done|].
           unfold ccBytes. rewrite take_replicate. f_equal. lia.
        -- rewrite fn_lookup_insert_ne by done.
           apply elem_of_app in Hk as [Hk|Hk]; [by apply Hin|].
           apply list_elem_of_singleton in Hk. congruence.
Qed.

(** "Cleanse the registers." writes the roots of the read registers and
    nothing else. *)
Lemma cleanseRegs_other (instr : ZydisDisassembledInstruction)
    (regsRead : list ZydisRegister) (ctx ctx' : ScopedContext) :
  cleanseRegs instr regsRead ctx = Some ctx' →
  eflags ctx' = eflags ctx
  ∧ ∀ k, (∀ r, r ∈ regsRead → getRootReg (machine_mode instr) r ≠ k) →
         regFile ctx' k = regFile ctx k.
Proof.
  unfold cleanseRegs. intros Hclean.
  apply cleanse_fold in Hclean as (Hfl & Hout & _).
  split; [done|]. intros k Hk. apply Hout.
  intros (r & Hr & ->)%regsReadBig_spec. by apply (Hk r).
Qed.

(** "Randomize read registers." writes the root of every register it
    stages into the context and into the entry alike, and nothing else. *)
Lemma stageInput_fold instr inputGens regs c e n c' e' n' :
  let mode := machine_mode instr in
  (∀ r, r ∈ regs → isRegFiltered r = false →
        isFlagsReg (getRootReg mode r) = false) →
  foldlM (stageInput instr inputGens) (c, e, n) regs = Some (c', e', n') →
  eflags c' = eflags c
  ∧ ∀ k,
      ((∃ r, r ∈ regs ∧ isRegFiltered r = false ∧ getRootReg mode r = k) →
       flat_map_find k (inputRegs e') = Some (regFile c' k))
      ∧ ((∀ r, r ∈ regs → isRegFiltered r = false → getRootReg mode r ≠ k) →
         regFile c' k = regFile c k
         ∧ flat_map_find k (inputRegs e') = flat_map_find k (inputRegs e)).
Proof.
  intros mode. revert c' e' n'.
  induction regs as [|r regs IH] using rev_ind; intros c' e' n' Hroots Hstage.
  - cbn [foldlM] in Hstage. apply (inj Some) in Hstage.
    assert (c' = c ∧ e' = e) as [-> ->] by (split; congruence).
    split; [done|]. intros k. split; [|done].
    intros (r & Hr & _). by apply elem_of_nil in Hr.
  - rewrite foldlM_snoc in Hstage.
    destruct (foldlM (stageInput instr inputGens) _ regs)
      as [[[c2 e2] n2]|] eqn:Hrec; [|done].
    cbn [mbind option_bind] in Hstage.
    destruct (IH c2 e2 n2) as [Hfl Hk2]; [|done|].
    { intros r' Hr'. apply Hroots, elem_of_app. by left. }
    apply stageInput_Some in Hstage. destruct (isRegFiltered r) eqn:Hf.
    + assert (c' = c2 ∧ e' = e2) as [-> ->] by (split; congruence).
      split; [done|]. intros k. destruct (Hk2 k) as [Hin Hout]. split.
      * intros (r' & Hr' & Hf' & Hroot). apply Hin.
        apply elem_of_app in Hr' as [Hr'|Hr']; [by exists r'|].
        apply list_elem_of_singleton in Hr'. congruence.
      * intros Hne. apply Hout. intros r' Hr'. apply Hne, elem_of_app. by left.
    + cbv zeta in Hstage. fold mode in Hstage.
      destruct Hstage as (g & buf & _ & _ & _ & _ & _ & _ & Hst).
      assert (isFlagsReg (getRootReg mode r) = false) as Hfr.
      { apply Hroots; [|done]. apply elem_of_app. right. left. }
      assert (c' = setRegBytes c2 (getRootReg mode r) buf
              ∧ e' = set_inputReg (getRootReg mode r) buf e2) as [-> ->]
        by (split; congruence).
      unfold setRegBytes. rewrite Hfr.
      cbn [eflags regFile inputRegs set_inputReg]. split; [done|].
      intros k. destruct (Hk2 k) as [Hin Hout].
      destruct (decide (k = getRootReg mode r)) as [->|Hne].
      * split.
        -- intros _. by rewrite flat_map_find_assign, fn_lookup_insert.
        -- intros Hall. exfalso. apply (Hall r); [|done..].
           apply elem_of_app. right. left.
      * rewrite fn_lookup_insert_ne by done.
        rewrite flat_map_find_assign_ne by done. split.
        -- intros (r' & Hr' & Hf' & Hroot). apply Hin.
           apply elem_of_app in Hr' as [Hr'|Hr']; [by exists r'|].
           apply list_elem_of_singleton in Hr'. congruence.
        -- intros Hall. apply Hout. intros r' Hr'. apply Hall, elem_of_app.
           by left.
Qed.

(** The registers after [advanceInputs]: the roots of the staged
    registers hold what the entry records, the others what they held. *)
Lemma advanceInputs_regs (ctx ctx' : ScopedContext) (prng prng' : Prng)
    (inputGens inputGens' : list InputGenerator)
    (instr : ZydisDisassembledInstruction) (regsRead : list ZydisRegister)
    (testEntry testEntry' : TestCaseEntry) (iteration : Z) :
  let mode := machine_mode instr in
  getRegsRead instr = Some regsRead →
  (∀ r, r ∈ regsRead → isRegFiltered r = false →
        isFlagsReg (getRootReg mode r) = false) →
  advanceInputs ctx prng inputGens instr testEntry iteration
  = Some (ctx', prng', inputGens', testEntry') →
  (∀ r, r ∈ regsRead → isRegFiltered r = false →
        flat_map_find (getRootReg mode r) (inputRegs testEntry')
        = Some (getRegBytes ctx' (getRootReg mode r)))
  ∧ (∀ k, isFlagsReg k = false →
          (∀ r, r ∈ regsRead → getRootReg mode r ≠ k) →
          getRegBytes ctx' k = getRegBytes ctx k
          ∧ flat_map_find k (inputRegs testEntry')
            = flat_map_find k (inputRegs testEntry)).
Proof.
  intros mode Hregs Hroots Hadv.
  apply advanceInputs_Some in Hadv
    as (regs & ctx0 & ctx1 & entry1 & regIndex & prng1 & rollovers
        & Hregs' & Hclean & Hstage & _ & Hflags).
  assert (regs = regsRead) as -> by congruence.
  apply cleanseRegs_other in Hclean as [_ Hclean].
  apply stageInput_fold in Hstage as [_ Hstage]; [|done].
  assert (∀ flags k, isFlagsReg k = false →
            getRegBytes (setRegValue ctx1 ZYDIS_REGISTER_EFLAGS flags) k
            = regFile ctx1 k) as Hbytes.
  { intros flags k Hk. unfold getRegBytes, setRegValue. cbn [isFlagsReg regFile].
    by rewrite Hk. }
  assert (inputRegs testEntry' = inputRegs entry1
          ∧ ∃ flags, ctx' = setRegValue ctx1 ZYDIS_REGISTER_EFLAGS flags)
    as [Hin [flags ->]].
  { destruct Hflags as [(_ & _ & -> & ->)|(_ & _ & -> & ->)];
      (split; [done|by eexists]). }
  rewrite Hin. split.
  - intros r Hr Hf. rewrite Hbytes by auto.
    apply (Hstage (getRootReg mode r)). by exists r.
  - intros k Hk Hne. rewrite Hbytes by done.
    destruct (Hstage k) as [_ Hother].
    destruct Hother as [Hfile Hfind]; [intros r Hr _; by apply Hne|].
    rewrite Hfile, Hfind. split; [|done].
    unfold getRegBytes. rewrite Hk. by apply Hclean.
Qed.

(** X11.  What [advanceInputs] records is what the instruction runs on:
    for every register it stages, the entry holds under the root of the
    register the very bytes the context holds in that root when
    [advanceInputs] returns.  A register that is no root of a read
    register keeps the bytes it had, in the context and in the entry,
    and the recorded outputs stay as they were. *)
Theorem advanceInputs_inputs (ctx ctx' : ScopedContext) (prng prng' : Prng)
    (inputGens inputGens' : list InputGenerator)
    (instr : ZydisDisassembledInstruction) (regsRead : list ZydisRegister)
    (testEntry testEntry' : TestCaseEntry) (iteration : Z) :
  let mode := machine_mode instr in
  getRegsRead instr = Some regsRead →
  (∀ r, r ∈ regsRead → isRegFiltered r = false →
        isFlagsReg (getRootReg mode r) = false) →
  advanceInputs ctx prng inputGens instr testEntry iteration
  = Some (ctx', prng', inputGens', testEntry') →
  (∀ r, r ∈ regsRead → isRegFiltered r = false →
        flat_map_find (getRootReg mode r) (inputRegs testEntry')
        = Some (getRegBytes ctx' (getRootReg mode r)))
  ∧ (∀ k, isFlagsReg k = false →
          (∀ r, r ∈ regsRead → getRootReg mode r ≠ k) →
          getRegBytes ctx' k = getRegBytes ctx k
          ∧ flat_map_find k (inputRegs testEntry')
            = flat_map_find k (inputRegs testEntry))
  ∧ outputRegs testEntry' = outputRegs testEntry
  ∧ outputFlags testEntry' = outputFlags testEntry
  ∧ entry_exceptionType testEntry' = entry_exceptionType testEntry.
Proof.
  intros mode Hregs Hroots Hadv.
  pose proof (advanceInputs_outputs _ _ _ _ _ _ _ _ _ _ Hadv) as Hout.
  destruct (advanceInputs_regs _ _ _ _ _ _ _ _ _ _ _ Hregs Hroots Hadv)
    as [Hstaged Hother].
  split; [exact Hstaged|]. split; [exact Hother|]. exact Hout.
Qed.

(** The flags after [advanceInputs]. *)
Lemma advanceInputs_flags (ctx ctx' : ScopedContext) (prng prng' : Prng)
    (inputGens inputGens' : list InputGenerator)
    (instr : ZydisDisassembledInstruction)
    (testEntry testEntry' : TestCaseEntry) (iteration : Z) :
  advanceInputs ctx prng inputGens instr testEntry iteration
  = Some (ctx', prng', inputGens', testEntry') →
  (getFlagsRead instr ≠ 0%Z →
   ∃ flags, inputFlags testEntry' = Some flags
            ∧ getRegValue ctx' ZYDIS_REGISTER_EFLAGS
              = Z.land flags (Z.lnot ZYDIS_CPUFLAG_TF))
  ∧ (getFlagsRead instr = 0%Z →
     inputFlags testEntry' = inputFlags testEntry
     ∧ getRegValue ctx' ZYDIS_REGISTER_EFLAGS = 0%Z).
Proof.
  intros Hadv.
  apply advanceInputs_Some in Hadv
    as (regsRead & ctx0 & ctx1 & entry1 & regIndex & prng1 & rollovers
        & _ & _ & Hstage & _ & Hflags).
  apply stageInput_outputs in Hstage as (_ & _ & _ & Hkeep).
  destruct Hflags as [(Hread & -> & -> & ->)|(Hread & -> & -> & ->)].
  - rewrite getRegValue_setRegValue_EFLAGS.
    pose proof (randomizeFlags_range (getFlagsRead instr) prng1) as Hrange.
    rewrite Z.mod_small by (by apply clear_flag_range).
    split; [|done]. intros _. by eexists.
  - rewrite getRegValue_setRegValue_EFLAGS. split; [done|].
    intros _. done.
Qed.

End StagingInputsFacts.

(** ** More on the capture of the outputs *)

Section CaptureFacts.
Context `{ZydisRegisterInfo}.

Lemma captureRegs_snoc instr ctx regs r e :
  captureRegs instr ctx (regs ++ [r]) e
  = set_outputReg (getRootReg (machine_mode instr) r)
      (take (ZydisRegisterGetWidth (machine_mode instr)
               (getRootReg (machine_mode instr) r) / 8)
            (getRegBytes ctx (getRootReg (machine_mode instr) r)))
      (captureRegs instr ctx regs e).
Proof. unfold captureRegs. by rewrite foldl_snoc. Qed.

(** The loop of [checkOutputs] over the modified registers records the
    bytes of their roots, and leaves the rest of the entry alone. *)
Lemma captureRegs_find instr ctx regs e :
  let mode := machine_mode instr in
  inputRegs (captureRegs instr ctx regs e) = inputRegs e
  ∧ inputFlags (captureRegs instr ctx regs e) = inputFlags e
  ∧ ∀ k, flat_map_find k (outputRegs (captureRegs instr ctx regs e))
         = if decide (Exists (λ r, getRootReg mode r = k) regs)
           then Some (take (ZydisRegisterGetWidth mode k / 8)
                           (getRegBytes ctx k))
           else flat_map_find k (outputRegs e).
Proof.
  intros mode.
  induction regs as [|r regs (Hin & Hfl & Hfind)] using rev_ind.
  - split; [done|]. split; [done|]. intros k.
    rewrite decide_False; [done|]. by intros ?%Exists_nil.
  - rewrite captureRegs_snoc. fold mode.
    cbn [set_outputReg inputRegs inputFlags outputRegs].
    split; [done|]. split; [done|]. intros k.
    destruct (decide (k = getRootReg mode r)) as [->|Hne].
    + rewrite flat_map_find_assign. rewrite decide_True; [done|].
      apply Exists_app. right. by left.
    + rewrite flat_map_find_assign_ne by done. rewrite Hfind.
      destruct (decide (Exists (λ r0, getRootReg mode r0 = k) regs))
        as [Hex|Hex].
      * rewrite decide_True; [done|]. apply Exists_app. by left.
      * rewrite decide_False; [done|].
        intros [?|Hr]%Exists_app; [done|].
        apply Exists_cons in Hr as [?|?%Exists_nil]; [congruence|done].
Qed.

(** What a hit of [checkOutputs] leaves in the entry. *)
Lemma checkOutputs_hit (mode : ZydisMachineMode) (ctx : ScopedContext)
    (instr : ZydisDisassembledInstruction) (t : TestBitInfo)
    (e e' : TestCaseEntry) (regsModified : list ZydisRegister) :
  getRegsModified instr = Some regsModified →
  checkOutputs mode ctx instr t e = Some (true, e') →
  observedBit mode ctx t = expectedBitValue t
  ∧ inputRegs e' = inputRegs e
  ∧ inputFlags e' = inputFlags e
  ∧ entry_exceptionType e' = entry_exceptionType e
  ∧ (∀ k, flat_map_find k (outputRegs e')
          = if decide (Exists (λ r, getRootReg (machine_mode instr) r = k)
                              regsModified)
            then Some (take (ZydisRegisterGetWidth (machine_mode instr) k / 8)
                            (getRegBytes ctx k))
            else flat_map_find k (outputRegs e))
  ∧ outputFlags e'
    = if decide (getFlagsModified instr ≠ 0%Z)
      then Some (Z.land (getRegValue ctx ZYDIS_REGISTER_EFLAGS)
                        (Z.lnot ZYDIS_CPUFLAG_IF))
      else outputFlags e.
Proof.
  intros Hregs. unfold checkOutputs. rewrite Hregs.
  cbv beta iota delta [mbind option_bind].
  case_decide as Hbit; [done|]. intros [= <-].
  destruct (captureRegs_find instr ctx regsModified e) as (Hin & Hfl & Hfind).
  destruct (captureRegs_outputs instr ctx regsModified e) as [Hof Hexc].
  split; [done|].
  case_decide as Hmod; cbn [set_outputFlags inputRegs inputFlags
    entry_exceptionType outputRegs outputFlags]; by repeat split.
Qed.

(** X12.  [checkOutputs] is a hit exactly when the bit of the target
    reads as expected.  A miss leaves the entry as it is.  A hit records,
    under the root of every modified register, the bytes of the root in
    the context, as many as the root is wide, and the EFLAGS of the
    context without IF when the instruction modifies a flag; it leaves the
    recorded inputs, the exception and every other output register as
    they are. *)
Theorem checkOutputs_spec (mode : ZydisMachineMode) (ctx : ScopedContext)
    (instr : ZydisDisassembledInstruction) (t : TestBitInfo)
    (e : TestCaseEntry) (regsModified : list ZydisRegister) :
  getRegsModified instr = Some regsModified →
  ∃ hit e',
    checkOutputs mode ctx instr t e = Some (hit, e')
    ∧ (hit = true ↔ observedBit mode ctx t = expectedBitValue t)
    ∧ (hit = false → e' = e)
    ∧ (hit = true →
       inputRegs e' = inputRegs e
       ∧ inputFlags e' = inputFlags e
       ∧ entry_exceptionType e' = entry_exceptionType e
       ∧ (∀ k, flat_map_find k (outputRegs e')
               = if decide (Exists (λ r, getRootReg (machine_mode instr) r = k)
                                   regsModified)
                 then Some (take (ZydisRegisterGetWidth (machine_mode instr) k / 8)
                                 (getRegBytes ctx k))
                 else flat_map_find k (outputRegs e))
       ∧ outputFlags e'
         = if decide (getFlagsModified instr ≠ 0%Z)
           then Some (Z.land (getRegValue ctx ZYDIS_REGISTER_EFLAGS)
                             (Z.lnot ZYDIS_CPUFLAG_IF))
           else outputFlags e).
Proof.
  intros Hregs.
  destruct (checkOutputs mode ctx instr t e) as [[hit e']|] eqn:Hcheck.
  - exists hit, e'. split; [done|]. destruct hit.
    + apply (checkOutputs_hit _ _ _ _ _ _ _ Hregs) in Hcheck as [Hbit Hrest].
      split; [by split|]. split; [done|]. by intros _.
    + unfold checkOutputs in Hcheck. rewrite Hregs in Hcheck.
      cbv beta iota delta [mbind option_bind] in Hcheck.
      case_decide as Hbit; [|done]. simplify_eq.
      split; [by split|]. by split.
  - unfold checkOutputs in Hcheck. rewrite Hregs in Hcheck.
    cbv beta iota delta [mbind option_bind] in Hcheck. by case_decide.
Qed.

Lemma bit_of_byte (v : Z) (i : nat) :
  i < 64 →
  Z.land (Z.shiftr (default 0%Z (le_bytes 8 v !! (i / 8)))
                   (Z.of_nat (i `mod` 8))) 1
  = Z.b2z (Z.testbit v (Z.of_nat i)).
Proof.
  intros Hi. unfold le_bytes.
  assert (i / 8 < 8) as Hbyte by (apply Nat.Div0.div_lt_upper_bound; lia).
  assert (i `mod` 8 < 8) as Hbit by (apply Nat.mod_upper_bound; lia).
  rewrite list_lookup_fmap, lookup_seq_lt by done.
  cbn [fmap option_fmap option_map default from_option]. unfold id.
  rewrite Nat.add_0_l.
  change 1%Z with (Z.ones 1). rewrite Z.land_ones by lia.
  change (2 ^ 1)%Z with 2%Z. rewrite <- Z.bit0_mod.
  rewrite Z.shiftr_spec by lia. rewrite Z.land_spec, Z.shiftr_spec by lia.
  change 255%Z with (Z.ones 8). rewrite Z.ones_spec_low by lia.
  rewrite andb_true_r. do 2 f_equal.
  pose proof (Nat.div_mod_eq i 8). lia.
Qed.

(** X13.  A hit records the bit of the target.  When the decoder places
    the registers inside their roots, the entry of a hit holds the
    expected value at the bit of the target: for a bit of a modified
    register, in the recorded bytes of its root; for a flag that is not
    IF, in the recorded flags when the instruction modifies a flag. *)
Theorem checkOutputs_records_target (mode : ZydisMachineMode)
    (ctx : ScopedContext) (instr : ZydisDisassembledInstruction)
    (t : TestBitInfo) (e e' : TestCaseEntry)
    (regsModified : list ZydisRegister) :
  machine_mode instr = mode →
  rootsFit mode →
  getRegsModified instr = Some regsModified →
  checkOutputs mode ctx instr t e = Some (true, e') →
  (reg t ∈ regsModified →
   bitPos t < ZydisRegisterGetWidth mode (reg t) →
   recordedBit mode e' t = Some (expectedBitValue t))
  ∧ (reg t = ZYDIS_REGISTER_FLAGS →
     getFlagsModified instr ≠ 0%Z →
     bitPos t < 32 → bitPos t ≠ 9 →
     recordedBit mode e' t = Some (expectedBitValue t)).
Proof.
  intros Hmode [Hfits Hflags] Hregs Hcheck. subst mode.
  apply (checkOutputs_hit _ _ _ _ _ _ _ Hregs) in Hcheck
    as (Hbit & _ & _ & _ & Hfind & Hof).
  unfold recordedBit. split.
  - intros Hr Hpos.
    pose proof (regsModified_not_filtered _ _ _ Hregs Hr) as Hf.
    destruct (isFlagsReg (reg t)) eqn:Hfr.
    { apply isFlagsReg_filtered in Hfr. congruence. }
    rewrite Hfind, decide_True by (apply Exists_exists; by exists (reg t)).
    cbv beta iota zeta delta [mbind option_bind]. f_equal.
    rewrite <- Hbit. unfold observedBit, RegTestData.
    destruct (Hfits _ Hf) as (_ & Hbytes & Hfit & _).
    rewrite lookup_take_lt; [done|].
    assert (bitPos t / 8 < ZydisRegisterGetWidth (machine_mode instr) (reg t) / 8).
    { apply Nat.Div0.div_lt_upper_bound.
      pose proof (Nat.Div0.div_mod (ZydisRegisterGetWidth (machine_mode instr) (reg t)) 8).
      lia. }
    lia.
  - intros Hreg Hmod Hpos Hif. rewrite Hreg. cbn [isFlagsReg].
    rewrite Hof, decide_True by done.
    cbv beta iota zeta delta [mbind option_bind]. f_equal.
    rewrite <- Hbit. unfold observedBit. rewrite Hreg.
    unfold getRegBytes. rewrite Hflags. cbn [getRegOffset]. rewrite Nat.add_0_l.
    rewrite bit_of_byte by lia. f_equal.
    unfold getRegValue. cbn [isFlagsReg].
    rewrite Z.land_spec, Z.mod_pow2_bits_low by lia.
    rewrite Z.lnot_spec by lia.
    assert (Z.testbit ZYDIS_CPUFLAG_IF (Z.of_nat (bitPos t)) = false) as ->.
    { unfold ZYDIS_CPUFLAG_IF. rewrite Z.shiftl_1_l.
      apply Z.pow2_bits_false. lia. }
    by rewrite andb_true_r.
Qed.

End CaptureFacts.

(** ** More on the reset of the outputs *)

Section ClearOutputFacts.
Context `{ZydisRegisterInfo}.

(** X17.  What [clearOutput] leaves alone and what it writes.  It is
    defined unless the target register is one it writes and the bytes of
    that register or of its root reach past the 256 bytes of [regBuf].
    Where it is defined, it keeps the code address and the status; it
    keeps every register but the flags and the root of the target
    register, and every register but the flags for a flag target and an
    exception target.  When the target register lies inside its root, the
    root gets as many bytes as it is wide: the fill (0xFF when 0 is
    expected, 0x00 when 1 is) on the bytes of the target register, and
    0x00 on every other byte. *)
Theorem clearOutput_frame (mode : ZydisMachineMode) (ctx : ScopedContext)
    (t : TestBitInfo) :
  let root := getRootReg mode (reg t) in
  match clearOutput mode ctx t with
  | Some ctx' =>
      getCodeAddress ctx' = getCodeAddress ctx
      ∧ getExecutionStatus ctx' = getExecutionStatus ctx
      ∧ (∀ k, isFlagsReg k = false →
              isRegFiltered (reg t) = true ∨ k ≠ root →
              getRegBytes ctx' k = getRegBytes ctx k)
      ∧ (isRegFiltered (reg t) = false → subRegisterFits mode (reg t) →
         length (getRegBytes ctx' root) = ZydisRegisterGetWidth mode root / 8
         ∧ ∀ j, j < ZydisRegisterGetWidth mode root / 8 →
                getRegBytes ctx' root !! j
                = Some (if decide (getRegOffset (reg t) ≤ j
                                   < getRegOffset (reg t)
                                     + ZydisRegisterGetWidth mode (reg t) / 8)
                        then if decide (expectedBitValue t = 0%Z)
                             then 255%Z else 0%Z
                        else 0%Z))
  | None =>
      isRegFiltered (reg t) = false
      ∧ (256 < getRegOffset (reg t) + ZydisRegisterGetWidth mode (reg t) / 8
         ∨ 256 < ZydisRegisterGetWidth mode root / 8)
  end.
Proof.
  intros root. rewrite clearOutput_eq. fold root.
  destruct (isRegFiltered (reg t)) eqn:Hf.
  - split; [done|]. split; [done|]. split; [|done].
    intros k Hk _. by apply getRegBytes_setRegValue_EFLAGS.
  - case_decide as Hdef; [|split; [done|lia]].
    assert (∀ c r bytes, codeAddress (setRegBytes c r bytes) = codeAddress c
                         ∧ executionStatus (setRegBytes c r bytes)
                           = executionStatus c) as Hkeep.
    { intros c r bytes. unfold setRegBytes. by destruct (isFlagsReg r). }
    split; [apply Hkeep|]. split; [apply Hkeep|]. split.
    + intros k Hk [?|Hne]; [done|].
      rewrite getRegBytes_setRegValue_EFLAGS by done.
      unfold getRegBytes, setRegBytes. rewrite Hk.
      destruct (isFlagsReg root); cbn [regFile]; [done|].
      by rewrite fn_lookup_insert_ne.
    + intros _ (Hroot & Hbytes & Hfit & Hbuf). fold root in Hroot, Hfit, Hbuf.
      rewrite getRegBytes_setRegValue_EFLAGS, getRegBytes_setRegBytes by done.
      set (regSize := ZydisRegisterGetWidth mode (reg t) / 8) in *.
      set (bigRegSize := ZydisRegisterGetWidth mode root / 8) in *.
      assert (∀ v j, j < bigRegSize →
                take bigRegSize
                  (foldl (λ regBuf i, <[i + getRegOffset (reg t) := v]> regBuf)
                         (replicate 256 0%Z) (seq 0 regSize)) !! j
                = Some (if decide (getRegOffset (reg t) ≤ j
                                   < getRegOffset (reg t) + regSize)
                        then v else 0%Z)) as Hfill.
      { intros v j Hj. rewrite lookup_take_lt by done.
        rewrite fill_lookup by (rewrite length_replicate; lia).
        case_decide; [done|]. apply lookup_replicate_2. lia. }
      destruct (decide (expectedBitValue t = 0%Z)) as [Hz|Hnz].
      * split; [|intros j Hj; by rewrite Hfill].
        rewrite length_take, fill_length, length_replicate. lia.
      * split; [|intros j Hj; rewrite Hfill by done; by case_decide].
        rewrite length_take, fill_length, length_replicate. lia.
Qed.

End ClearOutputFacts.

(** ** The bytes of the staged registers *)

Section StagedBytes.
Context `{ZydisRegisterInfo} {env : Collaborators}.

Lemma getRegOffset_remapReg (c : ZydisRegister) : getRegOffset (remapReg c) = 0.
Proof. by destruct c. Qed.

(** The registers of [getRegsRead] are promoted registers with distinct
    roots. *)
Lemma getRegsRead_roots (instr : ZydisDisassembledInstruction)
    (regs : list ZydisRegister) :
  let mode := machine_mode instr in
  (∀ c, getRootReg mode (remapReg c) = getRootReg mode c) →
  getRegsRead instr = Some regs →
  NoDup regs
  ∧ (∀ r, r ∈ regs → getRegOffset r = 0)
  ∧ (∀ r1 r2, r1 ∈ regs → r2 ∈ regs →
              getRootReg mode r1 = getRootReg mode r2 → r1 = r2).
Proof.
  intros mode Hroot Hsort. unfold getRegsRead in Hsort.
  apply sortRegs_Some in Hsort as [Hperm _].
  destruct (regsReadSet_spec instr) as [Hs Hm].
  destruct (regsReadMap_inv instr) as (Hkeys & Hval & _).
  fold mode in Hval.
  assert (∀ k r, (k, r) ∈ regsReadMap instr → getRootReg mode r = k) as Hkey.
  { intros k r Hin. destruct (Hval _ _ Hin) as (c & _ & -> & <-). apply Hroot. }
  split; [|split].
  - rewrite Hperm. by apply flat_set_NoDup.
  - intros r Hr. rewrite Hperm in Hr. apply Hm in Hr as (k & Hin).
    destruct (Hval _ _ Hin) as (c & _ & -> & _). apply getRegOffset_remapReg.
  - intros r1 r2 Hr1 Hr2 Heq. rewrite Hperm in Hr1, Hr2.
    apply Hm in Hr1 as (k1 & Hin1). apply Hm in Hr2 as (k2 & Hin2).
    pose proof (Hkey _ _ Hin1) as Hk1. pose proof (Hkey _ _ Hin2) as Hk2.
    apply flat_map_elem_of_find in Hin1; [|done].
    apply flat_map_elem_of_find in Hin2; [|done]. congruence.
Qed.

(** "Cleanse the registers." fills the root of every read register, which
    is at most as wide as the 32 bytes of the fill. *)
Lemma cleanseRegs_root (instr : ZydisDisassembledInstruction)
    (regsRead : list ZydisRegister) (ctx ctx0 : ScopedContext)
    (r : ZydisRegister) :
  let root := getRootReg (machine_mode instr) r in
  r ∈ regsRead → isRegFiltered root = false →
  cleanseRegs instr regsRead ctx = Some ctx0 →
  ZydisRegisterGetWidth (machine_mode instr) root / 8 ≤ 32
  ∧ regFile ctx0 root
    = replicate (ZydisRegisterGetWidth (machine_mode instr) root / 8) 204%Z.
Proof.
  intros root Hr Hf Hclean. unfold cleanseRegs in Hclean.
  apply cleanse_fold in Hclean as (_ & _ & Hin). apply Hin; [|done].
  apply regsReadBig_spec. by exists r.
Qed.

(** X19.  The bytes a staged register runs on.  When [advanceInputs]
    returns, the root of a register it staged holds the current bytes of
    the generator of that register on the bytes of the register, which
    start at byte 0 of the root ([getRegsRead] returns AX, BX, CX and DX
    for the high bytes), and 0xCC on the other bytes, as far as the 32
    bytes of the fill reach.  The generator of the register is the one at
    the position of the register among the staged ones. *)
Theorem advanceInputs_staged_bytes (ctx ctx' : ScopedContext)
    (prng prng' : Prng) (inputGens inputGens' : list InputGenerator)
    (instr : ZydisDisassembledInstruction)
    (regs1 regs2 : list ZydisRegister) (r : ZydisRegister)
    (testEntry testEntry' : TestCaseEntry) (iteration : Z)
    (inputGen : InputGenerator) :
  let mode := machine_mode instr in
  let root := getRootReg mode r in
  let regSize := ZydisRegisterGetWidth mode r / 8 in
  (∀ c, getRootReg mode (remapReg c) = getRootReg mode c) →
  rootsFit mode →
  getRegsRead instr = Some (regs1 ++ r :: regs2) →
  isRegFiltered r = false →
  isRegFiltered root = false →
  inputGens !! length (filter (λ r', isRegFiltered r' = false) regs1)
  = Some inputGen →
  regSize ≤ length (current inputGen) →
  advanceInputs ctx prng inputGens instr testEntry iteration
  = Some (ctx', prng', inputGens', testEntry') →
  ∀ j, j < ZydisRegisterGetWidth mode root / 8 →
       getRegBytes ctx' root !! j
       = if decide (j < regSize) then current inputGen !! j
         else if decide (j < 32) then Some 204%Z else Some 0%Z.
Proof.
  intros mode root regSize Hremap [Hfits _] Hregs Hf Hfroot Hgen Hdata Hadv j Hj.
  destruct (getRegsRead_roots instr _ Hremap Hregs) as (Hnodup & Hoff & Hdistinct).
  fold mode in Hdistinct.
  assert (r ∈ regs1 ++ r :: regs2) as Hr.
  { apply elem_of_app. right. left. }
  pose proof (Hoff r Hr) as Hoff0.
  destruct (Hfits r Hf) as (Hflags & _ & Hfit & Hbuf).
  fold mode root regSize in Hflags, Hfit, Hbuf. rewrite Hoff0 in Hfit.
  apply NoDup_app in Hnodup as (_ & Hnot1 & Hnodup2).
  apply NoDup_cons in Hnodup2 as [Hnot2 _].
  assert (∀ r', r' ∈ regs1 → isRegFiltered r' = false →
                getRootReg mode r' ≠ root) as Hother1.
  { intros r' Hr' _ Heq. apply (Hnot1 r' Hr').
    rewrite (Hdistinct r' r); [left| |done|done].
    apply elem_of_app. by left. }
  assert (∀ r', r' ∈ regs2 → isRegFiltered r' = false →
                getRootReg mode r' ≠ root) as Hother2.
  { intros r' Hr' _ Heq. apply Hnot2.
    rewrite <- (Hdistinct r' r); [done| |done|done].
    apply elem_of_app. right. by right. }
  apply advanceInputs_Some in Hadv
    as (regs & ctx0 & c3 & e3 & n3 & prng1 & rollovers
        & Hregs' & Hclean & Hstage & _ & Hflagsw).
  assert (regs = regs1 ++ r :: regs2) as -> by congruence.
  apply (cleanseRegs_root instr _ ctx ctx0 r Hr Hfroot) in Hclean
    as [Hwide Hclean].
  fold mode root in Hwide, Hclean.
  rewrite foldlM_app in Hstage.
  destruct (foldlM (stageInput instr inputGens) _ regs1)
    as [[[c1 e1] n1]|] eqn:Hstage1; [|done].
  cbn [mbind option_bind foldlM] in Hstage.
  pose proof (stageInput_regIndex _ _ _ _ _ _ _ _ _ Hstage1) as Hidx.
  rewrite Nat.add_0_l in Hidx. subst n1.
  apply stageInput_fold in Hstage1 as [_ Hstage1].
  2:{ intros r' Hr' Hf'. by destruct (Hfits r' Hf') as (? & _). }
  destruct (Hstage1 root) as [_ Hkeep1].
  destruct (Hkeep1 Hother1) as [Hfile1 _]. clear Hstage1 Hkeep1.
  destruct (stageInput instr inputGens _ r) as [st2|] eqn:Hstep; [|done].
  cbn [mbind option_bind] in Hstage.
  apply stageInput_Some in Hstep. rewrite Hf in Hstep. cbv zeta in Hstep.
  fold mode root regSize in Hstep.
  destruct Hstep as (g & buf & Hg & _ & _ & _ & _ & Hbuf' & ->).
  assert (g = inputGen) as -> by congruence.
  rewrite Hoff0 in Hbuf'.
  assert (getRegBytes c1 root
          = replicate (ZydisRegisterGetWidth mode root / 8) 204%Z) as Hcur.
  { unfold getRegBytes. rewrite Hflags. by rewrite Hfile1, Hclean. }
  rewrite Hcur in Hbuf'.
  apply stageInput_fold in Hstage as [_ Hstage2].
  2:{ intros r' Hr' Hf'. by destruct (Hfits r' Hf') as (? & _). }
  destruct (Hstage2 root) as [_ Hkeep2].
  destruct (Hkeep2 Hother2) as [Hfile3 _]. clear Hstage2 Hkeep2.
  assert (regFile c3 root = buf) as Hroot.
  { rewrite Hfile3. unfold setRegBytes. rewrite Hflags. cbn [regFile].
    apply fn_lookup_insert. }
  assert (getRegBytes ctx' root = buf) as ->.
  { assert (∃ flags, ctx' = setRegValue c3 ZYDIS_REGISTER_EFLAGS flags)
      as [flags ->].
    { destruct Hflagsw as [(_ & _ & _ & ->)|(_ & _ & _ & ->)]; by eexists. }
    rewrite getRegBytes_setRegValue_EFLAGS by done.
    unfold getRegBytes. by rewrite Hflags. }
  subst buf.
  rewrite lookup_take_lt by done.
  destruct (decide (j < regSize)) as [Hin|Hout].
  - rewrite list_lookup_inserts.
    + rewrite Nat.sub_0_r. by apply lookup_take_lt.
    + rewrite length_take. lia.
    + rewrite length_inserts, length_replicate. lia.
  - rewrite list_lookup_inserts_ge by (rewrite length_take; lia).
    rewrite decide_True by lia.
    rewrite list_lookup_inserts.
    + apply lookup_replicate_2. lia.
    + rewrite length_replicate. lia.
    + rewrite length_replicate. lia.
Qed.

End StagedBytes.

(** ** The entries as records of trials *)

Section SearchRecords.
Context `{ZydisRegisterInfo} {env : Collaborators}.

(** The entry of a target that was hit is the record of a trial. *)
Lemma searchTarget_hit mode instr ctx prng t st :
  (∀ regsRead r,
     getRegsRead instr = Some regsRead → r ∈ regsRead →
     isRegFiltered r = false →
     isFlagsReg (getRootReg (machine_mode instr) r) = false) →
  searchTarget mode instr ctx prng t = SearchExit st →
  st_hasExpected st = true →
  ∃ ctxIn ctxOut,
    execute ctxIn = Some ctxOut
    ∧ trialRecord mode instr t ctxIn ctxOut (st_testEntry st).
Proof.
  intros Hroots Hrun Hhit. unfold searchTarget in Hrun.
  destruct (setupInputGenerators prng instr) as [[gens prng1]|]; [|done].
  apply (searchLoop_hit_trial
           (λ e, pristine e
                 ∧ (getFlagsRead instr = 0%Z → inputFlags e = None))) in Hrun
    as (ctx0 & ctxClear & prng0 & gens0 & e0 & it & ctxIn & prng2 & gens2
        & eIn & [Hp Hnone] & _ & Hadv & Hexec & Hclass);
    [|clear Hrun..|done].
  - exists ctxIn, (st_ctx st). split; [done|].
    assert (recordsInputs instr ctxIn eIn) as (Hregs & Hflags & Heflags).
    { pose proof (advanceInputs_flags _ _ _ _ _ _ _ _ _ _ Hadv) as [Hsome Hzero].
      split; [|split].
      - intros regsRead r Hread Hr Hf.
        by apply (advanceInputs_regs _ _ _ _ _ _ _ _ _ _ _ Hread
                    (λ r, Hroots _ r Hread) Hadv).
      - split.
        + intros Hin Hz. rewrite (Hnone Hz) in Hin. by destruct Hin.
        + intros Hnz. destruct (Hsome Hnz) as (flags & -> & _). by eexists.
      - destruct (decide (getFlagsRead instr = 0%Z)) as [Hz|Hnz].
        + rewrite (Hnone Hz). by apply Hzero.
        + by destruct (Hsome Hnz) as (flags & -> & ->). }
    destruct Hp as (Hor & Hof & Hexc).
    apply classify_hit in Hclass as [(Hstatus & Htarget & Hcheck)|[Hstatus ->]].
    + destruct (getRegsModified instr) as [regsModified|] eqn:Hmod.
      2:{ unfold checkOutputs in Hcheck. rewrite Hmod in Hcheck.
          by case_decide. }
      apply (checkOutputs_hit _ _ _ _ _ _ _ Hmod) in Hcheck
        as (Hbit & Hin & Hfl & Hex & Hfind & Hflags').
      split.
      * unfold recordsInputs. rewrite Hin, Hfl. done.
      * left. split; [done|]. split; [done|]. split; [congruence|].
        split; [done|]. split.
        -- intros regs k Hregs'.
           assert (regs = regsModified) as -> by congruence.
           rewrite Hfind, Hor. done.
        -- by rewrite Hflags', Hof.
    + split; [done|]. right. by repeat split.
  - intros c p g e n c' p' g' e' [Hp Hnone] Hadv.
    pose proof (advanceInputs_outputs _ _ _ _ _ _ _ _ _ _ Hadv) as (Hr & Hf & He).
    pose proof (advanceInputs_flags _ _ _ _ _ _ _ _ _ _ Hadv) as [_ Hzero].
    split.
    + destruct Hp as (? & ? & ?). repeat split; congruence.
    + intros Hz. destruct (Hzero Hz) as [-> _]. auto.
  - split; [done|]. done.
  - done.
Qed.

(** X14.  Every entry of a group is the record of one trial.  The
    entries [testInstruction] adds are those of the targets of the matrix
    that were hit, at most one for a target, in the order of the matrix.
    The entry of a target is the record of an execution of the
    instruction for that target: it holds the inputs the instruction ran
    on (the bytes of the roots of the staged registers, and the flags when
    the instruction tests one); if the execution succeeded, the bit of the
    target read as expected afterwards and the entry holds the outputs
    (the bytes of the roots of the modified registers, and the flags
    without IF when the instruction modifies one); if it did not, the
    entry holds the exception type of the target and no output. *)
Theorem testInstruction_trial_records (mode : ZydisMachineMode)
    (testCase group : InstrTestGroup) :
  let instr := ZydisDisassembleIntel mode (instrData testCase) in
  (∀ regsRead r,
     getRegsRead instr = Some regsRead → r ∈ regsRead →
     isRegFiltered r = false →
     isFlagsReg (getRootReg (machine_mode instr) r) = false) →
  testInstruction mode testCase = Some group →
  ∃ matrix hits new,
    generateTestMatrix instr = Some matrix
    ∧ sublist hits matrix
    ∧ entries group = entries testCase ++ new
    ∧ Forall2 (λ t e, ∃ ctxIn ctxOut,
                        execute ctxIn = Some ctxOut
                        ∧ trialRecord mode instr t ctxIn ctxOut e)
              hits new.
Proof.
  intros instr Hroots Hrun. unfold testInstruction in Hrun. fold instr in Hrun.
  destruct (getRegsRead instr) as [regsRead|] eqn:Hread; [|done].
  rewrite <- Hread in Hroots.
  cbv beta iota delta [mbind option_bind] in Hrun.
  destruct (generateTestMatrix instr) as [matrix|]; [|done].
  exists matrix.
  destruct (ScopedContext_new mode (instrData testCase)) as [ctx|].
  - apply (searchTargets_hits
             (λ t e, ∃ ctxIn ctxOut,
                       execute ctxIn = Some ctxOut
                       ∧ trialRecord mode instr t ctxIn ctxOut e)) in Hrun
      as (hits & new & Hsub & Hnew & Hall).
    + by exists hits, new.
    + intros t c p st Htarget Hhit _.
      exact (searchTarget_hit _ _ _ _ _ _ Hroots Htarget Hhit).
  - simplify_eq. exists [], []. rewrite app_nil_r.
    split; [done|]. split; [apply sublist_nil_l|done].
Qed.

End SearchRecords.

(** ** The run of the search *)

Section SearchRuns.
Context `{ZydisRegisterInfo} {env : Collaborators}.

Lemma generateTestMatrix_regs instr matrix :
  generateTestMatrix instr = Some matrix →
  is_Some (getRegsRead instr) ∧ is_Some (getRegsModified instr).
Proof.
  unfold generateTestMatrix. intros Hm.
  destruct (getRegsRead instr); [|done].
  cbv beta iota delta [mbind option_bind] in Hm.
  destruct (getRegsModified instr); [|done]. by split.
Qed.

(** The register of a target of the matrix is a register the instruction
    modifies, unless the target is a flag or an exception. *)
Lemma elem_of_testMatrix_reg instr matrix regsModified t :
  generateTestMatrix instr = Some matrix →
  getRegsModified instr = Some regsModified →
  t ∈ matrix →
  isRegFiltered (reg t) = true ∨ reg t ∈ regsModified.
Proof.
  intros Hm Hmod Ht.
  apply generateTestMatrix_Some in Hm as (regs & Hregs & _ & ->).
  assert (regs = regsModified) as -> by congruence.
  rewrite testMatrixOf_eq in Ht.
  apply elem_of_app in Ht as [Ht|Ht]; [|apply elem_of_app in Ht as [Ht|Ht]].
  - right. apply list_elem_of_bind in Ht as (r & Ht & Hr).
    apply list_elem_of_bind in Ht as (b & Ht & _).
    by apply elem_of_regBitTargets in Ht as [-> | ->].
  - left. apply list_elem_of_bind in Ht as (i & Ht & _).
    by apply elem_of_flagBitTargets in Ht as [-> | ->].
  - left. by apply list_elem_of_fmap in Ht as (e & -> & _).
Qed.

Lemma classify_is_Some mode instr t ctx e hit ill :
  is_Some (getRegsModified instr) →
  is_Some (classify mode instr t ctx e hit ill).
Proof.
  intros [regsModified Hregs]. unfold classify.
  repeat case_decide; try by eexists.
  unfold checkOutputs. rewrite Hregs.
  cbv beta iota delta [mbind option_bind]. case_decide; by eexists.
Qed.

(** [clearOutput] stays inside [regBuf] for a register that fits. *)
Lemma clearOutput_is_Some mode ctx t :
  (isRegFiltered (reg t) = false → writtenRegisterFits mode (reg t)) →
  is_Some (clearOutput mode ctx t).
Proof.
  intros Hfit. rewrite clearOutput_eq.
  destruct (isRegFiltered (reg t)); [by eexists|].
  rewrite decide_True by (by apply Hfit). by eexists.
Qed.

(** The cleansing stays inside [ccBytes] for roots of at most 32 bytes. *)
Lemma cleanse_is_Some (instr : ZydisDisassembledInstruction)
    (l : list ZydisRegister) (c : ScopedContext) :
  (∀ k, k ∈ l → isRegFiltered k = false →
        ZydisRegisterGetWidth (machine_mode instr) k / 8 ≤ 32) →
  is_Some
    (foldlM (λ ctx reg,
               if isRegFiltered reg then Some ctx
               else
                 bytes ← span ccBytes
                           (ZydisRegisterGetWidth (machine_mode instr) reg / 8);
                 Some (setRegBytes ctx reg bytes))
            c l).
Proof.
  revert c. induction l as [|k l IH]; intros c Hfit; [by eexists|].
  cbn [foldlM]. destruct (isRegFiltered k) eqn:Hf.
  - cbn [mbind option_bind]. apply IH. intros k' Hk'. apply Hfit. by right.
  - destruct (span ccBytes (ZydisRegisterGetWidth (machine_mode instr) k / 8))
      as [bytes|] eqn:Hspan.
    + cbn [mbind option_bind]. apply IH. intros k' Hk'. apply Hfit. by right.
    + exfalso. unfold span in Hspan. rewrite decide_True in Hspan; [done|].
      unfold ccBytes. rewrite length_replicate. apply Hfit; [left|done].
Qed.

Lemma memcpy_fits (dst : list Z) (offset : nat) (src : list Z) (n : nat) :
  n ≤ length src → offset + n ≤ length dst →
  memcpy dst offset src n = Some (list_inserts offset (take n src) dst).
Proof. intros ??. unfold memcpy. by rewrite decide_True. Qed.

Lemma span_fits (buf : list Z) (n : nat) :
  n ≤ length buf → span buf n = Some (take n buf).
Proof. intros ?. unfold span. by rewrite decide_True. Qed.

(** One register is staged inside [regBuf] when it fits and its generator
    holds its bytes. *)
Lemma stageInput_fits instr inputGens c e n r g :
  let mode := machine_mode instr in
  let root := getRootReg mode r in
  isRegFiltered r = false →
  inputGens !! n = Some g →
  length (getRegBytes c root) ≤ 256 →
  ZydisRegisterGetWidth mode r / 8 ≤ length (current g) →
  getRegOffset r + ZydisRegisterGetWidth mode r / 8 ≤ 256 →
  ZydisRegisterGetWidth mode root / 8 ≤ 256 →
  ∃ bytes,
    length bytes = ZydisRegisterGetWidth mode root / 8
    ∧ stageInput instr inputGens (c, e, n) r
      = Some (setRegBytes c root bytes, set_inputReg root bytes e, S n).
Proof.
  intros mode root Hf Hg Hcur Hdata Hoff Hroot.
  unfold stageInput. rewrite Hf. cbv zeta. fold mode root.
  rewrite (memcpy_fits (replicate 256 0%Z) 0 (getRegBytes c root) _)
    by (rewrite ?length_replicate; lia).
  cbn [mbind option_bind]. rewrite Hg. cbn [mbind option_bind].
  rewrite (memcpy_fits _ (getRegOffset r) (current g) _)
    by (rewrite ?length_inserts, ?length_replicate; lia).
  cbn [mbind option_bind].
  rewrite span_fits by (rewrite !length_inserts, length_replicate; lia).
  cbn [mbind option_bind]. eexists. split; [|done].
  rewrite length_take, !length_inserts, length_replicate. lia.
Qed.

(** The staging loop stays inside its buffers. *)
Lemma stageInputs_is_Some instr inputGens regs c e n :
  let mode := machine_mode instr in
  (∀ r, r ∈ regs → isRegFiltered r = false →
        isRegFiltered (getRootReg mode r) = false
        ∧ ZydisRegisterGetWidth mode (getRootReg mode r) / 8 ≤ 32
        ∧ getRegOffset r + ZydisRegisterGetWidth mode r / 8 ≤ 256
        ∧ length (regFile c (getRootReg mode r)) ≤ 256) →
  Forall2 (λ r m, ZydisRegisterGetWidth mode r / 8 ≤ m)
          (filter (λ r, isRegFiltered r = false) regs)
          ((λ g, length (current g)) <$> drop n inputGens) →
  is_Some (foldlM (stageInput instr inputGens) (c, e, n) regs).
Proof.
  intros mode. revert c e n.
  induction regs as [|r regs IH]; intros c e n Hfit Hgens; [by eexists|].
  cbn [foldlM]. destruct (isRegFiltered r) eqn:Hf.
  - assert (stageInput instr inputGens (c, e, n) r = Some (c, e, n)) as ->
      by (unfold stageInput; by rewrite Hf).
    cbn [mbind option_bind]. apply IH.
    + intros r' Hr'. apply Hfit. by right.
    + by rewrite filter_cons_False in Hgens by congruence.
  - rewrite filter_cons_True in Hgens by done.
    apply Forall2_cons_inv_l in Hgens as (m & ms & Hm & Hms & Hdrop).
    apply fmap_cons_inv in Hdrop as (g & rest & -> & -> & Hdrop).
    assert (inputGens !! n = Some g) as Hg.
    { rewrite <- (Nat.add_0_r n), <- lookup_drop. by rewrite Hdrop. }
    rewrite (drop_S _ _ _ Hg) in Hdrop.
    assert (rest = drop (S n) inputGens) as -> by congruence.
    destruct (Hfit r) as (Hroot & Hwide & Hoff & Hlen); [left|done|].
    assert (isFlagsReg (getRootReg mode r) = false) as Hfr.
    { destruct (isFlagsReg (getRootReg mode r)) eqn:Hfr; [|done].
      apply isFlagsReg_filtered in Hfr. congruence. }
    destruct (stageInput_fits instr inputGens c e n r g Hf Hg)
      as (bytes & Hbytes & ->); fold mode; try done; try lia.
    { unfold getRegBytes. by rewrite Hfr. }
    cbn [mbind option_bind]. apply IH; [|done].
    intros r' Hr' Hf'.
    destruct (Hfit r') as (Hroot' & Hwide' & Hoff' & Hlen'); [by right|done|].
    do 3 (split; [done|]).
    unfold setRegBytes. rewrite Hfr. cbn [regFile].
    destruct (decide (getRootReg mode r' = getRootReg mode r)) as [->|Hne].
    + rewrite fn_lookup_insert. cbv zeta in Hbytes. subst mode. lia.
    + by rewrite fn_lookup_insert_ne.
Qed.

(** Advancing the generators keeps the number of bytes each holds. *)
Lemma advanceGenerators_current iteration count inputIdx inputGens prng
    inputGens' prng' rollovers :
  (∀ g p, length (current (advance g p).1.2) = length (current g)) →
  advanceGenerators iteration count inputIdx inputGens prng
  = (inputGens', prng', rollovers) →
  (λ g, length (current g)) <$> inputGens'
  = (λ g, length (current g)) <$> inputGens.
Proof.
  intros Hkeep. revert inputIdx inputGens prng inputGens' prng' rollovers.
  induction count as [|count IH];
    intros inputIdx inputGens prng inputGens' prng' rollovers Hrun.
  - cbn [advanceGenerators] in Hrun. congruence.
  - cbn [advanceGenerators] in Hrun.
    destruct (inputGens !! inputIdx) as [g|] eqn:Hg; [|congruence].
    pose proof (Hkeep g prng) as Hlen.
    destruct (advance g prng) as [[rolled g1] prng1]. cbn [fst snd] in Hlen.
    assert ((λ g, length (current g)) <$> <[inputIdx := g1]> inputGens
            = (λ g, length (current g)) <$> inputGens) as Hsame.
    { rewrite list_fmap_insert. apply list_insert_id.
      rewrite list_lookup_fmap, Hg. cbn. by rewrite Hlen. }
    destruct (rolled && _).
    + assert (inputGens' = <[inputIdx := g1]> inputGens) as -> by congruence.
      done.
    + destruct (advanceGenerators iteration count (S inputIdx) _ prng1)
        as [[gens2 prng2] rollovers2] eqn:Hrec.
      assert (inputGens' = gens2) as -> by congruence.
      apply IH in Hrec. by rewrite Hrec.
Qed.

(** [setupInputGenerators] makes generators that hold the bytes of their
    registers. *)
Lemma addInputGenerator_cover instr regs gens0 prng gens prng' :
  (∀ w p, w / 8 ≤ length (current (InputGenerator_new w p).1)) →
  foldl (addInputGenerator instr) (gens0, prng) regs = (gens, prng') →
  ∃ new,
    gens = gens0 ++ new
    ∧ Forall2 (λ r m, ZydisRegisterGetWidth (machine_mode instr) r / 8 ≤ m)
              (filter (λ r, isRegFiltered r = false) regs)
              ((λ g, length (current g)) <$> new).
Proof.
  intros Hnew. revert gens0 prng.
  induction regs as [|r regs IH]; intros gens0 prng Hrun.
  - cbn [foldl] in Hrun. exists []. rewrite app_nil_r.
    split; [congruence|constructor].
  - cbn [foldl] in Hrun.
    destruct (addInputGenerator instr (gens0, prng) r) as [gens1 prng1]
      eqn:Hstep.
    apply IH in Hrun as (new & -> & Hall).
    unfold addInputGenerator in Hstep.
    destruct (isRegFiltered r) eqn:Hf.
    + assert (gens1 = gens0) as -> by congruence.
      exists new. split; [done|]. by rewrite filter_cons_False by congruence.
    + pose proof (Hnew (ZydisRegisterGetWidth (machine_mode instr) r) prng)
        as Hlen.
      destruct (InputGenerator_new _ prng) as [g prng2].
      cbn [fst] in Hlen.
      assert (gens1 = gens0 ++ [g]) as -> by congruence.
      exists (g :: new). rewrite <- app_assoc. split; [done|].
      rewrite filter_cons_True by done. rewrite fmap_cons.
      by constructor.
Qed.

(** A round of [advanceInputs] stays inside its buffers, and leaves
    generators that hold the bytes of their registers. *)
Lemma advanceInputs_fits ctx prng inputGens instr e iteration regsRead :
  generatorsHoldWidth →
  getRegsRead instr = Some regsRead →
  (∀ r, r ∈ regsRead → readRegisterFits instr r) →
  generatorsCover instr regsRead inputGens →
  ∃ ctx' prng' inputGens' e',
    advanceInputs ctx prng inputGens instr e iteration
    = Some (ctx', prng', inputGens', e')
    ∧ generatorsCover instr regsRead inputGens'.
Proof.
  intros [_ Hkeep] Hregs Hfit Hcover. unfold advanceInputs. rewrite Hregs.
  cbn [mbind option_bind].
  destruct (cleanseRegs instr regsRead ctx) as [ctx0|] eqn:Hclean.
  2:{ exfalso. unfold cleanseRegs in Hclean.
      match type of Hclean with
      | foldlM ?f ?c ?l = None =>
          destruct (cleanse_is_Some instr l c) as [c' Hc'];
            [|cbv zeta in Hclean; congruence]
      end.
      intros k (r & Hr & ->)%regsReadBig_spec Hf.
      by apply (Hfit r Hr). }
  cbn [mbind option_bind].
  unfold cleanseRegs in Hclean. apply cleanse_fold in Hclean as (_ & _ & Hin).
  destruct (stageInputs_is_Some instr inputGens regsRead ctx0 e 0)
    as [[[ctx1 e1] regIndex] Hstage].
  { intros r Hr Hf. destruct (Hfit r Hr) as [Hwide Hstaged].
    destruct (Hstaged Hf) as [Hroot Hoff].
    split; [done|]. split; [by apply Hwide|]. split; [done|].
    destruct (Hin (getRootReg (machine_mode instr) r)) as [Hle ->];
      [apply regsReadBig_spec; by exists r|done|].
    rewrite length_replicate. lia. }
  { by rewrite drop_0. }
  rewrite Hstage. cbn [mbind option_bind].
  destruct (advanceGenerators iteration regIndex 0 inputGens prng)
    as [[gens1 prng1] rollovers] eqn:Hrun.
  assert (generatorsCover instr regsRead gens1) as Hcover1.
  { unfold generatorsCover.
    by rewrite (advanceGenerators_current _ _ _ _ _ _ _ _ Hkeep Hrun). }
  case_decide.
  - destruct (randomizeFlags (getFlagsRead instr) prng1) as [flags prng2].
    by eexists _, _, _, _.
  - by eexists _, _, _, _.
Qed.

(** With the registers and the generators inside the buffers the retry
    loop never runs past them. *)
Lemma searchLoop_defined fuel mode instr maxAttempts t st regsRead :
  generatorsHoldWidth →
  getRegsRead instr = Some regsRead →
  is_Some (getRegsModified instr) →
  (∀ r, r ∈ regsRead → readRegisterFits instr r) →
  (isRegFiltered (reg t) = false → writtenRegisterFits mode (reg t)) →
  generatorsCover instr regsRead (st_inputGenerators st) →
  searchLoop fuel mode instr maxAttempts t st ≠ SearchUndefined.
Proof.
  intros Hgen Hread Hmod Hfit Htarget. revert st.
  induction fuel as [|fuel IH]; intros st Hcover.
  - cbn [searchLoop]. by destruct (negb _ && negb _).
  - cbn [searchLoop]. destruct (negb _ && negb _); [|done].
    destruct (clearOutput_is_Some mode (st_ctx st) t Htarget) as [ctxc ->].
    cbn [mbind option_bind].
    destruct (advanceInputs_fits ctxc (st_prng st) (st_inputGenerators st)
                instr (st_testEntry st) (st_iteration st) regsRead
                Hgen Hread Hfit Hcover)
      as (ctx1 & prng1 & gens1 & e1 & -> & Hcover1).
    destruct (execute ctx1) as [ctx2|]; [|done].
    destruct (classify_is_Some mode instr t ctx2 e1 (st_hasExpected st)
                (st_illegalInstr st) Hmod) as [[[e2 hit2] ill2] ->].
    case_decide; [done|]. by apply IH.
Qed.

(** A target that no execution witnesses: the context always reports
    success and the target is an exception.  The loop then makes
    [maxAttempts + 1] rounds. *)
Lemma searchLoop_exhausts fuel mode instr maxAttempts t st regsRead :
  (∀ ctx, ∃ ctx', execute ctx = Some ctx'
                  ∧ getExecutionStatus ctx' = Success) →
  generatorsHoldWidth →
  getRegsRead instr = Some regsRead →
  (∀ r, r ∈ regsRead → readRegisterFits instr r) →
  (isRegFiltered (reg t) = false → writtenRegisterFits mode (reg t)) →
  exceptionType t ≠ ExceptionType_None →
  generatorsCover instr regsRead (st_inputGenerators st) →
  st_hasExpected st = false → st_illegalInstr st = false →
  (st_iteration st ≤ maxAttempts)%Z →
  (maxAttempts + 1 - st_iteration st ≤ Z.of_nat fuel)%Z →
  ∃ st', searchLoop fuel mode instr maxAttempts t st = SearchExit st'
         ∧ st_iteration st' = (maxAttempts + 1)%Z
         ∧ st_hasExpected st' = false.
Proof.
  intros Hexec Hgen Hread Hfit Htarget Hexc. revert st.
  induction fuel as [|fuel IH]; intros st Hcover Hhit Hill Hit Hfuel; [lia|].
  cbn [searchLoop]. rewrite Hhit, Hill. cbn [negb andb].
  destruct (clearOutput_is_Some mode (st_ctx st) t Htarget) as [ctxc ->].
  cbn [mbind option_bind].
  destruct (advanceInputs_fits ctxc (st_prng st) (st_inputGenerators st)
              instr (st_testEntry st) (st_iteration st) regsRead
              Hgen Hread Hfit Hcover)
    as (ctx1 & prng1 & gens1 & e1 & -> & Hcover1).
  destruct (Hexec ctx1) as (ctx2 & -> & Hstatus).
  unfold classify. rewrite Hstatus.
  rewrite decide_False by (by intros ?).
  rewrite decide_False by done.
  case_decide as Hmax.
  - eexists. split; [done|]. cbn [st_iteration st_hasExpected].
    split; [lia|done].
  - apply IH; cbn [st_iteration st_hasExpected st_illegalInstr
                   st_inputGenerators]; (done || lia).
Qed.

Lemma searchTarget_defined mode instr ctx prng t regsRead :
  generatorsHoldWidth →
  getRegsRead instr = Some regsRead →
  is_Some (getRegsModified instr) →
  (∀ r, r ∈ regsRead → readRegisterFits instr r) →
  (isRegFiltered (reg t) = false → writtenRegisterFits mode (reg t)) →
  searchTarget mode instr ctx prng t ≠ SearchUndefined
  ∧ searchTarget mode instr ctx prng t ≠ SearchOutOfFuel.
Proof.
  intros Hgen Hread Hmod Hfit Htarget.
  split; [|apply searchTarget_terminates].
  unfold searchTarget, setupInputGenerators. rewrite Hread.
  cbv beta iota delta [mbind option_bind].
  destruct (foldl (addInputGenerator instr) _ regsRead) as [gens prng1]
    eqn:Hsetup.
  apply (searchLoop_defined _ _ _ _ _ _ regsRead); try done.
  cbn [st_inputGenerators].
  apply addInputGenerator_cover in Hsetup as (new & -> & Hall);
    [done|apply Hgen].
Qed.

Lemma searchTargets_defined mode instr testMatrix ctx prng testCase regsRead :
  generatorsHoldWidth →
  getRegsRead instr = Some regsRead →
  is_Some (getRegsModified instr) →
  (∀ r, r ∈ regsRead → readRegisterFits instr r) →
  (∀ t, t ∈ testMatrix → isRegFiltered (reg t) = false →
        writtenRegisterFits mode (reg t)) →
  is_Some (searchTargets mode instr testMatrix ctx prng testCase).
Proof.
  intros Hgen Hread Hmod Hfit. revert ctx prng testCase.
  induction testMatrix as [|t testMatrix IH];
    intros ctx prng testCase Htargets.
  - by eexists.
  - cbn [searchTargets].
    destruct (searchTarget_defined mode instr ctx prng t regsRead
                Hgen Hread Hmod Hfit) as [Hundef Hfuel].
    { apply Htargets. left. }
    destruct (searchTarget mode instr ctx prng t) as [| | |st];
      [done|done|by eexists|].
    destruct (st_illegalInstr st); [by eexists|]. apply IH.
    intros t' Ht'. apply Htargets. by right.
Qed.

Lemma testInstruction_is_Some mode testCase matrix regsRead regsModified :
  let instr := ZydisDisassembleIntel mode (instrData testCase) in
  generateTestMatrix instr = Some matrix →
  getRegsRead instr = Some regsRead →
  getRegsModified instr = Some regsModified →
  generatorsHoldWidth →
  (∀ r, r ∈ regsRead → readRegisterFits instr r) →
  (∀ r, r ∈ regsModified → writtenRegisterFits mode r) →
  ∃ group, testInstruction mode testCase = Some group
           ∧ instrData group = instrData testCase.
Proof.
  intros instr Hm Hread Hmod Hgen Hfit Hwritten.
  destruct (testInstruction mode testCase) as [group|] eqn:Hrun.
  - exists group. split; [done|]. by apply testInstruction_instrData in Hrun.
  - exfalso. unfold testInstruction in Hrun. fold instr in Hrun.
    rewrite Hm, Hread in Hrun.
    cbv beta iota delta [mbind option_bind] in Hrun.
    destruct (ScopedContext_new mode (instrData testCase)) as [ctx|]; [|done].
    match type of Hrun with
    | searchTargets ?m ?i ?mx ?c ?p ?tc = None =>
        destruct (searchTargets_defined m i mx c p tc regsRead) as [g Hg];
          [done|done|by eexists|done| |congruence]
    end.
    intros t Ht Hf.
    destruct (elem_of_testMatrix_reg _ _ _ _ Hm Hmod Ht) as [?|Hin];
      [congruence|by apply Hwritten].
Qed.

(** X15.  The generator runs to its end when its buffers are large enough.
    Let [generateTestMatrix] return a matrix for the decoded instruction
    (the register sets stay within five registers and no shift or
    remainder is undefined); let the input generators hold at least the
    bytes of the width they are made for, and keep that number when they
    advance; let the root of every read register be no wider than the 32
    bytes of [ccBytes], and be handled whenever the register is; and let
    the bytes of every read and every modified register, and the root of
    every modified register, lie inside the 256 bytes of [regBuf].  Then
    [testInstruction] and [generateInstructionTestData] return a group,
    for the bytes they were given: the retry loops end, and no round
    reads or writes past [ccBytes], [regBuf] or the list of the
    generators. *)
Theorem testInstruction_defined (mode : ZydisMachineMode)
    (testCase : InstrTestGroup) (matrix : list TestBitInfo)
    (regsRead regsModified : list ZydisRegister) :
  let instr := ZydisDisassembleIntel mode (instrData testCase) in
  generateTestMatrix instr = Some matrix →
  getRegsRead instr = Some regsRead →
  getRegsModified instr = Some regsModified →
  generatorsHoldWidth →
  (∀ r, r ∈ regsRead → readRegisterFits instr r) →
  (∀ r, r ∈ regsModified → writtenRegisterFits mode r) →
  (∃ group, testInstruction mode testCase = Some group
            ∧ instrData group = instrData testCase)
  ∧ (∃ group, generateInstructionTestData mode (instrData testCase)
              = Some group
              ∧ instrData group = instrData testCase).
Proof.
  intros instr Hm Hread Hmod Hgen Hfit Hwritten.
  split; [by eapply testInstruction_is_Some|].
  destruct (testInstruction_is_Some mode (newTestCase (instrData testCase))
              matrix regsRead regsModified Hm Hread Hmod Hgen Hfit Hwritten)
    as (group & Hrun & Hdata).
  unfold generateInstructionTestData. rewrite Hrun.
  cbv beta iota zeta delta [mbind option_bind]. by eexists.
Qed.

(** The rounds of the retry loop. *)
Lemma searchLoop_rounds fuel mode instr maxAttempts t st st' :
  (st_iteration st ≤ maxAttempts)%Z →
  searchLoop fuel mode instr maxAttempts t st = SearchExit st' →
  (st_iteration st ≤ st_iteration st' ≤ maxAttempts + 1)%Z
  ∧ (st_hasExpected st = false → st_illegalInstr st = false →
     (st_iteration st < st_iteration st')%Z)
  ∧ (st_hasExpected st' = false → st_illegalInstr st' = false →
     st_iteration st' = (maxAttempts + 1)%Z).
Proof.
  revert st. induction fuel as [|fuel IH]; intros st Hit Hrun.
  - cbn [searchLoop] in Hrun.
    destruct (st_hasExpected st) eqn:Hhit, (st_illegalInstr st) eqn:Hill;
      cbn [negb andb] in Hrun; simplify_eq;
      (split; [lia|]; split; [done|]; congruence).
  - cbn [searchLoop] in Hrun.
    destruct (st_hasExpected st) eqn:Hhit, (st_illegalInstr st) eqn:Hill;
      cbn [negb andb] in Hrun;
      try (simplify_eq; split; [lia|]; split; [done|]; congruence).
    destruct (clearOutput mode (st_ctx st) t) as [ctxc|]; [|done].
    cbn [mbind option_bind] in Hrun.
    destruct (advanceInputs _ _ _ _ _ _) as [[[[ctx1 prng1] gens1] e1]|];
      [|done].
    destruct (execute ctx1) as [ctx2|]; [|done].
    destruct (classify _ _ _ _ _ _ _) as [[[e2 hit2] ill2]|]; [|done].
    case_decide as Hmax.
    + simplify_eq. cbn [st_iteration st_hasExpected st_illegalInstr].
      split; [lia|]. split; [intros; lia|]. intros; lia.
    + apply IH in Hrun; cbn [st_iteration] in *; [|lia].
      destruct Hrun as (Hle & _ & Hmiss). split; [lia|].
      split; [intros; lia|done].
Qed.

(** X16.  The retry loop of a target always ends.  It makes at least one
    trial and at most [maxAttempts + 1], where [maxAttempts] is 100000, or
    33333 when an operand is an immediate; and a target that is given up,
    with no hit and no illegal instruction, has had exactly
    [maxAttempts + 1] trials. *)
Theorem searchTarget_rounds (mode : ZydisMachineMode)
    (instr : ZydisDisassembledInstruction) (ctx : ScopedContext)
    (prng : Prng) (t : TestBitInfo) :
  searchTarget mode instr ctx prng t ≠ SearchOutOfFuel
  ∧ (maxAttemptsOf instr = 100000%Z ∨ maxAttemptsOf instr = 33333%Z)
  ∧ ∀ st, searchTarget mode instr ctx prng t = SearchExit st →
          (1 ≤ st_iteration st ≤ maxAttemptsOf instr + 1)%Z
          ∧ (st_hasExpected st = false → st_illegalInstr st = false →
             st_iteration st = (maxAttemptsOf instr + 1)%Z).
Proof.
  split; [apply searchTarget_terminates|].
  assert (maxAttemptsOf instr = 100000%Z ∨ maxAttemptsOf instr = 33333%Z)
    as Hmax.
  { unfold maxAttemptsOf, kAbortTestCaseThreshold.
    destruct (isInputFromImmediate instr); [by right|by left]. }
  split; [done|]. intros st Hrun. unfold searchTarget in Hrun.
  destruct (setupInputGenerators prng instr) as [[gens prng1]|]; [|done].
  apply searchLoop_rounds in Hrun; cbn [st_iteration st_hasExpected
    st_illegalInstr] in *; [|lia].
  destruct Hrun as (Hle & Hlt & Hmiss). split; [|done].
  specialize (Hlt eq_refl eq_refl). lia.
Qed.

(** A classification raises [illegalInstr] on the status
    IllegalInstruction only. *)
Lemma classify_illegal mode instr t ctx e hit ill e' hit' ill' :
  classify mode instr t ctx e hit ill = Some (e', hit', ill') →
  ill' = true →
  ill = true ∨ getExecutionStatus ctx = IllegalInstruction.
Proof.
  unfold classify. case_decide as Hstatus.
  - destruct (getExecutionStatus ctx) eqn:Hs;
      case_decide; intros [= _ _ <-]; auto.
  - case_decide; [|by intros [= _ _ <-]; auto].
    destruct (checkOutputs mode ctx instr t e) as [[hit1 e1]|]; [|done].
    cbv beta iota delta [mbind option_bind]. intros [= _ _ <-]. auto.
Qed.

Lemma searchLoop_legal fuel mode instr maxAttempts t st st' :
  (∀ ctx ctx', execute ctx = Some ctx' →
               getExecutionStatus ctx' ≠ IllegalInstruction) →
  st_illegalInstr st = false →
  searchLoop fuel mode instr maxAttempts t st = SearchExit st' →
  st_illegalInstr st' = false.
Proof.
  intros Hlegal. revert st. induction fuel as [|fuel IH]; intros st Hill Hrun.
  - cbn [searchLoop] in Hrun. destruct (negb _ && negb _); [done|].
    by simplify_eq.
  - cbn [searchLoop] in Hrun. destruct (negb _ && negb _); [|by simplify_eq].
    destruct (clearOutput mode (st_ctx st) t) as [ctxc|]; [|done].
    cbn [mbind option_bind] in Hrun.
    destruct (advanceInputs _ _ _ _ _ _) as [[[[ctx1 prng1] gens1] e1]|];
      [|done].
    destruct (execute ctx1) as [ctx2|] eqn:Hexec; [|done].
    destruct (classify _ _ _ _ _ _ _) as [[[e2 hit2] ill2]|] eqn:Hclass;
      [|done].
    assert (ill2 = false) as ->.
    { destruct ill2; [|done].
      destruct (classify_illegal _ _ _ _ _ _ _ _ _ _ Hclass eq_refl)
        as [?|Hstatus]; [congruence|].
      by apply Hlegal in Hexec. }
    case_decide; [by simplify_eq|]. by apply IH in Hrun.
Qed.

Lemma searchTargets_legal mode instr testMatrix ctx prng testCase group :
  (∀ ctx ctx', execute ctx = Some ctx' →
               getExecutionStatus ctx' ≠ IllegalInstruction) →
  searchTargets mode instr testMatrix ctx prng testCase = Some group →
  illegalInstruction group = illegalInstruction testCase.
Proof.
  intros Hlegal. revert ctx prng testCase.
  induction testMatrix as [|t testMatrix IH]; intros ctx prng testCase Hrun.
  - cbn [searchTargets] in Hrun. by simplify_eq.
  - cbn [searchTargets] in Hrun.
    destruct (searchTarget mode instr ctx prng t) as [| | |st] eqn:Htarget;
      [done|done|by simplify_eq|].
    assert (st_illegalInstr st = false) as Hill.
    { unfold searchTarget in Htarget.
      destruct (setupInputGenerators prng instr) as [[gens prng1]|]; [|done].
      by apply searchLoop_legal in Htarget. }
    rewrite Hill in Hrun. apply IH in Hrun. rewrite Hrun.
    by destruct (st_hasExpected st).
Qed.

(** X20.  The group is marked as an illegal instruction only on that
    status: if no execution ends with the status IllegalInstruction, the
    mark of the group [testInstruction] returns is the mark it was given,
    whatever other statuses the executions end with. *)
Theorem testInstruction_illegalInstruction (mode : ZydisMachineMode)
    (testCase group : InstrTestGroup) :
  (∀ ctx ctx', execute ctx = Some ctx' →
               getExecutionStatus ctx' ≠ IllegalInstruction) →
  testInstruction mode testCase = Some group →
  illegalInstruction group = illegalInstruction testCase.
Proof.
  intros Hlegal Hrun. unfold testInstruction in Hrun.
  destruct (getRegsRead _); [|done].
  cbv beta iota delta [mbind option_bind] in Hrun.
  destruct (generateTestMatrix _) as [testMatrix|]; [|done].
  destruct (ScopedContext_new mode (instrData testCase)) as [ctx|];
    [|by simplify_eq].
  by apply searchTargets_legal in Hrun.
Qed.

End SearchRuns.
(** ** The budget of the retry loop on the sample instructions *)

(** The input generators of the toy collaborators hold the bytes of their
    width. *)
Lemma toy_generatorsHoldWidth execute :
  generatorsHoldWidth (env := toyCollaborators execute).
Proof.
  split.
  - intros width prng. cbn. by rewrite length_replicate.
  - done.
Qed.

(** C6, evaluated: when every execution succeeds, the overflow
    target of [DIV CL] is never witnessed, and its retry loop makes 100001
    rounds; the loop of bit 1 of EAX, expected 1, for [BTR EAX, 5], whose
    input never has that bit, makes 33334. *)
Theorem searchTarget_budget_overrun :
  (∃ st, searchTarget (env := quietEnv) ZYDIS_MACHINE_MODE_LONG_64 div_cl ctx0
                      0%Z (exceptionTarget ExceptionType_IntegerOverflow)
         = SearchExit st
         ∧ st_iteration st = 100001%Z ∧ st_hasExpected st = false)
  ∧ match searchTarget (env := quietEnv) ZYDIS_MACHINE_MODE_LONG_64 btr_eax_5
                       ctx0 0%Z (regTarget ZYDIS_REGISTER_EAX 1 1) with
    | SearchExit st => st_iteration st = 33334%Z ∧ st_hasExpected st = false
    | _ => False
    end.
Proof.
  split.
  - unfold searchTarget.
    destruct (getRegsRead div_cl) as [regsRead|] eqn:Hread;
      [|vm_compute in Hread; discriminate Hread].
    destruct (setupInputGenerators (env := quietEnv) 0%Z div_cl)
      as [[gens prng]|] eqn:Hsetup; [|vm_compute in Hsetup; discriminate Hsetup].
    assert (maxAttemptsOf div_cl = 100000%Z) as -> by reflexivity.
    change 100001%Z with (100000 + 1)%Z.
    apply (searchLoop_exhausts (env := quietEnv) _ _ _ 100000%Z _ _ regsRead);
      try done.
    + intros ctx. eexists. split; reflexivity.
    + apply toy_generatorsHoldWidth.
    + vm_compute in Hread. apply (inj Some) in Hread as <-.
      intros r Hr. repeat (apply elem_of_cons in Hr as [->|Hr]);
        [..|by apply elem_of_nil in Hr];
        (split; [intros _; vm_compute; lia|]);
        (intros Hf; split; [try discriminate Hf; reflexivity|]);
        try discriminate Hf; vm_compute; lia.
    + cbn [st_inputGenerators]. unfold setupInputGenerators in Hsetup.
      rewrite Hread in Hsetup. cbn [mbind option_bind] in Hsetup.
      apply (inj Some) in Hsetup.
      apply (addInputGenerator_cover (env := quietEnv)) in Hsetup
        as (new & -> & Hall); [done|].
      apply toy_generatorsHoldWidth.
  - by vm_compute.
Qed.

(** ** The further properties on the sample instructions *)

(** In the decoder's table the root of a register the generator handles
    is no flags register. *)
Lemma zydis_root_not_flags (mode : ZydisMachineMode) (r : ZydisRegister) :
  isRegFiltered r = false → isFlagsReg (getRootReg mode r) = false.
Proof. by destruct mode, r. Qed.

Lemma zydis_rootsFit : rootsFit ZYDIS_MACHINE_MODE_LONG_64.
Proof. split; [apply zydis_subRegisterFits|done]. Qed.

(** X4, witness: the group of [ADD RAX, RBX] on the toy processor. *)
Lemma generateInstructionTestData_entries_witness :
  match generateInstructionTestData (env := toyEnv) ZYDIS_MACHINE_MODE_LONG_64
                                    [72; 1; 216]%Z with
  | Some group =>
      ∃ testCase,
        testInstruction (env := toyEnv) ZYDIS_MACHINE_MODE_LONG_64
                        (newTestCase [72; 1; 216]%Z) = Some testCase
        ∧ address group = address testCase
        ∧ instrData group = [72; 1; 216]%Z
        ∧ illegalInstruction group = illegalInstruction testCase
        ∧ ascending (entries group)
        ∧ NoDup (entries group)
        ∧ ∀ e, e ∈ entries group ↔ e ∈ entries testCase
  | None => False
  end.
Proof.
  destruct (generateInstructionTestData (env := toyEnv)
              ZYDIS_MACHINE_MODE_LONG_64 [72; 1; 216]%Z) as [group|] eqn:Hrun.
  - exact (generateInstructionTestData_entries (env := toyEnv)
             ZYDIS_MACHINE_MODE_LONG_64 _ group Hrun).
  - vm_compute in Hrun. discriminate Hrun.
Defined.

(** X5, witness: sorting the entries of [ADD RAX, RBX] from their reverse
    order leaves the same entries. *)
Lemma generateInstructionTestData_sort_determined_witness :
  match generateInstructionTestData (env := toyEnv) ZYDIS_MACHINE_MODE_LONG_64
                                    [72; 1; 216]%Z,
        testInstruction (env := toyEnv) ZYDIS_MACHINE_MODE_LONG_64
                        (newTestCase [72; 1; 216]%Z) with
  | Some group, Some testCase =>
      unique (merge_sort TestCaseEntry_le (reverse (entries testCase)))
      = entries group
  | _, _ => False
  end.
Proof.
  destruct (generateInstructionTestData (env := toyEnv)
              ZYDIS_MACHINE_MODE_LONG_64 [72; 1; 216]%Z) as [group|] eqn:Hrun.
  - destruct (testInstruction (env := toyEnv) ZYDIS_MACHINE_MODE_LONG_64
                (newTestCase [72; 1; 216]%Z)) as [testCase|] eqn:Htest.
    + apply (generateInstructionTestData_sort_determined (env := toyEnv)
               ZYDIS_MACHINE_MODE_LONG_64 _ group testCase _ Hrun Htest).
      * by rewrite merge_sort_Permutation, reverse_Permutation.
      * apply Sorted_merge_sort. apply _.
    + vm_compute in Htest. discriminate Htest.
  - vm_compute in Hrun. discriminate Hrun.
Defined.

(** X6, witness: the matrix of [ADD RAX, RBX]. *)
Lemma generateTestMatrix_targets_witness :
  let matrix := testMatrixOf add_rax_rbx [ZYDIS_REGISTER_RAX] in
  (generateTestMatrix add_rax_rbx = Some matrix
   ∧ getRegsModified add_rax_rbx = Some [ZYDIS_REGISTER_RAX])
  ∧ ∃ regPart flagPart,
      matrix = regPart ++ flagPart ++ []
      ∧ Forall (λ t, reg t ∈ [ZYDIS_REGISTER_RAX]) regPart
      ∧ Forall (λ t, reg t = ZYDIS_REGISTER_FLAGS) flagPart.
Proof.
  intros matrix.
  assert (generateTestMatrix add_rax_rbx = Some matrix) as Hm by reflexivity.
  assert (getRegsModified add_rax_rbx = Some [ZYDIS_REGISTER_RAX]) as Hregs
    by reflexivity.
  split; [done|].
  destruct (generateTestMatrix_targets add_rax_rbx matrix [ZYDIS_REGISTER_RAX]
              Hm Hregs) as (regPart & flagPart & Heq & Hreg & Hflag & _).
  exists regPart, flagPart. split; [exact Heq|]. split.
  - eapply Forall_impl; [exact Hreg|]. by intros t (_ & ? & _).
  - eapply Forall_impl; [exact Hflag|]. by intros t (_ & ? & _).
Defined.

(** X7, witness: bit 3 of EAX for [XOR EAX, EAX], whose operands are the
    same register, has the expect-0 target and not the expect-1 target. *)
Lemma generateTestMatrix_reg_targets_witness :
  let matrix := testMatrixOf xor_eax_eax [ZYDIS_REGISTER_EAX] in
  (generateTestMatrix xor_eax_eax = Some matrix
   ∧ getRegsModified xor_eax_eax = Some [ZYDIS_REGISTER_EAX]
   ∧ op_type (operand_at xor_eax_eax 1) ≠ ZYDIS_OPERAND_TYPE_IMMEDIATE
   ∧ ZYDIS_REGISTER_EAX ∈ [ZYDIS_REGISTER_EAX]
   ∧ 3 < ZydisRegisterGetWidth (machine_mode xor_eax_eax) ZYDIS_REGISTER_EAX)
  ∧ regTarget ZYDIS_REGISTER_EAX 3 0 ∈ matrix
  ∧ regTarget ZYDIS_REGISTER_EAX 3 1 ∉ matrix.
Proof.
  intros matrix.
  assert (generateTestMatrix xor_eax_eax = Some matrix) as Hm by reflexivity.
  assert (getRegsModified xor_eax_eax = Some [ZYDIS_REGISTER_EAX]) as Hregs
    by reflexivity.
  assert (op_type (operand_at xor_eax_eax 1) ≠ ZYDIS_OPERAND_TYPE_IMMEDIATE)
    as Himm by discriminate.
  assert (ZYDIS_REGISTER_EAX ∈ [ZYDIS_REGISTER_EAX]) as Hin by left.
  assert (3 < ZydisRegisterGetWidth (machine_mode xor_eax_eax) ZYDIS_REGISTER_EAX)
    as Hlt by (vm_compute; lia).
  split; [by repeat split|].
  destruct (generateTestMatrix_reg_targets xor_eax_eax matrix
              [ZYDIS_REGISTER_EAX] ZYDIS_REGISTER_EAX 3 Hm Hregs Himm Hin Hlt)
    as [Hzero Hone].
  split; [exact Hzero|]. intros Hin1. apply Hone in Hin1. apply Hin1.
  by repeat split.
Defined.

(** X8, witness: [MOV EAX, 5]: bit 0 of EAX has the expect-1 target only,
    bit 1 the expect-0 target only. *)
Lemma generateTestMatrix_imm_targets_witness :
  let matrix := testMatrixOf mov_eax_5 [ZYDIS_REGISTER_EAX] in
  (generateTestMatrix mov_eax_5 = Some matrix
   ∧ getRegsModified mov_eax_5 = Some [ZYDIS_REGISTER_EAX]
   ∧ op_type (operand_at mov_eax_5 1) = ZYDIS_OPERAND_TYPE_IMMEDIATE
   ∧ ZYDIS_REGISTER_EAX ∈ [ZYDIS_REGISTER_EAX]
   ∧ 1 < ZydisRegisterGetWidth (machine_mode mov_eax_5) ZYDIS_REGISTER_EAX)
  ∧ regTarget ZYDIS_REGISTER_EAX 1 0 ∈ matrix
  ∧ regTarget ZYDIS_REGISTER_EAX 1 1 ∉ matrix.
Proof.
  intros matrix.
  assert (generateTestMatrix mov_eax_5 = Some matrix) as Hm by reflexivity.
  assert (getRegsModified mov_eax_5 = Some [ZYDIS_REGISTER_EAX]) as Hregs
    by reflexivity.
  assert (op_type (operand_at mov_eax_5 1) = ZYDIS_OPERAND_TYPE_IMMEDIATE)
    as Himm by reflexivity.
  assert (ZYDIS_REGISTER_EAX ∈ [ZYDIS_REGISTER_EAX]) as Hin by left.
  assert (1 < ZydisRegisterGetWidth (machine_mode mov_eax_5) ZYDIS_REGISTER_EAX)
    as Hlt by (vm_compute; lia).
  split; [by repeat split|].
  destruct (generateTestMatrix_imm_targets mov_eax_5 matrix
              [ZYDIS_REGISTER_EAX] ZYDIS_REGISTER_EAX 1 Hm Hregs Himm Hin Hlt)
    as [Hmov _].
  destruct (Hmov eq_refl) as [Hzero Hone].
  split; [by apply Hzero|]. intros Hin1. by apply Hone in Hin1.
Defined.

(** X18, witness: [BTR EAX, 5] modifies CF and has no flag target. *)
Lemma generateTestMatrix_imm_flag_targets_witness :
  let matrix := testMatrixOf btr_eax_5 [ZYDIS_REGISTER_EAX] in
  (generateTestMatrix btr_eax_5 = Some matrix
   ∧ op_type (operand_at btr_eax_5 1) = ZYDIS_OPERAND_TYPE_IMMEDIATE
   ∧ 0 < 32)
  ∧ Z.testbit (flags_modified btr_eax_5) 0 = true
  ∧ filter (isFlagTargetAt 0) matrix = [].
Proof.
  intros matrix.
  assert (generateTestMatrix btr_eax_5 = Some matrix) as Hm by reflexivity.
  assert (op_type (operand_at btr_eax_5 1) = ZYDIS_OPERAND_TYPE_IMMEDIATE)
    as Himm by reflexivity.
  split; [repeat split; (done || lia)|]. split; [reflexivity|].
  exact (generateTestMatrix_imm_flag_targets btr_eax_5 matrix 0 Hm Himm
           ltac:(lia)).
Defined.

(** X9, witness: the flags written for [ADC AL, BL], which tests CF only:
    bit 2 of EFLAGS is clear. *)
Lemma advanceInputs_flags_tested_witness :
  match advanceInputs (env := toyEnv) ctx0 1%Z
                      [(false, [1%Z]); (false, [1%Z])] adc_al_bl emptyEntry 0 with
  | Some (ctx, _, _, testEntry) =>
      Z.testbit (getRegValue ctx ZYDIS_REGISTER_EFLAGS) 2 = false
  | None => False
  end.
Proof.
  destruct (advanceInputs (env := toyEnv) ctx0 1%Z
              [(false, [1%Z]); (false, [1%Z])] adc_al_bl emptyEntry 0)
    as [[[[ctx prng] gens] testEntry]|] eqn:Hadv.
  - destruct (Z.testbit (getRegValue ctx ZYDIS_REGISTER_EFLAGS) 2) eqn:Hbit;
      [|reflexivity].
    destruct (proj1 (advanceInputs_flags_tested (env := toyEnv)
                       _ _ _ _ _ _ _ _ _ _ 2 Hadv) Hbit) as [Htested _].
    discriminate Htested.
  - vm_compute in Hadv. discriminate Hadv.
Defined.

(** X10, witness: the two generators of [ADC AL, BL]; the staging loop ends
    with [regIndex] at 2. *)
Lemma advanceInputs_generators_in_range_witness :
  ∃ regsRead gens prng0,
    (getRegsRead adc_al_bl = Some regsRead
     ∧ setupInputGenerators (env := toyEnv) 0%Z adc_al_bl = Some (gens, prng0)
     ∧ length gens = length gens)
    ∧ length gens = 2
    ∧ match foldlM (stageInput (env := toyEnv) adc_al_bl gens)
                   (ctx0, emptyEntry, 0) regsRead with
      | Some (_, _, regIndex) => regIndex = length gens
      | None => False
      end.
Proof.
  eexists _, _, _.
  assert (getRegsRead adc_al_bl
          = Some [ZYDIS_REGISTER_RFLAGS; ZYDIS_REGISTER_AL; ZYDIS_REGISTER_BL])
    as Hregs by reflexivity.
  assert (setupInputGenerators (env := toyEnv) 0%Z adc_al_bl
          = Some ([(false, [1%Z]); (false, [1%Z])], 0%Z)) as Hsetup
    by reflexivity.
  split; [split; [exact Hregs|split; [exact Hsetup|reflexivity]]|].
  split; [reflexivity|].
  destruct (foldlM (stageInput (env := toyEnv) adc_al_bl
                      [(false, [1%Z]); (false, [1%Z])])
                   (ctx0, emptyEntry, 0)
                   [ZYDIS_REGISTER_RFLAGS; ZYDIS_REGISTER_AL; ZYDIS_REGISTER_BL])
    as [[[ctx1 e1] regIndex]|] eqn:Hstage.
  - exact (proj1 (proj2 (advanceInputs_generators_in_range (env := toyEnv)
                           0%Z 0%Z adc_al_bl _ _ _ Hregs Hsetup eq_refl))
             _ _ _ _ _ Hstage).
  - vm_compute in Hstage. discriminate Hstage.
Defined.

(** X11, witness: after [advanceInputs] for [ADC AL, BL] the entry holds
    under RAX the bytes the context holds in RAX. *)
Lemma advanceInputs_inputs_witness :
  match advanceInputs (env := toyEnv) ctx0 1%Z
                      [(false, [1%Z]); (false, [1%Z])] adc_al_bl emptyEntry 0 with
  | Some (ctx, _, _, testEntry) =>
      flat_map_find ZYDIS_REGISTER_RAX (inputRegs testEntry)
      = Some (getRegBytes ctx ZYDIS_REGISTER_RAX)
  | None => False
  end.
Proof.
  destruct (advanceInputs (env := toyEnv) ctx0 1%Z
              [(false, [1%Z]); (false, [1%Z])] adc_al_bl emptyEntry 0)
    as [[[[ctx prng] gens] testEntry]|] eqn:Hadv.
  - assert (getRegsRead adc_al_bl
            = Some [ZYDIS_REGISTER_RFLAGS; ZYDIS_REGISTER_AL; ZYDIS_REGISTER_BL])
      as Hregs by reflexivity.
    destruct (advanceInputs_inputs (env := toyEnv) _ _ _ _ _ _ _ _ _ _ _ Hregs
                (λ r _, zydis_root_not_flags _ r) Hadv) as [Hstaged _].
    apply (Hstaged ZYDIS_REGISTER_AL); [|reflexivity].
    apply (list_elem_of_lookup_2 _ 1). reflexivity.
  - vm_compute in Hadv. discriminate Hadv.
Defined.

(** X12, witness: [checkOutputs] for bit 3 of RAX, expected 1, of
    [ADD RAX, RBX] on a context whose RAX holds 0xFF bytes. *)
Lemma checkOutputs_spec_witness :
  getRegsModified add_rax_rbx = Some [ZYDIS_REGISTER_RAX]
  ∧ ∃ hit e',
      checkOutputs ZYDIS_MACHINE_MODE_LONG_64 ctx_rax_ones add_rax_rbx
                   (regTarget ZYDIS_REGISTER_RAX 3 1) emptyEntry
      = Some (hit, e')
      ∧ (hit = true
         ↔ observedBit ZYDIS_MACHINE_MODE_LONG_64 ctx_rax_ones
                       (regTarget ZYDIS_REGISTER_RAX 3 1) = 1%Z).
Proof.
  assert (getRegsModified add_rax_rbx = Some [ZYDIS_REGISTER_RAX]) as Hregs
    by reflexivity.
  split; [exact Hregs|].
  destruct (checkOutputs_spec ZYDIS_MACHINE_MODE_LONG_64 ctx_rax_ones
              add_rax_rbx (regTarget ZYDIS_REGISTER_RAX 3 1) emptyEntry _ Hregs)
    as (hit & e' & Hrun & Hhit & _).
  by exists hit, e'.
Defined.

(** X13, witness: the entry of that hit holds 1 at bit 3 of RAX. *)
Lemma checkOutputs_records_target_witness :
  match checkOutputs ZYDIS_MACHINE_MODE_LONG_64 ctx_rax_ones add_rax_rbx
                     (regTarget ZYDIS_REGISTER_RAX 3 1) emptyEntry with
  | Some (true, e') =>
      recordedBit ZYDIS_MACHINE_MODE_LONG_64 e' (regTarget ZYDIS_REGISTER_RAX 3 1)
      = Some 1%Z
  | _ => False
  end.
Proof.
  destruct (checkOutputs ZYDIS_MACHINE_MODE_LONG_64 ctx_rax_ones add_rax_rbx
              (regTarget ZYDIS_REGISTER_RAX 3 1) emptyEntry)
    as [[[|] e']|] eqn:Hcheck.
  - assert (getRegsModified add_rax_rbx = Some [ZYDIS_REGISTER_RAX]) as Hregs
      by reflexivity.
    apply (proj1 (checkOutputs_records_target ZYDIS_MACHINE_MODE_LONG_64
                    ctx_rax_ones add_rax_rbx (regTarget ZYDIS_REGISTER_RAX 3 1)
                    emptyEntry e' _ eq_refl zydis_rootsFit Hregs Hcheck)).
    + left.
    + vm_compute. lia.
  - vm_compute in Hcheck. discriminate Hcheck.
  - vm_compute in Hcheck. discriminate Hcheck.
Defined.

(** X14, witness: the group of [ADD RAX, RBX] on the toy processor. *)
Lemma testInstruction_trial_records_witness :
  match testInstruction (env := toyEnv) ZYDIS_MACHINE_MODE_LONG_64
                        (newTestCase [72; 1; 216]%Z) with
  | Some group =>
      ∃ matrix hits new,
        generateTestMatrix add_rax_rbx = Some matrix
        ∧ sublist hits matrix
        ∧ entries group = new
        ∧ Forall2 (λ t e, ∃ ctxIn ctxOut,
                            toy_execute ctxIn = Some ctxOut
                            ∧ trialRecord ZYDIS_MACHINE_MODE_LONG_64
                                          add_rax_rbx t ctxIn ctxOut e)
                  hits new
  | None => False
  end.
Proof.
  destruct (testInstruction (env := toyEnv) ZYDIS_MACHINE_MODE_LONG_64
                            (newTestCase [72; 1; 216]%Z)) as [group|] eqn:Hrun.
  - exact (testInstruction_trial_records (env := toyEnv)
             ZYDIS_MACHINE_MODE_LONG_64 _ group
             (λ _ r _ _, zydis_root_not_flags _ r) Hrun).
  - vm_compute in Hrun. discriminate Hrun.
Defined.

(** X15, witness: the generator runs to its end for [ADC AL, BL], which
    reads AL and BL inside RAX and RBX. *)
Lemma testInstruction_defined_witness :
  (generateTestMatrix adc_al_bl
   = Some (testMatrixOf adc_al_bl [ZYDIS_REGISTER_AL])
   ∧ getRegsRead adc_al_bl
     = Some [ZYDIS_REGISTER_RFLAGS; ZYDIS_REGISTER_AL; ZYDIS_REGISTER_BL]
   ∧ getRegsModified adc_al_bl = Some [ZYDIS_REGISTER_AL]
   ∧ generatorsHoldWidth (env := toyEnv)
   ∧ (∀ r, r ∈ [ZYDIS_REGISTER_RFLAGS; ZYDIS_REGISTER_AL; ZYDIS_REGISTER_BL] →
           readRegisterFits adc_al_bl r)
   ∧ (∀ r, r ∈ [ZYDIS_REGISTER_AL] →
           writtenRegisterFits ZYDIS_MACHINE_MODE_LONG_64 r))
  ∧ is_Some (testInstruction (env := toyEnv) ZYDIS_MACHINE_MODE_LONG_64
                             (newTestCase [16; 216]%Z))
  ∧ is_Some (generateInstructionTestData (env := toyEnv)
               ZYDIS_MACHINE_MODE_LONG_64 [16; 216]%Z).
Proof.
  assert (generateTestMatrix adc_al_bl
          = Some (testMatrixOf adc_al_bl [ZYDIS_REGISTER_AL])) as Hm
    by reflexivity.
  assert (getRegsRead adc_al_bl
          = Some [ZYDIS_REGISTER_RFLAGS; ZYDIS_REGISTER_AL; ZYDIS_REGISTER_BL])
    as Hread by reflexivity.
  assert (getRegsModified adc_al_bl = Some [ZYDIS_REGISTER_AL]) as Hmod
    by reflexivity.
  pose proof (toy_generatorsHoldWidth toy_execute) as Hgen.
  assert (∀ r, r ∈ [ZYDIS_REGISTER_RFLAGS; ZYDIS_REGISTER_AL; ZYDIS_REGISTER_BL] →
               readRegisterFits adc_al_bl r) as Hfit.
  { intros r Hr. repeat (apply elem_of_cons in Hr as [->|Hr]);
      [..|by apply elem_of_nil in Hr];
      (split; [intros _; vm_compute; lia|]);
      (intros Hf; split; [try discriminate Hf; reflexivity|]);
      try discriminate Hf; vm_compute; lia. }
  assert (∀ r, r ∈ [ZYDIS_REGISTER_AL] →
               writtenRegisterFits ZYDIS_MACHINE_MODE_LONG_64 r) as Hwritten.
  { intros r ->%list_elem_of_singleton. split; vm_compute; lia. }
  split;
    [exact (conj Hm (conj Hread (conj Hmod (conj Hgen (conj Hfit Hwritten)))))|].
  destruct (testInstruction_defined (env := toyEnv) ZYDIS_MACHINE_MODE_LONG_64
              (newTestCase [16; 216]%Z) _ _ _ Hm Hread Hmod Hgen Hfit Hwritten)
    as [(g1 & Hg1 & _) (g2 & Hg2 & _)].
  split; by eexists.
Defined.

(** The hypothesis of X15 on the roots is needed: ZMM1 is its own root, of
    64 bytes, and the cleansing for an instruction that reads ZMM1 takes a
    span of 64 bytes from the 32 bytes of [ccBytes]. *)
Lemma cleanseRegs_past_ccBytes :
  ¬ readRegisterFits vpxord_zmm0_zmm1_zmm2 ZYDIS_REGISTER_ZMM1
  ∧ ∀ (env : Collaborators) ctx prng inputGens testEntry iteration,
      advanceInputs ctx prng inputGens vpxord_zmm0_zmm1_zmm2 testEntry iteration
      = None.
Proof.
  split.
  - intros [Hwide _]. specialize (Hwide eq_refl). vm_compute in Hwide. lia.
  - intros env ctx prng inputGens testEntry iteration. unfold advanceInputs.
    assert (getRegsRead vpxord_zmm0_zmm1_zmm2
            = Some [ZYDIS_REGISTER_ZMM2; ZYDIS_REGISTER_ZMM0;
                    ZYDIS_REGISTER_ZMM1]) as -> by reflexivity.
    cbn [mbind option_bind].
    by assert (cleanseRegs vpxord_zmm0_zmm1_zmm2
                 [ZYDIS_REGISTER_ZMM2; ZYDIS_REGISTER_ZMM0; ZYDIS_REGISTER_ZMM1]
                 ctx = None) as -> by reflexivity.
Qed.

(** X19, witness: after [advanceInputs] for [ADC AL, BL], byte 0 of RAX is
    the byte of the generator of AL and byte 1 is 0xCC. *)
Lemma advanceInputs_staged_bytes_witness :
  match advanceInputs (env := toyEnv) ctx0 1%Z
                      [(false, [1%Z]); (false, [1%Z])] adc_al_bl emptyEntry 0 with
  | Some (ctx, _, _, _) =>
      getRegBytes ctx ZYDIS_REGISTER_RAX !! 0 = Some 1%Z
      ∧ getRegBytes ctx ZYDIS_REGISTER_RAX !! 1 = Some 204%Z
  | None => False
  end.
Proof.
  destruct (advanceInputs (env := toyEnv) ctx0 1%Z
              [(false, [1%Z]); (false, [1%Z])] adc_al_bl emptyEntry 0)
    as [[[[ctx prng] gens] testEntry]|] eqn:Hadv.
  - assert (getRegsRead adc_al_bl
            = Some ([ZYDIS_REGISTER_RFLAGS]
                    ++ ZYDIS_REGISTER_AL :: [ZYDIS_REGISTER_BL]))
      as Hregs by reflexivity.
    assert (ZydisRegisterGetWidth (machine_mode adc_al_bl) ZYDIS_REGISTER_AL / 8
            ≤ length (current (Collaborators := toyEnv) (false, [1%Z])))
      as Hdata by (vm_compute; lia).
    assert (isRegFiltered ZYDIS_REGISTER_AL = false) as Hf by reflexivity.
    assert (isRegFiltered
              (getRootReg (machine_mode adc_al_bl) ZYDIS_REGISTER_AL) = false)
      as Hfroot by reflexivity.
    assert ([(false, [1%Z]); (false, [1%Z])]
              !! length (filter (λ r', isRegFiltered r' = false)
                                [ZYDIS_REGISTER_RFLAGS])
            = Some (false, [1%Z])) as Hgen by reflexivity.
    pose proof (advanceInputs_staged_bytes (env := toyEnv) _ _ _ _ _ _
                  adc_al_bl _ _ ZYDIS_REGISTER_AL _ _ _ (false, [1%Z])
                  (zydis_remapReg_root _) zydis_rootsFit Hregs Hf Hfroot
                  Hgen Hdata Hadv) as Hbytes.
    split.
    + apply (Hbytes 0). vm_compute. lia.
    + apply (Hbytes 1). vm_compute. lia.
  - vm_compute in Hadv. discriminate Hadv.
Defined.

(** The toy processor never reports an illegal instruction. *)
Lemma toy_execute_legal (ctx ctx' : ScopedContext) :
  toy_execute ctx = Some ctx' →
  getExecutionStatus ctx' ≠ IllegalInstruction.
Proof.
  unfold toy_execute. intros [= <-]. by repeat case_decide.
Qed.

(** X20, witness: the group of [ADD RAX, RBX] on the toy processor is not
    marked. *)
Lemma testInstruction_illegalInstruction_witness :
  match testInstruction (env := toyEnv) ZYDIS_MACHINE_MODE_LONG_64
                        (newTestCase [72; 1; 216]%Z) with
  | Some group => illegalInstruction group = false
  | None => False
  end.
Proof.
  destruct (testInstruction (env := toyEnv) ZYDIS_MACHINE_MODE_LONG_64
                            (newTestCase [72; 1; 216]%Z)) as [group|] eqn:Hrun.
  - exact (testInstruction_illegalInstruction (env := toyEnv)
             ZYDIS_MACHINE_MODE_LONG_64 _ group toy_execute_legal Hrun).
  - vm_compute in Hrun. discriminate Hrun.
Defined.
